(* ===== verification/_CoqProject ===== *)
-Q . S2P
Prelude.v
Unicode.v
GoStrings.v
GoNum.v
GoFloat.v
GoFmt.v
GoNet.v
GoHash.v
Regex.v
Identifiers.v
SqlValidator.v
SqlParser.v
Config.v
ConfigFile.v
Access.v
Labels.v
Retry.v
Sql.v
Client.v
Connection.v
Sessions.v
Quiescence.v
Tunnel.v
QueryTools.v
Tools.v
Guard.v
LabelDriver.v
Catalog.v
SchemaTools.v
Explain.v
Http.v
RateLimit.v
Listener.v
Vector.v
Diagnostics.v
AuditLog.v
Metrics.v
QueryLog.v
ServerInfo.v
Rest.v
Main.v
ApiIndex.v
Install.v
Startup.v
Prompts.v
Resources.v
Dispatch.v
