(* ===== verification/Prelude.v ===== *)
(** * A verification library for mysql-mcp-server

    mysql-mcp-server lets a language model read a MySQL server through the Model Context
    Protocol (MCP).  A client calls tools (run_query, list_tables, explain_query, ...) over
    stdio, over Streamable HTTP with sessions, or over a REST API; the server checks every
    statement, sends it to the active connection, and answers rows.  What has to be right is
    what these files model and prove: that only reads inside the allowlist reach the MySQL
    server, that sessions do not see each other's connections, that nothing that was opened
    stays open, that results are bounded and masked, and that the listeners let in whom the
    configuration allows.

    ** Reading the model

    A Go string is a list of bytes ([gostr], below), an [int] or [time.Duration] is a [Z] with
    its wrap-around written out (GoNum), a [float64] is a binary64 number of [SpecFloat], a
    map is a [gmap], a [*T] that may be nil is an [option], a function that may fail answers a
    [result] or an [option] of an error.  Definitions keep the names of the code; a part of a
    long function that has a name of its own here is composed the way the code composes it.
    State is passed explicitly: a tool is a function on the connection manager and on the
    MySQL server's state.  The text between a Lock and its Unlock is one function; where calls
    interleave (Sessions, Quiescence), a run is any sequence of such critical sections.
    Log lines, audit entries and token estimates decide nothing in a tool and are left out of
    it; they have files of their own (AuditLog, Metrics), and QueryLog puts run_query and what
    it records together.

    ** The files, in dependency order

    - Go's library, as far as it is used: Prelude (byte strings, errors, tactics, generic
      lemmas), Unicode, GoStrings, GoNum, GoFloat (which float64 results are finite), GoFmt,
      GoNet, GoHash, Regex.  Regex has a declarative
      semantics and a backtracking matcher that agree; the regular expressions of the code are
      parsed from their source text.
    - internal/util: Identifiers (identifiers.go), SqlValidator (sql_validator.go), SqlParser
      (sql_parser.go).
    - internal/config: Config (config.go), ConfigFile (file.go, and Load).
    - cmd/mysql-mcp-server/access.go: Access.
    - labels.go, and internal/toolpack without the command: Labels; the wrapper around the
      MySQL driver: LabelDriver.
    - internal/dbretry: Retry.  database/sql: Sql.  internal/mysql: Client.
    - connection.go: Connection (the manager, with the sets of open pools and tunnels),
      Sessions (the calls of MCP sessions as a step relation: toolAddConnection and
      toolUseConnection of tools.go, the middleware and the clean-up of mcp_http.go) and
      Quiescence (what the process still owes runs out).
    - internal/sshtunnel: Tunnel.
    - tools.go: QueryTools (run_query, ping and the package variables), Tools (list_databases,
      list_tables, describe_table and the connection tools), ServerInfo (server_info).
    - guard.go and call_middleware.go: Guard.
    - tools_extended.go: Catalog (twelve listing tools), SchemaTools (search_schema,
      schema_diff), Explain (explain_query), Vector (vector_search, vector_info).
    - tools_diagnostics.go: Diagnostics; logging.go and read_audit_log: AuditLog;
      token_metrics.go, token_estimator.go and tool_wrappers.go: Metrics; the rest of
      logging.go, and run_query and the wrapped tools with all they write down: QueryLog.
    - internal/api: Http (response.go, middleware.go, and the checks of mcp_http.go),
      RateLimit (ratelimit.go); mcp_http.go and serve.go: Listener; http.go: Rest (the
      routes), ApiIndex (the index page).
    - main.go, daemon_unix.go, daemon_windows.go and the preflight of serve.go: Main (the
      command line, the choice of the server, the tools it registers), Startup (main from the
      arguments to the server, on top of ConfigFile, Connection and Listener); toolpack.go's
      install-schema: Install; prompts.go: Prompts; resources.go: Resources.
    - The whole: Dispatch puts every tool (the handler variables of tool_wrappers.go), every
      prompt and every document behind one function, and runs main and then its clients.

    ** What the theorems show

    - The whole process (Dispatch).  When main serves, then whatever its clients call, in
      whatever order and from whatever sessions, and whatever MySQL, the network and the files
      answer: every exchange with MySQL is a ping, USE of an allowed database, a text that
      passed both validators and the allowlist, a fixed statement, or a statement of a tool
      that is switched on, and the open pools are the registered ones, in the mode of the
      configuration and with the deadlines of their DSN (see below).  The per-component lemmas it applies are those of the
      groups below: each tool keeps any property of the MySQL server's state that its own
      statements keep, and keeps the manager's registrations.
    - The statements that pass.  The scanner of literals implements a grammar of quoted
      literals; an accepted text has no comment and no second statement outside of them; the
      recursive traversals of a syntax tree reject exactly the trees in which a dangerous
      function, a blocked schema or an unsupported form occurs in a position they reach, and
      the text is accepted exactly when both layers accept it.  The set of referenced schemas
      is exact, so that the allowlist check is; a LIMIT is only added where it can be read
      back.
    - The tools.  run_query and explain_query send nothing before every check passed, and then
      only the checked text, USE of a quoted name and pings; the other tools send fixed texts
      with one argument per placeholder, or SHOW on quoted names.  Results are bounded, have
      one cell per column and mask the configured columns; pagination ends and reads
      everything once; schema_diff is exact; an explained guard refusal is grounded in an
      error that the server answered; the prompts call exactly the tools they say.
    - Connections and sessions.  Every pool is opened in strict mode when that is configured, and
      with the timeouts of its DSN when they are positive, or with two seconds over the query
      timeout when it has none; a negative timeout in a DSN, or a query timeout at the end of
      the range of durations, is shown to leave a pool without a deadline.  A
      failed addition leaves no trace; in every interleaving the caps hold, a session resolves
      no connection of another, a pool is open exactly while it is registered or held by one
      call, an ended session leaves nothing once it is cleaned up, and the process gets there
      within a computed number of steps.  The handlers refine the steps.  The label wrapper
      changes nothing but the text.  A tunnel is only started to a bastion whose host key was
      checked, and drains when it is closed.
    - Configuration and start-up.  What Load accepts has connections, positive limits and a
      safe transport; the validation command agrees with it; the child of --daemon reads the
      same command line; the REST API and the MCP server expose the same tools, and the index
      page announces their methods and paths, while a path it does not announce runs no tool and
      is not found or, under /api/, gets the index (a route announced as POST takes only POST,
      one announced as GET takes any method); install-schema reports what it did and leaves nothing
      open.  main as a whole serves what Load returned, exactly when a configured
      connection opens as long as the names of the connections differ, on safe pools only, and closes everything it opened when it ends instead.
    - The listeners.  A REST request runs at most one tool, only where its feature is on; on
      the MCP listener the handler, the token metrics and the status page are each behind
      their checks; a client that does not come through a local proxy cannot choose the bucket
      it is charged to, and of one instant each client gets exactly its burst; clients that
      stall do not hold the server.
    - The records.  Over any sequence of run_query calls the audit log holds one entry for
      every statement that the validator refused and every one that was run, and reads back as
      written (the refusals of the allowlist and of paging leave none), and logging
      changes no answer and nothing that the server sees.

    ** Parameters

    Code that is not in the repository is a class or a section variable, and what is assumed
    of it is a law of its documentation, always with an instance for which it holds: the SQL
    parser ([Sqlparser]), url.Parse ([UrlParse], with the syntax it documents), the file system with the YAML and JSON
    decoders ([ConfigIO]), the DSN functions of the MySQL driver ([MySQLDriver], whose laws say
    that a DSN the server formats, if it parses, keeps a positive timeout and the read-only
    variable), its connections ([Driver], without laws), the back-off
    package ([Backoff]), the MySQL server ([SqlServer]: any answer to any statement), the
    printing of values ([GoPrint]), the JSON decoder ([JsonDecode]), the SSH library
    ([SSHLib], with the law that the host key callback is asked), the handler of the MCP SDK,
    the token encoder and the embedded scripts.  What the network answers while a connection
    is opened is an argument ([io_outcome]), and so is the clock.

    ** Bounds and fuel

    Where recursion is not structural the fuel is computed from the input and proved or
    evidently enough: a loop that consumes its text gets the length of the text, the groups of
    an IPv6 address eight rounds (each adds two bytes of sixteen), the digits of a number its
    bit length.  The retry loop runs on the back-off's own bound.  No theorem is about an
    execution cut short: searches and loops of the code that may go on forever (reading a
    body, forwarding, polling) are step relations or functions of what the other side sends,
    and their theorems say that they end.

    ** Not modelled

    - The bodies that the SDK sends: JSON-RPC framing, registration texts and schemas of tools
      and prompts (main.go registers them; Main has which ones).
    - The texts of docs/embed.go and of tokenCardHTML: Resources has the documents as
      parameters.  printHelp and other printing, and the log lines outside of run_query and the wrapped
      tools.
    - TLS, sockets and signals themselves: Listener starts from the event that serveUntil
      selects.  The contexts of requests: a deadline is seen as the error a call answers.
      In Dispatch the requests are served one after the other; the interleavings of calls that
      change connections are the subject of Sessions.
    - The tests, scripts, extensions and documents of the repository.

    ** Notes on the code

    The models follow the code where it and its comments differ; the places are listed in the
    manifest's findings (for example: ReplaceConnection's comment on what stays registered,
    the positions validateSelect does not look at, the first question mark of a DSN).  Where
    the exact behaviour needs a restriction, the theorem states it as a hypothesis. *)
From Stdlib Require Export Ascii ZArith Lia.
From stdpp Require Export base gmap sets list strings option sorting.

(** ** Byte strings

    A Go [string] is an immutable sequence of bytes.  It is modelled as a list
    of [ascii] (8 bits each), so that slicing, indexing and length are those of
    the code; a literal is written in the scope [go_scope]. *)
Abbreviation gostr := (list ascii).

Declare Scope go_scope.
Delimit Scope go_scope with go.

Module GoLiteral.
Inductive bit := B1 | B0.
Inductive byte8 := Byte8 (b0 b1 b2 b3 b4 b5 b6 b7 : bit).
Inductive bytes8 := Nil8 | Cons8 (b : byte8) (l : bytes8).

Definition of_bool (b : bool) : bit := if b then B1 else B0.
Definition to_bool (b : bit) : bool := match b with B1 => true | B0 => false end.

Definition of_byte (b : Byte.byte) : byte8 :=
  match ascii_of_byte b with
  | Ascii a0 a1 a2 a3 a4 a5 a6 a7 =>
      Byte8 (of_bool a0) (of_bool a1) (of_bool a2) (of_bool a3)
            (of_bool a4) (of_bool a5) (of_bool a6) (of_bool a7)
  end.
Definition to_byte (b : byte8) : Byte.byte :=
  match b with
  | Byte8 a0 a1 a2 a3 a4 a5 a6 a7 =>
      byte_of_ascii (Ascii (to_bool a0) (to_bool a1) (to_bool a2) (to_bool a3)
                           (to_bool a4) (to_bool a5) (to_bool a6) (to_bool a7))
  end.

Fixpoint parse (l : list Byte.byte) : bytes8 :=
  match l with [] => Nil8 | b :: l => Cons8 (of_byte b) (parse l) end.
Fixpoint print (l : bytes8) : list Byte.byte :=
  match l with Nil8 => [] | Cons8 b l => to_byte b :: print l end.

Definition target := list ascii.
End GoLiteral.

#[warnings="-via-type-remapping,-via-type-mismatch"]
String Notation GoLiteral.target GoLiteral.parse GoLiteral.print
  (via GoLiteral.bytes8
   mapping [[nil] => GoLiteral.Nil8, [cons] => GoLiteral.Cons8,
            Ascii => GoLiteral.Byte8, true => GoLiteral.B1, false => GoLiteral.B0]) : go_scope.

Open Scope Z_scope.
Open Scope nat_scope.
Open Scope go_scope.

(** The empty Go string. *)
Definition empty_str : gostr := [].

(** Byte values. *)
Definition code (c : ascii) : Z := Z.of_N (N_of_ascii c).
Definition byte (z : Z) : ascii := ascii_of_N (Z.to_N z).

(** The bytes that are awkward to write in a literal. *)
Definition ch_dquote : ascii := "034"%char.
Definition ch_backtick : ascii := "096"%char.
Definition ch_newline : ascii := "010"%char.
Definition ch_tab : ascii := "009"%char.
Definition ch_return : ascii := "013"%char.
Definition ch_backslash : ascii := "092"%char.

(** Boolean comparison of strings, and [s == ""]. *)
Definition str_eqb (s t : gostr) : bool := bool_decide (s = t).
Definition is_empty (s : gostr) : bool := match s with [] => true | _ => false end.
(** [switch s { case w1, w2, ...: true; default: false }] *)
Definition one_of (s : gostr) (ws : list gostr) : bool := existsb (str_eqb s) ws.

Infix "=?s" := str_eqb (at level 70) : go_scope.

(** ** Errors

    A Go function of result type [error] is a function to [option E]: [None] is
    [nil].  A function of result type [(A, error)] is a function to
    [result E A]. *)
Inductive result (E A : Type) : Type :=
| Ok (a : A)
| Err (e : E).
Arguments Ok {E A} a.
Arguments Err {E A} e.

Definition result_bind {E A B} (r : result E A) (k : A -> result E B) : result E B :=
  match r with Ok a => k a | Err e => Err e end.
Definition is_ok {E A} (r : result E A) : bool := match r with Ok _ => true | Err _ => false end.
Definition is_nil {E} (e : option E) : bool := match e with None => true | Some _ => false end.

(** [let? x := r in k]: [x, err := r; if err != nil { return err }; k]. *)
Notation "'let?' p ':=' r 'in' k" := (result_bind r (fun p => k))
  (at level 10, p pattern, r at level 100, k at level 200) : go_scope.
(** [e1 ;;? e2]: [if err := e1; err != nil { return err }; return e2]. *)
Notation "e1 ;;? e2" := (match e1 with Some err => Some err | None => e2 end)
  (at level 100, right associativity) : go_scope.

(** [for _, x := range l { if err := f(x); err != nil { return err } }]. *)
Section FirstErr.
Context {A E : Type} (f : A -> option E).
Fixpoint first_err (l : list A) : option E :=
  match l with
  | [] => None
  | x :: l => f x ;;? first_err l
  end.
End FirstErr.

(** ** Generic lemmas *)
Lemma str_eqb_eq (s t : gostr) : (s =?s t) = true <-> s = t.
Proof. unfold str_eqb. by rewrite bool_decide_eq_true. Qed.

Lemma str_eqb_neq (s t : gostr) : (s =?s t) = false <-> s <> t.
Proof. unfold str_eqb. by rewrite bool_decide_eq_false. Qed.

Lemma str_eqb_refl (s : gostr) : (s =?s s) = true.
Proof. by apply str_eqb_eq. Qed.

Lemma is_empty_true (s : gostr) : is_empty s = true <-> s = [].
Proof. destruct s; split; done. Qed.

Lemma is_empty_false (s : gostr) : is_empty s = false <-> s <> [].
Proof. destruct s; split; done. Qed.

Lemma one_of_elem (s : gostr) (ws : list gostr) : one_of s ws = true <-> s ∈ ws.
Proof.
  unfold one_of. rewrite existsb_exists. split.
  - intros (w & Hin & Heq). apply str_eqb_eq in Heq as ->. by apply list_elem_of_In.
  - intros Hin. exists s. split; [by apply list_elem_of_In | apply str_eqb_refl].
Qed.

Lemma first_err_None {A E} (f : A -> option E) (l : list A) :
  first_err f l = None <-> forall x, x ∈ l -> f x = None.
Proof.
  induction l as [|y l IH]; simpl; [split; [inversion 2 | done]|].
  destruct (f y) eqn:Hy; split.
  - done.
  - intros H. specialize (H y (list_elem_of_here _ _)). congruence.
  - intros H x Hx. apply elem_of_cons in Hx as [->|Hx]; [done | by apply IH].
  - intros H. apply IH. intros x Hx. apply H. by right.
Qed.

Lemma first_err_Some {A E} (f : A -> option E) (l : list A) (e : E) :
  first_err f l = Some e -> exists x, x ∈ l /\ f x = Some e.
Proof.
  induction l as [|y l IH]; simpl; [done|].
  destruct (f y) eqn:Hy.
  - intros [= ->]. exists y. split; [left | done].
  - intros H. destruct (IH H) as (x & Hx & Hf). exists x. split; [by right | done].
Qed.

(** For literals, which [injection] would reduce. *)
Lemma Ok_inj {E A} (a b : A) : @Ok E A a = Ok b -> a = b.
Proof. by intros [= ->]. Qed.
Lemma Ok_pair_inj {E A B} (a a' : A) (b b' : B) : @Ok E _ (a, b) = Ok (a', b') -> a = a' /\ b = b'.
Proof. by intros [= -> ->]. Qed.
Lemma result_bind_Ok {E A B} (r : result E A) (k : A -> result E B) (b : B) :
  result_bind r k = Ok b <-> exists a, r = Ok a /\ k a = Ok b.
Proof. destruct r; simpl; split; [eauto | by intros (? & [= ->] & ?) | done | by intros (? & ? & _)]. Qed.

Lemma seq_None {E} (e1 e2 : option E) : (e1 ;;? e2) = None <-> e1 = None /\ e2 = None.
Proof. destruct e1; split; try done; [by intros [? _] | by intros [_ ?]]. Qed.

Lemma if_None {E} (b : bool) (e : E) : (if b then Some e else None) = None <-> b = false.
Proof. by destruct b. Qed.

Lemma take_app_length' {A} (l k : list A) : take (length l) (l ++ k) = l.
Proof. by rewrite take_app_length. Qed.

(** ** Automation *)
#[global] Create HintDb go discriminated.
Create Rewrite HintDb go_bool.
#[export] Hint Resolve str_eqb_refl : go.
#[export] Hint Rewrite str_eqb_eq str_eqb_neq is_empty_true is_empty_false one_of_elem
  andb_true_iff orb_true_iff negb_true_iff andb_false_iff orb_false_iff negb_false_iff
  bool_decide_eq_true bool_decide_eq_false
  Z.ltb_lt Z.leb_le Z.eqb_eq Z.ltb_ge Z.leb_gt Z.eqb_neq
  Nat.ltb_lt Nat.leb_le Nat.eqb_eq Nat.ltb_ge Nat.leb_gt Nat.eqb_neq : go_bool.

(** Turn the boolean tests of the code in the context and the goal into propositions. *)
Ltac go_bool := autorewrite with go_bool in *.

(** Case analysis on the scrutinee of a [match] or [if] of the goal or of a hypothesis. *)
Ltac case_code :=
  match goal with
  | |- context [match ?x with _ => _ end] =>
      lazymatch x with context [match _ with _ => _ end] => fail | _ => destruct x eqn:? end
  | H : context [match ?x with _ => _ end] |- _ =>
      lazymatch x with context [match _ with _ => _ end] => fail | _ => destruct x eqn:? end
  end.

(** Run through all the branches of straight-line code. *)
Ltac go_cases := repeat (case_code; simplify_eq/=; try done).

(** Decide a closed decidable proposition by evaluation. *)
Ltac decide_true := apply (bool_decide_unpack _); vm_compute; exact I.

(** ** Measures of finite maps and of runs *)
Definition weight {A} (f : A -> nat) (m : gmap nat A) : nat := map_fold (fun _ a n => f a + n) 0 m.

(** What every step of a loop preserves, the loop does. *)
Lemma fold_left_invariant {A B} (P : A -> Prop) (f : A -> B -> A) (l : list B) (a : A) :
  P a -> (forall b a, b ∈ l -> P a -> P (f a b)) -> P (fold_left f l a).
Proof.
  revert a. induction l as [|b l IH]; intros a Ha Hf; cbn; [done|]. apply IH; [apply Hf; [left | done]|].
  intros b' a' Hb'. apply Hf. by right.
Qed.

Lemma weight_delete {A} (f : A -> nat) (m : gmap nat A) k a : m !! k = Some a -> weight f m = f a + weight f (delete k m).
Proof.
  intros Hk. unfold weight.
  refine (map_fold_delete_L (fun _ a n => f a + n) 0 k a m _ Hk). intros j1 j2 z1 z2 y _ _ _. lia.
Qed.
Lemma weight_insert {A} (f : A -> nat) (m : gmap nat A) k a b : m !! k = Some a -> weight f (<[k := b]> m) + f a = weight f m + f b.
Proof.
  intros Hk. rewrite (weight_delete f m k a Hk), (weight_delete f (<[k := b]> m) k b) by apply lookup_insert_eq.
  rewrite delete_insert_eq. lia.
Qed.

Lemma measure_bounds_runs {A} (f : A -> nat) (R : A -> A -> Prop) :
  (forall x y, R x y -> f y < f x) -> forall n x y, nsteps R n x y -> n + f y <= f x.
Proof.
  intros Hdec n x y Hrun. induction Hrun as [x|n x y z Hxy _ IH]; [lia|]. apply Hdec in Hxy. lia.
Qed.
