(* ===== verification/Unicode.v ===== *)
(** UTF-8 and the simple case mappings of Go's packages [unicode/utf8] and
    [unicode]: runes, decoding of a byte string (an invalid byte is the rune
    U+FFFD of width 1), encoding, and [unicode.ToUpper]/[unicode.ToLower]. *)
From S2P Require Import Prelude.

(** A rune is its code point. *)
Abbreviation rune := Z (only parsing).

Definition RuneError : rune := 65533%Z.

(** ** Decoding ([utf8.DecodeRune]) *)
Definition in_rangeb (lo hi : Z) (c : ascii) : bool := (lo <=? code c)%Z && (code c <=? hi)%Z.

(** The accepted range of the second byte, by the first byte of a 3- or 4-byte rune. *)
Definition second_ok (b0 b1 : ascii) : bool :=
  if (code b0 =? 224)%Z then in_rangeb 160 191 b1
  else if (code b0 =? 237)%Z then in_rangeb 128 159 b1
  else if (code b0 =? 240)%Z then in_rangeb 144 191 b1
  else if (code b0 =? 244)%Z then in_rangeb 128 143 b1
  else in_rangeb 128 191 b1.

Definition is_cont (c : ascii) : bool := in_rangeb 128 191 c.

Definition rune2 (b0 b1 : ascii) : rune := ((code b0 - 192) * 64 + (code b1 - 128))%Z.
Definition rune3 (b0 b1 b2 : ascii) : rune :=
  ((code b0 - 224) * 4096 + (code b1 - 128) * 64 + (code b2 - 128))%Z.
Definition rune4 (b0 b1 b2 b3 : ascii) : rune :=
  ((code b0 - 240) * 262144 + (code b1 - 128) * 4096 + (code b2 - 128) * 64 + (code b3 - 128))%Z.

(** The runes of [for _, r := range s]. *)
Fixpoint runes (s : gostr) : list rune :=
  match s with
  | [] => []
  | b0 :: s1 =>
      if (code b0 <? 128)%Z then code b0 :: runes s1
      else if in_rangeb 194 223 b0 then
        match s1 with
        | b1 :: s2 => if is_cont b1 then rune2 b0 b1 :: runes s2 else RuneError :: runes s1
        | [] => RuneError :: runes s1
        end
      else if in_rangeb 224 239 b0 then
        match s1 with
        | b1 :: ((b2 :: s3) as s2) =>
            if second_ok b0 b1 && is_cont b2 then rune3 b0 b1 b2 :: runes s3
            else RuneError :: runes s1
        | _ => RuneError :: runes s1
        end
      else if in_rangeb 240 244 b0 then
        match s1 with
        | b1 :: b2 :: b3 :: s4 =>
            if second_ok b0 b1 && is_cont b2 && is_cont b3 then rune4 b0 b1 b2 b3 :: runes s4
            else RuneError :: runes s1
        | _ => RuneError :: runes s1
        end
      else RuneError :: runes s1
  end.

(** ** Encoding ([utf8.AppendRune]) *)
Definition encode_rune (r : rune) : gostr :=
  (if (0 <=? r) && (r <? 128) then [byte r]
   else if (128 <=? r) && (r <? 2048) then [byte (192 + r / 64); byte (128 + r mod 64)]
   else if (r <? 0) || (1114111 <? r) || ((55296 <=? r) && (r <=? 57343)) then
     [byte 239; byte 191; byte 189]
   else if r <? 65536 then
     [byte (224 + r / 4096); byte (128 + r / 64 mod 64); byte (128 + r mod 64)]
   else [byte (240 + r / 262144); byte (128 + r / 4096 mod 64);
         byte (128 + r / 64 mod 64); byte (128 + r mod 64)])%Z.

(** ** Case mappings

    Each entry [(lo, hi, stride, delta)] maps the runes [lo, lo + stride, ..., hi]
    to themselves plus [delta]; runes of no entry are mapped to themselves. *)
Definition upper_ranges : list (Z * Z * Z * Z) := [
    (181,181,1,743); (224,246,1,-32); (248,254,1,-32); (255,255,1,121); (257,303,2,-1);
    (305,305,1,-232); (307,311,2,-1); (314,328,2,-1); (331,375,2,-1); (378,382,2,-1);
    (383,383,1,-300); (384,384,1,195); (387,389,2,-1); (392,392,1,-1); (396,396,1,-1);
    (402,402,1,-1); (405,405,1,97); (409,409,1,-1); (410,410,1,163); (414,414,1,130);
    (417,421,2,-1); (424,424,1,-1); (429,429,1,-1); (432,432,1,-1); (436,438,2,-1);
    (441,441,1,-1); (445,445,1,-1); (447,447,1,56); (453,453,1,-1); (454,454,1,-2);
    (456,456,1,-1); (457,457,1,-2); (459,459,1,-1); (460,460,1,-2); (462,476,2,-1);
    (477,477,1,-79); (479,495,2,-1); (498,498,1,-1); (499,499,1,-2); (501,501,1,-1);
    (505,543,2,-1); (547,563,2,-1); (572,572,1,-1); (575,576,1,10815); (578,578,1,-1);
    (583,591,2,-1); (592,592,1,10783); (593,593,1,10780); (594,594,1,10782);
    (595,595,1,-210); (596,596,1,-206); (598,599,1,-205); (601,601,1,-202);
    (603,603,1,-203); (604,604,1,42319); (608,608,1,-205); (609,609,1,42315);
    (611,611,1,-207); (613,613,1,42280); (614,614,1,42308); (616,616,1,-209);
    (617,617,1,-211); (618,618,1,42308); (619,619,1,10743); (620,620,1,42305);
    (623,623,1,-211); (625,625,1,10749); (626,626,1,-213); (629,629,1,-214);
    (637,637,1,10727); (640,640,1,-218); (642,642,1,42307); (643,643,1,-218);
    (647,647,1,42282); (648,648,1,-218); (649,649,1,-69); (650,651,1,-217);
    (652,652,1,-71); (658,658,1,-219); (669,669,1,42261); (670,670,1,42258);
    (837,837,1,84); (881,883,2,-1); (887,887,1,-1); (891,893,1,130); (940,940,1,-38);
    (941,943,1,-37); (945,961,1,-32); (962,962,1,-31); (963,971,1,-32); (972,972,1,-64);
    (973,974,1,-63); (976,976,1,-62); (977,977,1,-57); (981,981,1,-47); (982,982,1,-54);
    (983,983,1,-8); (985,1007,2,-1); (1008,1008,1,-86); (1009,1009,1,-80); (1010,1010,1,7);
    (1011,1011,1,-116); (1013,1013,1,-96); (1016,1016,1,-1); (1019,1019,1,-1);
    (1072,1103,1,-32); (1104,1119,1,-80); (1121,1153,2,-1); (1163,1215,2,-1);
    (1218,1230,2,-1); (1231,1231,1,-15); (1233,1327,2,-1); (1377,1414,1,-48);
    (4304,4346,1,3008); (4349,4351,1,3008); (5112,5117,1,-8); (7296,7296,1,-6254);
    (7297,7297,1,-6253); (7298,7298,1,-6244); (7299,7300,1,-6242); (7301,7301,1,-6243);
    (7302,7302,1,-6236); (7303,7303,1,-6181); (7304,7304,1,35266); (7545,7545,1,35332);
    (7549,7549,1,3814); (7566,7566,1,35384); (7681,7829,2,-1); (7835,7835,1,-59);
    (7841,7935,2,-1); (7936,7943,1,8); (7952,7957,1,8); (7968,7975,1,8); (7984,7991,1,8);
    (8000,8005,1,8); (8017,8023,2,8); (8032,8039,1,8); (8048,8049,1,74); (8050,8053,1,86);
    (8054,8055,1,100); (8056,8057,1,128); (8058,8059,1,112); (8060,8061,1,126);
    (8064,8071,1,8); (8080,8087,1,8); (8096,8103,1,8); (8112,8113,1,8); (8115,8115,1,9);
    (8126,8126,1,-7205); (8131,8131,1,9); (8144,8145,1,8); (8160,8161,1,8);
    (8165,8165,1,7); (8179,8179,1,9); (8526,8526,1,-28); (8560,8575,1,-16);
    (8580,8580,1,-1); (9424,9449,1,-26); (11312,11359,1,-48); (11361,11361,1,-1);
    (11365,11365,1,-10795); (11366,11366,1,-10792); (11368,11372,2,-1); (11379,11379,1,-1);
    (11382,11382,1,-1); (11393,11491,2,-1); (11500,11502,2,-1); (11507,11507,1,-1);
    (11520,11557,1,-7264); (11559,11559,1,-7264); (11565,11565,1,-7264);
    (42561,42605,2,-1); (42625,42651,2,-1); (42787,42799,2,-1); (42803,42863,2,-1);
    (42874,42876,2,-1); (42879,42887,2,-1); (42892,42892,1,-1); (42897,42899,2,-1);
    (42900,42900,1,48); (42903,42921,2,-1); (42933,42947,2,-1); (42952,42954,2,-1);
    (42961,42961,1,-1); (42967,42969,2,-1); (42998,42998,1,-1); (43859,43859,1,-928);
    (43888,43967,1,-38864); (65345,65370,1,-32); (66600,66639,1,-40); (66776,66811,1,-40);
    (66967,67003,2,-39); (66968,66976,2,-39); (66980,66992,2,-39); (66996,67000,2,-39);
    (67004,67004,1,-39); (68800,68850,1,-64); (71872,71903,1,-32); (93792,93823,1,-32);
    (125218,125251,1,-34)]%Z.

Definition lower_ranges : list (Z * Z * Z * Z) := [
    (192,214,1,32); (216,222,1,32); (256,302,2,1); (304,304,1,-199); (306,310,2,1);
    (313,327,2,1); (330,374,2,1); (376,376,1,-121); (377,381,2,1); (385,385,1,210);
    (386,388,2,1); (390,390,1,206); (391,391,1,1); (393,394,1,205); (395,395,1,1);
    (398,398,1,79); (399,399,1,202); (400,400,1,203); (401,401,1,1); (403,403,1,205);
    (404,404,1,207); (406,406,1,211); (407,407,1,209); (408,408,1,1); (412,412,1,211);
    (413,413,1,213); (415,415,1,214); (416,420,2,1); (422,422,1,218); (423,423,1,1);
    (425,425,1,218); (428,428,1,1); (430,430,1,218); (431,431,1,1); (433,434,1,217);
    (435,437,2,1); (439,439,1,219); (440,440,1,1); (444,444,1,1); (452,452,1,2);
    (453,453,1,1); (455,455,1,2); (456,456,1,1); (458,458,1,2); (459,475,2,1);
    (478,494,2,1); (497,497,1,2); (498,500,2,1); (502,502,1,-97); (503,503,1,-56);
    (504,542,2,1); (544,544,1,-130); (546,562,2,1); (570,570,1,10795); (571,571,1,1);
    (573,573,1,-163); (574,574,1,10792); (577,577,1,1); (579,579,1,-195); (580,580,1,69);
    (581,581,1,71); (582,590,2,1); (880,882,2,1); (886,886,1,1); (895,895,1,116);
    (902,902,1,38); (904,906,1,37); (908,908,1,64); (910,911,1,63); (913,929,1,32);
    (931,939,1,32); (975,975,1,8); (984,1006,2,1); (1012,1012,1,-60); (1015,1015,1,1);
    (1017,1017,1,-7); (1018,1018,1,1); (1021,1023,1,-130); (1024,1039,1,80);
    (1040,1071,1,32); (1120,1152,2,1); (1162,1214,2,1); (1216,1216,1,15); (1217,1229,2,1);
    (1232,1326,2,1); (1329,1366,1,48); (4256,4293,1,7264); (4295,4295,1,7264);
    (4301,4301,1,7264); (5024,5103,1,38864); (5104,5109,1,8); (7312,7354,1,-3008);
    (7357,7359,1,-3008); (7680,7828,2,1); (7838,7838,1,-7615); (7840,7934,2,1);
    (7944,7951,1,-8); (7960,7965,1,-8); (7976,7983,1,-8); (7992,7999,1,-8);
    (8008,8013,1,-8); (8025,8031,2,-8); (8040,8047,1,-8); (8072,8079,1,-8);
    (8088,8095,1,-8); (8104,8111,1,-8); (8120,8121,1,-8); (8122,8123,1,-74);
    (8124,8124,1,-9); (8136,8139,1,-86); (8140,8140,1,-9); (8152,8153,1,-8);
    (8154,8155,1,-100); (8168,8169,1,-8); (8170,8171,1,-112); (8172,8172,1,-7);
    (8184,8185,1,-128); (8186,8187,1,-126); (8188,8188,1,-9); (8486,8486,1,-7517);
    (8490,8490,1,-8383); (8491,8491,1,-8262); (8498,8498,1,28); (8544,8559,1,16);
    (8579,8579,1,1); (9398,9423,1,26); (11264,11311,1,48); (11360,11360,1,1);
    (11362,11362,1,-10743); (11363,11363,1,-3814); (11364,11364,1,-10727);
    (11367,11371,2,1); (11373,11373,1,-10780); (11374,11374,1,-10749);
    (11375,11375,1,-10783); (11376,11376,1,-10782); (11378,11378,1,1); (11381,11381,1,1);
    (11390,11391,1,-10815); (11392,11490,2,1); (11499,11501,2,1); (11506,11506,1,1);
    (42560,42604,2,1); (42624,42650,2,1); (42786,42798,2,1); (42802,42862,2,1);
    (42873,42875,2,1); (42877,42877,1,-35332); (42878,42886,2,1); (42891,42891,1,1);
    (42893,42893,1,-42280); (42896,42898,2,1); (42902,42920,2,1); (42922,42922,1,-42308);
    (42923,42923,1,-42319); (42924,42924,1,-42315); (42925,42925,1,-42305);
    (42926,42926,1,-42308); (42928,42928,1,-42258); (42929,42929,1,-42282);
    (42930,42930,1,-42261); (42931,42931,1,928); (42932,42946,2,1); (42948,42948,1,-48);
    (42949,42949,1,-42307); (42950,42950,1,-35384); (42951,42953,2,1); (42960,42960,1,1);
    (42966,42968,2,1); (42997,42997,1,1); (65313,65338,1,32); (66560,66599,1,40);
    (66736,66771,1,40); (66928,66964,2,39); (66929,66937,2,39); (66941,66953,2,39);
    (66957,66961,2,39); (66965,66965,1,39); (68736,68786,1,64); (71840,71871,1,32);
    (93760,93791,1,32); (125184,125217,1,34)]%Z.

Definition in_case_range (r : rune) (e : Z * Z * Z * Z) : bool :=
  let '(lo, hi, stride, _) := e in
  (lo <=? r)%Z && (r <=? hi)%Z && ((r - lo) mod stride =? 0)%Z.

Definition map_rune (table : list (Z * Z * Z * Z)) (r : rune) : rune :=
  match List.find (in_case_range r) table with
  | Some (_, _, _, delta) => (r + delta)%Z
  | None => r
  end.

(** [unicode.ToUpper] and [unicode.ToLower]. *)
Definition rune_upper (r : rune) : rune :=
  if (r <? 128)%Z then (if (97 <=? r)%Z && (r <=? 122)%Z then (r - 32)%Z else r)
  else map_rune upper_ranges r.
Definition rune_lower (r : rune) : rune :=
  if (r <? 128)%Z then (if (65 <=? r)%Z && (r <=? 90)%Z then (r + 32)%Z else r)
  else map_rune lower_ranges r.

(** [unicode.IsSpace]. *)
Definition rune_is_space (r : rune) : bool :=
  (((9 <=? r) && (r <=? 13)) || (r =? 32) || (r =? 133) || (r =? 160) || (r =? 5760)
   || ((8192 <=? r) && (r <=? 8202)) || (r =? 8232) || (r =? 8233) || (r =? 8239)
   || (r =? 8287) || (r =? 12288))%Z.

(** ** ASCII *)
Definition is_ascii (c : ascii) : bool := (code c <? 128)%Z.
Definition all_ascii (s : gostr) : bool := forallb is_ascii s.

Lemma code_byte (z : Z) : (0 <= z < 256)%Z -> code (byte z) = z.
Proof.
  intros H. unfold code, byte. rewrite N_ascii_embedding; lia.
Qed.

Lemma byte_code (c : ascii) : byte (code c) = c.
Proof. unfold byte, code. by rewrite N2Z.id, ascii_N_embedding. Qed.

Lemma code_range (c : ascii) : (0 <= code c < 256)%Z.
Proof. unfold code. pose proof (N_ascii_bounded c). lia. Qed.

Lemma code_inj (c d : ascii) : code c = code d -> c = d.
Proof. intros H. by rewrite <- (byte_code c), H, byte_code. Qed.

(** A property of every byte, by looking at the 256 of them. *)
Lemma all_bytes (P : ascii -> bool) :
  forallb (fun n => P (byte (Z.of_nat n))) (seq 0 256) = true -> forall c, P c = true.
Proof.
  rewrite forallb_forall. intros H c. specialize (H (Z.to_nat (code c))).
  pose proof (code_range c). rewrite Z2Nat.id, byte_code in H by lia.
  apply H, in_seq. lia.
Qed.

Lemma all_ascii_cons (c : ascii) (s : gostr) :
  all_ascii (c :: s) = is_ascii c && all_ascii s.
Proof. done. Qed.

Lemma all_ascii_app (s t : gostr) : all_ascii (s ++ t) = all_ascii s && all_ascii t.
Proof. apply forallb_app. Qed.

Lemma runes_ascii (s : gostr) : all_ascii s = true -> runes s = map code s.
Proof.
  induction s as [|c s IH]; [done|]. rewrite all_ascii_cons, andb_true_iff. intros [Hc Hs].
  cbn [runes]. unfold is_ascii in Hc. rewrite Hc, IH by done. done.
Qed.

(** Every rune of a range loop consumes at least one byte. *)
Lemma length_runes (s : gostr) : length (runes s) <= length s.
Proof.
  remember (length s) as n eqn:Hn. revert s Hn.
  induction n as [n IH] using lt_wf_ind. intros [|b0 s] Hn; [simpl; lia|].
  assert (IHs : forall t, length t < n -> length (runes t) <= length t) by (intros t Ht; by apply (IH (length t))).
  simpl in Hn. cbn [runes].
  repeat case_match; subst; cbn [length] in *;
    first [lia | match goal with |- context [runes ?t] => specialize (IHs t); cbn [length] in IHs; lia end].
Qed.

Example runes_mixed : runes (byte 195 :: byte 169 :: byte 255 :: "a") = [233; RuneError; 97]%Z.
Proof. vm_compute. reflexivity. Qed.

Example long_s_upper : rune_upper 383 = 83%Z /\ rune_lower 8490 = 107%Z /\ rune_upper 233 = 201%Z.
Proof. vm_compute. auto. Qed.

(** ** Decoding after encoding *)

(** The code points UTF-8 can carry. *)
Definition scalar (r : rune) : Prop := (0 <= r < 55296 \/ 57343 < r <= 1114111)%Z.

Lemma in_rangeb_byte (lo hi z : Z) : (0 <= z < 256)%Z -> in_rangeb lo hi (byte z) = ((lo <=? z) && (z <=? hi))%Z.
Proof. intros Hz. unfold in_rangeb. by rewrite code_byte. Qed.
Lemma is_cont_byte (z : Z) : (128 <= z < 192)%Z -> is_cont (byte z) = true.
Proof. intros Hz. unfold is_cont. rewrite in_rangeb_byte by lia. lia. Qed.

Lemma runes_encode (r : rune) (s : gostr) : scalar r -> runes (encode_rune r ++ s) = r :: runes s.
Proof.
  intros Hr. unfold scalar in Hr. unfold encode_rune.
  destruct (Z.leb_spec 0 r); [|lia]. cbn [andb].
  destruct (Z.ltb_spec r 128); cbn [app].
  { cbn [runes]. rewrite code_byte by lia. by destruct (Z.ltb_spec r 128); [|lia]. }
  destruct (Z.leb_spec 128 r); [|lia]. cbn [andb].
  pose proof (Z.mod_pos_bound r 64 eq_refl) as Hm0. pose proof (Z.div_mod r 64 ltac:(lia)) as Hd0.
  destruct (Z.ltb_spec r 2048).
  { cbn [app runes]. assert (2 <= r / 64 < 32)%Z by lia.
    rewrite code_byte by lia. destruct (Z.ltb_spec (192 + r / 64) 128); [lia|].
    rewrite in_rangeb_byte by lia. destruct (Z.leb_spec 194 (192 + r / 64)); [|lia].
    destruct (Z.leb_spec (192 + r / 64) 223); [|lia]. cbn [andb]. rewrite is_cont_byte by lia.
    unfold rune2. rewrite !code_byte by lia. f_equal. lia. }
  destruct (Z.ltb_spec r 0); [lia|]. destruct (Z.ltb_spec 1114111 r); [lia|]. cbn [orb].
  replace ((55296 <=? r) && (r <=? 57343))%Z with false by lia.
  pose proof (Z.mod_pos_bound (r / 64) 64 eq_refl) as Hm1. pose proof (Z.div_mod (r / 64) 64 ltac:(lia)) as Hd1.
  assert (E1 : (r / 64 / 64 = r / 4096)%Z) by (rewrite Z.div_div by lia; done).
  destruct (Z.ltb_spec r 65536).
  { cbn [app runes]. assert (0 <= r / 4096 < 16)%Z by lia.
    rewrite code_byte by lia. destruct (Z.ltb_spec (224 + r / 4096) 128); [lia|].
    rewrite !in_rangeb_byte by lia. destruct (Z.leb_spec 194 (224 + r / 4096)); [|lia].
    destruct (Z.leb_spec (224 + r / 4096) 223); [lia|]. destruct (Z.leb_spec 224 (224 + r / 4096)); [|lia].
    destruct (Z.leb_spec (224 + r / 4096) 239); [|lia]. cbn [andb]. rewrite is_cont_byte by lia.
    assert (Hok : second_ok (byte (224 + r / 4096)) (byte (128 + r / 64 mod 64)) = true).
    { unfold second_ok. rewrite !code_byte by lia. rewrite !in_rangeb_byte by lia.
      repeat match goal with |- context [(?a =? ?b)%Z] => destruct (Z.eqb_spec a b) end; lia. }
    rewrite Hok. cbn [andb]. unfold rune3. rewrite !code_byte by lia. f_equal. lia. }
  pose proof (Z.mod_pos_bound (r / 4096) 64 eq_refl) as Hm2. pose proof (Z.div_mod (r / 4096) 64 ltac:(lia)) as Hd2.
  assert (E2 : (r / 4096 / 64 = r / 262144)%Z) by (rewrite Z.div_div by lia; done).
  cbn [app runes]. assert (0 <= r / 262144 < 5)%Z by lia.
  rewrite code_byte by lia. destruct (Z.ltb_spec (240 + r / 262144) 128); [lia|].
  rewrite !in_rangeb_byte by lia. destruct (Z.leb_spec 194 (240 + r / 262144)); [|lia].
  destruct (Z.leb_spec (240 + r / 262144) 223); [lia|]. destruct (Z.leb_spec 224 (240 + r / 262144)); [|lia].
  destruct (Z.leb_spec (240 + r / 262144) 239); [lia|]. destruct (Z.leb_spec 240 (240 + r / 262144)); [|lia].
  destruct (Z.leb_spec (240 + r / 262144) 244); [|lia]. cbn [andb]. rewrite !is_cont_byte by lia.
  assert (Hok : second_ok (byte (240 + r / 262144)) (byte (128 + r / 4096 mod 64)) = true).
  { unfold second_ok. rewrite !code_byte by lia. rewrite !in_rangeb_byte by lia.
    repeat match goal with |- context [(?a =? ?b)%Z] => destruct (Z.eqb_spec a b) end; lia. }
  rewrite Hok. cbn [andb]. unfold rune4. rewrite !code_byte by lia. f_equal. lia.
Qed.

(** One step of a range loop: an ASCII byte is its own rune, any other rune is not ASCII. *)
Lemma runes_step (b : ascii) (s : gostr) :
  exists r t k, runes (b :: s) = r :: runes t /\ s = k ++ t /\ (is_ascii b = true -> r = code b) /\ (is_ascii b = false -> (128 <= r)%Z).
Proof.
  assert (Herr : exists r t k, RuneError :: runes s = r :: runes t /\ s = k ++ t /\
            (false = true -> r = code b) /\ (false = false -> (128 <= r)%Z)) by (exists RuneError, s, []; repeat split; [done | by unfold RuneError]).
  pose proof (code_range b) as Hb. cbn [runes]. unfold is_ascii. destruct (Z.ltb_spec (code b) 128) as [Hlt|Hge].
  { exists (code b), s, []. by repeat split. }
  destruct (in_rangeb 194 223 b) eqn:R2.
  { destruct s as [|b1 s2]; [done|]. destruct (is_cont b1) eqn:C1; [|done].
    pose proof (code_range b1). unfold is_cont, in_rangeb in *. exists (rune2 b b1), s2, [b1]. repeat split; [done|]. unfold rune2. lia. }
  destruct (in_rangeb 224 239 b) eqn:R3.
  { destruct s as [|b1 [|b2 s3]]; [done..|]. destruct (second_ok b b1 && is_cont b2) eqn:C1; [|done].
    pose proof (code_range b1). pose proof (code_range b2). exists (rune3 b b1 b2), s3, [b1; b2]. repeat split; [done|]. intros _.
    unfold is_cont, rune3, second_ok, in_rangeb in *.
    destruct (Z.eqb_spec (code b) 224), (Z.eqb_spec (code b) 237), (Z.eqb_spec (code b) 240), (Z.eqb_spec (code b) 244); lia. }
  destruct (in_rangeb 240 244 b) eqn:R4; [|done].
  destruct s as [|b1 [|b2 [|b3 s4]]]; [done..|]. destruct (second_ok b b1 && is_cont b2 && is_cont b3) eqn:C1; [|done].
  pose proof (code_range b1). pose proof (code_range b2). pose proof (code_range b3).
  exists (rune4 b b1 b2 b3), s4, [b1; b2; b3]. repeat split; [done|]. intros _.
  unfold is_cont, rune4, second_ok, in_rangeb in *.
  destruct (Z.eqb_spec (code b) 224), (Z.eqb_spec (code b) 237), (Z.eqb_spec (code b) 240), (Z.eqb_spec (code b) 244); lia.
Qed.

(** An ASCII character is decoded from itself only, and encoded as itself only. *)
Lemma runes_ascii_elem (s : gostr) (c : ascii) : is_ascii c = true -> code c ∈ runes s -> c ∈ s.
Proof.
  intros Hc. remember (length s) as n eqn:Hn. revert s Hn. induction n as [n IH] using lt_wf_ind. intros [|b s] Hn; [cbn; intros Hin; by apply not_elem_of_nil in Hin|].
  destruct (runes_step b s) as (r & t & k & -> & -> & Hascii & Hother). rewrite elem_of_cons. intros [Hr|Hin].
  - destruct (is_ascii b) eqn:Hb; [|unfold is_ascii in Hc; specialize (Hother eq_refl); lia].
    rewrite Hascii in Hr by done. apply code_inj in Hr as ->. apply list_elem_of_here.
  - apply list_elem_of_further, elem_of_app. right. apply (IH (length t)); [|done | done].
    subst n. cbn. rewrite length_app. lia.
Qed.
Lemma encode_rune_ascii (r : rune) (c : ascii) : is_ascii c = true -> c ∈ encode_rune r -> r = code c.
Proof.
  intros Hc. unfold is_ascii in Hc.
  assert (Hno : forall z, (128 <= z < 256)%Z -> c <> byte z) by (intros z Hz ->; rewrite code_byte in Hc; lia).
  unfold encode_rune. repeat case_match; rewrite !elem_of_cons, elem_of_nil; intros Hin.
  - destruct Hin as [->|[]]. rewrite code_byte; lia.
  - destruct Hin as [Hin|[Hin|[]]]; exfalso; (eapply Hno; [|exact Hin]); Z.to_euclidean_division_equations; lia.
  - destruct Hin as [Hin|[Hin|[Hin|[]]]]; exfalso; (eapply Hno; [|exact Hin]); lia.
  - destruct Hin as [Hin|[Hin|[Hin|[]]]]; exfalso; (eapply Hno; [|exact Hin]); Z.to_euclidean_division_equations; lia.
  - destruct Hin as [Hin|[Hin|[Hin|[Hin|[]]]]]; exfalso; (eapply Hno; [|exact Hin]); Z.to_euclidean_division_equations; lia.
Qed.
Lemma encode_rune_nonempty (r : rune) : encode_rune r <> [].
Proof. unfold encode_rune. by repeat case_match. Qed.

(** Lower-casing yields no new rune below the small letters. *)
Lemma rune_lower_small (r : rune) : (rune_lower r < 97)%Z -> rune_lower r = r.
Proof.
  unfold rune_lower. destruct (Z.ltb_spec r 128).
  - destruct ((65 <=? r)%Z && (r <=? 90)%Z) eqn:E; [lia | done].
  - unfold map_rune. destruct (List.find (in_case_range r) lower_ranges) as [[[[lo hi] stride] delta]|] eqn:Hf; [|done].
    apply List.find_some in Hf as [Hin Hr]. cbn in Hr.
    assert (Hall : forallb (fun e => let '(lo, _, _, delta) := e in 97 <=? lo + delta)%Z lower_ranges = true) by (vm_compute; reflexivity).
    rewrite forallb_forall in Hall. specialize (Hall _ Hin). cbn in Hall. lia.
Qed.

(** Decoding gives such code points only. *)
Lemma runes_scalar (s : gostr) : Forall scalar (runes s).
Proof.
  remember (length s) as n eqn:Hn. revert s Hn.
  induction n as [n IH] using lt_wf_ind. intros [|b0 s] Hn; [constructor|].
  assert (IHs : forall t, length t < n -> Forall scalar (runes t)) by (intros t Ht; by apply (IH (length t))).
  assert (Herr : forall t, length t < n -> Forall scalar (RuneError :: runes t))
    by (intros t Ht; constructor; [right; unfold RuneError; lia | auto]).
  simpl in Hn. pose proof (code_range b0) as H0. cbn [runes].
  destruct (Z.ltb_spec (code b0) 128); [constructor; [left; lia | apply IHs; lia]|].
  destruct (in_rangeb 194 223 b0) eqn:R2.
  { destruct s as [|b1 s2]; [apply Herr; lia|]. destruct (is_cont b1) eqn:C1; [|apply Herr; cbn in *; lia].
    pose proof (code_range b1). unfold is_cont, in_rangeb, rune2 in *. constructor; [left; lia | apply IHs; cbn in *; lia]. }
  destruct (in_rangeb 224 239 b0) eqn:R3.
  { destruct s as [|b1 [|b2 s3]]; [apply Herr; cbn in *; lia.. |].
    destruct (second_ok b0 b1 && is_cont b2) eqn:C1; [|apply Herr; cbn in *; lia].
    pose proof (code_range b1). pose proof (code_range b2). unfold is_cont, in_rangeb, rune3, second_ok, in_rangeb, scalar in *.
    constructor; [|apply IHs; cbn in *; lia].
    destruct (Z.eqb_spec (code b0) 224), (Z.eqb_spec (code b0) 237), (Z.eqb_spec (code b0) 240), (Z.eqb_spec (code b0) 244); lia. }
  destruct (in_rangeb 240 244 b0) eqn:R4; [|apply Herr; cbn in *; lia].
  destruct s as [|b1 [|b2 [|b3 s4]]]; [apply Herr; cbn in *; lia.. |].
  destruct (second_ok b0 b1 && is_cont b2 && is_cont b3) eqn:C1; [|apply Herr; cbn in *; lia].
  pose proof (code_range b1). pose proof (code_range b2). pose proof (code_range b3).
  unfold is_cont, in_rangeb, rune4, second_ok, in_rangeb, scalar in *.
  constructor; [|apply IHs; cbn in *; lia].
  destruct (Z.eqb_spec (code b0) 224), (Z.eqb_spec (code b0) 237), (Z.eqb_spec (code b0) 240), (Z.eqb_spec (code b0) 244); lia.
Qed.

Lemma runes_encode_all (rs : list rune) (s : gostr) : Forall scalar rs -> runes (concat (map encode_rune rs) ++ s) = rs ++ runes s.
Proof.
  induction 1 as [|r rs Hr HF IH]; [done|]. cbn [map concat]. rewrite <- app_assoc, runes_encode by done. by rewrite IH.
Qed.
