(* ===== verification/GoStrings.v ===== *)
(** The functions of Go's package [strings] that the server uses, on byte strings. *)
From S2P Require Import Prelude Unicode.

(** ** Searching *)
Fixpoint HasPrefix (s prefix : gostr) {struct prefix} : bool :=
  match prefix, s with
  | [], _ => true
  | p :: prefix, c :: s => bool_decide (p = c) && HasPrefix s prefix
  | _ :: _, [] => false
  end.

Definition HasSuffix (s suffix : gostr) : bool := HasPrefix (rev s) (rev suffix).

(** [strings.Index]; [None] is -1. *)
Fixpoint Index (s sep : gostr) : option nat :=
  if HasPrefix s sep then Some 0
  else match s with [] => None | _ :: s => S <$> Index s sep end.

(** [strings.LastIndex]; [None] is -1. *)
Fixpoint LastIndex (s sep : gostr) : option nat :=
  match s with
  | [] => if HasPrefix s sep then Some 0 else None
  | _ :: s' =>
      match LastIndex s' sep with
      | Some i => Some (S i)
      | None => if HasPrefix s sep then Some 0 else None
      end
  end.

Definition Contains (s sep : gostr) : bool := match Index s sep with Some _ => true | None => false end.

Definition in_set (chars : gostr) (c : ascii) : bool := existsb (fun d => bool_decide (c = d)) chars.
(** [strings.ContainsAny], for an ASCII set of characters. *)
Definition ContainsAny (s chars : gostr) : bool := existsb (in_set chars) s.

(** [strings.Count], for a one-byte substring. *)
Definition CountByte (s : gostr) (c : ascii) : nat := length (filter (fun d => d = c) s).

(** ** Trimming *)
(** Drop leading elements recognised by one-, two- or three-byte patterns. *)
Fixpoint strip (p1 : ascii -> bool) (p2 : ascii -> ascii -> bool)
    (p3 : ascii -> ascii -> ascii -> bool) (s : gostr) : gostr :=
  match s with
  | [] => []
  | c1 :: s1 =>
      if p1 c1 then strip p1 p2 p3 s1
      else match s1 with
      | [] => s
      | c2 :: s2 =>
          if p2 c1 c2 then strip p1 p2 p3 s2
          else match s2 with
          | [] => s
          | c3 :: s3 => if p3 c1 c2 c3 then strip p1 p2 p3 s3 else s
          end
      end
  end.

(** The UTF-8 encodings of the runes of [unicode.IsSpace]. *)
Definition space1 (c : ascii) : bool := is_ascii c && rune_is_space (code c).
Definition space2 (c1 c2 : ascii) : bool :=
  in_rangeb 194 223 c1 && is_cont c2 && rune_is_space (rune2 c1 c2).
Definition space3 (c1 c2 c3 : ascii) : bool :=
  in_rangeb 224 239 c1 && second_ok c1 c2 && is_cont c3 && rune_is_space (rune3 c1 c2 c3).

Definition TrimLeftSpace (s : gostr) : gostr := strip space1 space2 space3 s.
Definition TrimRightSpace (s : gostr) : gostr :=
  rev (strip space1 (fun c2 c1 => space2 c1 c2) (fun c3 c2 c1 => space3 c1 c2 c3) (rev s)).
(** [strings.TrimSpace] *)
Definition TrimSpace (s : gostr) : gostr := TrimRightSpace (TrimLeftSpace s).

Fixpoint drop_while (p : ascii -> bool) (s : gostr) : gostr :=
  match s with
  | [] => []
  | c :: s' => if p c then drop_while p s' else s
  end.
(** [strings.TrimLeft], [strings.TrimRight] and [strings.Trim], for an ASCII cutset. *)
Definition TrimLeft (s cutset : gostr) : gostr := drop_while (in_set cutset) s.
Definition TrimRight (s cutset : gostr) : gostr := rev (drop_while (in_set cutset) (rev s)).
Definition Trim (s cutset : gostr) : gostr := TrimRight (TrimLeft s cutset) cutset.

Definition TrimPrefix (s prefix : gostr) : gostr :=
  if HasPrefix s prefix then drop (length prefix) s else s.
Definition TrimSuffix (s suffix : gostr) : gostr :=
  if HasSuffix s suffix then take (length s - length suffix) s else s.

(** ** Splitting and joining *)
(** [strings.Split], for a one-byte separator. *)
Fixpoint Split (s : gostr) (sep : ascii) : list gostr :=
  match s with
  | [] => [[]]
  | c :: s' =>
      if bool_decide (c = sep) then [] :: Split s' sep
      else match Split s' sep with
      | w :: ws => (c :: w) :: ws
      | [] => [[c]]
      end
  end.

Fixpoint Join (ws : list gostr) (sep : gostr) : gostr :=
  match ws with
  | [] => []
  | [w] => w
  | w :: ws => w ++ sep ++ Join ws sep
  end.

(** [strings.Cut]: the text before and after the first separator, and whether it was found. *)
Definition Cut (s sep : gostr) : gostr * gostr * bool :=
  match Index s sep with
  | Some i => (take i s, drop (i + length sep) s, true)
  | None => (s, [], false)
  end.

Fixpoint Repeat (s : gostr) (count : nat) : gostr :=
  match count with 0 => [] | S n => s ++ Repeat s n end.

(** [strings.Fields]: the maximal runs of non-space runes.  [cur] is the current field. *)
Definition close_field (cur : gostr) : list gostr := if is_empty cur then [] else [cur].
Fixpoint fields_go (cur s : gostr) : list gostr :=
  match s with
  | [] => close_field cur
  | c1 :: s1 =>
      if space1 c1 then close_field cur ++ fields_go [] s1
      else match s1 with
      | [] => fields_go (cur ++ [c1]) s1
      | c2 :: s2 =>
          if space2 c1 c2 then close_field cur ++ fields_go [] s2
          else match s2 with
          | [] => fields_go (cur ++ [c1]) s1
          | c3 :: s3 =>
              if space3 c1 c2 c3 then close_field cur ++ fields_go [] s3
              else fields_go (cur ++ [c1]) s1
          end
      end
  end.
Definition Fields (s : gostr) : list gostr := fields_go [] s.

(** ** Case *)
Definition upper_byte (c : ascii) : ascii :=
  if in_rangeb 97 122 c then byte (code c - 32) else c.
Definition lower_byte (c : ascii) : ascii :=
  if in_rangeb 65 90 c then byte (code c + 32) else c.

(** [strings.ToUpper] and [strings.ToLower]: byte-wise on ASCII strings, otherwise rune by rune. *)
Definition ToUpper (s : gostr) : gostr :=
  if all_ascii s then map upper_byte s else concat (map (fun r => encode_rune (rune_upper r)) (runes s)).
Definition ToLower (s : gostr) : gostr :=
  if all_ascii s then map lower_byte s else concat (map (fun r => encode_rune (rune_lower r)) (runes s)).

(** [strings.EqualFold(s, t)] for an ASCII [t] (every use in the server): beside the two
    cases of a letter, simple folding relates U+017F to "s" and U+212A to "k" only. *)
Definition fold_ascii (r : Z) : Z :=
  (if r =? 383 then 115 else if r =? 8490 then 107 else if (65 <=? r) && (r <=? 90) then r + 32 else r)%Z.
Definition EqualFold (s t : gostr) : bool :=
  bool_decide (map fold_ascii (runes s) = map fold_ascii (runes t)).

(** ** Laws *)
Lemma HasPrefix_spec (s p : gostr) : HasPrefix s p = true <-> exists t, s = p ++ t.
Proof.
  revert s. induction p as [|c p IH]; intros s; simpl.
  - split; [eauto | done].
  - destruct s as [|d s]; [split; [done | by intros [t ?]]|].
    rewrite andb_true_iff, bool_decide_eq_true, IH. split.
    + intros [-> [t ->]]. by exists t.
    + intros [t [= -> ->]]. eauto.
Qed.

Lemma HasPrefix_app (s t : gostr) : HasPrefix (s ++ t) s = true.
Proof. apply HasPrefix_spec. eauto. Qed.

Lemma HasSuffix_spec (s p : gostr) : HasSuffix s p = true <-> exists t, s = t ++ p.
Proof.
  unfold HasSuffix. rewrite HasPrefix_spec. split; intros [t Ht].
  - exists (rev t). by rewrite <- (rev_involutive s), Ht, rev_app_distr, !rev_involutive.
  - exists (rev t). by rewrite Ht, rev_app_distr.
Qed.

Lemma Index_Some (s sep : gostr) (i : nat) :
  Index s sep = Some i -> exists t, s = take i s ++ sep ++ t /\ length (take i s) = i.
Proof.
  revert i. induction s as [|c s IH]; intros i; simpl.
  - destruct (HasPrefix [] sep) eqn:Hp; [|done]. intros [= <-].
    apply HasPrefix_spec in Hp as [t Ht]. exists t. done.
  - destruct (HasPrefix (c :: s) sep) eqn:Hp.
    + intros [= <-]. apply HasPrefix_spec in Hp as [t Ht]. exists t. done.
    + destruct (Index s sep) as [j|] eqn:Hj; [|done]. intros [= <-].
      destruct (IH j eq_refl) as (t & Ht & Hl). exists t. simpl.
      split; [by f_equal | by rewrite Hl].
Qed.

Lemma Index_None (s sep : gostr) : Index s sep = None -> forall a b, s <> a ++ sep ++ b.
Proof.
  induction s as [|c s IH]; simpl; intros H [|d a] b E.
  - simpl in E. rewrite E, HasPrefix_app in H. done.
  - done.
  - simpl in E. rewrite E, HasPrefix_app in H. done.
  - destruct (HasPrefix _ sep); [done|]. injection E as -> E.
    destruct (Index s sep) eqn:Hj; [done|]. by eapply IH.
Qed.

Lemma Index_app (a sep b : gostr) : is_Some (Index (a ++ sep ++ b) sep).
Proof.
  destruct (Index _ _) eqn:H; [eauto|]. by destruct (Index_None _ _ H a b).
Qed.

Lemma Contains_spec (s sep : gostr) : Contains s sep = true <-> exists a b, s = a ++ sep ++ b.
Proof.
  unfold Contains. destruct (Index s sep) as [i|] eqn:Hi; split; try done.
  - intros _. apply Index_Some in Hi as (t & Ht & _). eauto.
  - intros (a & b & Hs). by destruct (Index_None _ _ Hi a b).
Qed.

Lemma in_set_spec (chars : gostr) (c : ascii) : in_set chars c = true <-> c ∈ chars.
Proof.
  unfold in_set. rewrite existsb_exists, list_elem_of_In. split.
  - intros (d & Hd & Hc). by apply bool_decide_eq_true in Hc as ->.
  - intros H. exists c. by rewrite bool_decide_eq_true.
Qed.

Lemma ContainsAny_false (s chars : gostr) :
  ContainsAny s chars = false <-> forall c, c ∈ s -> c ∉ chars.
Proof.
  unfold ContainsAny. rewrite <- not_true_iff_false, existsb_exists. split.
  - intros H c Hs Hc. apply H. exists c. by rewrite <- list_elem_of_In, in_set_spec.
  - intros H (c & Hs & Hc). apply list_elem_of_In in Hs. apply in_set_spec in Hc. by apply (H c).
Qed.

(** [strip] removes a prefix of spaces; what it leaves, and every prefix of that, starts
    with no space. *)
Section Strip.
Variables (p1 : ascii -> bool) (p2 : ascii -> ascii -> bool) (p3 : ascii -> ascii -> ascii -> bool).

Definition no_lead (s : gostr) : bool :=
  match s with
  | [] => true
  | c1 :: s1 => negb (p1 c1) &&
      match s1 with
      | [] => true
      | c2 :: s2 => negb (p2 c1 c2) && match s2 with [] => true | c3 :: _ => negb (p3 c1 c2 c3) end
      end
  end.

Lemma strip_cases (s : gostr) :
  (no_lead s = true /\ strip p1 p2 p3 s = s) \/
  (exists a s', a <> [] /\ s = a ++ s' /\ strip p1 p2 p3 s = strip p1 p2 p3 s').
Proof.
  destruct s as [|c1 s1]; [by left|]. simpl. destruct (p1 c1); simpl; [right; by exists [c1], s1|].
  destruct s1 as [|c2 s2]; [by left|]. destruct (p2 c1 c2); simpl; [right; by exists [c1; c2], s2|].
  destruct s2 as [|c3 s3]; [by left|].
  destruct (p3 c1 c2 c3); simpl; [right; by exists [c1; c2; c3], s3 | by left].
Qed.

Lemma strip_spec (s : gostr) :
  no_lead (strip p1 p2 p3 s) = true /\ exists a, s = a ++ strip p1 p2 p3 s.
Proof.
  remember (length s) as n eqn:Hn. revert s Hn.
  induction n as [n IH] using lt_wf_ind. intros s ->.
  destruct (strip_cases s) as [[Hl ->]|(a & s' & Ha & Hs & ->)]; [by split; [|exists []]|].
  destruct (IH (length s')) with (s := s') as [Hl [b Hb]]; [|done|].
  - rewrite Hs, length_app. destruct a; [done|simpl; lia].
  - split; [done|]. exists (a ++ b). by rewrite <- app_assoc, <- Hb.
Qed.

Lemma strip_id (s : gostr) : no_lead s = true -> strip p1 p2 p3 s = s.
Proof.
  destruct s as [|c1 [|c2 [|c3 s]]]; simpl; try done;
    destruct (p1 c1); try done; simpl; destruct (p2 c1 c2); try done; simpl; by destruct (p3 c1 c2 c3).
Qed.

(** A byte that belongs to no space is not stripped. *)
Lemma strip_keeps (c : ascii) (s : gostr) :
  p1 c = false -> (forall d, p2 c d = false /\ p2 d c = false) ->
  (forall d e, p3 c d e = false /\ p3 d c e = false /\ p3 d e c = false) ->
  c ∈ s -> c ∈ strip p1 p2 p3 s.
Proof.
  intros H1 H2 H3. remember (length s) as n eqn:Hn. revert s Hn.
  induction n as [n IH] using lt_wf_ind. intros s ->.
  destruct s as [|c1 s1]; [done|]. simpl. intros Hc.
  destruct (p1 c1) eqn:E1.
  { apply (IH (length s1)); [simpl; lia | done |]. apply elem_of_cons in Hc as [->|Hc]; [congruence | done]. }
  destruct s1 as [|c2 s2]; [done|]. destruct (p2 c1 c2) eqn:E2.
  { apply (IH (length s2)); [simpl; lia | done |]. rewrite !elem_of_cons in Hc.
    destruct (H2 c1) as [? ?], (H2 c2) as [? ?]. destruct Hc as [->|[->|Hc]]; [congruence | congruence | done]. }
  destruct s2 as [|c3 s3]; [done|]. destruct (p3 c1 c2 c3) eqn:E3; [|done].
  apply (IH (length s3)); [simpl; lia | done |]. rewrite !elem_of_cons in Hc.
  destruct Hc as [->|[->|[->|Hc]]]; [| | | done]; exfalso.
  - destruct (H3 c2 c3) as (? & _). congruence.
  - destruct (H3 c1 c3) as (_ & ? & _). congruence.
  - destruct (H3 c1 c2) as (_ & _ & ?). congruence.
Qed.

Lemma no_lead_prefix (a b : gostr) : no_lead (a ++ b) = true -> no_lead a = true.
Proof.
  destruct a as [|c1 [|c2 [|c3 a]]]; simpl; try done; rewrite ?andb_true_iff; tauto.
Qed.
End Strip.

Lemma TrimRightSpace_prefix (s : gostr) : exists b, s = TrimRightSpace s ++ b.
Proof.
  unfold TrimRightSpace.
  destruct (strip_spec space1 (fun c2 c1 => space2 c1 c2) (fun c3 c2 c1 => space3 c1 c2 c3) (rev s)) as [_ [a Ha]].
  exists (rev a). by rewrite <- rev_app_distr, <- Ha, rev_involutive.
Qed.

Lemma TrimSpace_idemp (s : gostr) : TrimSpace (TrimSpace s) = TrimSpace s.
Proof.
  unfold TrimSpace. set (l := TrimLeftSpace s).
  assert (Hl : no_lead space1 space2 space3 (TrimRightSpace l) = true).
  { destruct (TrimRightSpace_prefix l) as [b Hb].
    apply (no_lead_prefix _ _ _ _ b). rewrite <- Hb. apply strip_spec. }
  unfold TrimLeftSpace at 1. rewrite (strip_id _ _ _ _ Hl).
  unfold TrimRightSpace at 1 3. f_equal. unfold TrimRightSpace. rewrite rev_involutive.
  apply strip_id, strip_spec.
Qed.

(** An ASCII byte that is not a space survives [TrimSpace]. *)
Lemma TrimSpace_keeps (c : ascii) (s : gostr) :
  is_ascii c = true -> rune_is_space (code c) = false -> c ∈ s -> c ∈ TrimSpace s.
Proof.
  intros Ha Hs Hc.
  assert (H1 : space1 c = false) by (unfold space1; by rewrite Ha, Hs).
  assert (Hr : forall lo hi, (128 <= lo)%Z -> in_rangeb lo hi c = false).
  { intros lo hi Hlo. unfold is_ascii in Ha. apply Z.ltb_lt in Ha. unfold in_rangeb.
    apply andb_false_intro1. apply Z.leb_gt. lia. }
  assert (Hso : forall d, second_ok d c = false).
  { intros d. unfold second_ok. by repeat case_match; apply Hr. }
  assert (H2 : forall d, space2 c d = false /\ space2 d c = false).
  { intros d. unfold space2, is_cont. rewrite !Hr by lia. by rewrite ?andb_false_r. }
  assert (H3 : forall d e, space3 c d e = false /\ space3 d c e = false /\ space3 d e c = false).
  { intros d e. unfold space3, is_cont. rewrite !Hr, Hso by lia. by rewrite ?andb_false_r. }
  assert (elem_of_rev : forall t : gostr, c ∈ rev t <-> c ∈ t) by (intros t; rewrite !list_elem_of_In; symmetry; apply in_rev).
  unfold TrimSpace, TrimRightSpace, TrimLeftSpace. rewrite elem_of_rev.
  apply strip_keeps; [done | intros d; split; apply H2 | |].
  - intros d e. split; [|split]; apply H3.
  - rewrite elem_of_rev. by apply strip_keeps.
Qed.

(** [TrimRight] removes the longest suffix of bytes of the cutset. *)
Lemma drop_while_spec (p : ascii -> bool) (s : gostr) :
  exists a, s = a ++ drop_while p s /\ Forall (fun c => p c = true) a /\
    forall c t, drop_while p s = c :: t -> p c = false.
Proof.
  induction s as [|c s (a & Ha & HF & Hc)]; simpl; [exists []; by repeat split|].
  destruct (p c) eqn:E.
  - exists (c :: a). repeat split; [by rewrite Ha at 1 | by constructor | done].
  - exists []. repeat split; [constructor|]. by intros ? ? [= <- <-].
Qed.

Lemma TrimRight_spec (s cutset : gostr) :
  exists b, s = TrimRight s cutset ++ b /\ Forall (fun c => c ∈ cutset) b /\
    forall a c, TrimRight s cutset = a ++ [c] -> c ∉ cutset.
Proof.
  unfold TrimRight. destruct (drop_while_spec (in_set cutset) (rev s)) as (a & Ha & HF & Hc).
  exists (rev a). repeat split.
  - by rewrite <- rev_app_distr, <- Ha, rev_involutive.
  - apply Forall_rev. eapply list.Forall_impl; [exact HF|]. intros c. apply in_set_spec.
  - intros b c Hb. apply (f_equal (@rev ascii)) in Hb. rewrite rev_involutive, rev_app_distr in Hb.
    apply Hc in Hb. intros Hin. apply in_set_spec in Hin. congruence.
Qed.

(** ** sort.Strings: byte-wise lexicographic order *)
Fixpoint str_leb (s t : gostr) : bool :=
  match s, t with
  | [], _ => true
  | _ :: _, [] => false
  | c :: s, d :: t => (code c <? code d)%Z || ((code c =? code d)%Z && str_leb s t)
  end.
Definition str_le (s t : gostr) : Prop := str_leb s t = true.
#[global] Instance str_le_dec (s t : gostr) : Decision (str_le s t).
Proof. unfold str_le. apply _. Defined.
#[global] Instance str_le_total : Total str_le.
Proof.
  intros s. unfold str_le. induction s as [|c s IH]; intros [|d t]; simpl; auto.
  destruct (Z.ltb_spec (code c) (code d)), (Z.ltb_spec (code d) (code c)); simpl; auto.
  replace (code d) with (code c) by lia. rewrite Z.eqb_refl. apply IH.
Qed.
#[global] Instance str_le_trans : Transitive str_le.
Proof.
  intros s. unfold str_le. induction s as [|c s IH]; intros [|d t] [|x u]; simpl; try done.
  rewrite !orb_true_iff, !andb_true_iff, !Z.ltb_lt, !Z.eqb_eq.
  intros [?|[E1 H1]] [?|[E2 H2]]; try (left; lia). right. split; [lia | by eapply IH].
Qed.
Definition sort_strings (l : list gostr) : list gostr := merge_sort str_le l.

Lemma sort_strings_perm (l : list gostr) : sort_strings l ≡ₚ l.
Proof. apply merge_sort_Permutation. Qed.
Lemma sort_strings_sorted (l : list gostr) : StronglySorted str_le (sort_strings l).
Proof. apply StronglySorted_merge_sort. exact str_le_trans. exact str_le_total. Qed.
#[global] Instance str_le_antisymm : AntiSymm eq str_le.
Proof.
  intros s. unfold str_le. induction s as [|c s IH]; intros [|d t]; simpl; try done.
  rewrite !orb_true_iff, !andb_true_iff, !Z.ltb_lt, !Z.eqb_eq.
  intros [?|[E H1]] [?|[E2 H2]]; try lia. apply code_inj in E as ->. f_equal. by apply IH.
Qed.

(** The sorted list does not depend on the order of the input. *)
Lemma sort_strings_unique (l k : list gostr) : l ≡ₚ k -> sort_strings l = sort_strings k.
Proof.
  intros H. apply (StronglySorted_unique str_le); [apply sort_strings_sorted..|].
  by rewrite !sort_strings_perm.
Qed.

Lemma LastIndex_absent (s : gostr) (c : ascii) : c ∉ s -> LastIndex s [c] = None.
Proof.
  induction s as [|d s IH]; intros Hc; [done|]. rewrite not_elem_of_cons in Hc. destruct Hc as [Hd Hs].
  simpl. rewrite (IH Hs). rewrite bool_decide_eq_false_2 by done. done.
Qed.

Lemma LastIndex_byte (a b : gostr) (c : ascii) : c ∉ b -> LastIndex (a ++ [c] ++ b) [c] = Some (length a).
Proof.
  intros Hb. induction a as [|d a IH]; simpl.
  - rewrite (LastIndex_absent b c Hb), bool_decide_eq_true_2 by done. done.
  - simpl in IH. by rewrite IH.
Qed.

Lemma Contains_app_l (s t sep : gostr) : Contains s sep = true -> Contains (s ++ t) sep = true.
Proof. rewrite !Contains_spec. intros (a & b & ->). exists a, (b ++ t). by rewrite <- !app_assoc. Qed.

Lemma Contains_app_r (s t sep : gostr) : Contains t sep = true -> Contains (s ++ t) sep = true.
Proof. rewrite !Contains_spec. intros (a & b & ->). exists (s ++ a), b. by rewrite <- !app_assoc. Qed.

Lemma Index_byte (c : ascii) (a b : gostr) :
  c ∉ a -> Index (a ++ [c] ++ b) [c] = Some (length a).
Proof.
  induction a as [|d a IH]; simpl; intros Ha.
  - by rewrite bool_decide_eq_true_2.
  - rewrite not_elem_of_cons in Ha. destruct Ha as [Hd Ha].
    rewrite bool_decide_eq_false_2 by done. simpl.
    change (c :: b) with ([c] ++ b). by rewrite IH.
Qed.

Lemma take_app_cons {A} (a b : list A) (x : A) : take (length a + 1) (a ++ [x] ++ b) = a ++ [x].
Proof. by rewrite take_app_add. Qed.

(** [Index] of a byte finds its first occurrence. *)
Lemma Index_first_byte (s : gostr) (c : ascii) (i : nat) : Index s [c] = Some i -> c ∉ take i s.
Proof.
  revert i. induction s as [|d s IH]; intros i; simpl; [done|].
  case_bool_decide as Hd; simpl; [intros [= <-]; apply not_elem_of_nil|].
  destruct (Index s [c]) as [j|] eqn:E; [|done]. intros [= <-]. simpl.
  apply not_elem_of_cons. split; [done | by apply IH].
Qed.

Lemma StronglySorted_filter {A} (R : A -> A -> Prop) (P : A -> Prop) `{forall x, Decision (P x)} (l : list A) :
  StronglySorted R l -> StronglySorted R (filter P l).
Proof.
  induction 1 as [|x l HS IH HF]; [constructor|]. rewrite filter_cons. case_decide; [|done].
  constructor; [done|]. rewrite list.Forall_forall in HF |- *.
  intros y Hy. apply list_elem_of_filter in Hy as [_ Hy]. by apply HF.
Qed.

(** *** Counting bytes *)
Lemma CountByte_app (a b : gostr) (c : ascii) : CountByte (a ++ b) c = CountByte a c + CountByte b c.
Proof. unfold CountByte. by rewrite filter_app, length_app. Qed.

(** A suffix without the byte can be trimmed. *)
Lemma CountByte_TrimSuffix (s suffix : gostr) (c : ascii) :
  CountByte suffix c = 0 -> CountByte (TrimSuffix s suffix) c = CountByte s c.
Proof.
  intros Hc. unfold TrimSuffix. destruct (HasSuffix s suffix) eqn:E; [|done].
  apply HasSuffix_spec in E as [t ->]. rewrite length_app. replace (length t + length suffix - length suffix) with (length t) by lia.
  rewrite take_app_length, CountByte_app. lia.
Qed.

(** ** A byte that does not occur *)
Lemma not_Contains_byte (s : gostr) (c : ascii) : Contains s [c] = false <-> c ∉ s.
Proof.
  rewrite <- not_true_iff_false, Contains_spec. split.
  - intros H Hc. apply H. apply list_elem_of_split in Hc as (a & b & ->). by exists a, b.
  - intros Hc (a & b & ->). apply Hc. rewrite !elem_of_app. right. left. left.
Qed.
Lemma Index_absent s c : c ∉ s -> Index s [c] = None.
Proof.
  intros Hc. destruct (Index s [c]) as [i|] eqn:Hi; [|done]. exfalso. apply Index_Some in Hi as (t & Hs & _). apply Hc. rewrite Hs. set_solver.
Qed.

(** *** Lower case *)
Lemma ToLower_absent (s : gostr) (c : ascii) : (code c < 97)%Z -> c ∉ s -> c ∉ ToLower s.
Proof.
  intros Hc Hs. assert (Ha : is_ascii c = true) by (unfold is_ascii; lia). unfold ToLower. destruct (all_ascii s).
  - intros (d & Hd & Hin)%list_elem_of_fmap. apply Hs. unfold lower_byte, in_rangeb in Hd. pose proof (code_range d).
    destruct (Z.leb_spec 65 (code d)), (Z.leb_spec (code d) 90); cbn [andb] in Hd; subst c; try done.
    rewrite code_byte in Hc by lia. lia.
  - rewrite list_elem_of_In, in_concat. intros (enc & Henc & Hin). apply list_elem_of_In, list_elem_of_fmap in Henc as (r & -> & Hr).
    apply list_elem_of_In, encode_rune_ascii in Hin; [|done]. apply Hs, runes_ascii_elem; [done|].
    rewrite rune_lower_small in Hin by lia. by subst r.
Qed.
Lemma ToLower_nonempty (s : gostr) : s <> [] -> ToLower s <> [].
Proof.
  destruct s as [|b s]; [done|]. intros _. unfold ToLower. destruct (all_ascii _); [done|].
  destruct (runes_step b s) as (r & t & k & -> & _). cbn [map concat]. intros [He _]%app_eq_nil. by apply encode_rune_nonempty in He.
Qed.
