(* ===== verification/GoNum.v ===== *)
(** Go's numbers: [int] (64-bit two's complement, wrapping), [time.Duration]
    (nanoseconds in an int64), [strconv.Atoi]/[strconv.Itoa], and IEEE-754
    binary64 [float64] through the Standard Library's [SpecFloat]. *)
From Stdlib Require Import SpecFloat.
From S2P Require Import Prelude Unicode GoStrings.

(** ** int and time.Duration *)
Definition wrap64 (z : Z) : Z := ((z + 2 ^ 63) mod 2 ^ 64 - 2 ^ 63)%Z.
Definition in_int64 (z : Z) : Prop := (- 2 ^ 63 <= z < 2 ^ 63)%Z.
#[global] Instance in_int64_dec (z : Z) : Decision (in_int64 z).
Proof. unfold in_int64. apply _. Defined.

Definition maxInt64 : Z := (2 ^ 63 - 1)%Z.

(** Nanoseconds. *)
Definition Millisecond : Z := 1000000.
Definition Second : Z := 1000000000.
Definition Minute : Z := 60000000000.

(** [time.Duration(n) * unit] *)
Definition duration (n unit : Z) : Z := wrap64 (n * unit).

Lemma wrap64_in (z : Z) : in_int64 (wrap64 z).
Proof. unfold in_int64, wrap64. pose proof (Z.mod_pos_bound (z + 2^63) (2^64) eq_refl). lia. Qed.

Lemma wrap64_id (z : Z) : in_int64 z -> wrap64 z = z.
Proof. unfold in_int64, wrap64. intros H. rewrite Z.mod_small; lia. Qed.

Lemma wrap64_idemp (z : Z) : wrap64 (wrap64 z) = wrap64 z.
Proof. apply wrap64_id, wrap64_in. Qed.

Lemma duration_exact (n unit : Z) :
  (0 < unit)%Z -> (0 <= n <= maxInt64 / unit)%Z -> duration n unit = (n * unit)%Z.
Proof.
  intros Hu Hn. apply wrap64_id. unfold in_int64, maxInt64 in *.
  pose proof (Z.mul_div_le (2 ^ 63 - 1) unit Hu). nia.
Qed.

(** ** strconv *)
Definition digit_val (c : ascii) : option Z :=
  if in_rangeb 48 57 c then Some (code c - 48)%Z else None.

Fixpoint parse_digits (acc : Z) (s : gostr) : option Z :=
  match s with
  | [] => Some acc
  | c :: s => match digit_val c with Some d => parse_digits (acc * 10 + d)%Z s | None => None end
  end.

(** An optional sign and one or more decimal digits. *)
Definition int_syntax (s : gostr) : option Z :=
  let '(neg, ds) :=
    match s with
    | c :: s' => if bool_decide (c = "-"%char) then (true, s')
                 else if bool_decide (c = "+"%char) then (false, s') else (false, s)
    | [] => (false, [])
    end in
  if is_empty ds then None
  else match parse_digits 0 ds with
  | Some n => Some (if neg : bool then (- n)%Z else n)
  | None => None
  end.

(** [strconv.Atoi] and [strconv.ParseInt(s, 10, 64)]: a value that fits in 64 bits; [None] is
    any error. *)
Definition Atoi (s : gostr) : option Z :=
  match int_syntax s with
  | Some z => if bool_decide (in_int64 z) then Some z else None
  | None => None
  end.

(** Their value when the error is ignored: 0, or the nearest 64-bit integer. *)
Definition ParseInt_value (s : gostr) : Z :=
  match int_syntax s with
  | Some z => Z.max (- maxInt64 - 1) (Z.min maxInt64 z)
  | None => 0%Z
  end.

Fixpoint digits_go (fuel : nat) (n : Z) (acc : gostr) : gostr :=
  match fuel with
  | 0 => acc
  | S fuel =>
      let acc := byte (48 + n mod 10) :: acc in
      if (n <? 10)%Z then acc else digits_go fuel (n / 10) acc
  end.
(** [strconv.Itoa] and the verb [%d]: a number of [k] bits has at most [k] decimal digits. *)
Definition nat_digits (n : Z) : gostr := digits_go (S (Z.to_nat (Z.log2 n))) n [].
Definition Itoa (z : Z) : gostr :=
  if (z <? 0)%Z then "-" ++ nat_digits (- z) else nat_digits z.

Example itoa_ex : Itoa (-1207) = "-1207" /\ Itoa 0 = "0" /\ Atoi "+20" = Some 20%Z /\ Atoi "2x" = None.
Proof. vm_compute. auto. Qed.

(** Digits are never empty, and parse back. *)
Lemma digit_val_byte (d : Z) : (0 <= d < 10)%Z -> digit_val (byte (48 + d)) = Some d.
Proof.
  intros H. unfold digit_val, in_rangeb. rewrite code_byte by lia.
  destruct (Z.leb_spec 48 (48 + d)); [|lia]. destruct (Z.leb_spec (48 + d) 57); [|lia].
  simpl. f_equal. lia.
Qed.

Lemma parse_digits_go (fuel : nat) (n : Z) (acc : gostr) :
  (0 <= n)%Z -> (n < 10 ^ Z.of_nat fuel)%Z -> fuel <> 0 ->
  exists k, (0 <= k)%Z /\
    forall a, parse_digits a (digits_go fuel n acc) = parse_digits (a * 10 ^ k + n)%Z acc.
Proof.
  revert n acc. induction fuel as [|fuel IH]; intros n acc Hn Hlt Hf; [done|]. cbn [digits_go].
  pose proof (Z.mod_pos_bound n 10 eq_refl) as Hm.
  destruct (Z.ltb_spec n 10) as [H10|H10].
  - exists 1%Z. split; [lia|]. intros a. cbn [parse_digits]. rewrite digit_val_byte by lia.
    f_equal. rewrite Z.mod_small by lia. lia.
  - destruct fuel as [|fuel]; [change (Z.of_nat 1) with 1%Z in Hlt; lia|].
    assert (Hd : (n / 10 < 10 ^ Z.of_nat (S fuel))%Z).
    { apply Z.div_lt_upper_bound; [lia|]. rewrite <- Z.pow_succ_r by lia.
      by rewrite <- Nat2Z.inj_succ. }
    destruct (IH (n / 10)%Z (byte (48 + n mod 10) :: acc)) as (k & Hk & Hp); [|done|done|].
    { apply Z.div_pos; lia. }
    exists (k + 1)%Z. split; [lia|]. intros a. rewrite Hp. cbn [parse_digits].
    rewrite digit_val_byte by lia. f_equal.
    rewrite Z.pow_add_r by lia. pose proof (Z.div_mod n 10). lia.
Qed.

Lemma digits_go_digits (fuel : nat) (n : Z) (acc : gostr) :
  (0 <= n)%Z -> Forall (fun c => is_Some (digit_val c)) acc ->
  Forall (fun c => is_Some (digit_val c)) (digits_go fuel n acc).
Proof.
  revert n acc. induction fuel as [|fuel IH]; intros n acc Hn HF; simpl; [done|].
  assert (HF' : Forall (fun c => is_Some (digit_val c)) (byte (48 + n mod 10) :: acc)).
  { constructor; [|done]. pose proof (Z.mod_pos_bound n 10 eq_refl).
    rewrite digit_val_byte by done. eauto. }
  destruct (Z.ltb_spec n 10); [done|]. apply IH; [apply Z.div_pos; lia | done].
Qed.

Lemma digits_go_nonempty (fuel : nat) (n : Z) (acc : gostr) :
  fuel <> 0 -> digits_go fuel n acc <> [].
Proof.
  revert n acc. induction fuel as [|fuel IH]; intros n acc Hf; [done|]. cbn [digits_go].
  destruct (n <? 10)%Z; [done|]. destruct fuel as [|fuel]; [done|]. by apply IH.
Qed.

Lemma parse_nat_digits (n : Z) : (0 <= n)%Z -> parse_digits 0 (nat_digits n) = Some n.
Proof.
  intros Hn. unfold nat_digits.
  destruct (parse_digits_go (S (Z.to_nat (Z.log2 n))) n []) as (k & _ & Hk); [done| |done|].
  - rewrite Nat2Z.inj_succ, Z2Nat.id by apply Z.log2_nonneg.
    destruct (Z.eq_dec n 0%Z) as [->|Hz]; [done|].
    eapply Z.lt_le_trans; [apply Z.log2_spec; lia|].
    apply Z.pow_le_mono_l. lia.
  - rewrite Hk. simpl. f_equal.
Qed.

(** [strconv.Atoi] reads back what [%d] prints. *)
Lemma Atoi_Itoa (z : Z) : in_int64 z -> Atoi (Itoa z) = Some z.
Proof.
  intros Hz. unfold Itoa. destruct (Z.ltb_spec z 0) as [Hneg|Hpos].
  - change ("-" ++ nat_digits (- z)) with ("-"%char :: nat_digits (- z)). unfold Atoi, int_syntax.
    rewrite bool_decide_eq_true_2 by done.
    destruct (is_empty (nat_digits (- z))) eqn:E.
    { apply is_empty_true in E. by apply digits_go_nonempty in E. }
    rewrite parse_nat_digits by lia. rewrite Z.opp_involutive. by rewrite bool_decide_eq_true_2.
  - assert (Hd : Forall (fun c => is_Some (digit_val c)) (nat_digits z)).
    { by apply digits_go_digits. }
    pose proof (parse_nat_digits z Hpos) as Hp.
    destruct (nat_digits z) as [|c ds] eqn:E; [exfalso; revert E; by apply digits_go_nonempty|].
    unfold Atoi, int_syntax. apply list.Forall_cons in Hd as [Hc _].
    rewrite !bool_decide_eq_false_2 by (intros ->; by destruct Hc).
    simpl is_empty. cbv iota. rewrite Hp. by rewrite bool_decide_eq_true_2.
Qed.

(** ** float64

    [SpecFloat] is the Standard Library's reference implementation of IEEE-754; binary64 has
    53 bits of precision and exponents up to 1024, rounding to nearest even. *)
Definition float := spec_float.
Definition prec64 : Z := 53.
Definition emax64 : Z := 1024.
Definition float_of_Z (z : Z) : float := binary_normalize prec64 emax64 z 0 false.
Definition fadd : float -> float -> float := SFadd prec64 emax64.
Definition fsub : float -> float -> float := SFsub prec64 emax64.
Definition fmul : float -> float -> float := SFmul prec64 emax64.
Definition fdiv : float -> float -> float := SFdiv prec64 emax64.
Definition fltb : float -> float -> bool := SFltb.
Definition fleb : float -> float -> bool := SFleb.

(** [int(f)]: truncation toward zero (the conversion of a float out of range is
    implementation-specific in Go; here it wraps). *)
Definition int_of_float (f : float) : Z :=
  match f with
  | S754_finite s m e =>
      let a := if (0 <=? e)%Z then (Zpos m * 2 ^ e)%Z else (Zpos m / 2 ^ (- e))%Z in
      wrap64 (if s then (- a)%Z else a)
  | _ => 0%Z
  end.

(** [d.Seconds()] and [d.Minutes()] *)
Definition Seconds (d : Z) : float :=
  fadd (float_of_Z (Z.quot d Second)) (fdiv (float_of_Z (Z.rem d Second)) (float_of_Z Second)).
Definition Minutes (d : Z) : float :=
  fadd (float_of_Z (Z.quot d Minute)) (fdiv (float_of_Z (Z.rem d Minute)) (float_of_Z Minute)).
(** [d.Milliseconds()] is an integer. *)
Definition Milliseconds (d : Z) : Z := Z.quot d Millisecond.

(** [t.Sub(u)] saturates. *)
Definition time_sub (t u : Z) : Z := Z.max (- maxInt64 - 1) (Z.min maxInt64 (t - u)).

Example seconds_ex : int_of_float (Seconds (duration 30 Second)) = 30%Z /\
  int_of_float (Minutes (duration 31 Minute)) = 31%Z.
Proof. vm_compute. auto. Qed.

(** *** Integers below 2^53 are exact *)
Lemma digits2_log2 (p : positive) : Zpos (digits2_pos p) = (Z.log2 (Zpos p) + 1)%Z.
Proof.
  induction p as [p IH|p IH|]; [| |done].
  - change (Zpos (digits2_pos p~1)) with (Zpos (Pos.succ (digits2_pos p))).
    rewrite Pos2Z.inj_succ, IH, (Pos2Z.inj_xI p), Z.log2_succ_double by lia. lia.
  - change (Zpos (digits2_pos p~0)) with (Zpos (Pos.succ (digits2_pos p))).
    rewrite Pos2Z.inj_succ, IH, (Pos2Z.inj_xO p), Z.log2_double by lia. lia.
Qed.

Lemma iter_xO (p k : positive) : Zpos (Pos.iter xO p k) = (Zpos p * 2 ^ Zpos k)%Z.
Proof.
  induction k as [|k IH] using Pos.peano_ind; [simpl; lia|].
  rewrite Pos.iter_succ, (Pos2Z.inj_xO (Pos.iter xO p k)), IH, Pos2Z.inj_succ, Z.pow_succ_r by lia. lia.
Qed.

(** A 53-bit mantissa with a non-positive exponent needs no rounding. *)
Lemma round_aux_exact (m : positive) (e : Z) :
  Zpos (digits2_pos m) = 53%Z -> (- 100 <= e <= 0)%Z ->
  binary_round_aux prec64 emax64 false (Zpos m) e loc_Exact = S754_finite false m e.
Proof.
  intros Hd He. unfold binary_round_aux.
  assert (Hs : forall m' : Z, Zdigits2 m' = 53%Z ->
    shr_fexp prec64 emax64 m' e loc_Exact = (Build_shr_record m' false false, e)).
  { intros m' Hm. unfold shr_fexp, shr. rewrite Hm.
    replace (fexp prec64 emax64 (53 + e) - e)%Z with 0%Z by (unfold fexp, emin, prec64, emax64; lia). done. }
  rewrite (Hs (Zpos m) Hd). simpl. rewrite (Hs (Zpos m) Hd). simpl.
  destruct (Z.leb_spec e (emax64 - prec64)); [done | unfold emax64, prec64 in *; lia].
Qed.

Lemma float_of_pos_log (p : positive) :
  (Zpos p < 2 ^ 53)%Z ->
  (0 <= Z.log2 (Zpos p) <= 52)%Z /\
  exists m, float_of_Z (Zpos p) = S754_finite false m (Z.log2 (Zpos p) - 52) /\
    Zpos m = (Zpos p * 2 ^ (52 - Z.log2 (Zpos p)))%Z.
Proof.
  intros Hp. unfold float_of_Z. cbn [binary_normalize]. unfold binary_round. rewrite Z.add_0_r, digits2_log2.
  assert (Hl : (0 <= Z.log2 (Zpos p) < 53)%Z).
  { split; [apply Z.log2_nonneg | by apply Z.log2_lt_pow2]. }
  split; [lia|]. set (l := Z.log2 (Zpos p)) in *.
  replace (fexp prec64 emax64 (l + 1)) with (l - 52)%Z by (unfold fexp, emin, prec64, emax64; lia).
  unfold shl_align. rewrite Z.sub_0_r.
  destruct (l - 52)%Z as [|k|k] eqn:E; [| lia |].
  - exists p. rewrite round_aux_exact; [| rewrite digits2_log2; fold l; lia | lia].
    replace (52 - l)%Z with 0%Z by lia. split; [done | lia].
  - exists (Pos.iter xO p k). assert (Hk : Zpos k = (52 - l)%Z) by lia.
    rewrite round_aux_exact.
    + split; [done|]. rewrite <- Hk. apply iter_xO.
    + rewrite digits2_log2, iter_xO, Z.log2_mul_pow2 by lia. fold l. lia.
    + lia.
Qed.

Lemma float_of_pos (p : positive) :
  (Zpos p < 2 ^ 53)%Z ->
  exists m e, float_of_Z (Zpos p) = S754_finite false m e /\ (- 100 <= e <= 0)%Z /\
    Zpos m = (Zpos p * 2 ^ (- e))%Z.
Proof.
  intros Hp. destruct (float_of_pos_log p Hp) as (Hl & m & -> & Hm). eexists _, _. split; [done|].
  split; [lia|]. rewrite Hm. f_equal. f_equal. lia.
Qed.

Lemma int_of_float_of_Z (z : Z) : (0 <= z < 2 ^ 53)%Z -> int_of_float (float_of_Z z) = z.
Proof.
  intros Hz. destruct z as [|p|p]; [done| |lia].
  destruct (float_of_pos p) as (m & e & -> & He & Hm); [lia|]. simpl.
  assert (Hw : wrap64 (Zpos p) = Zpos p) by (apply wrap64_id; unfold in_int64; lia).
  destruct (Z.leb_spec 0 e).
  - replace e with 0%Z in * by lia. rewrite Hm, !Z.mul_1_r. exact Hw.
  - rewrite Hm, Z.div_mul by lia. exact Hw.
Qed.

(** Whole seconds and minutes read back exactly. *)
Lemma whole_units_exact (n unit : Z) :
  (0 < unit)%Z -> (0 <= n < 2 ^ 53)%Z -> fdiv (float_of_Z 0) (float_of_Z unit) = S754_zero false ->
  int_of_float (fadd (float_of_Z (Z.quot (n * unit) unit))
                     (fdiv (float_of_Z (Z.rem (n * unit) unit)) (float_of_Z unit))) = n.
Proof.
  intros Hu Hn Hz. rewrite Z.quot_mul, Z.rem_mul by lia. rewrite Hz.
  replace (fadd (float_of_Z n) (S754_zero false)) with (float_of_Z n); [by apply int_of_float_of_Z|].
  destruct n as [|p|p]; [done| |lia].
  destruct (float_of_pos p) as (m & e & -> & _); [lia | done].
Qed.

Lemma int_Seconds (n : Z) :
  (0 <= n <= maxInt64 / Second)%Z -> int_of_float (Seconds (duration n Second)) = n.
Proof.
  intros Hn. rewrite duration_exact by done.
  apply whole_units_exact; [done| |done]. change (maxInt64 / Second)%Z with 9223372036%Z in Hn. lia.
Qed.

Lemma int_Minutes (n : Z) :
  (0 <= n <= maxInt64 / Minute)%Z -> int_of_float (Minutes (duration n Minute)) = n.
Proof.
  intros Hn. rewrite duration_exact by done.
  apply whole_units_exact; [done| |done]. change (maxInt64 / Minute)%Z with 153722867%Z in Hn. lia.
Qed.

(** *** Comparing and decrementing exact integers *)
Lemma Pos_compare_scaled (p q m n : positive) (k : Z) :
  (0 <= k)%Z -> Zpos m = (Zpos p * 2 ^ k)%Z -> Zpos n = (Zpos q * 2 ^ k)%Z ->
  Pos.compare m n = Pos.compare p q.
Proof.
  intros Hk Hm Hn. change ((Zpos m ?= Zpos n)%Z = (Zpos p ?= Zpos q)%Z). rewrite Hm, Hn.
  assert (0 < 2 ^ k)%Z by (apply Z.pow_pos_nonneg; lia).
  destruct (Z.compare_spec (Zpos p) (Zpos q)) as [E|E|E].
  - rewrite E. apply Z.compare_refl.
  - apply Z.compare_lt_iff. nia.
  - apply Z.compare_gt_iff. nia.
Qed.

Lemma float_compare (x y : Z) :
  (0 <= x < 2 ^ 53)%Z -> (0 <= y < 2 ^ 53)%Z -> SFcompare (float_of_Z x) (float_of_Z y) = Some (x ?= y)%Z.
Proof.
  intros Hx Hy. destruct x as [|p|p]; [| |lia]; (destruct y as [|q|q]; [| |lia]).
  - done.
  - destruct (float_of_pos_log q ltac:(lia)) as (_ & n & -> & _). done.
  - destruct (float_of_pos_log p ltac:(lia)) as (_ & m & -> & _). done.
  - destruct (float_of_pos_log p ltac:(lia)) as (Hp & m & -> & Hm).
    destruct (float_of_pos_log q ltac:(lia)) as (Hq & n & -> & Hn). cbn [SFcompare]. f_equal.
    destruct (Z.compare_spec (Z.log2 (Zpos p) - 52) (Z.log2 (Zpos q) - 52)) as [E|E|E].
    + apply (Pos_compare_scaled p q m n (52 - Z.log2 (Zpos p))); [lia | done |].
      rewrite Hn. do 2 f_equal. lia.
    + symmetry. apply Z.compare_lt_iff. apply Z.log2_lt_cancel. lia.
    + symmetry. apply Z.compare_gt_iff. apply Z.log2_lt_cancel. lia.
Qed.

Lemma fltb_of_Z (x y : Z) :
  (0 <= x < 2 ^ 53)%Z -> (0 <= y < 2 ^ 53)%Z -> fltb (float_of_Z x) (float_of_Z y) = (x <? y)%Z.
Proof. intros Hx Hy. unfold fltb, SFltb. rewrite float_compare by done. done. Qed.

Lemma fleb_of_Z (x y : Z) :
  (0 <= x < 2 ^ 53)%Z -> (0 <= y < 2 ^ 53)%Z -> fleb (float_of_Z x) (float_of_Z y) = (x <=? y)%Z.
Proof. intros Hx Hy. unfold fleb, SFleb. rewrite float_compare by done. unfold Z.leb. by destruct (x ?= y)%Z. Qed.

(** Shifting right over zero bits loses nothing. *)
Lemma shr_1_even (q : positive) :
  shr_1 {| shr_m := Zpos (xO q); shr_r := false; shr_s := false |} =
  {| shr_m := Zpos q; shr_r := false; shr_s := false |}.
Proof. done. Qed.

Lemma iter_shr_1 (k q : positive) :
  Pos.iter shr_1 {| shr_m := Zpos (Pos.iter xO q k); shr_r := false; shr_s := false |} k =
  {| shr_m := Zpos q; shr_r := false; shr_s := false |}.
Proof.
  induction k as [|k IH] using Pos.peano_ind; [done|].
  rewrite Pos.iter_succ_r, Pos.iter_succ, shr_1_even. exact IH.
Qed.

Lemma iter_pos_iter {A} (f : A -> A) (k : positive) (x : A) : SpecFloat.iter_pos f k x = Pos.iter f x k.
Proof.
  revert x. induction k as [k IH|k IH|]; intros x; simpl; [| |done]; rewrite !IH; [|done].
  by rewrite !Pos.iter_swap.
Qed.

(** Rounding q * 2^52 * 2^-52 gives the float of q. *)
Lemma round_scaled (q : positive) :
  (Zpos q < 2 ^ 53)%Z -> binary_round prec64 emax64 false (Pos.iter xO q 52) (-52) = float_of_Z (Zpos q).
Proof.
  intros Hq. destruct (float_of_pos_log q Hq) as (Hl & m & -> & Hm).
  assert (Hd : Zpos (digits2_pos (Pos.iter xO q 52)) = (Z.log2 (Zpos q) + 53)%Z).
  { rewrite digits2_log2, iter_xO, Z.log2_mul_pow2 by lia. lia. }
  unfold binary_round. rewrite Hd. set (l := Z.log2 (Zpos q)) in *.
  replace (fexp prec64 emax64 (l + 53 + -52)) with (l - 52)%Z by (unfold fexp, emin, prec64, emax64; lia).
  unfold shl_align. replace (l - 52 - -52)%Z with l by lia.
  destruct l as [|k|k] eqn:E; [| |lia].
  - rewrite round_aux_exact; [|rewrite Hd; lia|lia]. f_equal. apply Pos2Z.inj. by rewrite iter_xO, Hm.
  - assert (Hmk : Pos.iter xO q 52 = Pos.iter xO m k).
    { apply Pos2Z.inj. rewrite !iter_xO, Hm, <- Z.mul_assoc, <- Z.pow_add_r by lia. do 2 f_equal. lia. }
    assert (Hdm : Zpos (digits2_pos m) = 53%Z).
    { rewrite digits2_log2, Hm, Z.log2_mul_pow2 by lia. fold l. lia. }
    rewrite <- (round_aux_exact m (Zpos k - 52) Hdm) by lia.
    unfold binary_round_aux.
    assert (He : shr_fexp prec64 emax64 (Zpos (Pos.iter xO q 52)) (-52) loc_Exact =
      shr_fexp prec64 emax64 (Zpos m) (Zpos k - 52) loc_Exact); [|by rewrite He].
    unfold shr_fexp, shr. cbn [Zdigits2]. rewrite Hd, Hdm.
    replace (fexp prec64 emax64 (Zpos k + 53 + -52) - -52)%Z with (Zpos k) by (unfold fexp, emin, prec64, emax64; lia).
    replace (fexp prec64 emax64 (53 + (Zpos k - 52)) - (Zpos k - 52))%Z with 0%Z by (unfold fexp, emin, prec64, emax64; lia).
    cbn [shr_record_of_loc]. rewrite iter_pos_iter, Hmk, iter_shr_1. by rewrite Z.add_comm.
Qed.

(** [f--] on an exact positive integer. *)
Lemma fsub_one (z : Z) : (1 <= z < 2 ^ 53)%Z -> fsub (float_of_Z z) (float_of_Z 1) = float_of_Z (z - 1).
Proof.
  intros Hz. destruct z as [|p|p]; [lia| |lia].
  destruct (float_of_pos_log p ltac:(lia)) as (Hl & m & -> & Hm).
  destruct (float_of_pos_log 1 ltac:(lia)) as (_ & n & -> & Hn).
  change (Z.log2 1) with 0%Z in *. set (l := Z.log2 (Zpos p)) in *.
  assert (Hshl : forall (r a : positive) (e : Z), (0 <= e <= 52)%Z -> Zpos a = (Zpos r * 2 ^ (52 - e))%Z ->
    Zpos (shl_align a (e - 52) (-52)).1 = (Zpos r * 2 ^ 52)%Z).
  { intros r a e He Ha. unfold shl_align. replace (-52 - (e - 52))%Z with (- e)%Z by lia.
    destruct e as [|e|e]; [| |lia]; simpl fst.
    - rewrite Ha. done.
    - rewrite iter_xO, Ha, <- Z.mul_assoc, <- Z.pow_add_r by lia. do 2 f_equal. lia. }
  unfold fsub. cbn [SFsub]. replace ((l - 52) `min` (0 - 52))%Z with (-52)%Z by lia.
  unfold cond_Zopp. rewrite (Hshl p m l), (Hshl 1%positive n 0%Z) by (lia || done).
  replace (Zpos p * 2 ^ 52 - 1 * 2 ^ 52)%Z with ((Zpos p - 1) * 2 ^ 52)%Z by lia.
  destruct (Zpos p - 1)%Z as [|q|q] eqn:Eq; [done| |lia].
  replace (Zpos q * 2 ^ 52)%Z with (Zpos (Pos.iter xO q 52)) by (rewrite iter_xO; done).
  cbn [binary_normalize]. apply round_scaled. lia.
Qed.
