(* ===== verification/GoFloat.v ===== *)
(** float64 arithmetic on moderate numbers: which results are finite.  The operations are those
    of [SpecFloat] (GoNum); a bound on the operands bounds the result. *)
From Stdlib Require Import SpecFloat.
From S2P Require Import Prelude Unicode GoStrings GoNum.
#[local] Open Scope Z_scope.

(** Neither infinite nor NaN. *)
Definition finite (f : float) : bool := match f with S754_zero _ | S754_finite _ _ _ => true | _ => false end.

(** Zero, or at most 2^k. *)
Definition below (k : Z) (f : float) : Prop :=
  match f with S754_zero _ => True | S754_finite _ m e => Zdigits2 (Zpos m) + e <= k | _ => False end.
(** What can be divided by. *)
Definition divisor (f : float) : Prop :=
  match f with S754_infinity _ => True | S754_finite _ _ e => -52 <= e | _ => False end.

Lemma below_finite k f : below k f -> finite f = true.
Proof. by destruct f. Qed.
Lemma below_le k k' f : k <= k' -> below k f -> below k' f.
Proof. intros Hk. destruct f; cbn [below]; lia. Qed.

(** ** Digits *)
Lemma digits_log2 (m : Z) : 0 < m -> Zdigits2 m = Z.log2 m + 1.
Proof. destruct m as [|p|p]; [lia | intros _; apply digits2_log2 | lia]. Qed.
Lemma digits_nonneg (m : Z) : 0 <= Zdigits2 m.
Proof. by destruct m. Qed.
Lemma digits_pos (m : Z) : 0 < m -> 1 <= Zdigits2 m.
Proof. intros Hm. rewrite digits_log2 by done. pose proof (Z.log2_nonneg m). lia. Qed.
(** The number of digits from a bound on the number. *)
Lemma digits_below (m n : Z) : 0 <= m < 2 ^ n -> 0 <= n -> Zdigits2 m <= n.
Proof.
  intros Hm Hn. destruct (decide (m = 0)) as [->|Hnz]; [done|]. rewrite digits_log2 by lia.
  assert (Z.log2 m < n) by (apply Z.log2_lt_pow2; lia). lia.
Qed.
Lemma digits_bound (m : Z) : 0 <= m -> m < 2 ^ Zdigits2 m.
Proof.
  intros Hm. destruct (decide (m = 0)) as [->|Hnz]; [done|]. rewrite digits_log2 by lia. apply Z.log2_spec. lia.
Qed.
Lemma digits_le (m n : Z) : 0 <= m <= n -> Zdigits2 m <= Zdigits2 n.
Proof. intros Hmn. apply digits_below; [|apply digits_nonneg]. pose proof (digits_bound n). lia. Qed.
Lemma digits_scaled (m n : Z) : 0 < m -> 0 <= n -> Zdigits2 (m * 2 ^ n) = Zdigits2 m + n.
Proof.
  intros Hm Hn. assert (0 < 2 ^ n) by (apply Z.pow_pos_nonneg; lia). rewrite !digits_log2 by nia. rewrite Z.log2_mul_pow2 by lia. lia.
Qed.

(** ** Rounding *)
Lemma shr_1_half mrs : 0 <= shr_m mrs -> shr_m (shr_1 mrs) = shr_m mrs / 2.
Proof.
  destruct mrs as [[|[p|p|]|p] r s]; cbn [shr_1 shr_m]; try done; intros _;
    [apply (Z.div_unique_pos _ _ _ 1) | apply (Z.div_unique_pos _ _ _ 0)]; lia.
Qed.
Lemma iter_shr_m (p : positive) mrs : 0 <= shr_m mrs -> shr_m (SpecFloat.iter_pos shr_1 p mrs) = shr_m mrs / 2 ^ Zpos p.
Proof.
  rewrite iter_pos_iter. intros Hm. induction p as [|p IH] using Pos.peano_ind; [by apply shr_1_half|].
  rewrite Pos.iter_succ, shr_1_half; rewrite IH; [|apply Z.div_pos; lia].
  rewrite Z.div_div, Pos2Z.inj_succ, Z.pow_succ_r by lia. by rewrite Z.mul_comm.
Qed.
Lemma record_of_loc_m m l : shr_m (shr_record_of_loc m l) = m.
Proof. by destruct l as [|[]]. Qed.

(** Shifting to the exponent of the format. *)
Lemma shr_fexp_spec (m e : Z) (l : location) : 0 <= m ->
  let '(mrs, e') := shr_fexp prec64 emax64 m e l in
  0 <= shr_m mrs /\ e' = Z.max e (fexp prec64 emax64 (Zdigits2 m + e)) /\
  (shr_m mrs = 0 -> m = 0 \/ Zdigits2 m + e <= -1074) /\ (0 < shr_m mrs -> Zdigits2 (shr_m mrs) + e' = Zdigits2 m + e).
Proof.
  intros Hm. unfold shr_fexp, shr. set (x := fexp _ _ _). assert (Hx : x = Z.max (Zdigits2 m + e - 53) (-1074)) by done.
  destruct (x - e) as [|p|p] eqn:Hp; rewrite ?iter_shr_m, ?record_of_loc_m by by rewrite record_of_loc_m.
  1, 3: split; [done|]; split; [lia|]; split; [by left | done].
  assert (Hpow : 0 < 2 ^ Zpos p) by (apply Z.pow_pos_nonneg; lia). split; [by apply Z.div_pos|]. split; [lia|].
  destruct (decide (m = 0)) as [->|Hnz]; [rewrite Z.div_0_l by lia; split; [by left | lia]|].
  rewrite digits_log2 in * by lia. split; intros Hq.
  - right. apply Z.div_small_iff in Hq as [Hq|Hq]; [|lia|lia]. assert (Z.log2 m < Zpos p) by (apply Z.log2_lt_pow2; lia). lia.
  - rewrite digits_log2 by done. rewrite <- Z.shiftr_div_pow2, Z.log2_shiftr by lia.
    assert (2 ^ Zpos p <= m) by (destruct (Z.le_gt_cases (2 ^ Zpos p) m); [done | rewrite Z.div_small in Hq; lia]).
    apply Z.log2_le_pow2 in H; lia.
Qed.

Lemma round_nearest_bounds (m : Z) (l : location) : m <= round_nearest_even m l <= m + 1.
Proof. destruct l as [|[]]; cbn; [lia | destruct (Z.even m); lia | lia | lia]. Qed.

(** A rounded number is never NaN, is infinite only when it is large, zero only when it is
    small, and otherwise at most one digit longer. *)
Lemma round_aux_spec (s : bool) (m e : Z) (l : location) : 0 <= m ->
  match binary_round_aux prec64 emax64 s m e l with
  | S754_nan => False
  | S754_infinity _ => 900 < Zdigits2 m + e
  | S754_zero _ => m = 0 \/ Zdigits2 m + e <= -1074
  | S754_finite _ m' e' => e <= e' /\ Zdigits2 (Zpos m') + e' <= Z.max (-1073) (Zdigits2 m + e + 1)
  end.
Proof.
  intros Hm. unfold binary_round_aux. pose proof (shr_fexp_spec m e l Hm) as H1.
  destruct (shr_fexp _ _ m e l) as [mrs1 e1]. destruct H1 as (Hm1 & He1 & Hz1 & Hd1).
  set (m1 := round_nearest_even _ _). pose proof (round_nearest_bounds (shr_m mrs1) (loc_of_shr_record mrs1)) as Hround. fold m1 in Hround.
  pose proof (shr_fexp_spec m1 e1 loc_Exact ltac:(lia)) as H2.
  destruct (shr_fexp _ _ m1 e1 loc_Exact) as [mrs2 e2]. destruct H2 as (Hm2 & He2 & Hz2 & Hd2).
  assert (Hgrow : Zdigits2 m1 <= Zdigits2 (shr_m mrs1) + 1).
  { apply digits_below; [|pose proof (digits_nonneg (shr_m mrs1)); lia]. pose proof (digits_bound (shr_m mrs1) Hm1).
    rewrite Z.pow_add_r by (pose proof (digits_nonneg (shr_m mrs1)); lia). change (2 ^ 1) with 2. lia. }
  assert (Hsame : Zdigits2 (shr_m mrs1) + e1 <= Z.max (-1074) (Zdigits2 m + e)).
  { destruct (decide (shr_m mrs1 = 0)) as [H0|H0]; [|rewrite Hd1 by lia; lia]. rewrite H0. cbn [Zdigits2].
    pose proof (digits_nonneg m). unfold fexp, emin, prec64, emax64 in He1. lia. }
  destruct (shr_m mrs2) as [|q|q] eqn:Hq; [| |lia].
  - destruct (Hz2 eq_refl) as [H0|H0]; [apply Hz1; lia|]. destruct (decide (shr_m mrs1 = 0)) as [H3|H3]; [by apply Hz1|].
    right. pose proof (digits_le (shr_m mrs1) m1 ltac:(lia)). rewrite <- Hd1 by lia. lia.
  - specialize (Hd2 ltac:(lia)). pose proof (digits_pos (Zpos q) ltac:(lia)). unfold fexp, emin, prec64, emax64 in *.
    destruct (Z.leb_spec e2 (1024 - 53)); lia.
Qed.
Lemma round_aux_below (s : bool) (m e k : Z) (l : location) :
  0 <= m -> Zdigits2 m + e <= k -> -1074 <= k <= 900 -> below (k + 1) (binary_round_aux prec64 emax64 s m e l).
Proof. intros Hm Hk Hr. pose proof (round_aux_spec s m e l Hm). destruct (binary_round_aux _ _ s m e l); cbn [below]; lia. Qed.

(** ** Integers *)
Lemma shl_align_value (p : positive) (e e' : Z) :
  Zpos (fst (shl_align p e e')) = (Zpos p * 2 ^ (e - snd (shl_align p e e'))) /\ snd (shl_align p e e') = Z.min e e' \/ e <= e' /\ shl_align p e e' = (p, e).
Proof.
  unfold shl_align. destruct (e' - e) as [|d|d] eqn:Hd; [right; split; [lia | done]..|]. left. cbn [fst snd]. rewrite iter_xO.
  split; [do 2 f_equal; lia | lia].
Qed.
Lemma shl_align_digits (p : positive) (e e' : Z) :
  Zdigits2 (Zpos (fst (shl_align p e e'))) + snd (shl_align p e e') = Zdigits2 (Zpos p) + e /\ Z.min e e' <= snd (shl_align p e e').
Proof.
  destruct (shl_align_value p e e') as [[Hv He]|[Hle ->]]; [|cbn [fst snd]; lia]. rewrite Hv. split; [|lia].
  rewrite digits_scaled by lia. lia.
Qed.
Lemma binary_round_spec (s : bool) (p : positive) (e : Z) :
  match binary_round prec64 emax64 s p e with
  | S754_nan => False
  | S754_infinity _ => 900 < Zdigits2 (Zpos p) + e
  | S754_zero _ => Zdigits2 (Zpos p) + e <= -1074
  | S754_finite _ m' e' => Z.min e (Zdigits2 (Zpos p) + e - 53) <= e' /\ Zdigits2 (Zpos m') + e' <= Z.max (-1073) (Zdigits2 (Zpos p) + e + 1)
  end.
Proof.
  unfold binary_round. set (x := fexp _ _ _). assert (Hx : x = Z.max (Zdigits2 (Zpos p) + e - 53) (-1074)) by done.
  destruct (shl_align_digits p e x) as [Hd He]. destruct (shl_align p e x) as [mz ez]. cbn [fst snd] in *.
  pose proof (round_aux_spec s (Zpos mz) ez loc_Exact ltac:(lia)) as Hr. rewrite Hd in Hr. destruct (binary_round_aux _ _ _ _ _ _); lia.
Qed.
Lemma normalize_below (m e k : Z) (s : bool) :
  Zdigits2 m + e <= k -> -1074 <= k <= 900 -> below (k + 1) (binary_normalize prec64 emax64 m e s).
Proof.
  intros Hk Hr. destruct m as [|p|p]; [done | |]; cbn [binary_normalize Zdigits2] in *;
    (match goal with |- below _ (binary_round _ _ ?b _ _) => pose proof (binary_round_spec b p e) as Hs end);
    destruct (binary_round _ _ _ p e); cbn [below Zdigits2] in *; lia.
Qed.

Lemma float_of_int64 (z : Z) : in_int64 z -> below 65 (float_of_Z z).
Proof.
  unfold in_int64. intros Hz. apply (normalize_below z 0 64); [|lia]. assert (Zdigits2 (Z.abs z) <= 64) by (apply digits_below; lia).
  replace (Zdigits2 z) with (Zdigits2 (Z.abs z)) by by destruct z. lia.
Qed.
Lemma float_of_pos_divisor (z : Z) : 0 < z -> divisor (float_of_Z z).
Proof.
  destruct z as [|p|p]; [lia | intros _ | lia]. unfold float_of_Z. cbn [binary_normalize]. pose proof (binary_round_spec false p 0) as Hs.
  pose proof (digits_pos (Zpos p) ltac:(lia)). destruct (binary_round _ _ _ p 0); cbn [divisor]; lia.
Qed.

(** ** The operations *)
Lemma fmul_below (j k : Z) (x y : float) : -500 <= j + k <= 900 -> below j x -> below k y -> below (j + k + 1) (fmul x y).
Proof.
  intros Hjk. destruct x as [s| | |s m e], y as [t| | |t n f]; try done. intros Hx Hy. unfold fmul. cbn [SFmul below] in *.
  apply round_aux_below; [lia | |lia]. change (Zpos (m * n)) with (Zpos m * Zpos n). rewrite !digits_log2 in * by lia.
  pose proof (Z.log2_mul_above (Zpos m) (Zpos n) ltac:(lia) ltac:(lia)). lia.
Qed.

Lemma fdiv_below (k : Z) (x y : float) : -500 <= k <= 800 -> below k x -> divisor y -> below (k + 53) (fdiv x y).
Proof.
  intros Hk. destruct x as [s| | |s m e], y as [t|t| |t n f]; try done. intros Hx Hy. unfold fdiv. cbn [SFdiv below divisor] in *.
  unfold SFdiv_core_binary. set (e' := Z.min _ (e - f)). assert (He' : e' <= e - f) by apply Z.le_min_r.
  assert (Hm : match e - f - e' with Z0 => Zpos m | Zpos _ => Z.shiftl (Zpos m) (e - f - e') | Zneg _ => 0 end = Zpos m * 2 ^ (e - f - e')).
  { destruct (e - f - e') eqn:Hs; [by rewrite Z.mul_1_r | by apply Z.shiftl_mul_pow2 | lia]. }
  rewrite Hm. pose proof (Z.div_eucl_eq (Zpos m * 2 ^ (e - f - e')) (Zpos n) ltac:(lia)) as Hdiv.
  pose proof (Z_mod_lt (Zpos m * 2 ^ (e - f - e')) (Zpos n) ltac:(lia)) as Hmod. unfold Z.modulo in Hmod.
  assert (Hpow : 0 < 2 ^ (e - f - e')) by (apply Z.pow_pos_nonneg; lia).
  destruct (Z.div_eucl _ (Zpos n)) as [q r]. assert (Hq : 0 <= q <= Zpos m * 2 ^ (e - f - e')) by nia.
  replace (k + 53) with (k + 52 + 1) by lia. apply round_aux_below; [lia | |lia].
  apply digits_le in Hq. rewrite digits_scaled in Hq by lia. lia.
Qed.

Lemma align_bound (p : positive) (e ez k : Z) : Zdigits2 (Zpos p) + e <= k -> ez <= e ->
  0 < Zpos (fst (shl_align p e ez)) < 2 ^ (k - ez).
Proof.
  intros Hk Hez. split; [lia|]. destruct (shl_align_digits p e ez) as [Hd He].
  assert (Hs : snd (shl_align p e ez) = ez) by (destruct (shl_align_value p e ez) as [[_ ->]|[Hle ->]]; cbn; lia).
  pose proof (digits_bound (Zpos (fst (shl_align p e ez))) ltac:(lia)) as Hb.
  eapply Z.lt_le_trans; [exact Hb|]. apply Z.pow_le_mono_r; lia.
Qed.
Lemma fadd_below (k : Z) (x y : float) : -500 <= k <= 800 -> below k x -> below k y -> below (k + 2) (fadd x y).
Proof.
  intros Hk. destruct x as [s| | |s m e], y as [t| | |t n f]; try done; unfold fadd; cbn [SFadd].
  - by destruct s, t.
  - intros _ Hy. cbn [below] in *. lia.
  - intros Hx _. cbn [below] in *. lia.
  - cbn [below]. intros Hx Hy. set (ez := Z.min e f).
    pose proof (align_bound m e ez k Hx ltac:(lia)) as Ha. pose proof (align_bound n f ez k Hy ltac:(lia)) as Hb.
    replace (k + 2) with (k + 1 + 1) by lia. apply normalize_below; [|lia].
    set (M := cond_Zopp s _ + cond_Zopp t _). replace (Zdigits2 M) with (Zdigits2 (Z.abs M)) by by destruct M.
    pose proof (digits_pos (Zpos m) ltac:(lia)). pose proof (digits_pos (Zpos n) ltac:(lia)).
    assert (Zdigits2 (Z.abs M) <= k - ez + 1); [|lia]. apply digits_below; [|lia]. rewrite Z.pow_add_r by lia. change (2 ^ 1) with 2.
    split; [apply Z.abs_nonneg|]. unfold M, cond_Zopp. destruct s, t; lia.
Qed.
