(* ===== verification/GoFmt.v ===== *)
(** strconv.ParseFloat and the verb %f on float64. *)
From Stdlib Require Import SpecFloat.
From S2P Require Import Prelude Unicode GoStrings GoNum.

(** ** ParseFloat

    Decimal syntax, infinities and NaN (a hexadecimal mantissa, which no MySQL server prints,
    is not read).  [None] is any error; an overflow is one. *)

(** A run of digits: its value after [acc], how many there are, and the rest. *)
Fixpoint read_digits (acc : Z) (n : nat) (s : gostr) : Z * nat * gostr :=
  match s with
  | c :: s' => match digit_val c with Some d => read_digits (acc * 10 + d) (S n) s' | None => (acc, n, s) end
  | [] => (acc, n, s)
  end.

Definition read_sign (s : gostr) : bool * gostr :=
  match s with
  | c :: s' => if bool_decide (c = "-"%char) then (true, s')
               else if bool_decide (c = "+"%char) then (false, s') else (false, s)
  | [] => (false, [])
  end.

(** The digits, the power of ten, and nothing after them. *)
Definition read_decimal (s : gostr) : option (Z * Z) :=
  let '(m, n1, s) := read_digits 0 0 s in
  let '(m, n2, s) :=
    match s with
    | c :: s' => if bool_decide (c = "."%char) then read_digits m 0 s' else (m, 0, s)
    | [] => (m, 0, s)
    end in
  if n1 + n2 =? 0 then None
  else
    let e := (- Z.of_nat n2)%Z in
    match s with
    | [] => Some (m, e)
    | c :: s =>
        if bool_decide (c = "e"%char) || bool_decide (c = "E"%char) then
          let '(neg, s) := read_sign s in
          let '(x, n, s) := read_digits 0 0 s in
          if (n =? 0) || negb (is_empty s) then None
          else Some (m, if neg : bool then (e - x)%Z else (e + x)%Z)
        else None
    end.

(** [m * 10^e], correctly rounded. *)
Definition decimal_float (neg : bool) (m e : Z) : float :=
  match m with
  | Zpos p =>
      if (0 <=? e)%Z then binary_normalize prec64 emax64 (if neg then - (m * 10 ^ e) else m * 10 ^ e)%Z 0 neg
      else match (10 ^ (- e))%Z with
      | Zpos d => fdiv (S754_finite neg p 0) (S754_finite false d 0)
      | _ => S754_nan
      end
  | _ => S754_zero neg
  end.

Definition ParseFloat (s : gostr) : option float :=
  let '(neg, body) := read_sign s in
  if EqualFold body "inf" || EqualFold body "infinity" then Some (S754_infinity neg)
  else if EqualFold s "nan" then Some S754_nan
  else match read_decimal body with
  | None => None
  | Some (m, e) =>
      match decimal_float neg m e with
      | S754_infinity _ => None
      | f => Some f
      end
  end.

Example parse_float_ex :
  ParseFloat "2.50" = Some (fdiv (float_of_Z 5) (float_of_Z 2)) /\ ParseFloat "-.5e1" = Some (float_of_Z (-5)) /\
  ParseFloat "1e400" = None /\ ParseFloat "1.2.3" = None /\ ParseFloat "." = None /\
  ParseFloat "0.1" = Some (S754_finite false 7205759403792794 (-56)).
Proof. vm_compute. auto 10. Qed.

(** ** %f: six decimals, the exact value rounded half to even *)
Definition round_div_even (n d : Z) : Z :=
  let q := (n / d)%Z in
  let r := (n mod d)%Z in
  if (2 * r <? d)%Z || ((2 * r =? d)%Z && Z.even q) then q else (q + 1)%Z.

(** [m * 2^e] in millionths. *)
Definition millionths (m : positive) (e : Z) : Z :=
  if (0 <=? e)%Z then (Zpos m * 2 ^ e * 1000000)%Z else round_div_even (Zpos m * 1000000) (2 ^ (- e)).

Definition pad6 (z : Z) : gostr := let s := Itoa z in repeat "0"%char (6 - length s) ++ s.
Definition sprint_f (f : float) : gostr :=
  let fixed (neg : bool) (u : Z) : gostr :=
    (if neg then "-" else []) ++ Itoa (u / 1000000) ++ "." ++ pad6 (u mod 1000000) in
  match f with
  | S754_zero neg => fixed neg 0%Z
  | S754_infinity true => "-Inf"
  | S754_infinity false => "+Inf"
  | S754_nan => "NaN"
  | S754_finite neg m e => fixed neg (millionths m e)
  end.

Example sprint_f_ex :
  sprint_f (fdiv (float_of_Z (-5)) (float_of_Z 2)) = "-2.500000" /\ sprint_f (float_of_Z 12) = "12.000000" /\
  sprint_f (fdiv (float_of_Z 1) (float_of_Z 3)) = "0.333333" /\ sprint_f (S754_zero true) = "-0.000000".
Proof. vm_compute. auto. Qed.

(** The bytes %f writes. *)
Definition f_byte (c : ascii) : bool := in_rangeb 48 57 c || in_set "+-.INafn" c.

Lemma digits_go_f_byte (fuel : nat) (n : Z) (acc : gostr) :
  (0 <= n)%Z -> Forall (fun c => f_byte c = true) acc -> Forall (fun c => f_byte c = true) (digits_go fuel n acc).
Proof.
  revert n acc. induction fuel as [|fuel IH]; intros n acc Hn HF; cbn [digits_go]; [done|].
  assert (HF' : Forall (fun c => f_byte c = true) (byte (48 + n mod 10) :: acc)).
  { constructor; [|done]. pose proof (Z.mod_pos_bound n 10 eq_refl) as Hm.
    unfold f_byte, in_rangeb. rewrite code_byte by lia.
    destruct (Z.leb_spec 48 (48 + n mod 10)); [|lia]. by destruct (Z.leb_spec (48 + n mod 10) 57); [|lia]. }
  destruct (n <? 10)%Z; [done|]. apply IH; [apply Z.div_pos; lia | done].
Qed.

Lemma Itoa_f_byte (z : Z) : Forall (fun c => f_byte c = true) (Itoa z).
Proof.
  unfold Itoa, nat_digits. destruct (Z.ltb_spec z 0).
  - apply list.Forall_app. split; [by constructor|]. apply digits_go_f_byte; [lia | constructor].
  - apply digits_go_f_byte; [lia | constructor].
Qed.

Lemma sprint_f_bytes (f : float) : Forall (fun c => f_byte c = true) (sprint_f f).
Proof.
  assert (Hfixed : forall (neg : bool) u, Forall (fun c => f_byte c = true)
    ((if neg then "-" else []) ++ Itoa (u / 1000000) ++ "." ++ pad6 (u mod 1000000))).
  { intros neg u. rewrite !list.Forall_app. split; [by destruct neg; repeat constructor|].
    split; [apply Itoa_f_byte|]. split; [by repeat constructor|].
    unfold pad6. apply list.Forall_app. split; [|apply Itoa_f_byte].
    by induction (6 - length (Itoa (u mod 1000000))); cbn; [constructor | constructor]. }
  destruct f as [s|[]| |s m e]; try (by repeat constructor); apply Hfixed.
Qed.

(** ** %.2f *)
Definition hundredths (m : positive) (e : Z) : Z :=
  if (0 <=? e)%Z then (Zpos m * 2 ^ e * 100)%Z else round_div_even (Zpos m * 100) (2 ^ (- e)).
Definition pad2 (z : Z) : gostr := let s := Itoa z in repeat "0"%char (2 - length s) ++ s.
Definition sprint_f2 (f : float) : gostr :=
  let fixed (neg : bool) (u : Z) : gostr := (if neg then "-" else []) ++ Itoa (u / 100) ++ "." ++ pad2 (u mod 100) in
  match f with
  | S754_zero neg => fixed neg 0%Z
  | S754_infinity true => "-Inf"
  | S754_infinity false => "+Inf"
  | S754_nan => "NaN"
  | S754_finite neg m e => fixed neg (hundredths m e)
  end.
Example sprint_f2_ex :
  sprint_f2 (fdiv (float_of_Z 199) (float_of_Z 2)) = "99.50" /\ sprint_f2 (fdiv (float_of_Z 1) (float_of_Z 3)) = "0.33" /\
  sprint_f2 (float_of_Z 100) = "100.00".
Proof. vm_compute. auto. Qed.
