(* ===== verification/GoNet.v ===== *)
(** The parts of Go's packages [net], [net/url] and [path] that the configuration
    and the HTTP transport use: IP addresses, [SplitHostPort], the accessors of a
    parsed URL, and [path.Clean]. *)
From S2P Require Import Prelude Unicode GoStrings GoNum GoFmt.

(** ** net.ParseIP

    An address is its 16 bytes; an IPv4 address is stored in IPv4-mapped form, as
    [net.ParseIP] returns it. *)
Definition ip := list Z.

Definition v4_prefix : list Z := [0; 0; 0; 0; 0; 0; 0; 0; 0; 0; 255; 255]%Z.

(** One decimal octet: digits, no leading zero, at most 255. *)
Definition parse_octet (w : gostr) : option Z :=
  match w with
  | [] => None
  | "0"%char :: _ :: _ => None
  | _ => match parse_digits 0 w with
         | Some n => if (n <=? 255)%Z then Some n else None
         | None => None
         end
  end.

Definition parse_v4 (s : gostr) : option (list Z) :=
  match map parse_octet (Split s "."%char) with
  | [Some a; Some b; Some c; Some d] => Some [a; b; c; d]
  | _ => None
  end.

Definition hex_val (c : ascii) : option Z :=
  if in_rangeb 48 57 c then Some (code c - 48)%Z
  else if in_rangeb 97 102 c then Some (code c - 87)%Z
  else if in_rangeb 65 70 c then Some (code c - 55)%Z
  else None.

(** The leading hexadecimal digits of a group: how many, their value and what follows;
    [None] when there are more than four. *)
Fixpoint hex_group (off : nat) (acc : Z) (s : gostr) : option (nat * Z * gostr) :=
  match s with
  | c :: s' =>
      match hex_val c with
      | Some d => if 3 <? off then None else hex_group (S off) (16 * acc + d) s'
      | None => Some (off, acc, s)
      end
  | [] => Some (off, acc, s)
  end.

(** The loop of [parseIPv6] over the bytes read so far and the position of the ellipsis;
    each round adds at least two bytes, so eight rounds are enough. *)
Fixpoint parse_v6_groups (fuel : nat) (bytes : list Z) (ellipsis : option nat) (s : gostr)
  : option (list Z * option nat * gostr) :=
  match fuel with
  | 0 => Some (bytes, ellipsis, s)
  | S fuel =>
      match hex_group 0 0 s with
      | None | Some (0, _, _) => None
      | Some (_, acc, rest) =>
          match rest with
          | "."%char :: _ =>
              if (match ellipsis with None => negb (length bytes =? 12) | Some _ => false end)
                 || (16 <? length bytes + 4) then None
              else match parse_v4 s with
                   | Some v4 => Some (bytes ++ v4, ellipsis, [])
                   | None => None
                   end
          | [] => Some (bytes ++ [acc / 256; acc mod 256]%Z, ellipsis, [])
          | [":"%char] => None
          | ":"%char :: s' =>
              let bytes := bytes ++ [acc / 256; acc mod 256]%Z in
              match s' with
              | ":"%char :: s'' =>
                  match ellipsis with
                  | Some _ => None
                  | None =>
                      if is_empty s'' then Some (bytes, Some (length bytes), [])
                      else parse_v6_groups fuel bytes (Some (length bytes)) s''
                  end
              | _ => parse_v6_groups fuel bytes ellipsis s'
              end
          | _ => None
          end
      end
  end.

(** Expand the ellipsis to the zero groups it stands for (at least one). *)
Definition expand_v6 (bytes : list Z) (ellipsis : option nat) : option ip :=
  if length bytes <? 16 then
    match ellipsis with
    | None => None
    | Some e => Some (take e bytes ++ replicate (16 - length bytes) 0%Z ++ drop e bytes)
    end
  else match ellipsis with Some _ => None | None => Some bytes end.

Definition parse_v6 (s : gostr) : option ip :=
  let '(ellipsis, s) := if HasPrefix s "::" then (Some 0, drop 2 s) else (None, s) in
  if bool_decide (ellipsis = Some 0) && is_empty s then Some (replicate 16 0%Z)
  else match parse_v6_groups 8 [] ellipsis s with
       | Some (bytes, ellipsis, []) => expand_v6 bytes ellipsis
       | _ => None
       end.

(** [net.ParseIP]: the first of [.], [:] and [%] decides the family; a zone is refused. *)
Definition ParseIP (s : gostr) : option ip :=
  match List.find (in_set ".:%") s with
  | Some "."%char => app v4_prefix <$> parse_v4 s
  | Some ":"%char => if Contains s "%" then None else parse_v6 s
  | _ => None
  end.

Definition To4 (a : ip) : option (list Z) :=
  if bool_decide (take 12 a = v4_prefix) then Some (drop 12 a) else None.

Definition is_v4 (a : ip) : bool := bool_decide (is_Some (To4 a)).

Definition IsLoopback (a : ip) : bool :=
  match To4 a with
  | Some v4 => bool_decide (head v4 = Some 127%Z)
  | None => bool_decide (a = replicate 15 0%Z ++ [1%Z])
  end.

(** ** IP.String *)
Fixpoint groups_of (a : list Z) : list Z :=
  match a with h :: l :: a => (256 * h + l)%Z :: groups_of a | _ => [] end.

Definition hex_digit (d : Z) : ascii := byte (if (d <? 10)%Z then 48 + d else 87 + d).
Definition hex_of (g : Z) : gostr :=
  drop_while (fun c => bool_decide (c = "0"%char))
    [hex_digit (g / 4096); hex_digit (g / 256 mod 16); hex_digit (g / 16 mod 16)]
  ++ [hex_digit (g mod 16)].

Fixpoint zero_run (gs : list Z) : nat :=
  match gs with g :: gs => if (g =? 0)%Z then S (zero_run gs) else 0 | [] => 0 end.
(** Start and length of the first longest run of zero groups. *)
Fixpoint longest_run (i : nat) (gs : list Z) (best : nat * nat) : nat * nat :=
  match gs with
  | [] => best
  | _ :: gs' =>
      longest_run (S i) gs' (if best.2 <? zero_run gs then (i, zero_run gs) else best)
  end.

Definition String_v6 (a : ip) : gostr :=
  let gs := groups_of a in
  let '(start, len) := longest_run 0 gs (0, 1) in
  if len <? 2 then Join (map hex_of gs) ":"
  else Join (map hex_of (take start gs)) ":" ++ "::" ++ Join (map hex_of (drop (start + len) gs)) ":".

Definition IP_String (a : ip) : gostr :=
  match To4 a with
  | Some v4 => Join (map Itoa v4) "."
  | None => String_v6 a
  end.

Example ip_ex :
  IP_String <$> ParseIP "0:0:0:0:0:0:0:1" = Some "::1" /\
  IP_String <$> ParseIP "2001:DB8::00a1:0:0:7" = Some "2001:db8::a1:0:0:7" /\
  IP_String <$> ParseIP "::ffff:10.0.0.1" = Some "10.0.0.1" /\
  IP_String <$> ParseIP "fe80::" = Some "fe80::" /\
  ParseIP "1.2.3" = None /\ ParseIP "01.2.3.4" = None /\ ParseIP "::1%lo" = None /\
  ParseIP "1:2:3:4:5:6::8" = ParseIP "1:2:3:4:5:6:0:8" /\ ParseIP "1:2:3:4:5:6:7::8" = None /\ ParseIP "12345::" = None /\
  IsLoopback <$> ParseIP "127.8.8.8" = Some true /\ IsLoopback <$> ParseIP "0.0.0.0" = Some false.
Proof. vm_compute. repeat split. Qed.

(** ** net.SplitHostPort: host and port, or [None] for any of its errors *)
Definition SplitHostPort (hostport : gostr) : option (gostr * gostr) :=
  match LastIndex hostport ":" with
  | None => None
  | Some i =>
      let port := drop (i + 1) hostport in
      if HasPrefix hostport "[" then
        match Index hostport "]" with
        | None => None
        | Some stop =>
            if negb (stop + 1 =? i) then None
            else if Contains (drop 1 hostport) "[" || Contains (drop (stop + 1) hostport) "]" then None
            else Some (take (stop - 1) (drop 1 hostport), port)
        end
      else
        if Contains (take i hostport) ":" then None
        else if Contains hostport "[" || Contains hostport "]" then None
        else Some (take i hostport, port)
  end.

Example split_host_port_ex :
  SplitHostPort "[::1]:80" = Some ("::1", "80") /\ SplitHostPort "::1" = None /\
  SplitHostPort "h:1" = Some ("h", "1") /\ SplitHostPort "h" = None.
Proof. vm_compute. repeat split. Qed.

(** [net.JoinHostPort] *)
Definition JoinHostPort (host port : gostr) : gostr :=
  if Contains host ":" then "[" ++ host ++ "]:" ++ port else host ++ ":" ++ port.

(** ** net/url

    [url.Parse] is an operation of this class; the model uses the fields the code reads
    and the accessors below, which only split [Host]. *)
Record URL := { Scheme : gostr; Host : gostr; Path : gostr; RawQuery : gostr; Fragment : gostr; HasUser : bool }.
Class UrlParse := url_parse : gostr -> option URL.
(** Its documented syntax, [scheme://[userinfo@]host/path?query#fragment]: a host has no
    slash, a query follows a [?] and a fragment a [#], and without the two the text of a URL
    with a host ends with the path, which begins with a slash that is not escaped. *)
Class UrlLaws `(UrlParse) := {
  url_host : forall o u, url_parse o = Some u -> "/"%char ∉ Host u;
  url_plain : forall o u, url_parse o = Some u -> ContainsAny o "?#" = false ->
    RawQuery u = [] /\ Fragment u = [] /\ (Host u <> [] -> Path u = "/" -> HasSuffix o "/" = true)
}.

Definition validOptionalPort (s : gostr) : bool :=
  match s with
  | [] => true
  | c :: s => bool_decide (c = ":"%char) && forallb (in_rangeb 48 57) s
  end.

Definition split_url_host (hostPort : gostr) : gostr * gostr :=
  let '(host, port) :=
    match LastIndex hostPort ":" with
    | Some colon =>
        if validOptionalPort (drop colon hostPort)
        then (take colon hostPort, drop (colon + 1) hostPort) else (hostPort, [])
    | None => (hostPort, [])
    end in
  (if HasPrefix host "[" && HasSuffix host "]" then take (length host - 2) (drop 1 host) else host, port).
Definition Hostname (u : URL) : gostr := fst (split_url_host (Host u)).
Definition Port (u : URL) : gostr := snd (split_url_host (Host u)).

(** ** path.Clean *)
Fixpoint clean_elems (rooted : bool) (stack elems : list gostr) : list gostr :=
  match elems with
  | [] => rev stack
  | e :: elems =>
      if is_empty e || (e =?s ".") then clean_elems rooted stack elems
      else if e =?s ".." then
        match stack with
        | top :: below =>
            if top =?s ".." then clean_elems rooted (e :: stack) elems else clean_elems rooted below elems
        | [] => clean_elems rooted (if rooted then [] else [e]) elems
        end
      else clean_elems rooted (e :: stack) elems
  end.
Definition Clean (p : gostr) : gostr :=
  let rooted := HasPrefix p "/" in
  let body := Join (clean_elems rooted [] (Split p "/"%char)) "/" in
  if rooted then "/" ++ body else if is_empty body then "." else body.

Example clean_ex :
  Clean "/mcp" = "/mcp" /\ Clean "/a//b/../c/" = "/a/c" /\ Clean "/../a" = "/a" /\
  Clean "../a/./b" = "../a/b" /\ Clean "a/.." = "." /\ Clean "/" = "/".
Proof. vm_compute. repeat split. Qed.

(** ** Facts about addresses and hosts *)
Lemma ParseIP_length (s : gostr) (a : ip) : ParseIP s = Some a -> 16 <= length a.
Proof.
  assert (H4 : forall v, parse_v4 s = Some v -> 16 <= length (v4_prefix ++ v)).
  { intros v. unfold parse_v4. repeat case_match; try done. intros [= <-]. cbn. lia. }
  assert (H6 : forall b e a, expand_v6 b e = Some a -> 16 <= length a).
  { intros b e a'. unfold expand_v6. destruct (Nat.ltb_spec (length b) 16); destruct e; intros [= <-]; [|lia].
    rewrite !length_app, length_replicate, length_take, length_drop. lia. }
  assert (Hv4 : app v4_prefix <$> parse_v4 s = Some a -> 16 <= length a) by (intros (v & Hv & ->)%fmap_Some; by apply H4).
  assert (Hv6 : (if Contains s "%" then None else parse_v6 s) = Some a -> 16 <= length a).
  { destruct (Contains s "%"); [done|]. unfold parse_v6. destruct (if HasPrefix s "::" then _ else _) as [e t].
    destruct (_ && _); [intros [= <-]; cbn; lia|].
    destruct (parse_v6_groups 8 [] e t) as [[[bytes e'] [|]]|]; try done. apply H6. }
  unfold ParseIP. by destruct (List.find _ s) as [[[] [] [] [] [] [] [] []]|].
Qed.

Lemma Join_elem (ws : list gostr) (sep : gostr) (c : ascii) : c ∈ Join ws sep -> c ∈ sep \/ exists w, w ∈ ws /\ c ∈ w.
Proof.
  induction ws as [|w ws IH]; cbn; [intros Hc; by apply not_elem_of_nil in Hc|].
  destruct ws as [|w2 ws]; [intros Hc; right; exists w; split; [apply list_elem_of_here | done]|].
  rewrite !elem_of_app. intros [Hc|[Hc|Hc]]; [right; exists w; split; [apply list_elem_of_here | done] | by left|].
  destruct (IH Hc) as [?|(v & Hv & Hcv)]; [by left | right; exists v; split; [by apply list_elem_of_further | done]].
Qed.

(** The text of an IPv4 address. *)
Lemma v4_text (s : gostr) (a : ip) : ParseIP s = Some a -> is_v4 a = true ->
  IP_String a <> [] /\ ("/"%char ∉ IP_String a).
Proof.
  intros Hs%ParseIP_length. unfold is_v4, IP_String, To4. rewrite bool_decide_eq_true. case_bool_decide; [intros _ | by intros [? [=]]].
  split.
  - destruct (drop 12 a) as [|z l] eqn:Hd; [apply (f_equal length) in Hd; rewrite length_drop in Hd; cbn in Hd; lia|].
    assert (Hz : Itoa z <> []) by (unfold Itoa, nat_digits; destruct (z <? 0)%Z; [done | by apply digits_go_nonempty]).
    cbn. destruct (Itoa z) eqn:E; [done|]. by destruct (map Itoa l).
  - intros [Hin|(w & (z & -> & _)%list_elem_of_fmap & Hin)]%Join_elem.
    + apply list_elem_of_In in Hin. by destruct Hin as [Hin|[]].
    + pose proof (Itoa_f_byte z) as Hf. rewrite Forall_forall in Hf. by specialize (Hf _ Hin).
Qed.

(** The host and the port are pieces of [Host]; the port has digits only. *)
Lemma Hostname_elem (u : URL) (c : ascii) : c ∈ Hostname u -> c ∈ Host u.
Proof.
  unfold Hostname, split_url_host. intros Hc.
  assert (Hsub : forall x, c ∈ (if HasPrefix x "[" && HasSuffix x "]" then take (length x - 2) (drop 1 x) else x) -> c ∈ x).
  { intros x. destruct (_ && _); [|done]. intros H1%subseteq_take. by apply subseteq_drop in H1. }
  destruct (LastIndex (Host u) ":") as [i|]; [destruct (validOptionalPort _)|]; cbn [fst] in Hc; apply Hsub in Hc; try done.
  by apply subseteq_take in Hc.
Qed.
Lemma Port_digits (u : URL) (c : ascii) : c ∈ Port u -> in_rangeb 48 57 c = true.
Proof.
  unfold Port, split_url_host. destruct (LastIndex (Host u) ":") as [i|]; [destruct (validOptionalPort _) eqn:Hv|]; cbn [snd];
    try (intros Hc; by apply not_elem_of_nil in Hc).
  rewrite <- drop_drop. destruct (drop i (Host u)) as [|d ds]; [intros Hc; by apply not_elem_of_nil in Hc|].
  cbn in Hv |- *. apply andb_true_iff in Hv as [_ Hv]. rewrite forallb_forall in Hv. intros Hc%list_elem_of_In. by apply Hv.
Qed.

(** A concrete parser for the examples: a scheme, a host and a path, nothing escaped. *)
Definition plain_url : UrlParse := fun o =>
  match Cut o "://" with
  | (scheme, rest, true) =>
      if ContainsAny rest "?#%@" then None
      else
        let i := default (length rest) (Index rest "/") in
        Some {| Scheme := ToLower scheme; Host := take i rest; Path := drop i rest; RawQuery := []; Fragment := []; HasUser := false |}
  | _ => None
  end.
#[export] Instance plain_url_laws : UrlLaws plain_url.
Proof.
  split; intros o u; unfold url_parse, plain_url; destruct (Cut o "://") as [[scheme rest] []] eqn:Hcut; try done;
    (destruct (ContainsAny rest "?#%@"); [done|]); intros [= <-]; cbn.
  - destruct (Index rest "/") as [i|] eqn:Hi; cbn; [by apply Index_first_byte in Hi|].
    rewrite firstn_all. apply not_Contains_byte. unfold Contains. by rewrite Hi.
  - intros _. repeat split. intros _ Hp. unfold Cut in Hcut. destruct (Index o "://") as [j|]; [|done]. injection Hcut as _ <-.
    apply (proj2 (HasSuffix_spec o "/")). set (i := default _ _) in Hp. exists (take (j + 3) o ++ take i (drop (j + 3) o)).
    rewrite <- app_assoc, <- Hp. clearbody i. by rewrite (take_drop i), (take_drop (j + 3)).
Qed.
