(* ===== verification/GoHash.v ===== *)
(** Parts of Go's packages [crypto/md5], [crypto/sha256], [encoding/base64] and the verb [%x]
    that the SSH tunnel uses, on words of 32 bits. *)
From S2P Require Import Prelude Unicode GoStrings GoNet.

(** ** Words *)
Definition word (z : Z) : Z := (z mod 2 ^ 32)%Z.
Definition add32 (x y : Z) : Z := word (x + y).
Definition not32 (x : Z) : Z := Z.lxor x 0xffffffff.
Definition rotl (n x : Z) : Z := Z.lor (word (Z.shiftl x n)) (Z.shiftr x (32 - n)).
Definition rotr (n x : Z) : Z := rotl (32 - n) x.

(** A number in [n] bytes, least or most significant first. *)
Fixpoint bytes_le (n : nat) (z : Z) : gostr :=
  match n with O => [] | S n => byte (z mod 256) :: bytes_le n (z / 256) end.
Definition bytes_be (n : nat) (z : Z) : gostr := rev (bytes_le n z).
Fixpoint number_le (s : gostr) : Z := match s with [] => 0%Z | c :: s => (code c + 256 * number_le s)%Z end.
Definition number_be (s : gostr) : Z := number_le (rev s).

(** The groups of [n] elements; the last one may be shorter. *)
Fixpoint groups {A} (fuel n : nat) (l : list A) : list (list A) :=
  match fuel, l with
  | O, _ | _, [] => []
  | S fuel, _ => take n l :: groups fuel n (drop n l)
  end.
Definition chunks {A} (n : nat) (l : list A) : list (list A) := groups (length l) n l.

(** The padding of both digests: a bit 1, zeros up to 56 bytes modulo 64, and the length in
    bits. *)
Definition padded (length_bytes : Z -> gostr) (s : gostr) : gostr :=
  let n := Z.of_nat (length s) in
  s ++ byte 0x80 :: repeat (byte 0) (Z.to_nat ((55 - n) mod 64)) ++ length_bytes ((8 * n) mod 2 ^ 64)%Z.

(** ** crypto/md5 *)
Definition md5_table : list Z :=
  [0xd76aa478; 0xe8c7b756; 0x242070db; 0xc1bdceee; 0xf57c0faf; 0x4787c62a; 0xa8304613; 0xfd469501;
   0x698098d8; 0x8b44f7af; 0xffff5bb1; 0x895cd7be; 0x6b901122; 0xfd987193; 0xa679438e; 0x49b40821;
   0xf61e2562; 0xc040b340; 0x265e5a51; 0xe9b6c7aa; 0xd62f105d; 0x02441453; 0xd8a1e681; 0xe7d3fbc8;
   0x21e1cde6; 0xc33707d6; 0xf4d50d87; 0x455a14ed; 0xa9e3e905; 0xfcefa3f8; 0x676f02d9; 0x8d2a4c8a;
   0xfffa3942; 0x8771f681; 0x6d9d6122; 0xfde5380c; 0xa4beea44; 0x4bdecfa9; 0xf6bb4b60; 0xbebfbc70;
   0x289b7ec6; 0xeaa127fa; 0xd4ef3085; 0x04881d05; 0xd9d4d039; 0xe6db99e5; 0x1fa27cf8; 0xc4ac5665;
   0xf4292244; 0x432aff97; 0xab9423a7; 0xfc93a039; 0x655b59c3; 0x8f0ccc92; 0xffeff47d; 0x85845dd1;
   0x6fa87e4f; 0xfe2ce6e0; 0xa3014314; 0x4e0811a1; 0xf7537e82; 0xbd3af235; 0x2ad7d2bb; 0xeb86d391]%Z.
Definition md5_shifts : list Z := [7; 12; 17; 22; 5; 9; 14; 20; 4; 11; 16; 23; 6; 10; 15; 21]%Z.

Definition quad : Type := Z * Z * Z * Z.
Definition md5_round (m : list Z) (q : quad) (i : nat) : quad :=
  let '(a, b, c, d) := q in
  let '(f, g) :=
    match i / 16 with
    | 0 => (Z.lor (Z.land b c) (Z.land (not32 b) d), i)
    | 1 => (Z.lor (Z.land d b) (Z.land (not32 d) c), 5 * i + 1)
    | 2 => (Z.lxor b (Z.lxor c d), 3 * i + 5)
    | _ => (Z.lxor c (Z.lor b (not32 d)), 7 * i)
    end in
  let t := add32 (add32 a f) (add32 (nth i md5_table 0%Z) (nth (g mod 16) m 0%Z)) in
  (d, add32 b (rotl (nth (4 * (i / 16) + i mod 4) md5_shifts 0%Z) t), b, c).
Definition md5_block (q : quad) (block : gostr) : quad :=
  let '(a, b, c, d) := q in
  let '(a', b', c', d') := fold_left (md5_round (map number_le (chunks 4 block))) (seq 0 64) q in
  (add32 a a', add32 b b', add32 c c', add32 d d').
Definition md5_Sum (s : gostr) : gostr :=
  let '(a, b, c, d) :=
    fold_left md5_block (chunks 64 (padded (bytes_le 8) s)) (0x67452301, 0xefcdab89, 0x98badcfe, 0x10325476)%Z in
  bytes_le 4 a ++ bytes_le 4 b ++ bytes_le 4 c ++ bytes_le 4 d.

(** ** crypto/sha256 *)
(** Both tables are defined by roots: the first 32 bits of the fractional parts of the cube
    roots of the first 64 primes, and of the square roots of the first eight. *)
Definition is_prime (n : nat) : bool := forallb (fun d => negb (n mod d =? 0)) (seq 2 (n - 2)).
Definition primes : list Z := map Z.of_nat (base.filter (fun n => is_prime n = true) (seq 2 310)).
(** The integer cube root, one bit at a time. *)
Fixpoint cube_root (bits : nat) (r n : Z) : Z :=
  match bits with
  | O => r
  | S bits =>
      let q := (r + 2 ^ Z.of_nat bits)%Z in
      cube_root bits (if (q * q * q <=? n)%Z then q else r) n
  end.
Definition sha256_table : list Z := Eval vm_compute in map (fun p => word (cube_root 35 0 (p * 2 ^ 96))) primes.
Definition sha256_start : list Z := Eval vm_compute in map (fun p => word (Z.sqrt (p * 2 ^ 64))) (take 8 primes).

Definition xor3 (x y z : Z) : Z := Z.lxor x (Z.lxor y z).
(** The schedule, its newest word first. *)
Definition sha256_extend (w : list Z) : list Z :=
  let w15 := nth 14 w 0%Z in
  let w2 := nth 1 w 0%Z in
  let s0 := xor3 (rotr 7 w15) (rotr 18 w15) (Z.shiftr w15 3) in
  let s1 := xor3 (rotr 17 w2) (rotr 19 w2) (Z.shiftr w2 10) in
  add32 (add32 (nth 15 w 0%Z) s0) (add32 (nth 6 w 0%Z) s1) :: w.
Definition sha256_schedule (block : gostr) : list Z :=
  rev (Nat.iter 48 sha256_extend (rev (map number_be (chunks 4 block)))).
Definition sha256_round (h : list Z) (kw : Z * Z) : list Z :=
  match h with
  | [a; b; c; d; e; f; g; k] =>
      let ch := Z.lxor (Z.land e f) (Z.land (not32 e) g) in
      let maj := xor3 (Z.land a b) (Z.land a c) (Z.land b c) in
      let t1 := add32 (add32 k (xor3 (rotr 6 e) (rotr 11 e) (rotr 25 e))) (add32 ch (add32 (fst kw) (snd kw))) in
      let t2 := add32 (xor3 (rotr 2 a) (rotr 13 a) (rotr 22 a)) maj in
      [add32 t1 t2; a; b; c; add32 d t1; e; f; g]
  | _ => h
  end.
Definition sha256_block (h : list Z) (block : gostr) : list Z :=
  zip_with add32 h (fold_left sha256_round (zip sha256_table (sha256_schedule block)) h).
Definition sha256_Sum (s : gostr) : gostr :=
  concat (map (bytes_be 4) (fold_left sha256_block (chunks 64 (padded (bytes_be 8) s)) sha256_start)).

(** ** The verb [%x] on bytes, and base64 without padding *)
Definition hex_byte (c : ascii) : gostr := [hex_digit (code c / 16); hex_digit (code c mod 16)].
Definition sprint_x (s : gostr) : gostr := concat (map hex_byte s).

Definition base64_digit (d : Z) : ascii :=
  byte (if d <? 26 then 65 + d else if d <? 52 then 71 + d else if d <? 62 then d - 4 else if d =? 62 then 43 else 47)%Z.
Definition base64_digits (z : Z) : gostr := map (fun sh => base64_digit (Z.shiftr z sh mod 64)) [18; 12; 6; 0]%Z.
(** Three bytes give four digits; a last group gives one digit more than it has bytes. *)
Fixpoint RawStdEncoding (s : gostr) : gostr :=
  match s with
  | a :: b :: c :: s => base64_digits (number_be [a; b; c]) ++ RawStdEncoding s
  | [a; b] => take 3 (base64_digits (number_be [a; b; byte 0]))
  | [a] => take 2 (base64_digits (number_be [a; byte 0; byte 0]))
  | [] => []
  end.

Example md5_vectors :
  sprint_x (md5_Sum []) = "d41d8cd98f00b204e9800998ecf8427e" /\
  sprint_x (md5_Sum "abc") = "900150983cd24fb0d6963f7d28e17f72" /\
  sprint_x (md5_Sum "12345678901234567890123456789012345678901234567890123456789012345678901234567890") = "57edf4a22be3c955ac49da2e2107b67a".
Proof. vm_compute. repeat split. Qed.
Example sha256_vectors :
  sprint_x (sha256_Sum "abc") = "ba7816bf8f01cfea414140de5dae2223b00361a396177a9cb410ff61f20015ad" /\
  sprint_x (sha256_Sum "abcdbcdecdefdefgefghfghighijhijkijkljklmklmnlmnomnopnopq") =
    "248d6a61d20638b8e5c026930c3e6039a33ce45964ff2167f6ecedd419db06c1".
Proof. vm_compute. repeat split. Qed.
Example base64_vectors :
  RawStdEncoding "foobar" = "Zm9vYmFy" /\ RawStdEncoding "fooba" = "Zm9vYmE" /\ RawStdEncoding "foob" = "Zm9vYg" /\
  RawStdEncoding [byte 255; byte 254] = "//4".
Proof. vm_compute. repeat split. Qed.

(** ** Both texts determine the bytes *)
Lemma base64_digit_inj (d e : Z) :
  (0 <= d < 64)%Z -> (0 <= e < 64)%Z -> base64_digit d = base64_digit e -> d = e.
Proof.
  intros Hd He Heq. apply (f_equal code) in Heq. unfold base64_digit in Heq. rewrite !code_byte in Heq by (repeat case_match; lia).
  repeat case_match; lia.
Qed.

Lemma number_be3 (a b c : ascii) : number_be [a; b; c] = (65536 * code a + 256 * code b + code c)%Z.
Proof. unfold number_be. cbn [rev app number_le]. lia. Qed.

(** The digits of two numbers agree exactly when their groups of six bits do. *)
Lemma base64_digit_eq (z y sh : Z) :
  base64_digit (Z.shiftr z sh mod 64) = base64_digit (Z.shiftr y sh mod 64) -> (Z.shiftr z sh mod 64 = Z.shiftr y sh mod 64)%Z.
Proof. apply base64_digit_inj; by apply Z.mod_pos_bound. Qed.

#[local] Ltac Zify.zify_post_hook ::= Z.to_euclidean_division_equations.
Lemma sextets (z : Z) :
  (z = 4096 * (64 * (Z.shiftr z 18) + Z.shiftr z 12 mod 64) + 64 * (Z.shiftr z 6 mod 64) + Z.shiftr z 0 mod 64)%Z.
Proof.
  rewrite !Z.shiftr_div_pow2 by lia. change (2 ^ 18)%Z with 262144%Z. change (2 ^ 12)%Z with 4096%Z.
  change (2 ^ 6)%Z with 64%Z. change (2 ^ 0)%Z with 1%Z. lia.
Qed.
Lemma sextets_eq (z y : Z) :
  (0 <= z < 2 ^ 24)%Z -> (0 <= y < 2 ^ 24)%Z ->
  (Z.shiftr z 18 mod 64 = Z.shiftr y 18 mod 64)%Z -> (Z.shiftr z 12 mod 64 = Z.shiftr y 12 mod 64)%Z ->
  (Z.shiftr z 6 mod 64 = Z.shiftr y 6 mod 64)%Z -> (Z.shiftr z 0 mod 64 = Z.shiftr y 0 mod 64)%Z -> z = y.
Proof.
  intros Hz Hy H18. rewrite !Z.mod_small in H18.
  { intros H12 H6 H0. rewrite (sextets z), (sextets y). congruence. }
  all: rewrite Z.shiftr_div_pow2 by lia; change (2 ^ 18)%Z with 262144%Z; change (2 ^ 24)%Z with 16777216%Z in *; lia.
Qed.
(** The bits of the bytes that are not there. *)
Lemma no_bits (a b : ascii) : (Z.shiftr (65536 * code a + 256 * code b + 0) 0 mod 64 = 0)%Z.
Proof. rewrite Z.shiftr_0_r. lia. Qed.
Lemma no_bits2 (a : ascii) : (Z.shiftr (65536 * code a + 256 * 0 + 0) 6 mod 64 = 0)%Z.
Proof. rewrite Z.shiftr_div_pow2 by lia. change (2 ^ 6)%Z with 64%Z. lia. Qed.

Lemma list_ind3 {A} (P : list A -> Prop) :
  P [] -> (forall a, P [a]) -> (forall a b, P [a; b]) -> (forall a b c s, P s -> P (a :: b :: c :: s)) -> forall s, P s.
Proof. intros H0 H1 H2 H3. fix IH 1. intros [|a [|b [|c s]]]; [done..|]. by apply H3, IH. Qed.

Lemma group_eq (a b c a' b' c' : ascii) :
  number_be [a; b; c] = number_be [a'; b'; c'] -> a = a' /\ b = b' /\ c = c'.
Proof.
  rewrite !number_be3. pose proof (code_range a). pose proof (code_range a'). pose proof (code_range b). pose proof (code_range b').
  pose proof (code_range c). pose proof (code_range c'). intros Heq. repeat split; apply code_inj; lia.
Qed.
Lemma number_be3_range (a b c : ascii) : (0 <= number_be [a; b; c] < 2 ^ 24)%Z.
Proof.
  rewrite number_be3. pose proof (code_range a). pose proof (code_range b). pose proof (code_range c).
  change (2 ^ 24)%Z with 16777216%Z. lia.
Qed.

Lemma RawStdEncoding_inj (s t : gostr) : RawStdEncoding s = RawStdEncoding t -> s = t.
Proof.
  revert t. induction s as [|a|a b|a b c s IH] using list_ind3; intros [|a' [|b' [|c' t]]] Heq; try done;
    cbn [RawStdEncoding base64_digits map take app] in Heq; try discriminate Heq; injection Heq; clear Heq; intros;
    repeat match goal with H : base64_digit _ = base64_digit _ |- _ => apply base64_digit_eq in H end.
  - assert (Hg : a = a' /\ byte 0 = byte 0 /\ byte 0 = byte 0); [apply group_eq, sextets_eq | by destruct Hg as (-> & _)];
      try apply number_be3_range; try done; rewrite !number_be3; [by rewrite !no_bits2 | by rewrite !(no_bits _ (byte 0))].
  - assert (Hg : a = a' /\ b = b' /\ byte 0 = byte 0); [apply group_eq, sextets_eq | by destruct Hg as (-> & -> & _)];
      try apply number_be3_range; try done; rewrite !number_be3; by rewrite !no_bits.
  - assert (Hg : a = a' /\ b = b' /\ c = c'); [apply group_eq, sextets_eq | destruct Hg as (-> & -> & ->); by rewrite (IH t)];
      try apply number_be3_range; done.
Qed.

Lemma hex_byte_inj (c d : ascii) : hex_byte c = hex_byte d -> c = d.
Proof.
  intros [= Hhi Hlo]. pose proof (code_range c). pose proof (code_range d). apply code_inj.
  apply (f_equal code) in Hhi, Hlo. unfold hex_digit in *. rewrite !code_byte in Hhi, Hlo by (repeat case_match; lia).
  repeat case_match; lia.
Qed.
Lemma sprint_x_inj (s t : gostr) : sprint_x s = sprint_x t -> s = t.
Proof.
  revert t. induction s as [|c s IH]; intros [|d t] Heq; try done.
  change (hex_byte c ++ sprint_x s = hex_byte d ++ sprint_x t) in Heq. apply app_inj_1 in Heq as [Hc Hs]; [|done].
  f_equal; [by apply hex_byte_inj | by apply IH].
Qed.
