(* ===== verification/Regex.v ===== *)
(** Go regular expressions (RE2 syntax, leftmost-first semantics) as far as the
    server uses them: byte classes, case-insensitive literals, [\b], [^],
    alternation, optional parts and greedy repetition.

    A position in the text is the byte before it and the bytes after it.
    [matches] is the declarative semantics; [run] is the backtracking matcher,
    which lists the end positions in priority order; the two agree
    ([elem_of_run]).  All classes of the server's patterns are ASCII, apart
    from the two non-ASCII runes that case folding adds to "s" and "k", so the
    byte-level matcher agrees with the rune-level one. *)
From S2P Require Import Prelude Unicode GoStrings.

(** ** Syntax *)
Inductive re :=
| Eps
| Chr (p : ascii -> bool)        (** one byte of a class *)
| Cat (r1 r2 : re)
| Alt (r1 r2 : re)               (** [r1|r2], [r1] preferred *)
| Star (r : re)                  (** greedy [r*] *)
| Bot                            (** [^]: the beginning of the text *)
| WordB.                         (** [\b]: an ASCII word boundary *)

Record pos := Pos { before : option ascii; after : gostr }.

Definition step_over (c : ascii) (rest : gostr) : pos := Pos (Some c) rest.

Definition is_word (c : ascii) : bool :=
  in_rangeb 48 57 c || in_rangeb 65 90 c || in_rangeb 97 122 c || bool_decide (c = "_"%char).

Definition word_before (p : pos) : bool := match before p with Some c => is_word c | None => false end.
Definition word_after (p : pos) : bool := match after p with c :: _ => is_word c | [] => false end.
Definition at_boundary (p : pos) : bool := xorb (word_before p) (word_after p).
Definition at_begin (p : pos) : bool := match before p with None => true | Some _ => false end.

(** ** Declarative semantics *)
Inductive matches : re -> pos -> pos -> Prop :=
| m_eps p : matches Eps p p
| m_chr f b c rest : f c = true -> matches (Chr f) (Pos b (c :: rest)) (step_over c rest)
| m_cat r1 r2 p q t : matches r1 p q -> matches r2 q t -> matches (Cat r1 r2) p t
| m_alt_l r1 r2 p q : matches r1 p q -> matches (Alt r1 r2) p q
| m_alt_r r1 r2 p q : matches r2 p q -> matches (Alt r1 r2) p q
| m_star_nil r p : matches (Star r) p p
| m_star_cons r p q t :
    matches r p q -> length (after q) < length (after p) ->
    matches (Star r) q t -> matches (Star r) p t
| m_bot p : at_begin p = true -> matches Bot p p
| m_wordb p : at_boundary p = true -> matches WordB p p.

(** ** The matcher *)
Fixpoint star_run (m : pos -> list pos) (fuel : nat) (p : pos) : list pos :=
  match fuel with
  | 0 => [p]
  | S fuel =>
      concat (map (fun q => if length (after q) <? length (after p)
                            then star_run m fuel q else []) (m p)) ++ [p]
  end.

(** The end positions of the matches of [r] at [p], in priority order. *)
Fixpoint run (r : re) (p : pos) : list pos :=
  match r with
  | Eps => [p]
  | Chr f => match after p with
             | c :: rest => if f c then [step_over c rest] else []
             | [] => []
             end
  | Cat r1 r2 => concat (map (run r2) (run r1 p))
  | Alt r1 r2 => run r1 p ++ run r2 p
  | Star r => star_run (run r) (length (after p)) p
  | Bot => if at_begin p then [p] else []
  | WordB => if at_boundary p then [p] else []
  end.

(** Unanchored search from [p]: the start and end of the leftmost match. *)
Fixpoint search_from (r : re) (b : option ascii) (s : gostr) : option (pos * pos) :=
  match run r (Pos b s) with
  | q :: _ => Some (Pos b s, q)
  | [] => match s with
          | c :: s' => search_from r (Some c) s'
          | [] => None
          end
  end.
Definition search (r : re) (s : gostr) : option (pos * pos) := search_from r None s.

(** [re.MatchString(s)] *)
Definition MatchString (r : re) (s : gostr) : bool :=
  match search r s with Some _ => true | None => false end.

(** [re.FindStringIndex(s)]: start and end offsets. *)
Definition FindStringIndex (r : re) (s : gostr) : option (nat * nat) :=
  match search r s with
  | Some (p, q) => Some (length s - length (after p), length s - length (after q))
  | None => None
  end.

(** ** Combinators *)
Definition opt (r : re) : re := Alt r Eps.
Definition plus (r : re) : re := Cat r (Star r).
Definition cats (rs : list re) : re := foldr Cat Eps rs.
Definition chr (c : ascii) : re := Chr (fun d => bool_decide (d = c)).
(** A literal, matched exactly. *)
Definition lit (s : gostr) : re := cats (map chr s).
(** The bytes of a multi-byte rune. *)
Definition bytes_of (zs : list Z) : re := cats (map (fun z => chr (byte z)) zs).
(** [\s]: tab, newline, form feed, carriage return, space. *)
Definition space_byte (c : ascii) : bool := in_set [ch_tab; ch_newline; "012"%char; ch_return; " "%char] c.
Fixpoint times (n : nat) (r : re) : re := match n with 0 => Eps | S n => Cat r (times n r) end.

(** ** The matcher is the semantics *)
Lemma elem_of_concat_map {A B} (f : A -> list B) (l : list A) (y : B) :
  y ∈ concat (map f l) <-> exists x, x ∈ l /\ y ∈ f x.
Proof.
  rewrite list_elem_of_In, in_concat. setoid_rewrite in_map_iff. setoid_rewrite list_elem_of_In.
  split.
  - intros (? & (x & <- & Hx) & Hy). eauto.
  - intros (x & Hx & Hy). eauto.
Qed.

Lemma star_run_sound (r : re) :
  (forall p q, q ∈ run r p -> matches r p q) ->
  forall fuel p q, q ∈ star_run (run r) fuel p -> matches (Star r) p q.
Proof.
  intros Hr fuel. induction fuel as [|fuel IH]; intros p q; simpl.
  - rewrite list_elem_of_singleton. intros ->. constructor.
  - rewrite elem_of_app, elem_of_concat_map, list_elem_of_singleton.
    intros [(x & Hx & Hq) | ->]; [|constructor].
    destruct (Nat.ltb_spec (length (after x)) (length (after p))); [|by apply not_elem_of_nil in Hq].
    eapply m_star_cons; eauto.
Qed.

Lemma run_sound (r : re) (p q : pos) : q ∈ run r p -> matches r p q.
Proof.
  revert p q. induction r as [|f|r1 IHr1 r2 IHr2|r1 IHr1 r2 IHr2|r IHr| |]; intros p q; simpl.
  - rewrite list_elem_of_singleton. intros ->. constructor.
  - destruct p as [b [|c rest]]; simpl; [by intros ?%not_elem_of_nil|].
    destruct (f c) eqn:Hc; [|by intros ?%not_elem_of_nil].
    rewrite list_elem_of_singleton. intros ->. by constructor.
  - rewrite elem_of_concat_map. intros (x & Hx & Hq). econstructor; eauto.
  - rewrite elem_of_app. intros [H|H]; [by apply m_alt_l, IHr1 | by apply m_alt_r, IHr2].
  - apply star_run_sound, IHr.
  - destruct (at_begin p) eqn:?; [|by intros ?%not_elem_of_nil].
    rewrite list_elem_of_singleton. intros ->. by constructor.
  - destruct (at_boundary p) eqn:?; [|by intros ?%not_elem_of_nil].
    rewrite list_elem_of_singleton. intros ->. by constructor.
Qed.

Lemma star_run_complete (r : re) (p q : pos) :
  (forall p q, matches r p q -> q ∈ run r p) ->
  matches (Star r) p q -> forall fuel, length (after p) <= fuel -> q ∈ star_run (run r) fuel p.
Proof.
  intros Hr H. remember (Star r) as r' eqn:Er. induction H; try done; injection Er as ->.
  - intros [|fuel] _; simpl; [by left|]. apply elem_of_app. right. by left.
  - intros [|fuel] Hf; [lia|]. simpl. apply elem_of_app. left.
    apply elem_of_concat_map. exists q. split; [by apply Hr|].
    destruct (Nat.ltb_spec (length (after q)) (length (after p))); [|lia].
    apply IHmatches2; [done|lia].
Qed.

Lemma run_complete (r : re) (p q : pos) : matches r p q -> q ∈ run r p.
Proof.
  revert p q. induction r as [|f|r1 IHr1 r2 IHr2|r1 IHr1 r2 IHr2|r IHr| |]; intros p1 q1 H.
  5: { simpl. apply (star_run_complete _ _ _ IHr H). done. }
  all: inversion H; subst; simpl.
  - by left.
  - match goal with E : f _ = true |- _ => rewrite E end. by left.
  - apply elem_of_concat_map. eauto.
  - apply elem_of_app. left. by apply IHr1.
  - apply elem_of_app. right. by apply IHr2.
  - match goal with E : at_begin _ = true |- _ => rewrite E end. by left.
  - match goal with E : at_boundary _ = true |- _ => rewrite E end. by left.
Qed.

Lemma elem_of_run (r : re) (p q : pos) : q ∈ run r p <-> matches r p q.
Proof. split; [apply run_sound | apply run_complete]. Qed.

(** A position of the text [s]: a prefix, given by its last byte, and the rest. *)
Definition pos_of (a b : gostr) : pos := Pos (list.last a) b.

Lemma search_from_spec (r : re) (a s : gostr) :
  is_Some (search_from r (list.last a) s) <->
  exists u v q, s = u ++ v /\ matches r (pos_of (a ++ u) v) q.
Proof.
  revert a. induction s as [|c s IH]; intros a; simpl.
  - destruct (run r (Pos (list.last a) [])) as [|q l] eqn:E; split.
    + by intros [? ?].
    + intros (u & v & q & Hs & Hm). symmetry in Hs. apply app_eq_nil in Hs as [-> ->].
      rewrite app_nil_r in Hm. apply elem_of_run in Hm. unfold pos_of in Hm.
      rewrite E in Hm. by apply not_elem_of_nil in Hm.
    + intros _. exists [], [], q. split; [done|]. rewrite app_nil_r.
      apply elem_of_run. unfold pos_of. rewrite E. left.
    + eauto.
  - destruct (run r (Pos (list.last a) (c :: s))) as [|q l] eqn:E; split.
    + replace (Some c) with (list.last (a ++ [c])) by apply last_snoc. rewrite IH.
      intros (u & v & q & -> & Hm). exists (c :: u), v, q. split; [done|].
      by rewrite <- app_assoc in Hm.
    + intros (u & v & q & Hs & Hm).
      replace (Some c) with (list.last (a ++ [c])) by apply last_snoc. rewrite IH.
      destruct u as [|d u].
      * simpl in Hs. subst v. rewrite app_nil_r in Hm. apply elem_of_run in Hm.
        unfold pos_of in Hm. rewrite E in Hm. by apply not_elem_of_nil in Hm.
      * injection Hs as <- ->. exists u, v, q. split; [done|]. by rewrite <- app_assoc.
    + intros _. exists [], (c :: s), q. split; [done|]. rewrite app_nil_r.
      apply elem_of_run. unfold pos_of. rewrite E. left.
    + eauto.
Qed.

(** [MatchString] holds exactly when the expression matches somewhere in the text. *)
Lemma MatchString_spec (r : re) (s : gostr) :
  MatchString r s = true <-> exists u v q, s = u ++ v /\ matches r (pos_of u v) q.
Proof.
  pose proof (search_from_spec r [] s) as H. unfold MatchString, search. simpl in *.
  rewrite <- H. destruct (search_from r None s); split; try done; eauto; by intros [? ?].
Qed.

(** ** Literals *)
Lemma matches_cat (r1 r2 : re) (p t : pos) :
  matches (Cat r1 r2) p t <-> exists q, matches r1 p q /\ matches r2 q t.
Proof.
  split; [intros H; inversion H; subst; eauto | intros (q & ? & ?); by econstructor].
Qed.

Lemma matches_chr (c : ascii) (p q : pos) :
  matches (chr c) p q <-> exists rest, after p = c :: rest /\ q = step_over c rest.
Proof.
  unfold chr. split.
  - intros H. inversion H as [|f b d rest Hf| | | | | | |]; subst.
    apply bool_decide_eq_true in Hf as ->. by exists rest.
  - destruct p as [b s]. simpl. intros (rest & -> & ->). constructor. by apply bool_decide_eq_true.
Qed.

Lemma matches_eps (p q : pos) : matches Eps p q <-> q = p.
Proof. split; [intros H; by inversion H | intros ->; constructor]. Qed.

Lemma matches_lit (w : gostr) (p q : pos) :
  matches (lit w) p q <->
  exists rest, after p = w ++ rest /\
    q = match list.last w with Some c => step_over c rest | None => p end.
Proof.
  unfold lit. revert p. induction w as [|c w IH]; intros p; simpl.
  - rewrite matches_eps. split; [intros ->; eauto | by intros (? & _ & ->)].
  - rewrite matches_cat. setoid_rewrite matches_chr. setoid_rewrite IH. split.
    + intros (m & (r & Hp & ->) & rest & Hr & ->). simpl in Hr. subst r.
      exists rest. split; [done|]. destruct w as [|d w]; [done|].
      change (list.last (c :: d :: w)) with (list.last (d :: w)).
      destruct (list.last (d :: w)) eqn:E; [done|]. by apply last_None in E.
    + intros (rest & Hp & ->). eexists. split; [eauto|].
      exists rest. split; [done|]. destruct w as [|d w]; [done|].
      change (list.last (c :: d :: w)) with (list.last (d :: w)).
      destruct (list.last (d :: w)) eqn:E; [done|]. by apply last_None in E.
Qed.

(** A pattern that is a literal is a substring test. *)
Lemma MatchString_lit (w s : gostr) : MatchString (lit w) s = Contains s w.
Proof.
  apply eq_true_iff_eq. rewrite MatchString_spec, Contains_spec. split.
  - intros (u & v & q & -> & Hm). apply matches_lit in Hm as (rest & Hv & _).
    simpl in Hv. subst v. eauto.
  - intros (a & b & ->). exists a, (w ++ b). eexists. split; [done|].
    apply matches_lit. exists b. split; done.
Qed.

(** ** Compilation of the pattern syntax ([regexp.MustCompile])

    The subset of RE2 the server's patterns use: the flag groups [(?i)] and
    [(?is)] in front, literals, the escapes [\b \s \w \d] and escaped
    punctuation, bracket classes of characters and ranges, groups, alternation,
    [^], and the repetitions [* + ?] and [{n,}].  [None] is a syntax error. *)
Definition fold_class (f : ascii -> bool) (c : ascii) : bool :=
  f c || f (lower_byte c) || f (upper_byte c).
(** A class; with [i], closed under simple case folding. *)
Definition class_re (i : bool) (f : ascii -> bool) : re :=
  if i then
    let g := fold_class f in
    let r := Chr g in
    let r := if g "s"%char then Alt r (bytes_of [197; 191]%Z) else r in
    if g "k"%char then Alt r (bytes_of [226; 132; 170]%Z) else r
  else Chr f.
Definition char_re (i : bool) (c : ascii) : re := class_re i (fun d => bool_decide (d = c)).

Definition is_digit (c : ascii) : bool := in_rangeb 48 57 c.

(** The items of a bracket class, after the opening bracket. *)
Fixpoint parse_class (f : ascii -> bool) (s : gostr) : option ((ascii -> bool) * gostr) :=
  match s with
  | c :: s1 =>
      if bool_decide (c = "]"%char) then Some (f, s1)
      else match s1 with
      | d :: ((e :: s3) as s2) =>
          if bool_decide (d = "-"%char) && negb (bool_decide (e = "]"%char))
          then parse_class (fun x => f x || in_rangeb (code c) (code e) x) s3
          else parse_class (fun x => f x || bool_decide (x = c)) s1
      | _ => parse_class (fun x => f x || bool_decide (x = c)) s1
      end
  | [] => None
  end.

(** [{n,}], after the opening brace. *)
Definition digit_of (c : ascii) : option nat :=
  if is_digit c then Some (Z.to_nat (code c - 48)) else None.
Fixpoint parse_min (n : nat) (s : gostr) : option (nat * gostr) :=
  match s with
  | c :: s1 =>
      match digit_of c with
      | Some d => parse_min (n * 10 + d) s1
      | None => if HasPrefix s ",}" then Some (n, drop 2 s) else None
      end
  | [] => None
  end.

(** A repetition operator after the atom [r], if any. *)
Definition parse_suffix (r : re) (s : gostr) : option (re * gostr) :=
  if HasPrefix s "*" then Some (Star r, drop 1 s)
  else if HasPrefix s "+" then Some (plus r, drop 1 s)
  else if HasPrefix s "?" then Some (opt r, drop 1 s)
  else if HasPrefix s "{" then
    match parse_min 0 (drop 1 s) with
    | Some (n, s) => Some (Cat (times n r) (Star r), s)
    | None => None
    end
  else Some (r, s).

(** The escape of the character [c]. *)
Definition escape_re (i : bool) (c : ascii) : re :=
  if bool_decide (c = "b"%char) then WordB
  else if bool_decide (c = "s"%char) then Chr space_byte
  else if bool_decide (c = "w"%char) then class_re i is_word
  else if bool_decide (c = "d"%char) then Chr is_digit
  else Chr (fun d => bool_decide (d = c)).

Fixpoint parse_alt (fuel : nat) (i : bool) (s : gostr) : option (re * gostr) :=
  match fuel with
  | 0 => None
  | S fuel =>
      match parse_cat fuel i s with
      | Some (r1, s1) =>
          if HasPrefix s1 "|" then
            match parse_alt fuel i (drop 1 s1) with
            | Some (r2, s2) => Some (Alt r1 r2, s2)
            | None => None
            end
          else Some (r1, s1)
      | None => None
      end
  end
with parse_cat (fuel : nat) (i : bool) (s : gostr) : option (re * gostr) :=
  match fuel with
  | 0 => None
  | S fuel =>
      if is_empty s || HasPrefix s "|" || HasPrefix s ")" then Some (Eps, s)
      else
        match parse_atom fuel i s with
        | Some (r1, s1) =>
            match parse_suffix r1 s1 with
            | Some (r1, s1) =>
                match parse_cat fuel i s1 with
                | Some (r2, s2) => Some (Cat r1 r2, s2)
                | None => None
                end
            | None => None
            end
        | None => None
        end
  end
with parse_atom (fuel : nat) (i : bool) (s : gostr) : option (re * gostr) :=
  match fuel with
  | 0 => None
  | S fuel =>
      if HasPrefix s "(" then
        match parse_alt fuel i (TrimPrefix (drop 1 s) "?:") with
        | Some (r, s1) => if HasPrefix s1 ")" then Some (r, drop 1 s1) else None
        | None => None
        end
      else if HasPrefix s "[" then
        match parse_class (fun _ => false) (drop 1 s) with
        | Some (f, s1) => Some (class_re i f, s1)
        | None => None
        end
      else if HasPrefix s "^" then Some (Bot, drop 1 s)
      else if HasPrefix s "\" then
        match drop 1 s with c :: s1 => Some (escape_re i c, s1) | [] => None end
      else match s with c :: s1 => Some (char_re i c, s1) | [] => None end
  end.

(** [regexp.MustCompile]: each level of the grammar uses at most three units of fuel per byte. *)
Definition compile (pattern : gostr) : option re :=
  let '(i, body) :=
    if HasPrefix pattern "(?i)" then (true, drop 4 pattern)
    else if HasPrefix pattern "(?is)" then (true, drop 5 pattern)
    else (false, pattern) in
  match parse_alt (3 * length body + 3) i body with
  | Some (r, []) => Some r
  | _ => None
  end.

(** The compiled pattern; a pattern that does not compile (MustCompile panics) matches nothing. *)
Definition MustCompile (pattern : gostr) : re :=
  match compile pattern with Some r => r | None => Chr (fun _ => false) end.

Example compile_ex :
  map (MatchString (MustCompile "(?i)\bSLEEP\s*\("))
      ["select sleep (1)"; "select asleep(1)"; "SELECT Sleep(1)"; "select sleep"] = [true; false; true; false]
  /\ FindStringIndex (MustCompile "(?is)^(?:FORMAT\s*=\s*\w+\s+|EXTENDED\s+)") "format = json  select 1" = Some (0, 15)
  /\ MatchString (MustCompile "(?i)0x[0-9a-fA-F]{10,}") "0X00aaBB11cc" = true.
Proof. vm_compute. auto. Qed.
