(* ===== verification/Identifiers.v ===== *)
(** internal/util/identifiers.go: identifier quoting, DSN masking, value
    normalisation and query truncation. *)
From S2P Require Import Prelude Unicode GoStrings GoNum.

(** ** QuoteIdent *)
Inductive ident_error :=
| EmptyIdentifier
| InvalidCharacters (name : gostr)
| IdentifierTooLong (len : nat).

(** The argument of ContainsAny: space, tab, newline, return, semicolon, backtick, backslash. *)
Definition forbidden_ident_chars : gostr :=
  [" "%char; ch_tab; ch_newline; ch_return; ";"%char; ch_backtick; ch_backslash].

Definition QuoteIdent (name : gostr) : result ident_error gostr :=
  if is_empty name then Err EmptyIdentifier
  else if ContainsAny name forbidden_ident_chars then Err (InvalidCharacters name)
  else if 64 <? length name then Err (IdentifierTooLong (length name))
  else Ok ([ch_backtick] ++ name ++ [ch_backtick]).

(** ** MaskDSN *)
Definition MaskDSN (dsn : gostr) : gostr :=
  match Index dsn "@" with
  | None => dsn
  | Some atIdx =>
      match Index dsn ":" with
      | None => dsn
      | Some colonIdx =>
          if atIdx <? colonIdx then dsn
          else take (colonIdx + 1) dsn ++ "****" ++ drop atIdx dsn
      end
  end.

(** ** NormalizeValue

    The values [database/sql] hands out: the driver's value types, and any other. *)
Inductive value :=
| VNil
| VBytes (b : gostr)
| VString (s : gostr)
| VInt64 (z : Z)
| VFloat64 (f : float)
| VBool (b : bool)
| VTime (t : Z).

Definition NormalizeValue (v : value) : value :=
  match v with
  | VNil => VNil
  | VBytes x => VString x
  | x => x
  end.

(** ** TruncateQuery ([maxLen] is a non-negative constant at every call) *)
Definition TruncateQuery (query : gostr) (maxLen : nat) : gostr :=
  if length query <=? maxLen then query else take maxLen query ++ "...".

(** ** QuoteIdent: exactly the identifiers that are safe inside backticks *)
Definition safe_ident (name : gostr) : Prop :=
  name <> [] /\ (forall c, c ∈ name -> c ∉ forbidden_ident_chars) /\ length name <= 64.

Lemma QuoteIdent_Ok (name q : gostr) :
  QuoteIdent name = Ok q <-> safe_ident name /\ q = [ch_backtick] ++ name ++ [ch_backtick].
Proof.
  unfold QuoteIdent, safe_ident.
  destruct (is_empty name) eqn:He; [apply is_empty_true in He; split; [done | by intros [[? _] _]]|].
  apply is_empty_false in He.
  destruct (ContainsAny name forbidden_ident_chars) eqn:Hc.
  - split; [done|]. intros [(_ & Hs & _) _]. apply ContainsAny_false in Hs. congruence.
  - pose proof (proj1 (ContainsAny_false _ _) Hc) as Hc'. destruct (Nat.ltb_spec 64 (length name)).
    + split; [done|]. intros [(_ & _ & ?) _]. lia.
    + split; [intros [= <-]; auto | by intros [_ ->]].
Qed.

(** ** MaskDSN *)
(** The shape [user:pass@rest] with the first colon and the first at sign shown. *)
Lemma MaskDSN_split (user pass rest : gostr) :
  ":"%char ∉ user -> "@"%char ∉ user -> "@"%char ∉ pass ->
  MaskDSN (user ++ ":" ++ pass ++ "@" ++ rest) = user ++ ":****@" ++ rest.
Proof.
  intros Hu Hu' Hp. unfold MaskDSN.
  assert (Hat : Index (user ++ ":" ++ pass ++ "@" ++ rest) "@" = Some (length (user ++ ":" ++ pass))).
  { rewrite <- (Index_byte "@"%char (user ++ ":" ++ pass) rest); [by rewrite <- app_assoc|].
    rewrite !not_elem_of_app, not_elem_of_cons. repeat split; auto. apply not_elem_of_nil. }
  rewrite Hat, (Index_byte ":"%char user) by done.
  destruct (Nat.ltb_spec (length (user ++ ":" ++ pass)) (length user)) as [Hlt|_].
  { rewrite length_app in Hlt. lia. }
  rewrite (take_app_cons user _ ":"%char).
  replace (user ++ ":" ++ pass ++ "@" ++ rest) with ((user ++ ":" ++ pass) ++ "@" ++ rest)
    by by rewrite <- app_assoc.
  by rewrite drop_app_length, <- app_assoc.
Qed.

Lemma MaskDSN_at_in_password (user p1 p2 rest : gostr) :
  ":"%char ∉ user -> "@"%char ∉ user -> "@"%char ∉ p1 ->
  MaskDSN (user ++ ":" ++ (p1 ++ "@" ++ p2) ++ "@" ++ rest) = user ++ ":****@" ++ p2 ++ "@" ++ rest.
Proof.
  intros Hu Hu' Hp. rewrite <- (MaskDSN_split user p1 (p2 ++ "@" ++ rest)); [|done..].
  f_equal. by rewrite <- !app_assoc.
Qed.

(** ** Properties *)

(** Quoting succeeds exactly on the identifiers of 1 to 64 bytes without space, tab,
    newline, return, semicolon, backtick or backslash, and then only adds the two
    backticks; the three failures are told apart. *)
Theorem QuoteIdent_spec (name : gostr) :
  (forall q, QuoteIdent name = Ok q <-> safe_ident name /\ q = [ch_backtick] ++ name ++ [ch_backtick]) /\
  (QuoteIdent name = Err EmptyIdentifier <-> name = []) /\
  (forall n, QuoteIdent name = Err (IdentifierTooLong n) ->
     n = length name /\ 64 < n /\ forall c, c ∈ name -> c ∉ forbidden_ident_chars).
Proof.
  split; [by apply QuoteIdent_Ok|]. unfold QuoteIdent.
  destruct name as [|c name]; [split; done|]. cbn [is_empty].
  destruct (ContainsAny (c :: name) forbidden_ident_chars) eqn:E; [split; done|].
  rewrite ContainsAny_false in E.
  destruct (Nat.ltb_spec 64 (length (c :: name))); [|split; done].
  split; [done|]. by intros n [= <-].
Qed.

(** For every user name and every password without an at sign, the masked DSN shows
    the user name and what follows the credentials and does not depend on the password;
    but the cut is at the first at sign, so the part of a password after an at sign of
    its own is shown. *)
Theorem MaskDSN_password (user pass pass' rest : gostr)
    (Huser : (":"%char ∉ user) /\ ("@"%char ∉ user)) (Hpass : "@"%char ∉ pass) (Hpass' : "@"%char ∉ pass') :
  MaskDSN (user ++ ":" ++ pass ++ "@" ++ rest) = user ++ ":****@" ++ rest /\
  MaskDSN (user ++ ":" ++ pass ++ "@" ++ rest) = MaskDSN (user ++ ":" ++ pass' ++ "@" ++ rest) /\
  MaskDSN (user ++ ":" ++ (pass ++ "@" ++ pass') ++ "@" ++ rest) = user ++ ":****@" ++ pass' ++ "@" ++ rest.
Proof.
  destruct Huser as [Hu Hu']. rewrite !MaskDSN_split, MaskDSN_at_in_password by done. done.
Qed.

Lemma MaskDSN_password_witness :
  MaskDSN ("app" ++ ":" ++ ("p" ++ "@" ++ "ss") ++ "@" ++ "tcp(db:3306)/app") = "app:****@ss@tcp(db:3306)/app".
Proof.
  apply (MaskDSN_password "app" "p" "ss" "tcp(db:3306)/app").
  - split; decide_true.
  - decide_true.
  - decide_true.
Defined.
