(* ===== verification/SqlValidator.v ===== *)
(** internal/util/sql_validator.go: the literal-stripping scanner, the
    regular-expression layer [ValidateSQL], the SELECT-list validator and the
    WHERE-clause validator. *)
From S2P Require Import Prelude Unicode GoStrings GoNum Regex Identifiers.

(** ** stripSQLLiterals *)
Inductive mode := modeNone | modeSingle | modeDouble | modeBacktick.

#[global] Instance mode_eq_dec : EqDecision mode.
Proof. solve_decision. Defined.

(** The quote that ends the mode. *)
Definition quote_of (m : mode) : ascii :=
  match m with
  | modeSingle => "'"%char
  | modeDouble => ch_dquote
  | modeBacktick => ch_backtick
  | modeNone => " "%char
  end.

(** In mode none a quote opens a literal. *)
Definition open_mode (c : ascii) : mode :=
  if bool_decide (c = "'"%char) then modeSingle
  else if bool_decide (c = ch_dquote) then modeDouble
  else if bool_decide (c = ch_backtick) then modeBacktick
  else modeNone.

(** Backslash escapes are skipped inside single and double quotes only. *)
Definition skips_escapes (m : mode) : bool :=
  match m with modeSingle | modeDouble => true | _ => false end.

(** One loop over the bytes: [s] is the unread input, the result the bytes written. *)
Fixpoint strip_go (m : mode) (s : gostr) : gostr :=
  match s with
  | [] => []
  | c :: s1 =>
      match m with
      | modeNone => c :: strip_go (open_mode c) s1
      | _ =>
          if bool_decide (c = quote_of m) then
            match s1 with
            | d :: s2 =>
                if bool_decide (d = quote_of m)
                then c :: " "%char :: strip_go m s2   (* doubled quote: stay, blank the second *)
                else c :: strip_go modeNone s1
            | [] => c :: strip_go modeNone s1
            end
          else if skips_escapes m && bool_decide (c = ch_backslash) then
            match s1 with
            | _ :: s2 => " "%char :: " "%char :: strip_go m s2
            | [] => " "%char :: strip_go m s1
            end
          else " "%char :: strip_go m s1
      end
  end.

Definition stripSQLLiterals (s : gostr) : gostr := if is_empty s then s else strip_go modeNone s.

(** ** ValidateSQL *)
Record SQLValidationError := { Reason : gostr; Pattern : gostr }.

Definition blockedPatterns : list gostr := [
  (* File operations *)
  "(?i)\bLOAD_FILE\s*\(";
  "(?i)\bINTO\s+OUTFILE\b";
  "(?i)\bINTO\s+DUMPFILE\b";
  "(?i)\bLOAD\s+DATA\b";
  (* DDL statements *)
  "(?i)^\s*CREATE\b";
  "(?i)^\s*ALTER\b";
  "(?i)^\s*DROP\b";
  "(?i)^\s*TRUNCATE\b";
  "(?i)^\s*RENAME\b";
  (* DML statements *)
  "(?i)^\s*INSERT\b";
  "(?i)^\s*UPDATE\b";
  "(?i)^\s*DELETE\b";
  "(?i)^\s*REPLACE\b";
  (* Administrative commands *)
  "(?i)^\s*GRANT\b";
  "(?i)^\s*REVOKE\b";
  "(?i)^\s*SET\s+(GLOBAL|SESSION|@@)";
  "(?i)^\s*FLUSH\b";
  "(?i)^\s*RESET\b";
  "(?i)^\s*KILL\b";
  "(?i)^\s*SHUTDOWN\b";
  (* Locking *)
  "(?i)^\s*LOCK\s+TABLES\b";
  "(?i)\bFOR\s+UPDATE\b";
  "(?i)\bFOR\s+SHARE\b";
  "(?i)\bLOCK\s+IN\s+SHARE\s+MODE\b";
  "(?i)^\s*UNLOCK\s+TABLES\b";
  (* Transactions *)
  "(?i)^\s*START\s+TRANSACTION\b";
  "(?i)^\s*BEGIN\b";
  "(?i)^\s*COMMIT\b";
  "(?i)^\s*ROLLBACK\b";
  "(?i)^\s*SAVEPOINT\b";
  (* Prepared statements *)
  "(?i)^\s*PREPARE\b";
  "(?i)^\s*EXECUTE\b";
  "(?i)^\s*DEALLOCATE\b";
  (* Stored procedure calls *)
  "(?i)^\s*CALL\b";
  (* Functions *)
  "(?i)\bSLEEP\s*\(";
  "(?i)\bBENCHMARK\s*\(";
  "(?i)\bGET_LOCK\s*\(";
  "(?i)\bRELEASE_LOCK\s*\(";
  "(?i)\bIS_FREE_LOCK\s*\(";
  "(?i)\bIS_USED_LOCK\s*\(";
  (* Comments *)
  "--";
  "/\*";
  "#";
  (* System schema access *)
  "(?i)\bMYSQL\s*\.\b"
].

Definition systemReadSchemaPatterns : list gostr := [
  "(?i)\bINFORMATION_SCHEMA\s*\.\b";
  "(?i)\bPERFORMANCE_SCHEMA\s*\.\b";
  "(?i)\bSYS\s*\.\b"
].

Definition allowedPrefixes : list gostr := ["SELECT"; "SHOW"; "DESCRIBE"; "DESC"; "EXPLAIN"].

(** The text a blocked pattern is run on: unanchored patterns see the stripped text. *)
Definition pattern_target (s scan pattern : gostr) : gostr :=
  if negb (Contains pattern "^") then scan else s.

Definition check_blocked (target pattern : gostr) : option SQLValidationError :=
  if MatchString (MustCompile pattern) target
  then Some {| Reason := "query contains blocked pattern"; Pattern := pattern |}
  else None.

(** [allowSystemSchemas] is the package variable set by SetAllowSystemSchemas. *)
Definition ValidateSQL (allowSystemSchemas : bool) (sqlText : gostr) : option SQLValidationError :=
  let s := TrimSpace sqlText in
  if is_empty s then Some {| Reason := "empty query"; Pattern := [] |}
  else
    let scan := stripSQLLiterals s in
    let cleaned := TrimRight scan [";"%char; " "%char; ch_tab; ch_newline; ch_return] in
    if Contains cleaned ";" then
      Some {| Reason := "multi-statement queries are not allowed"; Pattern := ";" |}
    else
      first_err (fun p => check_blocked (pattern_target s scan p) p) blockedPatterns ;;?
      (if negb allowSystemSchemas
       then first_err (check_blocked scan) systemReadSchemaPatterns else None) ;;?
      (if existsb (HasPrefix (ToUpper s)) allowedPrefixes then None
       else Some {| Reason := "only SELECT, SHOW, DESCRIBE, and EXPLAIN queries are allowed"; Pattern := [] |}).

Definition IsReadOnlySQL (allowSystemSchemas : bool) (sqlText : gostr) : bool :=
  is_nil (ValidateSQL allowSystemSchemas sqlText).

(** ** ValidateSelectColumns *)
Definition dangerousPatterns : list gostr :=
  ["("; ")"; ";"; "--"; "/*"; "*/"; "@@"; "SLEEP"; "BENCHMARK";
   "LOAD_FILE"; "INTO"; "OUTFILE"; "DUMPFILE"; "UNION"; "INFORMATION_SCHEMA"].

Inductive select_error :=
| ForbiddenPattern (pattern : gostr)
| InvalidColumnReference (colName : gostr)
| InvalidTable (err : ident_error)
| InvalidColumnInReference (err : ident_error)
| InvalidColumnName (err : ident_error)
| InvalidAlias (err : ident_error)
| SliceOutOfRange.   (** the run-time panic of [part[idx+4:]], not an error value *)

Definition wrap_err {E F A} (f : E -> F) (r : result E A) : result F A :=
  match r with Ok a => Ok a | Err e => Err (f e) end.

(** The quoted form of a column reference: [col] or [table.col]. *)
Definition quote_column (colName : gostr) : result select_error gostr :=
  if Contains colName "." then
    match Split colName "."%char with
    | [d0; d1] =>
        let? tablePart := wrap_err InvalidTable (QuoteIdent (TrimSpace d0)) in
        let? colPart := wrap_err InvalidColumnInReference (QuoteIdent (TrimSpace d1)) in
        Ok (tablePart ++ "." ++ colPart)
    | _ => Err (InvalidColumnReference colName)
    end
  else wrap_err InvalidColumnName (QuoteIdent colName).

(** The split of [col AS alias].  [idx] is an offset in the upper-cased text, which can be
    longer than [part] when a rune's upper case has a longer encoding: the slice then panics. *)
Definition split_alias (part : gostr) : result select_error (gostr * gostr) :=
  match Index (ToUpper part) " AS " with
  | Some idx =>
      if idx + 4 <=? length part
      then Ok (TrimSpace (take idx part), TrimSpace (drop (idx + 4) part))
      else Err SliceOutOfRange
  | None => Ok (part, [])
  end.

(** One part between commas: the columns it adds (none for a blank part). *)
Definition select_part (part : gostr) : result select_error (list gostr) :=
  let part := TrimSpace part in
  if is_empty part then Ok []
  else
    let? (colName, alias) := split_alias part in
    if colName =?s "*" then Ok ["*"]
    else
      let? colName := quote_column colName in
      if negb (is_empty alias) then
        let? quotedAlias := wrap_err InvalidAlias (QuoteIdent alias) in
        Ok [colName ++ " AS " ++ quotedAlias]
      else Ok [colName].

(** [for _, part := range parts { ... quotedCols = append(quotedCols, ...) }] *)
Fixpoint select_parts (parts : list gostr) (quotedCols : list gostr) : result select_error (list gostr) :=
  match parts with
  | [] => Ok quotedCols
  | part :: parts =>
      let? cols := select_part part in
      select_parts parts (quotedCols ++ cols)
  end.

Definition ValidateSelectColumns (selectStr : gostr) : result select_error gostr :=
  if is_empty selectStr then Ok "*"
  else
    match List.find (Contains (ToUpper selectStr)) dangerousPatterns with
    | Some pattern => Err (ForbiddenPattern pattern)
    | None =>
        let? quotedCols := select_parts (Split selectStr ","%char) [] in
        match quotedCols with
        | [] => Ok "*"
        | _ => Ok (Join quotedCols ", ")
        end
    end.

(** ** ValidateWhereClause *)
Definition dangerousWherePatterns : list (gostr * gostr) := [
  ("(?i);\s*", "semicolon (multi-statement)");
  ("(?i)--", "SQL comment");
  ("(?i)/\*", "SQL block comment");
  ("(?i)\bUNION\b", "UNION keyword");
  ("(?i)\bINTO\b", "INTO keyword");
  ("(?i)\bLOAD_FILE\s*\(", "LOAD_FILE function");
  ("(?i)\bSLEEP\s*\(", "SLEEP function");
  ("(?i)\bBENCHMARK\s*\(", "BENCHMARK function");
  ("(?i)\bGET_LOCK\s*\(", "GET_LOCK function");
  ("(?i)\bRELEASE_LOCK\s*\(", "RELEASE_LOCK function");
  ("(?i)@@", "system variable access");
  ("(?i)\bINFORMATION_SCHEMA\b", "INFORMATION_SCHEMA access");
  ("(?i)\bPERFORMANCE_SCHEMA\b", "PERFORMANCE_SCHEMA access");
  ("(?i)\bMYSQL\s*\.\b", "mysql system database access");
  ("(?i)\bSYS\s*\.\b", "sys database access");
  ("(?i)\bEXEC\s*\(", "EXEC function");
  ("(?i)\bSHUTDOWN\b", "SHUTDOWN command");
  ("(?i)0x[0-9a-fA-F]{10,}", "long hex string (possible injection)")
].

Inductive where_error :=
| ForbiddenWhere (reason : gostr)
| UnbalancedParentheses
| WhereTooLong.

Definition ValidateWhereClause (where_ : gostr) : option where_error :=
  if is_empty where_ then None
  else
    let scan := stripSQLLiterals where_ in
    first_err (fun '(pattern, reason) =>
      if MatchString (MustCompile pattern) scan then Some (ForbiddenWhere reason) else None)
      dangerousWherePatterns ;;?
    (if negb (CountByte scan "("%char =? CountByte scan ")"%char) then Some UnbalancedParentheses
     else if 1000 <? length where_ then Some WhereTooLong
     else None).

(** ** The scanner against the lexical grammar of SQL literals

    A text is a sequence of plain bytes (none of them a quote) and quoted
    literals; a literal's content is a sequence of ordinary bytes, backslash
    escapes (single and double quotes only) and doubled quotes. *)
Inductive qitem :=
| QChar (c : ascii)
| QEscape (c : ascii)
| QDoubled.

Inductive segment :=
| Plain (c : ascii)
| Literal (m : mode) (content : list qitem).

Definition render_qitem (m : mode) (i : qitem) : gostr :=
  match i with
  | QChar c => [c]
  | QEscape c => [ch_backslash; c]
  | QDoubled => [quote_of m; quote_of m]
  end.
Definition render_segment (g : segment) : gostr :=
  match g with
  | Plain c => [c]
  | Literal m content => [quote_of m] ++ concat (map (render_qitem m) content) ++ [quote_of m]
  end.
Definition render (gs : list segment) : gostr := concat (map render_segment gs).

(** What the scanner leaves: plain bytes and delimiters; of a doubled quote only the first. *)
Definition blank_qitem (m : mode) (i : qitem) : gostr :=
  match i with
  | QChar _ => " "
  | QEscape _ => "  "
  | QDoubled => [quote_of m; " "%char]
  end.
Definition blank_segment (g : segment) : gostr :=
  match g with
  | Plain c => [c]
  | Literal m content => [quote_of m] ++ concat (map (blank_qitem m) content) ++ [quote_of m]
  end.
Definition blank (gs : list segment) : gostr := concat (map blank_segment gs).

Definition qitem_ok (m : mode) (i : qitem) : Prop :=
  match i with
  | QChar c => c <> quote_of m /\ (skips_escapes m = true -> c <> ch_backslash)
  | QEscape _ => skips_escapes m = true
  | QDoubled => True
  end.
Definition starts_with_literal (m : mode) (gs : list segment) : Prop :=
  match gs with Literal m' _ :: _ => m' = m | _ => False end.
(** Adjacent literals with the same quote would read as one with a doubled quote. *)
Fixpoint segments_ok (gs : list segment) : Prop :=
  match gs with
  | [] => True
  | Plain c :: gs => open_mode c = modeNone /\ segments_ok gs
  | Literal m content :: gs =>
      m <> modeNone /\ Forall (qitem_ok m) content /\ ~ starts_with_literal m gs /\ segments_ok gs
  end.

#[global] Instance qitem_ok_dec (m : mode) (i : qitem) : Decision (qitem_ok m i).
Proof. destruct i; cbn; apply _. Defined.
#[global] Instance starts_with_literal_dec (m : mode) (gs : list segment) :
  Decision (starts_with_literal m gs).
Proof. destruct gs as [|[] gs]; cbn; apply _. Defined.
#[global] Instance segments_ok_dec (gs : list segment) : Decision (segments_ok gs).
Proof.
  induction gs as [|[] gs IH]; cbn; apply _.
Defined.

Lemma segments_ok_compute (gs : list segment) : bool_decide (segments_ok gs) = true -> segments_ok gs.
Proof. apply bool_decide_eq_true. Qed.

Lemma open_mode_quote (m : mode) : m <> modeNone -> open_mode (quote_of m) = m.
Proof. by destruct m. Qed.

Lemma open_mode_inv (c : ascii) (m : mode) : open_mode c = m -> m <> modeNone -> c = quote_of m.
Proof.
  unfold open_mode. repeat case_bool_decide; intros <- ?; done.
Qed.

Lemma quote_not_backslash (m : mode) : quote_of m <> ch_backslash.
Proof. by destruct m. Qed.

(** One literal item is read and blanked as a unit. *)
Lemma strip_go_qitem (m : mode) (i : qitem) (rest : gostr) :
  m <> modeNone -> qitem_ok m i ->
  strip_go m (render_qitem m i ++ rest) = blank_qitem m i ++ strip_go m rest.
Proof.
  intros Hm Hi. destruct i as [c|c|]; cbn [render_qitem blank_qitem app qitem_ok] in *.
  - destruct Hi as [Hq Hb]. destruct m; [done| | |]; cbn [strip_go];
      rewrite bool_decide_eq_false_2 by done; cbn [skips_escapes andb];
      rewrite ?bool_decide_eq_false_2 by (apply Hb; done); done.
  - destruct m; done.
  - destruct m; [done| | |]; cbn [strip_go]; by rewrite !bool_decide_eq_true_2.
Qed.

Lemma strip_go_content (m : mode) (content : list qitem) (rest : gostr) :
  m <> modeNone -> Forall (qitem_ok m) content ->
  strip_go m (concat (map (render_qitem m) content) ++ rest) =
  concat (map (blank_qitem m) content) ++ strip_go m rest.
Proof.
  intros Hm Hc. induction Hc as [|i content Hi Hc IH]; [done|]. cbn [map concat].
  by rewrite <- !app_assoc, strip_go_qitem, IH.
Qed.

(** The closing quote ends the literal when the next byte is another one. *)
Lemma strip_go_close (m : mode) (rest : gostr) :
  m <> modeNone -> (forall rest', rest <> quote_of m :: rest') ->
  strip_go m (quote_of m :: rest) = quote_of m :: strip_go modeNone rest.
Proof.
  intros Hm Hr. destruct m; [done| | |]; cbn [strip_go];
    rewrite bool_decide_eq_true_2 by done; destruct rest as [|d rest]; try done;
    rewrite bool_decide_eq_false_2; try done; intros ->; by eapply Hr.
Qed.

Lemma render_head (m : mode) (gs : list segment) (rest' : gostr) :
  m <> modeNone -> segments_ok gs -> ~ starts_with_literal m gs -> render gs <> quote_of m :: rest'.
Proof.
  intros Hm Hok Hs. destruct gs as [|[c|m' content] gs]; cbn in *; [done| |].
  - destruct Hok as [Hc _]. intros [= -> _]. rewrite open_mode_quote in Hc; done.
  - intros [= Hq _]. apply Hs. destruct Hok as [Hm' _].
    by rewrite <- (open_mode_quote m), <- Hq, open_mode_quote.
Qed.

Lemma strip_go_render (gs : list segment) :
  segments_ok gs -> strip_go modeNone (render gs) = blank gs.
Proof.
  induction gs as [|[c|m content] gs IH]; intros Hok; [done| |].
  - destruct Hok as [Hc Hok]. cbn. rewrite Hc. f_equal. by apply IH.
  - destruct Hok as (Hm & Hc & Hs & Hok).
    change (render (Literal m content :: gs))
      with (quote_of m :: (concat (map (render_qitem m) content) ++ [quote_of m]) ++ render gs).
    change (blank (Literal m content :: gs))
      with (quote_of m :: (concat (map (blank_qitem m) content) ++ [quote_of m]) ++ blank gs).
    cbn [strip_go]. rewrite (open_mode_quote m Hm), <- !app_assoc, strip_go_content by done.
    cbn [app]. rewrite strip_go_close; [by rewrite IH | done|].
    intros rest'. by apply render_head.
Qed.

(** Stripping is length-preserving and only ever blanks bytes. *)
Definition kept_or_blank (a b : ascii) : Prop := b = a \/ b = " "%char.

Lemma strip_go_quoted (m : mode) (c : ascii) (s1 : gostr) :
  m <> modeNone ->
  exists out rest m', strip_go m (c :: s1) = out ++ strip_go m' rest /\
    (exists read, c :: s1 = read ++ rest /\ read <> [] /\ Forall2 kept_or_blank read out).
Proof.
  assert (Hk : forall d, kept_or_blank d d) by (by left).
  assert (Hb : forall d, kept_or_blank d " "%char) by (by right).
  intros Hm. destruct m; [done| | |]; cbn [strip_go skips_escapes andb];
    repeat case_bool_decide; destruct s1 as [|d s2]; repeat case_bool_decide;
    lazymatch goal with
    | |- context [?x :: ?y :: strip_go ?m' ?rest = _] => exists [x; y], rest, m'
    | |- context [?x :: strip_go ?m' ?rest = _] => exists [x], rest, m'
    end;
    (split; [reflexivity|]);
    first [ exists [c; d]; split; [reflexivity|]; split; [done | auto using Forall2_cons_2, Forall2_nil_2]
          | exists [c]; split; [reflexivity|]; split; [done | auto using Forall2_cons_2, Forall2_nil_2] ].
Qed.

Lemma strip_go_pointwise (n : nat) (m : mode) (s : gostr) :
  length s <= n -> Forall2 kept_or_blank s (strip_go m s).
Proof.
  revert m s. induction n as [|n IH]; intros m [|c s1] Hn; try (simpl in Hn; lia);
    try constructor; cbn [length] in Hn.
  destruct (decide (m = modeNone)) as [->|Hm].
  { cbn [strip_go]. constructor; [by left | apply IH; lia]. }
  destruct (strip_go_quoted m c s1 Hm) as (out & rest & m' & -> & read & Hs & Hne & Hr).
  rewrite Hs. apply Forall2_app; [done|]. apply IH.
  apply (f_equal length) in Hs. rewrite length_app in Hs. destruct read; [done|].
  cbn [length] in Hs. lia.
Qed.

(** ** Proof support for the pattern lists *)
Lemma compile_dashes : MustCompile "--" = lit "--".
Proof. reflexivity. Qed.
Lemma compile_block_comment : MustCompile "/\*" = lit "/*".
Proof. reflexivity. Qed.
Lemma compile_hash : MustCompile "#" = lit "#".
Proof. reflexivity. Qed.

Definition mysql_pattern : gostr := "(?i)\bMYSQL\s*\.\b".
Lemma compile_mysql :
  MustCompile mysql_pattern =
  Cat WordB (foldr (fun c r => Cat (char_re true c) r)
    (Cat (Star (Chr space_byte)) (Cat (chr "."%char) (Cat WordB Eps))) "MYSQL").
Proof. reflexivity. Qed.

Lemma check_blocked_None (target p : gostr) :
  check_blocked target p = None <-> MatchString (MustCompile p) target = false.
Proof. unfold check_blocked. by destruct (MatchString _ _). Qed.

(** The conditions under which a query passes, one per check of the code. *)
Definition single_statement (scan : gostr) : Prop :=
  Contains (TrimRight scan [";"%char; " "%char; ch_tab; ch_newline; ch_return]) ";" = false.
Definition matches_somewhere (p text : gostr) : Prop :=
  exists u v q, text = u ++ v /\ matches (MustCompile p) (pos_of u v) q.
Definition read_prefix (s : gostr) : Prop :=
  exists p, p ∈ allowedPrefixes /\ HasPrefix (ToUpper s) p = true.
Definition accepted_sql (allow : bool) (s : gostr) : Prop :=
  s <> [] /\ single_statement (stripSQLLiterals s) /\
  (forall p, p ∈ blockedPatterns ->
     ~ matches_somewhere p (pattern_target s (stripSQLLiterals s) p)) /\
  (allow = false -> forall p, p ∈ systemReadSchemaPatterns ->
     ~ matches_somewhere p (stripSQLLiterals s)) /\
  read_prefix s.

Lemma check_blocked_not_matches (target p : gostr) :
  check_blocked target p = None <-> ~ matches_somewhere p target.
Proof.
  rewrite check_blocked_None, <- not_true_iff_false. unfold matches_somewhere.
  by rewrite MatchString_spec.
Qed.

Lemma read_prefix_spec (s : gostr) : existsb (HasPrefix (ToUpper s)) allowedPrefixes = true <-> read_prefix s.
Proof.
  unfold read_prefix. rewrite existsb_exists. by setoid_rewrite list_elem_of_In.
Qed.

Lemma ValidateSQL_None (allow : bool) (sqlText : gostr) :
  ValidateSQL allow sqlText = None <-> accepted_sql allow (TrimSpace sqlText).
Proof.
  unfold ValidateSQL, accepted_sql, single_statement.
  set (s := TrimSpace sqlText).
  destruct (is_empty s) eqn:He.
  { apply is_empty_true in He. split; [done | by intros [? _]]. }
  apply is_empty_false in He. cbn zeta.
  destruct (Contains _ ";"); [split; [done | by intros (_ & ? & _)]|].
  destruct (first_err _ blockedPatterns) as [e|] eqn:Hb.
  { split; [done|]. intros (_ & _ & Hp & _). apply first_err_Some in Hb as (p & Hin & Hc).
    destruct (Hp p Hin). unfold check_blocked in Hc. destruct (MatchString _ _) eqn:Hm; [|done].
    by apply MatchString_spec in Hm. }
  rewrite first_err_None in Hb. setoid_rewrite check_blocked_not_matches in Hb.
  destruct (if negb allow then _ else None) as [e|] eqn:Hs.
  { split; [done|]. intros (_ & _ & _ & Hp & _). destruct allow; [done|].
    change (first_err (check_blocked (stripSQLLiterals s)) systemReadSchemaPatterns = Some e) in Hs.
    apply first_err_Some in Hs as (p & Hin & Hc). destruct (Hp eq_refl p Hin).
    unfold check_blocked in Hc. destruct (MatchString _ _) eqn:Hm; [|done].
    by apply MatchString_spec in Hm. }
  assert (Hs' : allow = false -> forall p, p ∈ systemReadSchemaPatterns ->
     ~ matches_somewhere p (stripSQLLiterals s)).
  { intros ->.
    change (first_err (check_blocked (stripSQLLiterals s)) systemReadSchemaPatterns = None) in Hs.
    rewrite first_err_None in Hs.
    intros p Hp. by apply check_blocked_not_matches, Hs. }
  rewrite <- read_prefix_spec. destruct (existsb _ allowedPrefixes); split; try done.
  by intros (_ & _ & _ & _ & ?).
Qed.

(** ** The comment markers and the mysql schema *)
Lemma in_blockedPatterns (p : gostr) : bool_decide (p ∈ blockedPatterns) = true -> p ∈ blockedPatterns.
Proof. apply bool_decide_eq_true. Qed.

Lemma target_unanchored (s scan p : gostr) :
  Contains p "^" = false -> pattern_target s scan p = scan.
Proof. unfold pattern_target. by intros ->. Qed.

Lemma accepted_no_literal (allow : bool) (s w p : gostr) :
  p ∈ blockedPatterns -> Contains p "^" = false -> MustCompile p = lit w ->
  accepted_sql allow s -> Contains (stripSQLLiterals s) w = false.
Proof.
  intros Hin Ha Hc (_ & _ & Hb & _). specialize (Hb p Hin).
  rewrite target_unanchored in Hb by done. unfold matches_somewhere in Hb.
  rewrite <- MatchString_spec, Hc, MatchString_lit in Hb. by apply not_true_iff_false.
Qed.

(** A class [char_re true c] reads any byte equal to [c] up to ASCII case. *)
Lemma matches_char_re (c d : ascii) (b : option ascii) (rest : gostr) :
  fold_class (fun x => bool_decide (x = c)) d = true ->
  matches (char_re true c) (Pos b (d :: rest)) (step_over d rest).
Proof.
  intros H. unfold char_re, class_re.
  repeat case_match; repeat apply m_alt_l; by constructor.
Qed.

Lemma matches_spaces (sp rest : gostr) (b : option ascii) :
  forallb space_byte sp = true ->
  exists b', matches (Star (Chr space_byte)) (Pos b (sp ++ rest)) (Pos b' rest).
Proof.
  revert b. induction sp as [|c sp IH]; intros b; cbn.
  - intros _. exists b. constructor.
  - rewrite andb_true_iff. intros [Hc Hs]. destruct (IH (Some c) Hs) as [b' Hb].
    exists b'. eapply m_star_cons; [by constructor | cbn; lia | done].
Qed.

(** [w] spells "mysql" in some case. *)
Definition spells_mysql (w : gostr) : bool := bool_decide (map lower_byte w = "mysql").

Lemma spells_mysql_inv (w : gostr) :
  spells_mysql w = true ->
  exists c1 c2 c3 c4 c5, w = [c1; c2; c3; c4; c5] /\
    lower_byte c1 = "m"%char /\ lower_byte c2 = "y"%char /\ lower_byte c3 = "s"%char /\
    lower_byte c4 = "q"%char /\ lower_byte c5 = "l"%char.
Proof.
  unfold spells_mysql. rewrite bool_decide_eq_true. intros H.
  destruct w as [|c1 [|c2 [|c3 [|c4 [|c5 [|c6 w]]]]]]; try done.
  injection H as H1 H2 H3 H4 H5. exists c1, c2, c3, c4, c5. auto 10.
Qed.

Lemma lower_byte_fold (C c d : ascii) :
  forallb (fun n => let x := byte (Z.of_nat n) in
    implb (bool_decide (lower_byte x = c)) (fold_class (fun y => bool_decide (y = C)) x && is_word x))
    (seq 0 256) = true ->
  lower_byte d = c -> fold_class (fun y => bool_decide (y = C)) d = true /\ is_word d = true.
Proof.
  intros H Hd. pose proof (all_bytes (fun x => implb (bool_decide (lower_byte x = c))
    (fold_class (fun y => bool_decide (y = C)) x && is_word x)) H d) as Hx.
  cbn beta in Hx. rewrite bool_decide_eq_true_2 in Hx by done. by apply andb_true_iff in Hx.
Qed.

Lemma matches_mysql (a w sp rest : gostr) (c : ascii) :
  spells_mysql w = true -> word_before (pos_of a []) = false ->
  forallb space_byte sp = true -> is_word c = true ->
  exists q, matches (MustCompile mysql_pattern) (pos_of a (w ++ sp ++ "." ++ c :: rest)) q.
Proof.
  intros Hw Ha Hsp Hc.
  apply spells_mysql_inv in Hw as (c1 & c2 & c3 & c4 & c5 & -> & H1 & H2 & H3 & H4 & H5).
  apply (lower_byte_fold "M"%char) in H1 as [F1 W1]; [|vm_compute; reflexivity].
  apply (lower_byte_fold "Y"%char) in H2 as [F2 _]; [|vm_compute; reflexivity].
  apply (lower_byte_fold "S"%char) in H3 as [F3 _]; [|vm_compute; reflexivity].
  apply (lower_byte_fold "Q"%char) in H4 as [F4 _]; [|vm_compute; reflexivity].
  apply (lower_byte_fold "L"%char) in H5 as [F5 _]; [|vm_compute; reflexivity].
  destruct (matches_spaces sp ("." ++ c :: rest) (Some c5) Hsp) as [b' Hstar].
  eexists. rewrite compile_mysql. unfold pos_of in *.
  eapply m_cat.
  { constructor. unfold at_boundary, word_before, word_after in *. cbn in *. by rewrite Ha, W1. }
  cbn [foldr app].
  eapply m_cat; [by apply matches_char_re|]. eapply m_cat; [by apply matches_char_re|].
  eapply m_cat; [by apply matches_char_re|]. eapply m_cat; [by apply matches_char_re|].
  eapply m_cat; [by apply matches_char_re|]. eapply m_cat; [exact Hstar|].
  eapply m_cat; [apply matches_chr; by eexists|].
  eapply m_cat; [|constructor]. constructor. unfold at_boundary. cbn. by rewrite Hc.
Qed.

Lemma mysql_in_blocked : mysql_pattern ∈ blockedPatterns.
Proof. by apply in_blockedPatterns. Qed.

(** ** The shape of a validated SELECT list *)
Definition quoted (name : gostr) : gostr := [ch_backtick] ++ name ++ [ch_backtick].

Inductive column_ref : gostr -> Prop :=
| ref_column c : safe_ident c -> column_ref (quoted c)
| ref_qualified t c : safe_ident t -> safe_ident c -> column_ref (quoted t ++ "." ++ quoted c).

Inductive column_item : gostr -> Prop :=
| item_star : column_item "*"
| item_ref r : column_ref r -> column_item r
| item_alias r a : column_ref r -> safe_ident a -> column_item (r ++ " AS " ++ quoted a).

Lemma wrap_err_Ok {E F A} (f : E -> F) (r : result E A) (a : A) : wrap_err f r = Ok a <-> r = Ok a.
Proof. destruct r; simpl; split; congruence. Qed.

Lemma quote_column_ref (c q : gostr) : quote_column c = Ok q -> column_ref q.
Proof.
  unfold quote_column. destruct (Contains c ".").
  - destruct (Split c _) as [|d0 [|d1 [|]]]; try done.
    rewrite result_bind_Ok. intros (t & Ht & H). apply wrap_err_Ok, QuoteIdent_Ok in Ht as [Ht ->].
    apply result_bind_Ok in H as (k & Hk & [= <-]). apply wrap_err_Ok, QuoteIdent_Ok in Hk as [Hk ->].
    by apply ref_qualified.
  - rewrite wrap_err_Ok, QuoteIdent_Ok. intros [Hs ->]. by apply ref_column.
Qed.

Lemma select_part_items (part : gostr) (cols : list gostr) :
  select_part part = Ok cols -> Forall column_item cols.
Proof.
  unfold select_part. destruct (is_empty _); [intros [= <-]; constructor|].
  rewrite result_bind_Ok. intros ([colName alias] & _ & H).
  destruct (colName =?s "*"); [injection H as <-; repeat constructor|].
  apply result_bind_Ok in H as (r & Hr & H). apply quote_column_ref in Hr.
  destruct (negb (is_empty alias)).
  - apply result_bind_Ok in H as (qa & Ha & [= <-]). apply wrap_err_Ok, QuoteIdent_Ok in Ha as [Ha ->].
    constructor; [by apply item_alias | constructor].
  - injection H as <-. constructor; [by apply item_ref | constructor].
Qed.

Lemma select_parts_items (parts acc cols : list gostr) :
  Forall column_item acc -> select_parts parts acc = Ok cols -> Forall column_item cols.
Proof.
  revert acc. induction parts as [|part parts IH]; intros acc Hacc; cbn [select_parts].
  - by intros [= <-].
  - rewrite result_bind_Ok. intros (cs & Hc & H). apply select_part_items in Hc.
    eapply IH; [|exact H]. by apply Forall_app.
Qed.

(** ** Properties *)

(** C5: on every text made of plain bytes and terminated quoted literals (with
    backslash escapes and doubled quotes), the scanner returns exactly the text
    with the literal contents blanked; and on any text it keeps the length and
    only ever replaces bytes by spaces. *)
Theorem stripSQLLiterals_lexes :
  (forall gs, segments_ok gs -> stripSQLLiterals (render gs) = blank gs) /\
  (forall s, Forall2 kept_or_blank s (stripSQLLiterals s)).
Proof.
  split.
  - intros gs Hok. rewrite <- strip_go_render by done. unfold stripSQLLiterals.
    by destruct (render gs).
  - intros [|c s]; [constructor|]. by eapply strip_go_pointwise.
Qed.

Definition demo_segments : list segment :=
  [Plain "a"%char; Plain "="%char; Literal modeSingle [QChar ";"%char; QDoubled; QEscape "'"%char]; Plain ";"%char].

Lemma stripSQLLiterals_lexes_witness :
  render demo_segments = "a=';''\'';" /\ stripSQLLiterals (render demo_segments) = "a=' '   ';".
Proof.
  split; [reflexivity|].
  rewrite (proj1 stripSQLLiterals_lexes demo_segments); [reflexivity|].
  apply segments_ok_compute. vm_compute. reflexivity.
Defined.

(** ValidateSQL returns nil exactly for the texts that are non-empty, hold one
    statement outside literals, contain no match of a blocked pattern (anchored
    patterns on the text, the others outside literals), name no read-only system
    schema unless those are allowed, and begin with a read-only keyword. *)
Theorem ValidateSQL_accepts_iff (allow : bool) (sqlText : gostr) :
  ValidateSQL allow sqlText = None <-> accepted_sql allow (TrimSpace sqlText).
Proof. apply ValidateSQL_None. Qed.

(** C6: in an accepted query no comment marker and no second statement occurs
    outside the quoted literals, whatever the literals contain. *)
Theorem accepted_query_has_no_comment (allow : bool) (sqlText : gostr) (gs : list segment) :
  ValidateSQL allow sqlText = None -> TrimSpace sqlText = render gs -> segments_ok gs ->
  Contains (blank gs) "--" = false /\ Contains (blank gs) "/*" = false /\
  Contains (blank gs) "#" = false /\ single_statement (blank gs).
Proof.
  intros Hv Hr Hok. apply ValidateSQL_None in Hv. rewrite Hr in Hv.
  assert (E : stripSQLLiterals (render gs) = blank gs).
  { rewrite <- strip_go_render by done. unfold stripSQLLiterals. by destruct (render gs). }
  rewrite <- E. split; [|split; [|split]].
  - by apply (accepted_no_literal allow (render gs) "--" "--"); [apply in_blockedPatterns| | |].
  - by apply (accepted_no_literal allow (render gs) "/*" "/\*"); [apply in_blockedPatterns| | |].
  - by apply (accepted_no_literal allow (render gs) "#" "#"); [apply in_blockedPatterns| | |].
  - apply Hv.
Qed.

Definition select_segments : list segment :=
  map Plain "SELECT " ++ [Literal modeSingle (map QChar "--;#/*")].

Lemma accepted_query_has_no_comment_witness :
  Contains (blank select_segments) "--" = false /\ Contains (blank select_segments) "/*" = false /\
  Contains (blank select_segments) "#" = false /\ single_statement (blank select_segments).
Proof.
  apply (accepted_query_has_no_comment false "SELECT '--;#/*'" select_segments).
  - vm_compute. reflexivity.
  - vm_compute. reflexivity.
  - apply segments_ok_compute. vm_compute. reflexivity.
Defined.

(** A query in which the word mysql (in any case), a dot after optional
    spaces and a word character occur outside literals is rejected, whether or
    not the read-only system schemas are allowed. *)
Theorem mysql_schema_always_blocked (allow : bool) (sqlText : gostr) (gs : list segment)
    (a w sp rest : gostr) (c : ascii) :
  TrimSpace sqlText = render gs -> segments_ok gs ->
  blank gs = a ++ w ++ sp ++ "." ++ c :: rest ->
  word_before (pos_of a []) = false -> spells_mysql w = true ->
  forallb space_byte sp = true -> is_word c = true ->
  ValidateSQL allow sqlText <> None.
Proof.
  intros Hr Hok Hb Ha Hw Hsp Hc Hv. apply ValidateSQL_None in Hv as (_ & _ & Hp & _).
  rewrite Hr in Hp. apply (Hp mysql_pattern mysql_in_blocked).
  rewrite target_unanchored by reflexivity.
  assert (E : stripSQLLiterals (render gs) = blank gs).
  { rewrite <- strip_go_render by done. unfold stripSQLLiterals. by destruct (render gs). }
  rewrite E, Hb. destruct (matches_mysql a w sp rest c) as [q Hq]; try done.
  exists a, (w ++ sp ++ "." ++ c :: rest), q. done.
Qed.

Lemma mysql_schema_always_blocked_witness :
  ValidateSQL true "SELECT * FROM MySql .user" <> None.
Proof.
  apply (mysql_schema_always_blocked true _ (map Plain "SELECT * FROM MySql .user")
           "SELECT * FROM " "MySql" " " "ser" "u"%char); try (vm_compute; reflexivity).
  apply segments_ok_compute. vm_compute. reflexivity.
Defined.

(** Allowing the system schemas only widens what ValidateSQL accepts, by
    exactly the queries whose only offence is a match of a system-schema pattern. *)
Theorem allowing_system_schemas_widens (sqlText : gostr) :
  ValidateSQL false sqlText = None <->
  ValidateSQL true sqlText = None /\
  forall p, p ∈ systemReadSchemaPatterns ->
    ~ matches_somewhere p (stripSQLLiterals (TrimSpace sqlText)).
Proof.
  rewrite !ValidateSQL_None. unfold accepted_sql. split.
  - intros (H1 & H2 & H3 & H4 & H5). split; [|by apply H4].
    split; [done|]. split; [done|]. split; [done|]. by split.
  - intros [(H1 & H2 & H3 & _ & H5) H4]. split; [done|]. split; [done|]. split; [done|]. by split.
Qed.

(** A SELECT list that ValidateSelectColumns returns is a comma-separated
    list of stars and backtick-quoted column references with optional quoted
    aliases, every identifier being safe to quote. *)
Theorem ValidateSelectColumns_shape (selectStr out : gostr) :
  ValidateSelectColumns selectStr = Ok out ->
  exists items, items <> [] /\ Forall column_item items /\ out = Join items ", ".
Proof.
  unfold ValidateSelectColumns. destruct (is_empty selectStr).
  { intros [= <-]. exists ["*"]. repeat split; [done|]. repeat constructor. }
  destruct (List.find _ _); [done|]. rewrite result_bind_Ok. intros (cols & Hc & H).
  apply select_parts_items in Hc; [|constructor].
  destruct cols as [|c cols]; injection H as <-.
  - exists ["*"]. repeat split; [done|]. repeat constructor.
  - exists (c :: cols). done.
Qed.

Lemma ValidateSelectColumns_shape_witness :
  exists items, items <> [] /\ Forall column_item items /\
    [ch_backtick] ++ "id" ++ [ch_backtick] ++ ", *" = Join items ", ".
Proof. apply (ValidateSelectColumns_shape "id, *"). vm_compute. reflexivity. Defined.

(** Upper-casing can lengthen a column list, and the slice after its [AS] is
    then out of range: on four letters U+0250 followed by [ AS x] the code panics. *)
Theorem ValidateSelectColumns_slice_panic :
  ValidateSelectColumns (Repeat [byte 201; byte 144] 4 ++ " AS x") = Err SliceOutOfRange.
Proof. vm_compute. reflexivity. Qed.

(** A non-empty WHERE clause passes exactly when no forbidden pattern matches
    outside its literals, its parentheses outside literals are balanced in
    number, and it has at most 1000 bytes. *)
Theorem ValidateWhereClause_accepts_iff (w : gostr) :
  w <> [] ->
  (ValidateWhereClause w = None <->
   (forall p r, (p, r) ∈ dangerousWherePatterns -> ~ matches_somewhere p (stripSQLLiterals w)) /\
   CountByte (stripSQLLiterals w) "("%char = CountByte (stripSQLLiterals w) ")"%char /\
   length w <= 1000).
Proof.
  intros Hw. unfold ValidateWhereClause. apply is_empty_false in Hw as ->. cbn zeta.
  destruct (first_err _ dangerousWherePatterns) as [e|] eqn:Hf.
  { split; [done|]. intros [Hp _]. apply first_err_Some in Hf as ([p r] & Hin & Hc).
    destruct (Hp p r Hin). destruct (MatchString _ _) eqn:Hm; [|done]. by apply MatchString_spec in Hm. }
  rewrite first_err_None in Hf.
  assert (Hp : forall p r, (p, r) ∈ dangerousWherePatterns -> ~ matches_somewhere p (stripSQLLiterals w)).
  { intros p r Hin Hm. apply MatchString_spec in Hm. specialize (Hf (p, r) Hin). cbn in Hf.
    by rewrite Hm in Hf. }
  destruct (Nat.eqb_spec (CountByte (stripSQLLiterals w) "("%char) (CountByte (stripSQLLiterals w) ")"%char));
    cbn [negb]; [|split; [done | by intros (_ & ? & _)]].
  destruct (Nat.ltb_spec 1000 (length w)); split; try done. intros (_ & _ & ?). lia.
Qed.

Lemma ValidateWhereClause_accepts_iff_witness : ValidateWhereClause "(id > 3) AND name = 'UNION; --'" = None.
Proof.
  apply ValidateWhereClause_accepts_iff; [done|]. split; [|split; [vm_compute; reflexivity | cbn; lia]].
  assert (H : forallb (fun pr => negb (MatchString (MustCompile pr.1)
    (stripSQLLiterals "(id > 3) AND name = 'UNION; --'"))) dangerousWherePatterns = true)
    by (vm_compute; reflexivity).
  intros p r Hin Hm. rewrite forallb_forall in H. apply list_elem_of_In in Hin.
  assert (H' : negb (MatchString (MustCompile p) (stripSQLLiterals "(id > 3) AND name = 'UNION; --'")) = true)
    by exact (H _ Hin).
  apply MatchString_spec in Hm. rewrite Hm in H'. discriminate.
Defined.

(** A quoted identifier cannot end its own quoting: in any text where it is not
    followed by another backtick, the scanner reads it as one backtick literal whose
    content is the name, and resumes in plain mode right after it. *)
Theorem QuoteIdent_stays_quoted (name q rest : gostr)
    (Hq : QuoteIdent name = Ok q) (Hrest : forall t, rest <> ch_backtick :: t) :
  strip_go modeNone (q ++ rest) =
    [ch_backtick] ++ replicate (length name) " "%char ++ [ch_backtick] ++ strip_go modeNone rest.
Proof.
  apply QuoteIdent_Ok in Hq as [(_ & Hs & _) ->].
  assert (Hc : Forall (qitem_ok modeBacktick) (map QChar name)).
  { apply Forall_map, list.Forall_forall. intros c Hc. split; [|done]. intros ->.
    apply (Hs _ Hc). do 5 right. left. }
  assert (Hr : name = concat (map (render_qitem modeBacktick) (map QChar name))).
  { clear. induction name as [|c name IH]; [done|]. cbn. by f_equal. }
  assert (Hb : concat (map (blank_qitem modeBacktick) (map QChar name)) = replicate (length name) " "%char).
  { clear. induction name as [|c name IH]; [done|]. cbn. by f_equal. }
  rewrite <- !app_assoc. change ([ch_backtick] ++ ?l) with (ch_backtick :: l). cbn [strip_go].
  change (open_mode ch_backtick) with modeBacktick. rewrite Hr at 1.
  rewrite strip_go_content, Hb by done. do 2 f_equal. by apply (strip_go_close modeBacktick).
Qed.

Lemma QuoteIdent_stays_quoted_witness :
  strip_go modeNone ([ch_backtick] ++ "a'b" ++ [ch_backtick] ++ " = 'x'") =
    [ch_backtick] ++ "   " ++ [ch_backtick] ++ " = ' '".
Proof.
  rewrite !(app_assoc [ch_backtick]), !(app_assoc _ [ch_backtick] " = 'x'").
  exact (QuoteIdent_stays_quoted "a'b" ([ch_backtick] ++ "a'b" ++ [ch_backtick]) " = 'x'" eq_refl ltac:(discriminate)).
Defined.
