(* ===== verification/SqlParser.v ===== *)
(** internal/util/sql_parser.go: the AST-based validator, the collection of
    referenced schemas, LIMIT injection and the SELECT-star check.

    The SQL parser (github.com/xwb1989/sqlparser) is not part of the repository:
    its two entry points are the operations of the class [Sqlparser].  Its
    syntax trees appear as the code observes them: one constructor per type that
    a type switch names, an [Other] constructor for every type it does not, and
    the fields it reads.  An expression node carries the list of the nodes that
    [sqlparser.Walk] visits below it, so that [Walk] is the documented pre-order
    traversal that skips the nodes below a node whose visit returns false. *)
From S2P Require Import Prelude Unicode GoStrings GoNum Regex Identifiers SqlValidator.

(** ** The syntax tree *)
#[warnings="-register-all"]
Inductive SelectStatement :=
| Select (sel : SelectBody)
| Union (Left Right : SelectStatement) (hasLimit : bool)
| ParenSelect (sel : SelectStatement)
| OtherSelect (typ : gostr)
with SelectBody :=
| MkSelect (SelectExprs : list SQLNode) (From : list TableExpr) (Where : option SQLNode)
    (GroupBy : list SQLNode) (Having : option SQLNode) (OrderBy : list SQLNode) (hasLimit : bool)
with SQLNode :=
| FuncExpr (Name : gostr) (below : list SQLNode)
| Subquery (sel : SelectStatement) (below : list SQLNode)
| StarExpr (below : list SQLNode)
| OtherNode (below : list SQLNode)
with TableExpr :=
| AliasedTableExpr (e : SimpleTableExpr)
| JoinTableExpr (LeftExpr RightExpr : TableExpr) (On : option SQLNode)
| ParenTableExpr (Exprs : list TableExpr)
| OtherTableExpr
with SimpleTableExpr :=
| TableName (Qualifier : gostr)
| SubqueryTable (sel : SelectStatement)
| OtherSimple.

(** [HasOnTable()] and [OnTable.Qualifier] are one option, [ShowTablesOpt] with its [DbName] another. *)
Record ShowStmt := { ShowType : gostr; OnTable : option gostr; ShowTablesOpt : option gostr }.

Inductive Statement :=
| StSelect (s : SelectStatement)   (** *Select, *ParenSelect, *Union *)
| StShow (s : ShowStmt)
| StOtherRead
| StUse (DBName : gostr)
| StInsert (Qualifier : gostr)
| StUpdate (TableExprs : list TableExpr) (Where : option SQLNode)
| StDelete (TableExprs : list TableExpr) (Where : option SQLNode)
| StDDL (Action : gostr)
| StDBDDL (Action : gostr)
| StSet
| StOtherAdmin
| StOther (typ : gostr).

(** ** The parser as a parameter: an error message, or a result. *)
Class Sqlparser := {
  SplitStatementToPieces : gostr -> result gostr (list gostr);
  Parse : gostr -> result gostr Statement
}.

(** ** ParserValidationError and the block lists *)
Record ParserValidationError := PVE { PReason : gostr; PStatement : gostr }.

Definition DangerousFunctions : list gostr :=
  ["sleep"; "benchmark"; "get_lock"; "release_lock"; "is_free_lock"; "is_used_lock";
   "release_all_locks"; "load_file"; "sys_eval"; "sys_exec"].
Definition DangerousSchemas : list gostr := ["mysql"; "information_schema"; "performance_schema"; "sys"].
Definition systemReadSchemas : list gostr := ["information_schema"; "performance_schema"; "sys"].

(** ** Statement validation *)
Section Validation.
(** The package variable [allowSystemSchemas], set by SetAllowSystemSchemas. *)
Variable allowSystemSchemas : bool.

Definition schema_blocked (qualifier : gostr) : bool :=
  negb (is_empty qualifier) && one_of qualifier DangerousSchemas &&
  negb (allowSystemSchemas && one_of qualifier systemReadSchemas).

Definition if_some {A} (f : A -> option ParserValidationError) (o : option A)
  : option ParserValidationError :=
  match o with Some x => f x | None => None end.

Fixpoint validateSelectStatement (s : SelectStatement) : option ParserValidationError :=
  match s with
  | Select sel => validateSelect sel
  | Union l r _ => validateSelectStatement l ;;? validateSelectStatement r
  | ParenSelect s => validateSelectStatement s
  | OtherSelect typ => Some (PVE "unsupported select statement type" typ)
  end
with validateSelect (sel : SelectBody) : option ParserValidationError :=
  match sel with
  | MkSelect exprs from where_ _ _ _ _ =>
      first_err (fun e => walk_check e None) exprs ;;?
      first_err checkTableExpr from ;;?
      if_some (fun e => walk_check e None) where_ ;;?
      first_err checkSubqueries from
  end
(** The traversal of [checkExprForDangerousFunctions]: [checkErr] is the closure's
    variable, a visit that fails sets it and skips the nodes below, and the
    traversal goes on, so that the last failure is the one reported. *)
with walk_check (n : SQLNode) (checkErr : option ParserValidationError)
  : option ParserValidationError :=
  match n with
  | FuncExpr name below =>
      let funcName := ToLower name in
      if one_of funcName DangerousFunctions
      then Some (PVE "dangerous function not allowed" funcName)
      else fold_left (fun acc m => walk_check m acc) below checkErr
  | Subquery sel below =>
      match validateSelectStatement sel with
      | Some err => Some err
      | None => fold_left (fun acc m => walk_check m acc) below checkErr
      end
  | StarExpr below | OtherNode below =>
      fold_left (fun acc m => walk_check m acc) below checkErr
  end
with checkTableExpr (t : TableExpr) : option ParserValidationError :=
  match t with
  | AliasedTableExpr (TableName q) =>
      let qualifier := ToLower q in
      if schema_blocked qualifier
      then Some (PVE "access to system schema is not allowed" qualifier) else None
  | AliasedTableExpr (SubqueryTable sel) => validateSelectStatement sel
  | AliasedTableExpr OtherSimple => None
  | JoinTableExpr l r on =>
      checkTableExpr l ;;? checkTableExpr r ;;? if_some (fun e => walk_check e None) on
  | ParenTableExpr es => first_err checkTableExpr es
  | OtherTableExpr => None
  end
with checkSubqueries (t : TableExpr) : option ParserValidationError :=
  match t with
  | AliasedTableExpr (SubqueryTable sel) => validateSelectStatement sel
  | AliasedTableExpr _ => None
  | JoinTableExpr l r _ => checkSubqueries l ;;? checkSubqueries r
  | ParenTableExpr es => first_err checkSubqueries es
  | OtherTableExpr => None
  end.

Definition validateUnion (l r : SelectStatement) : option ParserValidationError :=
  validateSelectStatement l ;;? validateSelectStatement r.

Definition checkExprForDangerousFunctions (expr : option SQLNode) : option ParserValidationError :=
  if_some (fun e => walk_check e None) expr.

Definition validateStatement (stmt : Statement) : option ParserValidationError :=
  match stmt with
  | StSelect (Select s) => validateSelect s
  | StSelect (ParenSelect s) => validateSelectStatement s
  | StSelect (Union l r _) => validateUnion l r
  | StSelect (OtherSelect typ) => Some (PVE "statement type not allowed" typ)
  | StShow _ => None
  | StOtherRead => None
  | StUse _ => None
  | StInsert _ => Some (PVE "INSERT statements are not allowed" [])
  | StUpdate _ _ => Some (PVE "UPDATE statements are not allowed" [])
  | StDelete _ _ => Some (PVE "DELETE statements are not allowed" [])
  | StDDL action => Some (PVE "DDL statements are not allowed" action)
  | StDBDDL action => Some (PVE "database DDL statements are not allowed" action)
  | StSet => Some (PVE "SET statements are not allowed" [])
  | StOtherAdmin => Some (PVE "administrative statements are not allowed" [])
  | StOther typ => Some (PVE "statement type not allowed" typ)
  end.

Context `{Sqlparser}.

(** The statement a text holds: one non-empty piece, parsed. *)
Definition single_piece (sqlText : gostr) : result ParserValidationError gostr :=
  let sqlText := TrimSpace sqlText in
  if is_empty sqlText then Err (PVE "empty query" [])
  else
    match SplitStatementToPieces sqlText with
    | Err e => Err (PVE "failed to parse SQL statement" e)
    | Ok (_ :: _ :: _) => Err (PVE "multi-statement queries are not allowed" [])
    | Ok [] => Err (PVE "empty query" [])
    | Ok [piece] => Ok piece
    end.

Definition ValidateSQLWithParser (sqlText : gostr) : option ParserValidationError :=
  match single_piece sqlText with
  | Err e => Some e
  | Ok piece =>
      match Parse piece with
      | Err e => Some (PVE "failed to parse SQL statement" e)
      | Ok stmt => validateStatement stmt
      end
  end.

Definition ValidateSQLCombined (sqlText : gostr) : option (ParserValidationError + SQLValidationError) :=
  match ValidateSQLWithParser sqlText with
  | Some err => Some (inl err)
  | None =>
      match ValidateSQL allowSystemSchemas sqlText with
      | Some err => Some (inr err)
      | None => None
      end
  end.
End Validation.

(** ** Referenced schemas

    The map [out] is the set of its keys; each function returns the updated set. *)
Definition addSchemaQualifier (out : gset gostr) (qual : gostr) : gset gostr :=
  let s := TrimSpace qual in
  if is_empty s then out else {[ToLower s]} ∪ out.

Definition on_some {A S} (f : A -> S -> S) (o : option A) (out : S) : S :=
  match o with Some x => f x out | None => out end.

Fixpoint collectSelectStatementSchemas (s : SelectStatement) (out : gset gostr) : gset gostr :=
  match s with
  | Select sel => collectSelectSchemas sel out
  | Union l r _ => collectSelectStatementSchemas r (collectSelectStatementSchemas l out)
  | ParenSelect s => collectSelectStatementSchemas s out
  | OtherSelect _ => out
  end
with collectSelectSchemas (sel : SelectBody) (out : gset gostr) : gset gostr :=
  match sel with
  | MkSelect exprs from where_ groupBy having orderBy _ =>
      let out := fold_left (fun acc t => collectTableExprSchemas t acc) from out in
      let out := fold_left (fun acc e => walk_collect e acc) exprs out in
      let out := on_some walk_collect where_ out in
      let out := on_some walk_collect having out in
      let out := fold_left (fun acc g => walk_collect g acc) groupBy out in
      fold_left (fun acc o => walk_collect o acc) orderBy out
  end
(** The traversal of [collectExprSubquerySchemas]: every node is visited. *)
with walk_collect (n : SQLNode) (out : gset gostr) : gset gostr :=
  match n with
  | Subquery sel below =>
      fold_left (fun acc m => walk_collect m acc) below (collectSelectStatementSchemas sel out)
  | FuncExpr _ below | StarExpr below | OtherNode below =>
      fold_left (fun acc m => walk_collect m acc) below out
  end
with collectTableExprSchemas (t : TableExpr) (out : gset gostr) : gset gostr :=
  match t with
  | AliasedTableExpr (TableName q) => addSchemaQualifier out q
  | AliasedTableExpr (SubqueryTable sel) => collectSelectStatementSchemas sel out
  | AliasedTableExpr OtherSimple => out
  | JoinTableExpr l r _ => collectTableExprSchemas r (collectTableExprSchemas l out)
  | ParenTableExpr es => fold_left (fun acc e => collectTableExprSchemas e acc) es out
  | OtherTableExpr => out
  end.

Definition collectExprSubquerySchemas (expr : option SQLNode) (out : gset gostr) : gset gostr :=
  on_some walk_collect expr out.

Definition collect_tables (ts : list TableExpr) (out : gset gostr) : gset gostr :=
  fold_left (fun acc t => collectTableExprSchemas t acc) ts out.

Definition collectStmtReferencedSchemas (stmt : Statement) (out : gset gostr) : gset gostr :=
  match stmt with
  | StSelect s => collectSelectStatementSchemas s out
  | StShow s =>
      let out := match OnTable s with Some q => addSchemaQualifier out q | None => out end in
      match ShowTablesOpt s with
      | Some dbName =>
          let db := TrimSpace dbName in
          if negb (is_empty db) then {[ToLower db]} ∪ out else out
      | None => out
      end
  | StUse dbName => addSchemaQualifier out dbName
  | StInsert q => addSchemaQualifier out q
  | StUpdate ts where_ => collectExprSubquerySchemas where_ (collect_tables ts out)
  | StDelete ts where_ => collectExprSubquerySchemas where_ (collect_tables ts out)
  | _ => out
  end.

(** ** DESCRIBE and EXPLAIN, which the parser returns as OtherRead *)
Definition explainOptionPrefix : re :=
  MustCompile "(?is)^(?:FORMAT\s*=\s*\w+\s+|EXTENDED\s+|PARTITIONS\s+)".

Fixpoint strip_modifiers (n : nat) (s : gostr) : gostr :=
  match n with
  | 0 => s
  | S n =>
      match FindStringIndex explainOptionPrefix s with
      | None => s
      | Some (_, stop) => strip_modifiers n (TrimSpace (drop stop s))
      end
  end.
Definition stripLeadingExplainModifiers (s : gostr) : gostr := strip_modifiers 8 (TrimSpace s).

(** The loop removes one pair of backticks and trims, so it takes at most [length s] rounds. *)
Fixpoint strip_backticks (fuel : nat) (s : gostr) : gostr :=
  match fuel with
  | 0 => s
  | S fuel =>
      if HasPrefix s [ch_backtick] && HasSuffix s [ch_backtick] && (2 <=? length s)
      then strip_backticks fuel (TrimSpace (take (length s - 2) (drop 1 s)))
      else s
  end.
Definition stripOuterBackticks (s : gostr) : gostr :=
  let s := TrimSpace s in strip_backticks (length s) s.

(** The text before the first [unicode.IsSpace] rune. *)
Fixpoint until_space (s : gostr) : gostr :=
  match s with
  | [] => []
  | c1 :: s1 =>
      if space1 c1 then []
      else match s1 with
      | c2 :: s2 =>
          if space2 c1 c2 then []
          else match s2 with
          | c3 :: _ => if space3 c1 c2 c3 then [] else c1 :: until_space s1
          | [] => c1 :: until_space s1
          end
      | [] => [c1]
      end
  end.

Definition schemaFromDescribeTableRef (rest : gostr) : gostr :=
  let rest := TrimSpace rest in
  if is_empty rest then []
  else
    let token := stripOuterBackticks (until_space rest) in
    if is_empty token then []
    else
      match Index token "." with
      | Some (S i) => stripOuterBackticks (take (S i) token)
      | _ => []
      end.

Section Referenced.
Context `{Sqlparser}.

Definition explain_prefixes : list gostr := ["EXPLAIN ANALYZE "; "EXPLAIN "].
Definition describe_prefixes : list gostr := ["DESCRIBE "; "DESC "].

(** [handled] and the updated set, or the error. *)
Definition collectFromOtherRead (sqlText : gostr) (out : gset gostr)
  : result ParserValidationError (bool * gset gostr) :=
  let u := ToUpper (TrimSpace sqlText) in
  let trimmed := TrimSpace sqlText in
  match List.find (HasPrefix u) explain_prefixes with
  | Some p =>
      let inner := TrimSpace (drop (length p) trimmed) in
      if is_empty inner then Ok (true, out)
      else
        let inner := stripLeadingExplainModifiers inner in
        if is_empty inner then Ok (true, out)
        else
          match Parse inner with
          | Err e => Err (PVE "failed to parse SQL after EXPLAIN" e)
          | Ok st => Ok (true, collectStmtReferencedSchemas st out)
          end
  | None =>
      match List.find (HasPrefix u) describe_prefixes with
      | Some p =>
          let rest := TrimSpace (drop (length p) trimmed) in
          let qual := schemaFromDescribeTableRef rest in
          Ok (true, if negb (is_empty qual) then {[ToLower qual]} ∪ out else out)
      | None => Ok (false, out)
      end
  end.

Definition ReferencedSchemaQualifiers (sqlText : gostr) : result ParserValidationError (gset gostr) :=
  let? piece := single_piece sqlText in
  match Parse piece with
  | Err e => Err (PVE "failed to parse SQL statement" e)
  | Ok StOtherRead =>
      let? (ok, out) := collectFromOtherRead piece ∅ in
      if ok : bool then Ok out
      else Err (PVE "cannot extract schema references from this statement type"
                    "use SELECT or standard EXPLAIN SELECT / DESCRIBE")
  | Ok stmt => Ok (collectStmtReferencedSchemas stmt ∅)
  end.

Definition ShowEnumeratesAllSchemas (stmt : Statement) : bool :=
  match stmt with
  | StShow s =>
      let t := TrimSpace (ToLower (ShowType s)) in
      (t =?s "databases") || HasPrefix t "databases "
  | _ => false
  end.

Definition ShowEnumeratesAllSchemasInQuery (sqlText : gostr) : bool :=
  let sqlText := TrimSpace sqlText in
  if is_empty sqlText then false
  else
    match SplitStatementToPieces sqlText with
    | Ok [piece] =>
        match Parse (TrimSpace piece) with
        | Ok stmt => ShowEnumeratesAllSchemas stmt
        | Err _ => false
        end
    | _ => false
    end.

(** ** LIMIT injection *)
(** [None]: not a SELECT or UNION; otherwise whether it has a LIMIT. *)
Definition top_level_limit (stmt : Statement) : option bool :=
  match stmt with
  | StSelect (Select (MkSelect _ _ _ _ _ _ hasLimit)) => Some hasLimit
  | StSelect (Union _ _ hasLimit) => Some hasLimit
  | _ => None
  end.

Definition limit_base (trimmed : gostr) : gostr := TrimRight (TrimSpace trimmed) ";".

Definition InjectLimit (sqlText : gostr) (limit : Z) : gostr :=
  if (limit <=? 0)%Z then sqlText
  else
    let trimmed := TrimSpace sqlText in
    match Parse trimmed with
    | Err _ => sqlText
    | Ok stmt =>
        match top_level_limit stmt with
        | None => sqlText
        | Some true => sqlText
        | Some false => limit_base trimmed ++ " LIMIT " ++ Itoa limit
        end
    end.

Inductive paginate_error :=
| NegativeOffset
| CannotPaginateUnparsable (err : gostr)
| PaginationRequiresSelect
| AlreadyHasLimit.

Definition InjectLimitWithOffset (sqlText : gostr) (fetchLimit offset : Z)
  : result paginate_error gostr :=
  if (fetchLimit <=? 0)%Z then Ok sqlText
  else if (offset <? 0)%Z then Err NegativeOffset
  else
    let trimmed := TrimSpace sqlText in
    match Parse trimmed with
    | Err e => Err (CannotPaginateUnparsable e)
    | Ok stmt =>
        match top_level_limit stmt with
        | None => Err PaginationRequiresSelect
        | Some true => Err AlreadyHasLimit
        | Some false =>
            Ok (limit_base trimmed ++ " LIMIT " ++ Itoa fetchLimit ++ " OFFSET " ++ Itoa offset)
        end
    end.

(** ** SELECT-star detection *)
Definition is_star (n : SQLNode) : bool := match n with StarExpr _ => true | _ => false end.
Fixpoint select_has_star (s : SelectStatement) : bool :=
  match s with
  | Select (MkSelect exprs _ _ _ _ _ _) => existsb is_star exprs
  | Union l r _ => select_has_star l || select_has_star r
  | ParenSelect s => select_has_star s
  | OtherSelect _ => false
  end.
Definition selectHasStar (stmt : Statement) : bool :=
  match stmt with StSelect s => select_has_star s | _ => false end.

Definition HasSelectStar (sqlText : gostr) : bool :=
  match Parse (TrimSpace sqlText) with Ok stmt => selectHasStar stmt | Err _ => false end.
End Referenced.

(** ** Induction on syntax trees

    The trees nest lists and options, so the induction principle that is useful
    carries [Forall] over them. *)
Definition opt_all {A} (P : A -> Prop) (o : option A) : Prop := match o with Some x => P x | None => True end.

Section TreeInduction.
Variables (PS : SelectStatement -> Prop) (PB : SelectBody -> Prop)
          (PN : SQLNode -> Prop) (PT : TableExpr -> Prop).
Hypothesis HSelect : forall b, PB b -> PS (Select b).
Hypothesis HUnion : forall l r h, PS l -> PS r -> PS (Union l r h).
Hypothesis HParen : forall s, PS s -> PS (ParenSelect s).
Hypothesis HOther : forall t, PS (OtherSelect t).
Hypothesis HBody : forall es from w g h o lim,
  Forall PN es -> Forall PT from -> opt_all PN w -> Forall PN g -> opt_all PN h -> Forall PN o ->
  PB (MkSelect es from w g h o lim).
Hypothesis HFunc : forall name below, Forall PN below -> PN (FuncExpr name below).
Hypothesis HSub : forall s below, PS s -> Forall PN below -> PN (Subquery s below).
Hypothesis HStar : forall below, Forall PN below -> PN (StarExpr below).
Hypothesis HNode : forall below, Forall PN below -> PN (OtherNode below).
Hypothesis HName : forall q, PT (AliasedTableExpr (TableName q)).
Hypothesis HDerived : forall s, PS s -> PT (AliasedTableExpr (SubqueryTable s)).
Hypothesis HSimple : PT (AliasedTableExpr OtherSimple).
Hypothesis HJoin : forall l r on, PT l -> PT r -> opt_all PN on -> PT (JoinTableExpr l r on).
Hypothesis HTables : forall es, Forall PT es -> PT (ParenTableExpr es).
Hypothesis HTable : PT OtherTableExpr.

Fixpoint sel_tree (s : SelectStatement) : PS s :=
  match s with
  | Select b => HSelect b (body_tree b)
  | Union l r h => HUnion l r h (sel_tree l) (sel_tree r)
  | ParenSelect s => HParen s (sel_tree s)
  | OtherSelect t => HOther t
  end
with body_tree (b : SelectBody) : PB b :=
  match b with
  | MkSelect es from w g h o lim =>
      let nodes := fix nodes (l : list SQLNode) : Forall PN l :=
        match l with [] => Forall_nil_2 _ | n :: l => Forall_cons_2 _ _ _ (node_tree n) (nodes l) end in
      let node_opt := fun o : option SQLNode =>
        match o return opt_all PN o with Some n => node_tree n | None => I end in
      HBody es from w g h o lim (nodes es)
        ((fix tables (l : list TableExpr) : Forall PT l :=
            match l with [] => Forall_nil_2 _ | t :: l => Forall_cons_2 _ _ _ (table_tree t) (tables l) end) from)
        (node_opt w) (nodes g) (node_opt h) (nodes o)
  end
with node_tree (n : SQLNode) : PN n :=
  let nodes := fix nodes (l : list SQLNode) : Forall PN l :=
    match l with [] => Forall_nil_2 _ | n :: l => Forall_cons_2 _ _ _ (node_tree n) (nodes l) end in
  match n with
  | FuncExpr name below => HFunc name below (nodes below)
  | Subquery s below => HSub s below (sel_tree s) (nodes below)
  | StarExpr below => HStar below (nodes below)
  | OtherNode below => HNode below (nodes below)
  end
with table_tree (t : TableExpr) : PT t :=
  match t with
  | AliasedTableExpr (TableName q) => HName q
  | AliasedTableExpr (SubqueryTable s) => HDerived s (sel_tree s)
  | AliasedTableExpr OtherSimple => HSimple
  | JoinTableExpr l r on =>
      HJoin l r on (table_tree l) (table_tree r)
        (match on return opt_all PN on with Some n => node_tree n | None => I end)
  | ParenTableExpr es =>
      HTables es ((fix tables (l : list TableExpr) : Forall PT l :=
        match l with [] => Forall_nil_2 _ | t :: l => Forall_cons_2 _ _ _ (table_tree t) (tables l) end) es)
  | OtherTableExpr => HTable
  end.

Lemma tree_ind : (forall s, PS s) /\ (forall b, PB b) /\ (forall n, PN n) /\ (forall t, PT t).
Proof. exact (conj sel_tree (conj body_tree (conj node_tree table_tree))). Qed.
End TreeInduction.

(** ** What the validator looks for

    The nodes below a node, and the positions of a statement that the validator
    reaches: select expressions, FROM (with its ON conditions) and WHERE; GROUP BY,
    HAVING and ORDER BY of the statement itself are not among them. *)
Definition below_of (n : SQLNode) : list SQLNode :=
  match n with FuncExpr _ below | Subquery _ below | StarExpr below | OtherNode below => below end.

Inductive bad_sel (allow : bool) : SelectStatement -> Prop :=
| bad_select b : bad_body allow b -> bad_sel allow (Select b)
| bad_union_left l r h : bad_sel allow l -> bad_sel allow (Union l r h)
| bad_union_right l r h : bad_sel allow r -> bad_sel allow (Union l r h)
| bad_paren s : bad_sel allow s -> bad_sel allow (ParenSelect s)
| bad_other typ : bad_sel allow (OtherSelect typ)
with bad_body (allow : bool) : SelectBody -> Prop :=
| bad_exprs es from w g h o lim n :
    n ∈ es -> bad_node allow n -> bad_body allow (MkSelect es from w g h o lim)
| bad_from es from w g h o lim t :
    t ∈ from -> bad_table allow t -> bad_body allow (MkSelect es from w g h o lim)
| bad_where es from n g h o lim :
    bad_node allow n -> bad_body allow (MkSelect es from (Some n) g h o lim)
with bad_node (allow : bool) : SQLNode -> Prop :=
| bad_function name below : ToLower name ∈ DangerousFunctions -> bad_node allow (FuncExpr name below)
| bad_subquery s below : bad_sel allow s -> bad_node allow (Subquery s below)
| bad_below n m : m ∈ below_of n -> bad_node allow m -> bad_node allow n
with bad_table (allow : bool) : TableExpr -> Prop :=
| bad_name q : schema_blocked allow (ToLower q) = true -> bad_table allow (AliasedTableExpr (TableName q))
| bad_derived s : bad_sel allow s -> bad_table allow (AliasedTableExpr (SubqueryTable s))
| bad_join_left l r on : bad_table allow l -> bad_table allow (JoinTableExpr l r on)
| bad_join_right l r on : bad_table allow r -> bad_table allow (JoinTableExpr l r on)
| bad_join_on l r n : bad_node allow n -> bad_table allow (JoinTableExpr l r (Some n))
| bad_tables es t : t ∈ es -> bad_table allow t -> bad_table allow (ParenTableExpr es).
#[export] Hint Constructors bad_sel bad_body bad_node bad_table : go.

Lemma first_err_bad {A} (f : A -> option ParserValidationError) (bad : A -> Prop) (l : list A) :
  Forall (fun x => is_Some (f x) <-> bad x) l ->
  is_Some (first_err f l) <-> exists x, x ∈ l /\ bad x.
Proof.
  intros HF. rewrite list.Forall_forall in HF. split.
  - intros [e He]. apply first_err_Some in He as (x & Hx & Hf). exists x.
    split; [done|]. apply (HF x Hx). rewrite Hf. eauto.
  - intros (x & Hx & Hb). destruct (first_err f l) eqn:E; [eauto|].
    rewrite first_err_None in E. specialize (E x Hx).
    apply (HF x Hx) in Hb. rewrite E in Hb. by destruct Hb.
Qed.

Lemma seq_bad (e1 e2 : option ParserValidationError) :
  is_Some (e1 ;;? e2) <-> is_Some e1 \/ is_Some e2.
Proof.
  destruct e1; split; eauto.
  intros [[]|]; done.
Qed.

(** A fold that keeps the last failure fails when it started with one or meets one. *)
Lemma fold_bad (walk : SQLNode -> option ParserValidationError -> option ParserValidationError)
    (bad : SQLNode -> Prop) (below : list SQLNode) :
  Forall (fun n => forall acc, is_Some (walk n acc) <-> is_Some acc \/ bad n) below ->
  forall acc, is_Some (fold_left (fun acc m => walk m acc) below acc) <->
    is_Some acc \/ exists n, n ∈ below /\ bad n.
Proof.
  induction 1 as [|n below Hn _ IH]; intros acc; simpl.
  - split; [by left|]. intros [?|(n & Hn & _)]; [done|]. by apply elem_of_nil in Hn.
  - rewrite IH, Hn. split.
    + intros [[?|?]|(m & ? & ?)]; [by left | right; exists n; split; [left|done] |].
      right. exists m. split; [by right|done].
    + intros [?|(m & Hm & ?)]; [by left; left|].
      apply elem_of_cons in Hm as [->|Hm]; [by left; right | right; eauto].
Qed.

Lemma if_some_bad {A} (f : A -> option ParserValidationError) (bad : A -> Prop) (o : option A) :
  opt_all (fun x => is_Some (f x) <-> bad x) o ->
  is_Some (if_some f o) <-> exists x, o = Some x /\ bad x.
Proof.
  destruct o as [x|]; simpl; intros H.
  - rewrite H. split; [eauto | by intros (y & [= <-] & ?)].
  - split; [by intros [] | by intros (? & ? & ?)].
Qed.

#[local] Arguments one_of : simpl never.

Lemma walk_check_node allow (n : SQLNode) (acc : option ParserValidationError) :
  Forall (fun n => forall acc, is_Some (walk_check allow n acc) <-> is_Some acc \/ bad_node allow n)
    (below_of n) ->
  opt_all (fun s => is_Some (validateSelectStatement allow s) <-> bad_sel allow s)
    (match n with Subquery s _ => Some s | _ => None end) ->
  is_Some (walk_check allow n acc) <-> is_Some acc \/ bad_node allow n.
Proof.
  intros HF Hs. pose proof (fold_bad _ _ _ HF) as Hfold.
  destruct n as [name below|s below|below|below]; simpl in *.
  - destruct (one_of (ToLower name) DangerousFunctions) eqn:E.
    + apply one_of_elem in E. split; [right; by apply bad_function | eauto].
    + rewrite Hfold. split; (intros [?|H]; [by left|right]).
      * destruct H as (m & Hm & Hb). by apply (bad_below allow _ m).
      * inversion H as [? ? Hd| |? m Hm Hb]; subst; [|eauto].
        apply one_of_elem in Hd. congruence.
  - destruct (validateSelectStatement allow s) eqn:E.
    + split; [|eauto]. intros _. right. apply bad_subquery, Hs. eauto.
    + rewrite Hfold. split; (intros [?|H]; [by left|right]).
      * destruct H as (m & Hm & Hb). by apply (bad_below allow _ m).
      * inversion H as [|? ? Hb|? m Hm Hb]; subst; [|eauto]. apply Hs in Hb as [? ?]. done.
  - rewrite Hfold. split; (intros [?|H]; [by left|right]).
    + destruct H as (m & Hm & Hb). by apply (bad_below allow _ m).
    + inversion H; subst; eauto.
  - rewrite Hfold. split; (intros [?|H]; [by left|right]).
    + destruct H as (m & Hm & Hb). by apply (bad_below allow _ m).
    + inversion H; subst; eauto.
Qed.

Lemma bad_body_iff allow es from w g h o lim :
  bad_body allow (MkSelect es from w g h o lim) <->
  (exists n, n ∈ es /\ bad_node allow n) \/ (exists t, t ∈ from /\ bad_table allow t) \/
  (exists n, w = Some n /\ bad_node allow n).
Proof.
  split.
  - inversion 1; subst; eauto 6.
  - intros [(n & ? & ?)|[(t & ? & ?)|(n & -> & ?)]]; eauto using bad_exprs, bad_from, bad_where.
Qed.

(** What [checkSubqueries] rejects, [checkTableExpr] has rejected before. *)
Lemma checkSubqueries_redundant allow (t : TableExpr) :
  is_Some (checkSubqueries allow t) -> is_Some (checkTableExpr allow t).
Proof.
  revert t. apply (tree_ind (fun _ => True) (fun _ => True) (fun _ => True)
    (fun t => is_Some (checkSubqueries allow t) -> is_Some (checkTableExpr allow t)));
    try (simpl; done).
  - intros l r on Hl Hr _. simpl. rewrite !seq_bad. intros [?|?]; auto.
  - simpl. intros es HF [e He]. apply first_err_Some in He as (t & Ht & He).
    rewrite list.Forall_forall in HF. destruct (first_err (checkTableExpr allow) es) eqn:E; [eauto|].
    rewrite first_err_None in E. specialize (HF t Ht (mk_is_Some _ _ He)).
    rewrite E in HF by done. by destruct HF.
Qed.

Lemma validate_bad_all (allow : bool) :
  (forall s, is_Some (validateSelectStatement allow s) <-> bad_sel allow s) /\
  (forall b, is_Some (validateSelect allow b) <-> bad_body allow b) /\
  (forall n, forall acc, is_Some (walk_check allow n acc) <-> is_Some acc \/ bad_node allow n) /\
  (forall t, is_Some (checkTableExpr allow t) <-> bad_table allow t).
Proof.
  assert (Hno : is_Some (@None ParserValidationError) -> False) by by intros [].
  apply tree_ind; simpl.
  - intros b Hb. rewrite Hb. split; [apply bad_select | by inversion 1].
  - intros l r h Hl Hr. rewrite seq_bad, Hl, Hr.
    split; [intros [?|?]; eauto with go | inversion 1; auto].
  - intros s Hs. rewrite Hs. split; [apply bad_paren | by inversion 1].
  - intros t. split; eauto with go.
  - intros es from w g h o lim He Hf Hw _ _ _.
    rewrite bad_body_iff, !seq_bad, (first_err_bad _ (bad_table allow) from Hf).
    rewrite (first_err_bad (fun e => walk_check allow e None) (bad_node allow) es).
    2:{ eapply list.Forall_impl; [exact He|]. intros n Hn. simpl in *. rewrite (Hn None). tauto. }
    rewrite (if_some_bad _ (bad_node allow)).
    2:{ destruct w as [n|]; simpl in *; [|done]. rewrite Hw. tauto. }
    split; [|tauto]. intros [?|[?|[?|[e Hsub]]]]; auto. right; left.
    apply first_err_Some in Hsub as (t & Ht & Hsub). rewrite list.Forall_forall in Hf.
    exists t. split; [done|]. apply (Hf t Ht), checkSubqueries_redundant. eauto.
  - intros name below HF acc. exact (walk_check_node allow (FuncExpr name below) acc HF I).
  - intros s below Hs HF acc. exact (walk_check_node allow (Subquery s below) acc HF Hs).
  - intros below HF acc. exact (walk_check_node allow (StarExpr below) acc HF I).
  - intros below HF acc. exact (walk_check_node allow (OtherNode below) acc HF I).
  - intros q. destruct (schema_blocked allow (ToLower q)) eqn:E.
    + split; eauto with go.
    + split; [by intros [] | inversion 1; congruence].
  - intros s Hs. rewrite Hs. split; [apply bad_derived | by inversion 1].
  - split; [by intros [] | inversion 1].
  - intros l r on Hl Hr Hon. rewrite !seq_bad, Hl, Hr, (if_some_bad _ (bad_node allow)).
    2:{ destruct on as [n|]; simpl in *; [|done]. rewrite Hon. tauto. }
    split; [intros [?|[?|(n & -> & ?)]]; eauto with go | inversion 1; subst; eauto].
  - intros es HF. rewrite (first_err_bad _ _ _ HF).
    split; [intros (t & ? & ?); by eapply bad_tables | inversion 1; subst; eauto].
  - split; [by intros [] | inversion 1].
Qed.

(** ** The schemas a statement names

    ON conditions of joins are not among the positions that are visited. *)
Inductive names_sel (q : gostr) : SelectStatement -> Prop :=
| names_select b : names_body q b -> names_sel q (Select b)
| names_union_left l r h : names_sel q l -> names_sel q (Union l r h)
| names_union_right l r h : names_sel q r -> names_sel q (Union l r h)
| names_paren s : names_sel q s -> names_sel q (ParenSelect s)
with names_body (q : gostr) : SelectBody -> Prop :=
| names_from es from w g h o lim t :
    t ∈ from -> names_table q t -> names_body q (MkSelect es from w g h o lim)
| names_nodes es from w g h o lim n :
    n ∈ es ++ option_list w ++ option_list h ++ g ++ o -> names_node q n ->
    names_body q (MkSelect es from w g h o lim)
with names_node (q : gostr) : SQLNode -> Prop :=
| names_subquery s below : names_sel q s -> names_node q (Subquery s below)
| names_below n m : m ∈ below_of n -> names_node q m -> names_node q n
with names_table (q : gostr) : TableExpr -> Prop :=
| names_qualifier qual :
    q = ToLower (TrimSpace qual) -> TrimSpace qual <> [] ->
    names_table q (AliasedTableExpr (TableName qual))
| names_derived s : names_sel q s -> names_table q (AliasedTableExpr (SubqueryTable s))
| names_join_left l r on : names_table q l -> names_table q (JoinTableExpr l r on)
| names_join_right l r on : names_table q r -> names_table q (JoinTableExpr l r on)
| names_tables es t : t ∈ es -> names_table q t -> names_table q (ParenTableExpr es).
#[export] Hint Constructors names_sel names_body names_node names_table : go.

Lemma addSchemaQualifier_spec (out : gset gostr) (qual q : gostr) :
  q ∈ addSchemaQualifier out qual <->
  q ∈ out \/ (q = ToLower (TrimSpace qual) /\ TrimSpace qual <> []).
Proof.
  unfold addSchemaQualifier. destruct (is_empty (TrimSpace qual)) eqn:E; go_bool.
  - split; [by left | intros [?|[_ ?]]; done].
  - rewrite elem_of_union, elem_of_singleton. tauto.
Qed.

Lemma ex_elem_app {A} (l k : list A) (P : A -> Prop) :
  (exists x, x ∈ l ++ k /\ P x) <-> (exists x, x ∈ l /\ P x) \/ (exists x, x ∈ k /\ P x).
Proof.
  setoid_rewrite elem_of_app. split.
  - intros (x & [?|?] & ?); eauto.
  - intros [(x & ? & ?)|(x & ? & ?)]; eauto.
Qed.

Lemma fold_names {A} (f : A -> gset gostr -> gset gostr) (names : A -> Prop) (q : gostr) (l : list A) :
  Forall (fun x => forall out, q ∈ f x out <-> q ∈ out \/ names x) l ->
  forall out, q ∈ fold_left (fun acc x => f x acc) l out <-> q ∈ out \/ exists x, x ∈ l /\ names x.
Proof.
  induction 1 as [|x l Hx _ IH]; intros out; simpl.
  - split; [by left|]. intros [?|(n & Hn & _)]; [done|]. by apply elem_of_nil in Hn.
  - rewrite IH, Hx. split.
    + intros [[?|?]|(m & ? & ?)]; [by left | right; exists x; split; [left|done] |].
      right. exists m. split; [by right|done].
    + intros [?|(m & Hm & ?)]; [by left; left|].
      apply elem_of_cons in Hm as [->|Hm]; [by left; right | right; eauto].
Qed.

Lemma on_some_names {A} (f : A -> gset gostr -> gset gostr) (names : A -> Prop) (q : gostr) (o : option A) :
  opt_all (fun x => forall out, q ∈ f x out <-> q ∈ out \/ names x) o ->
  forall out, q ∈ on_some f o out <-> q ∈ out \/ exists x, x ∈ option_list o /\ names x.
Proof.
  destruct o as [x|]; simpl; intros H out.
  - rewrite H. split; (intros [?|Hn]; [by left|right]).
    + exists x. split; [left|done].
    + destruct Hn as (y & Hy & ?). apply list_elem_of_singleton in Hy as ->. done.
  - split; [by left|]. intros [?|(n & Hn & _)]; [done|]. by apply elem_of_nil in Hn.
Qed.

Lemma names_body_iff q es from w g h o lim :
  names_body q (MkSelect es from w g h o lim) <->
  (exists t, t ∈ from /\ names_table q t) \/
  (exists n, n ∈ es ++ option_list w ++ option_list h ++ g ++ o /\ names_node q n).
Proof.
  split; [inversion 1; subst; eauto|].
  intros [(t & ? & ?)|(n & ? & ?)]; [by eapply names_from | by eapply names_nodes].
Qed.

Lemma names_below_iff q n :
  match n with Subquery _ _ => False | _ => True end ->
  names_node q n <-> exists m, m ∈ below_of n /\ names_node q m.
Proof.
  intros Hn. split.
  - inversion 1; subst; [done|eauto].
  - intros (m & ? & ?). by apply (names_below q n m).
Qed.

Lemma collect_names_all (q : gostr) :
  (forall s, forall out, q ∈ collectSelectStatementSchemas s out <-> q ∈ out \/ names_sel q s) /\
  (forall b, forall out, q ∈ collectSelectSchemas b out <-> q ∈ out \/ names_body q b) /\
  (forall n, forall out, q ∈ walk_collect n out <-> q ∈ out \/ names_node q n) /\
  (forall t, forall out, q ∈ collectTableExprSchemas t out <-> q ∈ out \/ names_table q t).
Proof.
  apply tree_ind; simpl.
  - intros b Hb out. rewrite Hb. split; (intros [?|Hn]; [by left|right]).
    + by apply names_select.
    + by inversion Hn.
  - intros l r h Hl Hr out. rewrite Hr, Hl. split.
    + intros [[?|?]|?]; eauto with go.
    + intros [?|Hn]; [auto|]. inversion Hn; subst; auto.
  - intros s Hs out. rewrite Hs. split; (intros [?|Hn]; [by left|right]).
    + by apply names_paren.
    + by inversion Hn.
  - intros t out. split; [by left | intros [?|Hn]; [done | inversion Hn]].
  - intros es from w g h o lim He Hf Hw Hg Hh Ho out. rewrite names_body_iff.
    rewrite (fold_names walk_collect _ q o Ho), (fold_names walk_collect _ q g Hg),
      (on_some_names walk_collect _ q h Hh), (on_some_names walk_collect _ q w Hw),
      (fold_names walk_collect _ q es He), (fold_names collectTableExprSchemas _ q from Hf).
    rewrite !ex_elem_app. tauto.
  - intros name below HF out. rewrite (fold_names walk_collect _ q below HF).
    by rewrite (names_below_iff q (FuncExpr name below)).
  - intros s below Hs HF out. rewrite (fold_names walk_collect _ q below HF), Hs. split.
    + intros [[?|?]|(m & Hm & ?)]; [by left | right; by apply names_subquery |].
      right. by apply (names_below q _ m).
    + intros [?|Hn]; [auto|]. inversion Hn; subst; eauto.
  - intros below HF out. rewrite (fold_names walk_collect _ q below HF).
    by rewrite (names_below_iff q (StarExpr below)).
  - intros below HF out. rewrite (fold_names walk_collect _ q below HF).
    by rewrite (names_below_iff q (OtherNode below)).
  - intros qual out. rewrite addSchemaQualifier_spec. split; (intros [?|Hn]; [by left|right]).
    + destruct Hn. by apply names_qualifier.
    + by inversion Hn.
  - intros s Hs out. rewrite Hs. split; (intros [?|Hn]; [by left|right]).
    + by apply names_derived.
    + by inversion Hn.
  - intros out. split; [by left | intros [?|Hn]; [done | inversion Hn]].
  - intros l r on Hl Hr _ out. rewrite Hr, Hl. split.
    + intros [[?|?]|?]; eauto with go.
    + intros [?|Hn]; [auto|]. inversion Hn; subst; auto.
  - intros es HF out. rewrite (fold_names collectTableExprSchemas _ q es HF).
    split; (intros [?|Hn]; [by left|right]).
    + destruct Hn as (t & ? & ?). by eapply names_tables.
    + inversion Hn; subst; eauto.
  - intros out. split; [by left | intros [?|Hn]; [done | inversion Hn]].
Qed.

Inductive names_stmt (q : gostr) : Statement -> Prop :=
| names_st_select s : names_sel q s -> names_stmt q (StSelect s)
| names_st_on s qual : OnTable s = Some qual -> q = ToLower (TrimSpace qual) -> TrimSpace qual <> [] ->
    names_stmt q (StShow s)
| names_st_from s db : ShowTablesOpt s = Some db -> q = ToLower (TrimSpace db) -> TrimSpace db <> [] ->
    names_stmt q (StShow s)
| names_st_use db : q = ToLower (TrimSpace db) -> TrimSpace db <> [] -> names_stmt q (StUse db)
| names_st_insert db : q = ToLower (TrimSpace db) -> TrimSpace db <> [] -> names_stmt q (StInsert db)
| names_st_update ts w t : t ∈ ts -> names_table q t -> names_stmt q (StUpdate ts w)
| names_st_update_where ts n : names_node q n -> names_stmt q (StUpdate ts (Some n))
| names_st_delete ts w t : t ∈ ts -> names_table q t -> names_stmt q (StDelete ts w)
| names_st_delete_where ts n : names_node q n -> names_stmt q (StDelete ts (Some n)).

Lemma collect_tables_spec (q : gostr) (ts : list TableExpr) (w : option SQLNode) (out : gset gostr) :
  q ∈ collectExprSubquerySchemas w (collect_tables ts out) <->
  q ∈ out \/ (exists t, t ∈ ts /\ names_table q t) \/ (exists n, w = Some n /\ names_node q n).
Proof.
  destruct (collect_names_all q) as (_ & _ & HN & HT).
  assert (Hts : forall o, q ∈ collect_tables ts o <-> q ∈ o \/ exists t, t ∈ ts /\ names_table q t).
  { apply fold_names, list.Forall_forall. intros t _. apply HT. }
  unfold collectExprSubquerySchemas. destruct w as [n|]; simpl.
  - rewrite HN, Hts. split.
    + intros [[?|?]|?]; eauto 6.
    + intros [?|[?|(m & [= <-] & ?)]]; auto.
  - rewrite Hts. split; [intros [?|?]; auto|]. intros [?|[?|(m & ? & ?)]]; auto. done.
Qed.

Lemma collect_stmt_spec (q : gostr) (stmt : Statement) (out : gset gostr) :
  q ∈ collectStmtReferencedSchemas stmt out <-> q ∈ out \/ names_stmt q stmt.
Proof.
  destruct (collect_names_all q) as (HS & _ & _ & _).
  destruct stmt as [s|s| |db|db|ts w|ts w| | | | |]; simpl;
    rewrite ?HS, ?addSchemaQualifier_spec, ?collect_tables_spec;
    try (split; [by left | intros [?|Hn]; [done | inversion Hn]]).
  - split; (intros [?|Hn]; [by left|right]); [by apply names_st_select | by inversion Hn].
  - destruct s as [ty on db]; simpl. destruct db as [db|]; simpl.
    + destruct (is_empty (TrimSpace db)) eqn:E; go_bool; simpl.
      * destruct on as [on|]; rewrite ?addSchemaQualifier_spec.
        -- split; (intros [?|Hn]; [by left|right]).
           ++ destruct Hn. by eapply names_st_on.
           ++ inversion Hn; simpl in *; simplify_eq; auto.
        -- split; (intros ?; try by left). destruct H as [?|Hn]; [done|].
           inversion Hn; simpl in *; simplify_eq; done.
      * rewrite elem_of_union, elem_of_singleton.
        destruct on as [on|]; rewrite ?addSchemaQualifier_spec; split.
        -- intros [?|[?|[? ?]]]; [right; by eapply names_st_from | by left | right; by eapply names_st_on].
        -- intros [?|Hn]; [auto|]. inversion Hn; simpl in *; simplify_eq; auto.
        -- intros [?|?]; [right; by eapply names_st_from | by left].
        -- intros [?|Hn]; [auto|]. inversion Hn; simpl in *; simplify_eq; auto.
    + destruct on as [on|]; rewrite ?addSchemaQualifier_spec.
      * split; (intros [?|Hn]; [by left|right]).
        -- destruct Hn. by eapply names_st_on.
        -- inversion Hn; simpl in *; simplify_eq; auto.
      * split; [by left|]. intros [?|Hn]; [done|]. inversion Hn; simpl in *; simplify_eq.
  - split; (intros [?|Hn]; [by left|right]); [destruct Hn; by apply names_st_use | by inversion Hn].
  - split; (intros [?|Hn]; [by left|right]); [destruct Hn; by apply names_st_insert | by inversion Hn].
  - split; (intros [?|Hn]; [by left|right]).
    + destruct Hn as [(t & ? & ?)|(n & -> & ?)]; [by eapply names_st_update | by eapply names_st_update_where].
    + inversion Hn; subst; eauto.
  - split; (intros [?|Hn]; [by left|right]).
    + destruct Hn as [(t & ? & ?)|(n & -> & ?)]; [by eapply names_st_delete | by eapply names_st_delete_where].
    + inversion Hn; subst; eauto.
Qed.

(** ** The statements the validator lets through *)
Inductive read_statement (allow : bool) : Statement -> Prop :=
| read_select s : ~ bad_sel allow s -> read_statement allow (StSelect s)
| read_show s : read_statement allow (StShow s)
| read_other : read_statement allow StOtherRead
| read_use db : read_statement allow (StUse db).

Lemma not_is_Some {A} (o : option A) : ~ is_Some o <-> o = None.
Proof. destruct o; split; eauto. intros H. destruct H. eauto. by intros ? []. Qed.

Lemma validateStatement_None (allow : bool) (stmt : Statement) :
  validateStatement allow stmt = None <-> read_statement allow stmt.
Proof.
  destruct (validate_bad_all allow) as (HS & HB & _ & _).
  assert (Hsel : forall s, validateStatement allow (StSelect s) = None <-> ~ bad_sel allow s).
  { intros s. rewrite <- HS, not_is_Some. by destruct s. }
  destruct stmt; simpl; try (split; [done | by inversion 1]); try (by split; [constructor|]).
  change (validateStatement allow (StSelect s) = None <-> read_statement allow (StSelect s)).
  rewrite Hsel. split; [apply read_select | by inversion 1].
Qed.

Lemma ValidateSQLCombined_None `{Sqlparser} (allow : bool) (sqlText : gostr) :
  ValidateSQLCombined allow sqlText = None <->
  ValidateSQLWithParser allow sqlText = None /\ ValidateSQL allow sqlText = None.
Proof.
  unfold ValidateSQLCombined. destruct (ValidateSQLWithParser _ _), (ValidateSQL _ _); intuition done.
Qed.

Lemma ValidateSQLWithParser_None `{Sqlparser} (allow : bool) (sqlText : gostr) :
  ValidateSQLWithParser allow sqlText = None <->
  exists piece stmt, single_piece sqlText = Ok piece /\ Parse piece = Ok stmt /\ read_statement allow stmt.
Proof.
  unfold ValidateSQLWithParser. setoid_rewrite <- validateStatement_None. split.
  - destruct (single_piece sqlText) as [piece|] eqn:E; [|done].
    destruct (Parse piece) as [stmt|] eqn:E'; [|done]. eauto 6.
  - intros (piece & stmt & -> & -> & ?). done.
Qed.

(** ** Properties *)
(** C2: the combined validator accepts a query exactly when it holds one statement, that
    statement is a SHOW, DESCRIBE/EXPLAIN, USE, or a SELECT/UNION without a dangerous
    function, a blocked schema or an unsupported form in any position the validator
    reaches, and the text passes the literal-aware pattern check. *)
Theorem ValidateSQLCombined_accepts_iff `{Sqlparser} (allow : bool) (sqlText : gostr) :
  ValidateSQLCombined allow sqlText = None <->
  (exists piece stmt, single_piece sqlText = Ok piece /\ Parse piece = Ok stmt /\ read_statement allow stmt)
  /\ accepted_sql allow (TrimSpace sqlText).
Proof. by rewrite ValidateSQLCombined_None, ValidateSQLWithParser_None, ValidateSQL_None. Qed.

(** C3: a dangerous function or a blocked schema is found at any depth below a reached
    position, through unions, parentheses, derived tables, join operands, ON conditions
    and subqueries: the traversal of each tree reports an error exactly when the
    position-by-position definition says the tree is bad. *)
Theorem validateSelectStatement_complete (allow : bool) (s : SelectStatement) :
  (validateSelectStatement allow s = None <-> ~ bad_sel allow s) /\
  (forall n, checkExprForDangerousFunctions allow (Some n) = None <-> ~ bad_node allow n) /\
  (forall t, checkTableExpr allow t = None <-> ~ bad_table allow t).
Proof.
  destruct (validate_bad_all allow) as (HS & _ & HN & HT). repeat split; rewrite <- ?HS, <- ?HT.
  - intros ->. by intros [].
  - apply not_is_Some.
  - intros E Hb. simpl in E. assert (Hs : is_Some (walk_check allow n None)) by (apply HN; by right).
    rewrite E in Hs. by destruct Hs.
  - intros Hb. simpl. apply not_is_Some. rewrite HN. intros [[]|?]; done.
  - intros ->. by intros [].
  - apply not_is_Some.
Qed.

(** C4: for a statement the parser does not return as OtherRead, the reported schemas are
    exactly the lowercased, trimmed, non-empty names in the visited positions; for
    EXPLAIN they are those of the statement that is left after the modifiers. *)
Theorem ReferencedSchemaQualifiers_spec `{Sqlparser} (sqlText piece : gostr) (stmt : Statement)
  (Hpiece : single_piece sqlText = Ok piece) (Hparse : Parse piece = Ok stmt) :
  (stmt <> StOtherRead ->
     exists out, ReferencedSchemaQualifiers sqlText = Ok out /\ forall q, q ∈ out <-> names_stmt q stmt) /\
  (forall p inner st,
     stmt = StOtherRead ->
     List.find (HasPrefix (ToUpper (TrimSpace piece))) explain_prefixes = Some p ->
     inner = stripLeadingExplainModifiers (TrimSpace (drop (length p) (TrimSpace piece))) ->
     TrimSpace (drop (length p) (TrimSpace piece)) <> [] -> inner <> [] -> Parse inner = Ok st ->
     exists out, ReferencedSchemaQualifiers sqlText = Ok out /\ forall q, q ∈ out <-> names_stmt q st).
Proof.
  assert (Hspec : forall st q, q ∈ collectStmtReferencedSchemas st ∅ <-> names_stmt q st).
  { intros st q. rewrite collect_stmt_spec, elem_of_empty. tauto. }
  unfold ReferencedSchemaQualifiers. rewrite Hpiece. cbn [result_bind]. rewrite Hparse. split.
  - intros Hne. destruct stmt; try done; eauto.
  - intros p inner st -> Hp -> Hne Hne' Hst. unfold collectFromOtherRead. rewrite Hp.
    apply is_empty_false in Hne. apply is_empty_false in Hne'.
    rewrite Hne. cbv zeta. rewrite Hne', Hst. cbn [result_bind]. eauto.
Qed.

(** A parser with three statements, to instantiate the theorems. *)
Definition select_of (from : list TableExpr) (having : option SQLNode) : Statement :=
  StSelect (Select (MkSelect [OtherNode []] from None [] having [] false)).
Definition demo_having : gostr := "SELECT 1 AS n HAVING release_all_locks()".
Definition demo_join : gostr :=
  "SELECT a.id FROM app.t a JOIN app.u b ON b.id IN (SELECT id FROM hr.salaries)".
Definition demo_explain : gostr := "EXPLAIN FORMAT=JSON SELECT * FROM App.t".
Definition hr_salaries : SQLNode :=
  Subquery (Select (MkSelect [OtherNode []] [AliasedTableExpr (TableName "hr")] None [] None [] false)) [].
Definition app_table : TableExpr := AliasedTableExpr (TableName "App").
#[local] Instance demo_parser : Sqlparser := {|
  SplitStatementToPieces s := Ok [s];
  Parse s :=
    if s =?s demo_having then Ok (select_of [] (Some (FuncExpr "release_all_locks" [])))
    else if s =?s demo_join then
      Ok (select_of [JoinTableExpr app_table app_table (Some (OtherNode [hr_salaries]))] None)
    else if s =?s demo_explain then Ok StOtherRead
    else if HasPrefix s "SELECT " then Ok (select_of [app_table] None)
    else Err "syntax error"
|}.

Lemma ReferencedSchemaQualifiers_spec_witness :
  exists out, ReferencedSchemaQualifiers demo_explain = Ok out /\
    forall q, q ∈ out <-> names_stmt q (select_of [app_table] None).
Proof.
  apply (@ReferencedSchemaQualifiers_spec demo_parser demo_explain demo_explain StOtherRead)
    with (p := "EXPLAIN ") (inner := "SELECT * FROM App.t"); solve [reflexivity | vm_compute; done].
Defined.

(** HAVING is not among the positions the validator reaches: whatever the parser, a
    query it reads as a SELECT with a dangerous function in its HAVING clause is
    accepted, here one that releases the session's locks. *)
Theorem having_is_not_validated `{Sqlparser} (allow : bool) (es : list SQLNode)
  (Hsplit : SplitStatementToPieces demo_having = Ok [demo_having])
  (Hparse : Parse demo_having = Ok (StSelect (Select
     (MkSelect [OtherNode []] [] None [] (Some (FuncExpr "release_all_locks" es)) [] false)))) :
  ValidateSQLCombined allow demo_having = None /\ "release_all_locks" ∈ DangerousFunctions.
Proof.
  split; [|decide_true].
  apply ValidateSQLCombined_None. split; [|destruct allow; vm_compute; reflexivity].
  unfold ValidateSQLWithParser, single_piece.
  change (TrimSpace demo_having) with demo_having. simpl. by rewrite Hsplit, Hparse.
Qed.

Lemma having_is_not_validated_witness :
  ValidateSQLCombined false demo_having = None /\ "release_all_locks" ∈ DangerousFunctions.
Proof. apply (having_is_not_validated false []); reflexivity. Defined.

(** The ON condition of a join is not among the positions the collection visits, so a
    schema read only there is not reported; the allowlist check built on the collection
    does not see it. *)
Theorem join_condition_is_not_collected `{Sqlparser} (l r : TableExpr) (n : SQLNode)
    (text piece q : gostr) (es : list SQLNode)
  (Hpiece : single_piece text = Ok piece)
  (Hparse : Parse piece = Ok (StSelect (Select (MkSelect es [JoinTableExpr l r (Some n)] None [] None [] false))))
  (Hes : Forall (fun e => ~ names_node q e) es) (Hl : ~ names_table q l) (Hr : ~ names_table q r) :
  exists out, ReferencedSchemaQualifiers text = Ok out /\ q ∉ out.
Proof.
  exists (collectStmtReferencedSchemas
    (StSelect (Select (MkSelect es [JoinTableExpr l r (Some n)] None [] None [] false))) ∅).
  split; [unfold ReferencedSchemaQualifiers; rewrite Hpiece; simpl; by rewrite Hparse|].
  rewrite collect_stmt_spec. intros [Hn|Hn]; [by apply elem_of_empty in Hn|]. rewrite list.Forall_forall in Hes.
  inversion Hn as [s Hs| | | | | | | |]; subst. inversion Hs as [b Hb| | |]; subst.
  apply names_body_iff in Hb as [(t & Ht & Hb)|(e & He & Hb)].
  - apply list_elem_of_singleton in Ht as ->. by inversion Hb.
  - simpl in He. rewrite app_nil_r in He. by apply (Hes e).
Qed.

Lemma join_condition_is_not_collected_witness :
  (exists out, ReferencedSchemaQualifiers demo_join = Ok out /\ "hr" ∉ out) /\
  names_node "hr" (OtherNode [hr_salaries]).
Proof.
  split.
  - apply (join_condition_is_not_collected app_table app_table (OtherNode [hr_salaries])
      demo_join demo_join "hr" [OtherNode []]); try reflexivity.
    + apply Forall_singleton. intros Hn. inversion Hn as [|? m Hm]; subst. by apply elem_of_nil in Hm.
    + intros Hn. inversion Hn; subst. done.
    + intros Hn. inversion Hn; subst. done.
  - apply (names_below "hr" _ hr_salaries); [left|].
    apply names_subquery, names_select. eapply names_from; [left|]. by apply names_qualifier.
Defined.

(** [limit_base] drops trailing semicolons and nothing else. *)
Lemma limit_base_spec (sqlText : gostr) :
  exists semis, TrimSpace sqlText = limit_base (TrimSpace sqlText) ++ semis /\
    Forall (fun c => c = ";"%char) semis /\
    forall a c, limit_base (TrimSpace sqlText) = a ++ [c] -> c <> ";"%char.
Proof.
  unfold limit_base. rewrite TrimSpace_idemp.
  destruct (TrimRight_spec (TrimSpace sqlText) ";") as (b & Hb & HF & Hc).
  exists b. repeat split; [done| |].
  - eapply list.Forall_impl; [exact HF|]. intros c Hin. by apply list_elem_of_singleton in Hin.
  - intros a c Ha ->. apply (Hc a _ Ha). left.
Qed.

(** C19: LIMIT injection changes a query only when the parser reads it as a SELECT or UNION
    without a LIMIT; it then keeps the text, less surrounding space and trailing
    semicolons, and appends a LIMIT that reads back as the cap. *)
Theorem InjectLimit_spec `{Sqlparser} (sqlText : gostr) (limit : Z) (Hlimit : (0 < limit <= maxInt64)%Z) :
  (InjectLimit sqlText limit = sqlText /\
     forall stmt, Parse (TrimSpace sqlText) = Ok stmt -> top_level_limit stmt <> Some false) \/
  (exists stmt base semis digits,
     Parse (TrimSpace sqlText) = Ok stmt /\ top_level_limit stmt = Some false /\
     TrimSpace sqlText = base ++ semis /\ Forall (fun c => c = ";"%char) semis /\
     (forall a c, base = a ++ [c] -> c <> ";"%char) /\
     InjectLimit sqlText limit = base ++ " LIMIT " ++ digits /\ Atoi digits = Some limit).
Proof.
  unfold InjectLimit. destruct (Z.leb_spec limit 0); [lia|].
  destruct (Parse (TrimSpace sqlText)) as [stmt|e] eqn:E; [|by left].
  destruct (top_level_limit stmt) as [[]|] eqn:El;
    try (left; split; [done|]; intros ? [= <-]; congruence).
  right. destruct (limit_base_spec sqlText) as (semis & Hb & HF & Hc).
  exists stmt, (limit_base (TrimSpace sqlText)), semis, (Itoa limit).
  repeat split; try done. apply Atoi_Itoa. unfold in_int64, maxInt64 in *. lia.
Qed.

Definition demo_star : gostr := " SELECT * FROM t;; ".
Lemma InjectLimit_spec_witness :
  InjectLimit demo_star 100 = "SELECT * FROM t LIMIT 100" /\
  exists base digits, InjectLimit demo_star 100 = base ++ " LIMIT " ++ digits /\ Atoi digits = Some 100%Z.
Proof.
  split; [vm_compute; reflexivity|].
  destruct (InjectLimit_spec demo_star 100 ltac:(unfold maxInt64; lia))
    as [[_ Hno]|(stmt & base & semis & digits & _ & _ & _ & _ & _ & E & Ha)].
  - exfalso. by apply (Hno (select_of [app_table] None)).
  - by exists base, digits.
Defined.

(** Pagination accepts a query exactly when the parser reads it as a SELECT or UNION
    without LIMIT and the offset is not negative, and then asks for [fetchLimit] rows
    from [offset] of the same text that LIMIT injection would cap. *)
Theorem InjectLimitWithOffset_spec `{Sqlparser} (sqlText out : gostr) (fetchLimit offset : Z)
    (Hfetch : (0 < fetchLimit)%Z) :
  InjectLimitWithOffset sqlText fetchLimit offset = Ok out <->
  (0 <= offset)%Z /\
  (exists stmt, Parse (TrimSpace sqlText) = Ok stmt /\ top_level_limit stmt = Some false) /\
  out = InjectLimit sqlText fetchLimit ++ " OFFSET " ++ Itoa offset.
Proof.
  unfold InjectLimitWithOffset, InjectLimit.
  destruct (Z.leb_spec fetchLimit 0); [lia|].
  destruct (Z.ltb_spec offset 0); [split; [done | intros (? & _); lia]|].
  destruct (Parse (TrimSpace sqlText)) as [stmt|e].
  2:{ split; [done|]. by intros (_ & (? & ? & _) & _). }
  destruct (top_level_limit stmt) as [[]|] eqn:El.
  - split; [done|]. intros (_ & (st & [= <-] & ?) & _). congruence.
  - rewrite <- !app_assoc. split.
    + intros [= <-]. eauto 6.
    + by intros (_ & _ & ->).
  - split; [done|]. intros (_ & (st & [= <-] & ?) & _). congruence.
Qed.

Lemma InjectLimitWithOffset_spec_witness :
  InjectLimitWithOffset demo_star 51 100 = Ok "SELECT * FROM t LIMIT 51 OFFSET 100".
Proof.
  apply (InjectLimitWithOffset_spec demo_star "SELECT * FROM t LIMIT 51 OFFSET 100" 51 100); [lia|].
  split; [lia|]. split; [|vm_compute; reflexivity].
  exists (select_of [app_table] None). split; reflexivity.
Defined.

Definition demo_describe : gostr := "DESCRIBE `mysql`.`user`".
#[local] Instance demo_read_parser : Sqlparser :=
  {| SplitStatementToPieces s := Ok [s]; Parse _ := Ok StOtherRead |}.

(** A DESCRIBE, which the parser returns as OtherRead, is accepted without a look at
    the table it names: a backtick-quoted system schema, blanked for the pattern check,
    passes both layers although it is blocked in a SELECT; and the collection of
    referenced schemas, which strips the outer backticks of the whole reference first,
    reads its name with a backtick left at the end. *)
Theorem quoted_schema_is_described `{Sqlparser}
  (Hsplit : SplitStatementToPieces demo_describe = Ok [demo_describe])
  (Hparse : Parse demo_describe = Ok StOtherRead) :
  ValidateSQLCombined false demo_describe = None /\
  schema_blocked false "mysql" = true /\
  ReferencedSchemaQualifiers demo_describe = Ok {["mysql`"]}.
Proof.
  assert (Hp : single_piece demo_describe = Ok demo_describe).
  { unfold single_piece. change (TrimSpace demo_describe) with demo_describe. simpl. by rewrite Hsplit. }
  split; [|split; [vm_compute; reflexivity|]].
  - apply ValidateSQLCombined_None. split; [|vm_compute; reflexivity].
    unfold ValidateSQLWithParser. by rewrite Hp, Hparse.
  - unfold ReferencedSchemaQualifiers. rewrite Hp. cbn [result_bind]. rewrite Hparse. vm_compute. reflexivity.
Qed.

Lemma quoted_schema_is_described_witness :
  @ValidateSQLCombined false demo_read_parser demo_describe = None.
Proof. apply (@quoted_schema_is_described demo_read_parser); reflexivity. Defined.
