(* ===== verification/Config.v ===== *)
(** internal/config/config.go: the runtime configuration, the environment overrides,
    the connections of the environment, and the checks of the MCP HTTP transport. *)
From S2P Require Import Prelude Unicode GoStrings GoNum GoNet.

(** ** Defaults *)
Definition DefaultMaxRows : Z := 200.
Definition DefaultQueryTimeoutSecs : Z := 30.
Definition DefaultMaxOpenConns : Z := 10.
Definition DefaultMaxIdleConns : Z := 5.
Definition DefaultConnMaxLifetimeMins : Z := 30.
Definition DefaultConnMaxIdleTimeMins : Z := 5.
Definition DefaultPingTimeoutSecs : Z := 5.
Definition DefaultHTTPPort : Z := 9306.
Definition DefaultHTTPRequestTimeoutS : Z := 60.
Definition DefaultRateLimitRPS : Z := 100.
Definition DefaultRateLimitBurst : Z := 200.
Definition DefaultMCPHTTPBind : gostr := "127.0.0.1".
Definition DefaultMCPHTTPPath : gostr := "/mcp".
Definition DefaultMCPHTTPSessionTimeoutMinutes : Z := 30.
Definition TransportStdio : gostr := "stdio".
Definition TransportHTTP : gostr := "http".
Definition ToolPackAuto : gostr := "auto".
Definition ToolPackOff : gostr := "off".
Definition ReservedConnectionPrefix : gostr := "mcp-session/".
Definition reservedMCPHTTPPaths : list gostr := ["/health"; "/status"; "/api/metrics/tokens"].

(** ** The configuration *)
Record SSHConfig := {
  SSHHost : gostr; SSHUser : gostr; KeyPath : gostr; SSHPort : Z;
  StrictHostKeyChecking : option bool; KnownHostsPath : gostr; HostKeyFingerprint : gostr
}.

Record ConnectionConfig := {
  Name : gostr; DSN : gostr; Description : gostr; ReadOnly : bool; SSL : gostr; SSH : option SSHConfig
}.

Record Config := {
  Connections : list ConnectionConfig;
  MaxRows : Z; QueryTimeout : Z;
  MaxOpenConns : Z; MaxIdleConns : Z; ConnMaxLifetime : Z; ConnMaxIdleTime : Z; PingTimeout : Z;
  ExtendedMode : bool; VectorMode : bool; ToolPack : gostr; StatementLabels : bool;
  HTTPMode : bool; MetricsHTTP : bool; JSONLogging : bool; TokenCard : bool;
  TokenTracking : bool; TokenModel : gostr;
  HTTPPort : Z; HTTPRequestTimeout : Z;
  Transport : gostr;
  MCPHTTPBind : gostr; MCPHTTPPath : gostr; MCPHTTPToken : gostr; MCPHTTPTokenFile : gostr;
  MCPHTTPTLSCert : gostr; MCPHTTPTLSKey : gostr; MCPHTTPStateless : bool; MCPHTTPSessionTimeout : Z;
  MCPHTTPAllowedOrigins : list gostr; MCPHTTPAllowedHosts : list gostr; MCPHTTPAllowInsecure : bool;
  RateLimitEnabled : bool; RateLimitRPS : float; RateLimitBurst : Z;
  AuditLogPath : gostr;
  DBRetryMaxRetries : Z; DBRetryMaxInterval : Z;
  MaskColumns : list gostr;
  AllowedDatabases : list gostr; StrictReadOnly : bool; AllowSystemSchemas : bool;
  ProcessAdmin : bool; ReadAuditTool : bool; SlowQueryTool : bool
}.

(** The literal of Load without a config file; ToConfig starts from the same one. *)
Definition default_config : Config := {|
  Connections := [];
  MaxRows := DefaultMaxRows;
  QueryTimeout := duration DefaultQueryTimeoutSecs Second;
  MaxOpenConns := DefaultMaxOpenConns;
  MaxIdleConns := DefaultMaxIdleConns;
  ConnMaxLifetime := duration DefaultConnMaxLifetimeMins Minute;
  ConnMaxIdleTime := duration DefaultConnMaxIdleTimeMins Minute;
  PingTimeout := duration DefaultPingTimeoutSecs Second;
  ExtendedMode := false; VectorMode := false; ToolPack := []; StatementLabels := true;
  HTTPMode := false; MetricsHTTP := false; JSONLogging := false; TokenCard := false;
  TokenTracking := false; TokenModel := "cl100k_base";
  HTTPPort := DefaultHTTPPort;
  HTTPRequestTimeout := duration DefaultHTTPRequestTimeoutS Second;
  Transport := [];
  MCPHTTPBind := []; MCPHTTPPath := []; MCPHTTPToken := []; MCPHTTPTokenFile := [];
  MCPHTTPTLSCert := []; MCPHTTPTLSKey := []; MCPHTTPStateless := false; MCPHTTPSessionTimeout := 0;
  MCPHTTPAllowedOrigins := []; MCPHTTPAllowedHosts := []; MCPHTTPAllowInsecure := false;
  RateLimitEnabled := false; RateLimitRPS := float_of_Z DefaultRateLimitRPS;
  RateLimitBurst := DefaultRateLimitBurst;
  AuditLogPath := [];
  DBRetryMaxRetries := 3; DBRetryMaxInterval := duration 10 Second;
  MaskColumns := [];
  AllowedDatabases := []; StrictReadOnly := false; AllowSystemSchemas := false;
  ProcessAdmin := false; ReadAuditTool := false; SlowQueryTool := false
|}.

(** ** Reading the environment

    The environment is a map; an unset variable and an empty one are read alike. *)
Definition env := gmap gostr gostr.
Definition Getenv (e : env) (key : gostr) : gostr := default [] (e !! key).
Definition is_set (e : env) (key : gostr) : bool := negb (is_empty (Getenv e key)).

Definition getEnvInt (e : env) (key : gostr) (def : Z) : Z :=
  let val := TrimSpace (Getenv e key) in
  if is_empty val then def
  else match Atoi val with
       | Some n => if (n <=? 0)%Z then def else n
       | None => def
       end.

Definition getEnvBool (e : env) (key : gostr) : bool :=
  one_of (TrimSpace (ToLower (Getenv e key))) ["1"; "true"; "yes"; "on"; "y"].

Definition parseCSVList (s : gostr) : list gostr :=
  filter (fun p => is_empty p = false) (map TrimSpace (Split s ","%char)).

(** [if v := os.Getenv(key); v != "" { field = f }], else the field keeps its value. *)
Definition override {A} (e : env) (key : gostr) (new old : A) : A := if is_set e key then new else old.
Definition override_bool (e : env) (key : gostr) (old : bool) : bool := override e key (getEnvBool e key) old.
Definition override_int (e : env) (key : gostr) (old : Z) : Z := override e key (getEnvInt e key old) old.
Definition override_str (e : env) (key : gostr) (old : gostr) : gostr :=
  override e key (TrimSpace (Getenv e key)) old.
Definition override_list (e : env) (key : gostr) (old : list gostr) : list gostr :=
  override e key (parseCSVList (Getenv e key)) old.
Definition override_secs (e : env) (key : gostr) (old : Z) : Z :=
  override e key (duration (getEnvInt e key (int_of_float (Seconds old))) Second) old.
Definition override_mins (e : env) (key : gostr) (old : Z) : Z :=
  override e key (duration (getEnvInt e key (int_of_float (Minutes old))) Minute) old.

(** MYSQL_MCP_DB_RETRY_MAX: 0 to 20, anything else is ignored. *)
Definition retry_max (e : env) (old : Z) : Z :=
  match Atoi (TrimSpace (Getenv e "MYSQL_MCP_DB_RETRY_MAX")) with
  | Some n => if (0 <=? n)%Z && (n <=? 20)%Z then n else old
  | None => old
  end.
Definition retry_interval (e : env) (old : Z) : Z :=
  match Atoi (TrimSpace (Getenv e "MYSQL_MCP_DB_RETRY_MAX_INTERVAL_MS")) with
  | Some n => if (0 <? n)%Z then duration n Millisecond else old
  | None => old
  end.

(** ** applyEnvOverrides *)
(** MYSQL_QUERY_TIMEOUT_SECONDS before MYSQL_QUERY_TIMEOUT (milliseconds). *)
Definition override_query_timeout (e : env) (old : Z) : Z :=
  if is_set e "MYSQL_QUERY_TIMEOUT_SECONDS" then
    duration (getEnvInt e "MYSQL_QUERY_TIMEOUT_SECONDS" (int_of_float (Seconds old))) Second
  else if is_set e "MYSQL_QUERY_TIMEOUT" then
    duration (getEnvInt e "MYSQL_QUERY_TIMEOUT" (Milliseconds old)) Millisecond
  else old.

(** MYSQL_MAX_OPEN_CONNS before its alias MYSQL_POOL_SIZE. *)
Definition override_max_open (e : env) (old : Z) : Z :=
  if is_set e "MYSQL_MAX_OPEN_CONNS" then getEnvInt e "MYSQL_MAX_OPEN_CONNS" old
  else override_int e "MYSQL_POOL_SIZE" old.

(** The /status page: its variable, then the two defaults that serve it. *)
Definition override_token_card (e : env) (httpMode metricsHTTP old : bool) : bool :=
  let card := override_bool e "MYSQL_MCP_TOKEN_CARD" old in
  let unset := negb (is_set e "MYSQL_MCP_TOKEN_CARD") in
  let card :=
    if httpMode && unset && negb (is_empty (TrimSpace (Getenv e "MYSQL_MCP_HTTP"))) then true else card in
  if metricsHTTP && negb httpMode && unset then true else card.

Definition override_tool_pack (e : env) (old : gostr) : gostr :=
  let v := TrimSpace (Getenv e "MYSQL_MCP_TOOL_PACK") in
  if negb (is_empty v) then ToLower v else old.

Definition applyEnvOverrides (e : env) (cfg : Config) : Config :=
  let httpMode := override_bool e "MYSQL_MCP_HTTP" (HTTPMode cfg) in
  let metricsHTTP := override_bool e "MYSQL_MCP_METRICS_HTTP" (MetricsHTTP cfg) in
  {|
    Connections := Connections cfg;
    MaxRows := override_int e "MYSQL_MAX_ROWS" (MaxRows cfg);
    QueryTimeout := override_query_timeout e (QueryTimeout cfg);
    MaxOpenConns := override_max_open e (MaxOpenConns cfg);
    MaxIdleConns := override_int e "MYSQL_MAX_IDLE_CONNS" (MaxIdleConns cfg);
    ConnMaxLifetime := override_mins e "MYSQL_CONN_MAX_LIFETIME_MINUTES" (ConnMaxLifetime cfg);
    ConnMaxIdleTime := override_mins e "MYSQL_CONN_MAX_IDLE_TIME_MINUTES" (ConnMaxIdleTime cfg);
    PingTimeout := override_secs e "MYSQL_PING_TIMEOUT_SECONDS" (PingTimeout cfg);
    DBRetryMaxRetries := retry_max e (DBRetryMaxRetries cfg);
    DBRetryMaxInterval := retry_interval e (DBRetryMaxInterval cfg);
    ExtendedMode := override_bool e "MYSQL_MCP_EXTENDED" (ExtendedMode cfg);
    VectorMode := override_bool e "MYSQL_MCP_VECTOR" (VectorMode cfg);
    HTTPMode := httpMode;
    (* the full REST API replaces the metrics-only sidecar *)
    MetricsHTTP := if httpMode then false else metricsHTTP;
    JSONLogging := override_bool e "MYSQL_MCP_JSON_LOGS" (JSONLogging cfg);
    TokenTracking := override_bool e "MYSQL_MCP_TOKEN_TRACKING" (TokenTracking cfg);
    TokenModel := override_str e "MYSQL_MCP_TOKEN_MODEL" (TokenModel cfg);
    TokenCard := override_token_card e httpMode metricsHTTP (TokenCard cfg);
    HTTPPort := override_int e "MYSQL_HTTP_PORT" (HTTPPort cfg);
    HTTPRequestTimeout := override_secs e "MYSQL_HTTP_REQUEST_TIMEOUT_SECONDS" (HTTPRequestTimeout cfg);
    Transport := override e "MYSQL_MCP_TRANSPORT"
                   (ToLower (TrimSpace (Getenv e "MYSQL_MCP_TRANSPORT"))) (Transport cfg);
    MCPHTTPBind := override_str e "MYSQL_MCP_HTTP_BIND" (MCPHTTPBind cfg);
    MCPHTTPPath := override_str e "MYSQL_MCP_HTTP_PATH" (MCPHTTPPath cfg);
    MCPHTTPToken := override_str e "MYSQL_MCP_HTTP_TOKEN" (MCPHTTPToken cfg);
    MCPHTTPTokenFile := override_str e "MYSQL_MCP_HTTP_TOKEN_FILE" (MCPHTTPTokenFile cfg);
    MCPHTTPTLSCert := override_str e "MYSQL_MCP_HTTP_TLS_CERT" (MCPHTTPTLSCert cfg);
    MCPHTTPTLSKey := override_str e "MYSQL_MCP_HTTP_TLS_KEY" (MCPHTTPTLSKey cfg);
    MCPHTTPStateless := override_bool e "MYSQL_MCP_HTTP_STATELESS" (MCPHTTPStateless cfg);
    MCPHTTPSessionTimeout :=
      override_mins e "MYSQL_MCP_HTTP_SESSION_TIMEOUT_MINUTES" (MCPHTTPSessionTimeout cfg);
    MCPHTTPAllowedOrigins := override_list e "MYSQL_MCP_HTTP_ALLOWED_ORIGINS" (MCPHTTPAllowedOrigins cfg);
    MCPHTTPAllowedHosts := override_list e "MYSQL_MCP_HTTP_ALLOWED_HOSTS" (MCPHTTPAllowedHosts cfg);
    MCPHTTPAllowInsecure := override_bool e "MYSQL_MCP_HTTP_ALLOW_INSECURE" (MCPHTTPAllowInsecure cfg);
    RateLimitEnabled := override_bool e "MYSQL_HTTP_RATE_LIMIT" (RateLimitEnabled cfg);
    RateLimitRPS := override e "MYSQL_HTTP_RATE_LIMIT_RPS"
                      (float_of_Z (getEnvInt e "MYSQL_HTTP_RATE_LIMIT_RPS" (int_of_float (RateLimitRPS cfg))))
                      (RateLimitRPS cfg);
    RateLimitBurst := override_int e "MYSQL_HTTP_RATE_LIMIT_BURST" (RateLimitBurst cfg);
    AuditLogPath := override_str e "MYSQL_MCP_AUDIT_LOG" (AuditLogPath cfg);
    MaskColumns := override_list e "MYSQL_MCP_MASK_COLUMNS" (MaskColumns cfg);
    AllowedDatabases := override_list e "MYSQL_MCP_ALLOWED_DATABASES" (AllowedDatabases cfg);
    StatementLabels := override_bool e "MYSQL_MCP_STATEMENT_LABELS" (StatementLabels cfg);
    ToolPack := override_tool_pack e (ToolPack cfg);
    StrictReadOnly := override_bool e "MYSQL_MCP_STRICT_READ_ONLY" (StrictReadOnly cfg);
    AllowSystemSchemas := override_bool e "MYSQL_MCP_ALLOW_SYSTEM_SCHEMAS" (AllowSystemSchemas cfg);
    ProcessAdmin := override_bool e "MYSQL_MCP_PROCESS_ADMIN" (ProcessAdmin cfg);
    ReadAuditTool := override_bool e "MYSQL_MCP_READ_AUDIT_TOOL" (ReadAuditTool cfg);
    SlowQueryTool := override_bool e "MYSQL_MCP_SLOW_QUERY_TOOL" (SlowQueryTool cfg)
  |}.

(** [cfg] with the fields that Load sets after the overrides replaced. *)
Definition config_with (conns : list ConnectionConfig) (transport bind path token : gostr)
    (timeout : Z) (origins : list gostr) (cfg : Config) : Config := {|
  Connections := conns; MaxRows := MaxRows cfg; QueryTimeout := QueryTimeout cfg;
  MaxOpenConns := MaxOpenConns cfg; MaxIdleConns := MaxIdleConns cfg;
  ConnMaxLifetime := ConnMaxLifetime cfg; ConnMaxIdleTime := ConnMaxIdleTime cfg;
  PingTimeout := PingTimeout cfg; ExtendedMode := ExtendedMode cfg; VectorMode := VectorMode cfg;
  ToolPack := ToolPack cfg; StatementLabels := StatementLabels cfg; HTTPMode := HTTPMode cfg;
  MetricsHTTP := MetricsHTTP cfg; JSONLogging := JSONLogging cfg; TokenCard := TokenCard cfg;
  TokenTracking := TokenTracking cfg; TokenModel := TokenModel cfg; HTTPPort := HTTPPort cfg;
  HTTPRequestTimeout := HTTPRequestTimeout cfg; Transport := transport; MCPHTTPBind := bind;
  MCPHTTPPath := path; MCPHTTPToken := token; MCPHTTPTokenFile := MCPHTTPTokenFile cfg;
  MCPHTTPTLSCert := MCPHTTPTLSCert cfg; MCPHTTPTLSKey := MCPHTTPTLSKey cfg;
  MCPHTTPStateless := MCPHTTPStateless cfg; MCPHTTPSessionTimeout := timeout;
  MCPHTTPAllowedOrigins := origins; MCPHTTPAllowedHosts := MCPHTTPAllowedHosts cfg;
  MCPHTTPAllowInsecure := MCPHTTPAllowInsecure cfg; RateLimitEnabled := RateLimitEnabled cfg;
  RateLimitRPS := RateLimitRPS cfg; RateLimitBurst := RateLimitBurst cfg;
  AuditLogPath := AuditLogPath cfg; DBRetryMaxRetries := DBRetryMaxRetries cfg;
  DBRetryMaxInterval := DBRetryMaxInterval cfg; MaskColumns := MaskColumns cfg;
  AllowedDatabases := AllowedDatabases cfg; StrictReadOnly := StrictReadOnly cfg;
  AllowSystemSchemas := AllowSystemSchemas cfg; ProcessAdmin := ProcessAdmin cfg;
  ReadAuditTool := ReadAuditTool cfg; SlowQueryTool := SlowQueryTool cfg
|}.

(** ** Errors of the configuration *)
Inductive config_error :=
| LoadFileFailed (path : gostr) (err : gostr)
| ConnectionsParse (err : gostr)
| NoConnections
| ReservedName (name : gostr)
| EmptyDSN (name : gostr)
| TokenFileUnreadable (err : gostr)
| TokenFileEmpty (path : gostr)
| InvalidToolPack (v : gostr)
| InvalidTransport (v : gostr)
| TransportWithREST
| PathNotAbsolute (p : gostr)
| PathNotClean (p : gostr)
| PathReserved (p : gostr)
| InvalidOrigin (o : gostr)
| InvalidBind (b : gostr)
| TLSPairIncomplete
| AllowedHostsNeedToken
| BindNeedsToken (b : gostr)
| BindNeedsTLS (b : gostr).

(** ** Validation *)
Definition validateConnectionNames (conns : list ConnectionConfig) : option config_error :=
  first_err (fun c => if HasPrefix (Name c) ReservedConnectionPrefix
                      then Some (ReservedName (Name c)) else None) conns.

Definition validateToolPack (v : gostr) : option config_error :=
  if one_of v [[]; ToolPackAuto; ToolPackOff] then None else Some (InvalidToolPack v).

Definition IsLoopbackBind (addr : gostr) : bool :=
  let host := Trim (TrimSpace addr) "[]" in
  if EqualFold host "localhost" then true
  else match ParseIP host with Some a => IsLoopback a | None => false end.

Definition validateMCPHTTPPath (p : gostr) : option config_error :=
  if negb (HasPrefix p "/") || (p =?s "/") then Some (PathNotAbsolute p)
  else if negb (Clean p =?s p) || ContainsAny p ("{}?#% " ++ [ch_tab]) then Some (PathNotClean p)
  else if one_of p reservedMCPHTTPPaths then Some (PathReserved p)
  else None.

Section Origins.
Context `{UrlParse}.

Definition canonicalOrigin (o : gostr) : gostr :=
  match url_parse o with
  | None => o
  | Some u =>
      let scheme := ToLower (Scheme u) in
      let host := ToLower (Hostname u) in
      let host :=
        match ParseIP host with
        | Some a => let host := IP_String a in if is_v4 a then host else "[" ++ host ++ "]"
        | None => if Contains host ":" then "[" ++ host ++ "]" else host
        end in
      let port := Port u in
      let port := if ((scheme =?s "https") && (port =?s "443")) || ((scheme =?s "http") && (port =?s "80"))
                  then [] else port in
      let host := if negb (is_empty port) then host ++ ":" ++ port else host in
      scheme ++ "://" ++ host
  end.

Definition validateOrigin (o : gostr) : option config_error :=
  let bad := Some (InvalidOrigin o) in
  if ContainsAny o "?#" then bad
  else match url_parse o with
  | None => bad
  | Some u =>
      if (negb (Scheme u =?s "http") && negb (Scheme u =?s "https")) || is_empty (Hostname u)
         || (negb (is_empty (Path u)) && negb (Path u =?s "/")) || HasUser u then bad
      else if HasSuffix (Host u) ":" then bad
      else if (match ParseIP (Hostname u) with
               | Some a => Contains (Hostname u) ":" && is_v4 a
               | None => false
               end) then bad
      else if negb (is_empty (Port u)) then
        match Atoi (Port u) with
        | Some n => if (n <? 1)%Z || (65535 <? n)%Z then bad else None
        | None => bad
        end
      else None
  end.

Definition normalize_origin (o : gostr) : gostr :=
  let o := TrimSpace o in
  if is_nil (validateOrigin o) then canonicalOrigin o else o.

(** ** applyMCPHTTPDefaults *)
Definition strip_brackets (bind : gostr) : gostr :=
  let bind := TrimSpace bind in
  if HasPrefix bind "[" && HasSuffix bind "]" then take (length bind - 2) (drop 1 bind) else bind.

Definition applyMCPHTTPDefaults (cfg : Config) : Config :=
  let bind := strip_brackets (MCPHTTPBind cfg) in
  config_with (Connections cfg)
    (if is_empty (Transport cfg) then TransportStdio else Transport cfg)
    (if is_empty bind then DefaultMCPHTTPBind else bind)
    (if is_empty (MCPHTTPPath cfg) then DefaultMCPHTTPPath else MCPHTTPPath cfg)
    (MCPHTTPToken cfg)
    (if (MCPHTTPSessionTimeout cfg =? 0)%Z
     then duration DefaultMCPHTTPSessionTimeoutMinutes Minute else MCPHTTPSessionTimeout cfg)
    (map normalize_origin (MCPHTTPAllowedOrigins cfg))
    cfg.

(** ** ValidateTransport *)
Definition ValidateTransport (cfg : Config) : option config_error :=
  if Transport cfg =?s TransportStdio then None
  else if negb (Transport cfg =?s TransportHTTP) then Some (InvalidTransport (Transport cfg))
  else if HTTPMode cfg then Some TransportWithREST
  else
    validateMCPHTTPPath (MCPHTTPPath cfg) ;;?
    first_err validateOrigin (MCPHTTPAllowedOrigins cfg) ;;?
    (if bool_decide (is_Some (SplitHostPort (MCPHTTPBind cfg))) || ContainsAny (MCPHTTPBind cfg) "[]/ "
     then Some (InvalidBind (MCPHTTPBind cfg)) else None) ;;?
    (if xorb (is_empty (MCPHTTPTLSCert cfg)) (is_empty (MCPHTTPTLSKey cfg))
     then Some TLSPairIncomplete else None) ;;?
    (if (0 <? length (MCPHTTPAllowedHosts cfg)) && is_empty (MCPHTTPToken cfg)
     then Some AllowedHostsNeedToken else None) ;;?
    (if negb (IsLoopbackBind (MCPHTTPBind cfg)) then
       if is_empty (MCPHTTPToken cfg) then Some (BindNeedsToken (MCPHTTPBind cfg))
       else if is_empty (MCPHTTPTLSCert cfg) && negb (MCPHTTPAllowInsecure cfg)
       then Some (BindNeedsTLS (MCPHTTPBind cfg)) else None
     else None).
End Origins.

(** ** The token file *)
Section Token.
(** [os.ReadFile]: the contents, or the error's text. *)
Variable ReadFile : gostr -> result gostr gostr.

Definition set_token (token : gostr) (cfg : Config) : Config :=
  config_with (Connections cfg) (Transport cfg) (MCPHTTPBind cfg) (MCPHTTPPath cfg) token
    (MCPHTTPSessionTimeout cfg) (MCPHTTPAllowedOrigins cfg) cfg.

Definition resolveMCPHTTPToken (cfg : Config) : result config_error Config :=
  if negb (Transport cfg =?s TransportHTTP) || negb (is_empty (MCPHTTPToken cfg))
     || is_empty (MCPHTTPTokenFile cfg) then Ok cfg
  else match ReadFile (MCPHTTPTokenFile cfg) with
  | Err e => Err (TokenFileUnreadable e)
  | Ok b =>
      let cfg := set_token (TrimSpace b) cfg in
      if is_empty (MCPHTTPToken cfg) then Err (TokenFileEmpty (MCPHTTPTokenFile cfg)) else Ok cfg
  end.
End Token.

(** ** Connections of the environment *)
Definition EffectiveStrictSSHHostKeyChecking (s : option SSHConfig) : bool :=
  match s with
  | None => true
  | Some s => match StrictHostKeyChecking s with None => true | Some b => b end
  end.

Definition parseEnvStrictSSHHostKeyChecking (e : env) : option bool :=
  let raw := TrimSpace (Getenv e "MYSQL_SSH_STRICT_HOST_KEY_CHECKING") in
  if is_empty raw then None
  else Some (negb (one_of (ToLower raw) ["0"; "false"; "no"; "off"])).

Definition loadGlobalSSHFromEnv (e : env) : option SSHConfig :=
  let host := TrimSpace (Getenv e "MYSQL_SSH_HOST") in
  let user := TrimSpace (Getenv e "MYSQL_SSH_USER") in
  let keyPath := TrimSpace (Getenv e "MYSQL_SSH_KEY_PATH") in
  if is_empty host || is_empty user || is_empty keyPath then None
  else
    let port :=
      match Atoi (TrimSpace (Getenv e "MYSQL_SSH_PORT")) with
      | Some p => if (0 <? p)%Z then p else 0%Z
      | None => 0%Z
      end in
    Some {| SSHHost := host; SSHUser := user; KeyPath := keyPath; SSHPort := port;
            KnownHostsPath := TrimSpace (Getenv e "MYSQL_SSH_KNOWN_HOSTS");
            HostKeyFingerprint := TrimSpace (Getenv e "MYSQL_SSH_HOST_KEY_FINGERPRINT");
            StrictHostKeyChecking := parseEnvStrictSSHHostKeyChecking e |}.

(** A JSON connection with the global SSL and SSH settings where it has none of its own. *)
Definition with_globals (globalSSL : gostr) (globalSSH : option SSHConfig) (c : ConnectionConfig)
  : ConnectionConfig :=
  {| Name := Name c; DSN := DSN c; Description := Description c; ReadOnly := ReadOnly c;
     SSL := if is_empty (SSL c) && negb (is_empty globalSSL) then globalSSL else SSL c;
     SSH := match SSH c with None => globalSSH | Some s => Some s end |}.

Definition default_connection (e : env) (globalSSL : gostr) (globalSSH : option SSHConfig)
  : list ConnectionConfig :=
  let dsn := Getenv e "MYSQL_DSN" in
  if negb (is_empty dsn) then
    [{| Name := "default"; DSN := dsn; Description := "Default connection"; ReadOnly := false;
        SSL := globalSSL; SSH := globalSSH |}]
  else [].

Definition numbered_connection (e : env) (globalSSL : gostr) (globalSSH : option SSHConfig) (i : Z)
  : list ConnectionConfig :=
  let key := "MYSQL_DSN_" ++ Itoa i in
  let dsn := Getenv e key in
  if is_empty dsn then []
  else
    let name := Getenv e (key ++ "_NAME") in
    let ssl := Getenv e (key ++ "_SSL") in
    [{| Name := if is_empty name then "connection_" ++ Itoa i else name;
        DSN := dsn; Description := Getenv e (key ++ "_DESC"); ReadOnly := false;
        SSL := if is_empty ssl then globalSSL else ssl; SSH := globalSSH |}].

Section EnvConnections.
(** [json.Unmarshal] into a list of connections. *)
Variable json_connections : gostr -> result gostr (list ConnectionConfig).

Definition loadConnections (e : env) : result config_error (list ConnectionConfig) :=
  let globalSSL := Getenv e "MYSQL_SSL" in
  let globalSSH := loadGlobalSSHFromEnv e in
  if is_set e "MYSQL_CONNECTIONS" then
    match json_connections (Getenv e "MYSQL_CONNECTIONS") with
    | Err err => Err (ConnectionsParse err)
    | Ok configs => Ok (map (with_globals globalSSL globalSSH) configs)
    end
  else
    Ok (default_connection e globalSSL globalSSH ++
        concat (map (numbered_connection e globalSSL globalSSH) (seqZ 1 10))).
End EnvConnections.

(** ** The allowlist *)
Definition AllowedDatabaseSet (l : list gostr) : gset gostr :=
  list_to_set (map ToLower (filter (fun s => is_empty s = false) (map TrimSpace l))).

(** ** What a validated transport guarantees *)
Definition mcp_path_ok (p : gostr) : Prop :=
  HasPrefix p "/" = true /\ p <> "/" /\ Clean p = p /\
  ContainsAny p ("{}?#% " ++ [ch_tab]) = false /\ p ∉ reservedMCPHTTPPaths.

(** An exposed listener is authenticated, and encrypted unless the operator opted out. *)
Definition exposure_ok (cfg : Config) : Prop :=
  (MCPHTTPTLSCert cfg = [] <-> MCPHTTPTLSKey cfg = []) /\
  (MCPHTTPAllowedHosts cfg <> [] -> MCPHTTPToken cfg <> []) /\
  (IsLoopbackBind (MCPHTTPBind cfg) = false ->
     MCPHTTPToken cfg <> [] /\ (MCPHTTPTLSCert cfg <> [] \/ MCPHTTPAllowInsecure cfg = true)).

Definition mcp_http_ok `{UrlParse} (cfg : Config) : Prop :=
  Transport cfg = TransportHTTP /\ HTTPMode cfg = false /\ mcp_path_ok (MCPHTTPPath cfg) /\
  (forall o, o ∈ MCPHTTPAllowedOrigins cfg -> validateOrigin o = None) /\
  SplitHostPort (MCPHTTPBind cfg) = None /\ ContainsAny (MCPHTTPBind cfg) "[]/ " = false /\
  exposure_ok cfg.

Lemma validateMCPHTTPPath_None (p : gostr) : validateMCPHTTPPath p = None <-> mcp_path_ok p.
Proof.
  unfold validateMCPHTTPPath, mcp_path_ok.
  destruct (negb (HasPrefix p "/") || (p =?s "/")) eqn:E1.
  { apply orb_true_iff in E1 as [E|E]; [rewrite negb_true_iff in E | apply str_eqb_eq in E].
    - split; [done|]. intros (? & _). congruence.
    - split; [done|]. by intros (_ & ? & _). }
  apply orb_false_iff in E1 as [E1 E2]. apply negb_false_iff in E1. apply str_eqb_neq in E2.
  destruct (negb (Clean p =?s p) || ContainsAny p ("{}?#% " ++ [ch_tab])) eqn:E3.
  { apply orb_true_iff in E3 as [E|E].
    - apply negb_true_iff, str_eqb_neq in E. split; [done|]. by intros (_ & _ & ? & _).
    - split; [done|]. intros (_ & _ & _ & E' & _). congruence. }
  apply orb_false_iff in E3 as [E3 E4]. apply negb_false_iff, str_eqb_eq in E3.
  rewrite if_None. destruct (one_of p reservedMCPHTTPPaths) eqn:E5.
  - apply one_of_elem in E5. split; [done|]. by intros (_ & _ & _ & _ & ?).
  - split; [|done]. intros _. repeat split; try done.
    intros Hin. apply one_of_elem in Hin. congruence.
Qed.

Lemma tls_pair_spec (cert key : gostr) :
  xorb (is_empty cert) (is_empty key) = false <-> (cert = [] <-> key = []).
Proof.
  destruct cert, key; simpl; split; try done.
  - intros [Hc _]. by specialize (Hc eq_refl).
  - intros [_ Hc]. by specialize (Hc eq_refl).
Qed.

Lemma hosts_token_spec (hosts : list gostr) (token : gostr) :
  (length hosts <= 0 \/ is_empty token = false) <-> (hosts <> [] -> token <> []).
Proof.
  rewrite is_empty_false. destruct hosts; simpl; split; try done.
  - by left.
  - intros [?|?]; [lia|done].
  - intros Hi. right. by apply Hi.
Qed.

Lemma exposure_checks_spec (cfg : Config) :
  (if negb (IsLoopbackBind (MCPHTTPBind cfg)) then
     if is_empty (MCPHTTPToken cfg) then Some (BindNeedsToken (MCPHTTPBind cfg))
     else if is_empty (MCPHTTPTLSCert cfg) && negb (MCPHTTPAllowInsecure cfg)
     then Some (BindNeedsTLS (MCPHTTPBind cfg)) else None
   else None) = None <->
  (IsLoopbackBind (MCPHTTPBind cfg) = false ->
   MCPHTTPToken cfg <> [] /\ (MCPHTTPTLSCert cfg <> [] \/ MCPHTTPAllowInsecure cfg = true)).
Proof.
  destruct (IsLoopbackBind _); simpl; [done|].
  destruct (MCPHTTPToken cfg); simpl; [split; [done | intros Hi; by destruct (Hi eq_refl)]|].
  destruct (MCPHTTPTLSCert cfg), (MCPHTTPAllowInsecure cfg); simpl; split; try done; auto.
  intros Hi. by destruct (Hi eq_refl) as [_ [?|?]].
Qed.

Lemma ValidateTransport_None `{UrlParse} (cfg : Config) :
  ValidateTransport cfg = None <-> Transport cfg = TransportStdio \/ mcp_http_ok cfg.
Proof.
  unfold ValidateTransport, mcp_http_ok.
  destruct (Transport cfg =?s TransportStdio) eqn:E1; [apply str_eqb_eq in E1; by split; [left|]|].
  apply str_eqb_neq in E1.
  destruct (Transport cfg =?s TransportHTTP) eqn:E2; simpl.
  2:{ apply str_eqb_neq in E2. split; [done|]. by intros [?|(? & _)]. }
  apply str_eqb_eq in E2. destruct (HTTPMode cfg).
  { split; [done|]. by intros [?|(_ & ? & _)]. }
  rewrite !seq_None, validateMCPHTTPPath_None, first_err_None, !if_None, orb_false_iff,
    bool_decide_eq_false, <- eq_None_not_Some, andb_false_iff, Nat.ltb_ge,
    tls_pair_spec, hosts_token_spec, exposure_checks_spec.
  unfold exposure_ok. tauto.
Qed.

(** ** Canonical origins *)
Section Origins.
Context `{UrlLaws}.

Lemma no_slash_end (s t : gostr) : t <> [] -> "/"%char ∉ t -> HasSuffix (s ++ t) "/" = false.
Proof.
  intros Ht Hs. apply not_true_iff_false. rewrite HasSuffix_spec. intros [x Hx].
  destruct (exists_last Ht) as (t' & c & ->). rewrite app_assoc in Hx. apply app_inj_tail in Hx as [_ ->].
  apply Hs, elem_of_app. right. apply list_elem_of_here.
Qed.

(** The canonical form of a valid origin has no path. *)
Lemma canonical_origin_end (o : gostr) : validateOrigin o = None -> HasSuffix (canonicalOrigin o) "/" = false.
Proof.
  unfold validateOrigin, canonicalOrigin. destruct (ContainsAny o "?#"); [done|]. destruct (url_parse o) as [u|] eqn:Hu; [|done].
  destruct (is_empty (Hostname u)) eqn:Hhost; [rewrite orb_true_r; done|]. intros _. apply is_empty_false in Hhost.
  set (host := match ParseIP _ with Some _ => _ | None => _ end).
  set (port := if _ || _ then [] else Port u).
  assert (Hh : exists x y, host = x ++ y /\ y <> [] /\ "/"%char ∉ y).
  { assert (Hbracket : forall h : gostr, exists x y, "[" ++ h ++ "]" = x ++ y /\ y <> [] /\ "/"%char ∉ y).
    { intros h. exists ("[" ++ h), "]". split; [by rewrite <- app_assoc|]. split; [done|]. decide_true. }
    unfold host. destruct (ParseIP (ToLower (Hostname u))) as [a|] eqn:Ha.
    - destruct (is_v4 a) eqn:H4; [|apply Hbracket]. exists [], (IP_String a). split; [done|]. by apply (v4_text _ _ Ha).
    - destruct (Contains _ ":"); [apply Hbracket|]. exists [], (ToLower (Hostname u)). split; [done|].
      split; [by apply ToLower_nonempty|]. apply ToLower_absent; [done|]. intros Hin%Hostname_elem. by apply (url_host o u). }
  destruct Hh as (x & y & -> & Hy & Hs). destruct (is_empty port) eqn:Hport; cbn [negb].
  - rewrite !app_assoc. by apply no_slash_end.
  - rewrite !app_assoc. apply no_slash_end; [by apply is_empty_false|]. unfold port. destruct (_ || _); [by apply not_elem_of_nil|].
    intros Hin%Port_digits. done.
Qed.
End Origins.

(** ** The limits stay usable under any environment *)
Definition limits_ok (cfg : Config) : Prop :=
  (0 < MaxRows cfg)%Z /\ (0 < MaxOpenConns cfg)%Z /\ (0 < MaxIdleConns cfg)%Z /\
  (0 < HTTPPort cfg)%Z /\ (0 <= DBRetryMaxRetries cfg <= 20)%Z.

Lemma getEnvInt_pos (e : env) (key : gostr) (def : Z) : (0 < def)%Z -> (0 < getEnvInt e key def)%Z.
Proof.
  intros Hd. unfold getEnvInt. destruct (is_empty _); [done|].
  destruct (Atoi _) as [n|]; [|done]. by destruct (Z.leb_spec n 0).
Qed.

Lemma override_int_pos (e : env) (key : gostr) (old : Z) : (0 < old)%Z -> (0 < override_int e key old)%Z.
Proof. intros H. unfold override_int, override. destruct (is_set e key); [by apply getEnvInt_pos | done]. Qed.

Lemma retry_max_bounds (e : env) (old : Z) : (0 <= old <= 20)%Z -> (0 <= retry_max e old <= 20)%Z.
Proof.
  intros H. unfold retry_max. destruct (Atoi _) as [n|]; [|done].
  destruct (Z.leb_spec 0 n), (Z.leb_spec n 20); simpl; lia.
Qed.

Lemma applyEnvOverrides_limits (e : env) (cfg : Config) :
  limits_ok cfg -> limits_ok (applyEnvOverrides e cfg).
Proof.
  intros (H1 & H2 & H3 & H4 & H5). unfold limits_ok. simpl. repeat split.
  - by apply override_int_pos.
  - unfold override_max_open. destruct (is_set _ _); [by apply getEnvInt_pos | by apply override_int_pos].
  - by apply override_int_pos.
  - by apply override_int_pos.
  - by apply retry_max_bounds.
  - by apply retry_max_bounds.
Qed.

(** ** Properties *)

(** A configuration passes the transport check exactly when it runs on stdio, or on
    HTTP with a clean unreserved path, valid origins, a bare bind address, a complete TLS
    pair, a token whenever a proxy or a non-loopback address exposes the listener, and
    there TLS unless the operator opted out. *)
Theorem ValidateTransport_accepts_iff `{UrlParse} (cfg : Config) :
  ValidateTransport cfg = None <-> Transport cfg = TransportStdio \/ mcp_http_ok cfg.
Proof. apply ValidateTransport_None. Qed.

(** Whatever the environment holds, the overrides keep the row, pool and port limits
    positive and the retry count between 0 and 20, switch the metrics sidecar off when the
    REST API is on, and leave the connections to the caller. *)
Theorem applyEnvOverrides_preserves_limits (e : env) (cfg : Config) (Hlimits : limits_ok cfg) :
  limits_ok (applyEnvOverrides e cfg) /\
  (HTTPMode (applyEnvOverrides e cfg) = true -> MetricsHTTP (applyEnvOverrides e cfg) = false) /\
  Connections (applyEnvOverrides e cfg) = Connections cfg.
Proof.
  split; [by apply applyEnvOverrides_limits|]. split; [|done]. simpl. by intros ->.
Qed.

Lemma applyEnvOverrides_preserves_limits_witness :
  limits_ok (applyEnvOverrides {["MYSQL_MAX_ROWS" := "-5"; "MYSQL_MCP_DB_RETRY_MAX" := "21";
                                 "MYSQL_HTTP_PORT" := "80a"]} default_config).
Proof. apply applyEnvOverrides_preserves_limits. unfold limits_ok. vm_compute. repeat split; done. Defined.
