(* ===== verification/ConfigFile.v ===== *)
(** internal/config/file.go and [Load]: the configuration file, its conversion to and
    from the runtime configuration, DSN masking and the TLS parameter. *)
From S2P Require Import Prelude Unicode GoStrings GoNum GoNet Config.

(** ** The file's structures (field names prefixed where config.go uses the same one) *)
Record FileSSHConfig := {
  fsHost : gostr; fsUser : gostr; fsKeyPath : gostr; fsPort : Z;
  fsStrictHostKeyChecking : option bool; fsKnownHostsPath : gostr; fsHostKeyFingerprint : gostr
}.
Record FileConnectionConfig := {
  fcDSN : gostr; fcDescription : gostr; fcReadOnly : bool; fcSSL : gostr; fcSSH : option FileSSHConfig
}.
Record FileQueryConfig := { fqMaxRows : Z; fqTimeoutSeconds : Z; fqMaskColumns : list gostr }.
Record FilePoolConfig := {
  fpMaxOpenConns : Z; fpMaxIdleConns : Z; fpConnMaxLifetimeMinutes : Z;
  fpConnMaxIdleTimeMinutes : Z; fpPingTimeoutSeconds : Z
}.
Record FileFeatureConfig := {
  ffExtendedTools : bool; ffVectorTools : bool; ffTokenCard : bool; ffToolPack : gostr;
  ffStatementLabels : option bool
}.
Record FileSecurityConfig := {
  fxAllowedDatabases : list gostr; fxStrictReadOnly : bool; fxAllowSystemSchemas : bool;
  fxProcessAdmin : bool; fxReadAuditTool : bool; fxSlowQueryTool : bool
}.
Record FileLoggingConfig := {
  flJSONFormat : bool; flAuditLogPath : gostr; flTokenTracking : bool; flTokenModel : gostr
}.
Record FileRateLimitConfig := { frEnabled : option bool; frRPS : option float; frBurst : option Z }.
Record FileMCPHTTPConfig := {
  fmBind : gostr; fmPath : gostr; fmTokenFile : gostr; fmTLSCert : gostr; fmTLSKey : gostr;
  fmStateless : bool; fmSessionTimeoutMinutes : Z;
  fmAllowedOrigins : list gostr; fmAllowedHosts : list gostr; fmAllowInsecure : bool
}.
Record FileHTTPConfig := {
  fhEnabled : bool; fhPort : Z; fhRequestTimeoutSeconds : Z;
  fhRateLimit : option FileRateLimitConfig; fhMCP : option FileMCPHTTPConfig
}.
Record FileConfig := {
  FConnections : gmap gostr FileConnectionConfig;
  Query : FileQueryConfig; Pool : FilePoolConfig; Features : FileFeatureConfig;
  Security : FileSecurityConfig; Logging : FileLoggingConfig; FTransport : gostr; HTTP : FileHTTPConfig
}.

(** ** maskDSN *)
Definition maskDSN (dsn : gostr) : gostr :=
  match Index dsn ":" with
  | Some (S idx) =>
      match LastIndex dsn "@" with
      | Some atIdx =>
          if S idx <? atIdx then take (S idx + 1) dsn ++ "***" ++ drop atIdx dsn else dsn
      | None => dsn
      end
  | _ => dsn
  end.

(** ** ApplySSLToDSN *)
Definition tls_value (ssl : gostr) : gostr :=
  if one_of ssl ["true"; "1"] then "true"
  else if ssl =?s "skip-verify" then "skip-verify"
  else if ssl =?s "preferred" then "skip-verify"
  else "true".

Definition has_tls_param (dsn : gostr) : bool :=
  match Index dsn "?" with Some idx => Contains (drop idx dsn) "tls=" | None => false end.

Definition ApplySSLToDSN (dsn ssl : gostr) : gostr :=
  let ssl := TrimSpace (ToLower ssl) in
  if one_of ssl [[]; "false"; "0"] then dsn
  else if has_tls_param dsn then dsn
  else if Contains dsn "?" then dsn ++ "&tls=" ++ tls_value ssl
  else dsn ++ "?tls=" ++ tls_value ssl.

(** ** ToConfig *)
Definition secondsToDuration (s : Z) : Z := duration s Second.
Definition minutesToDuration (m : Z) : Z := duration m Minute.

(** [if v > 0 { field = v }] *)
Definition positive_or {A} (v : Z) (new old : A) : A := if (0 <? v)%Z then new else old.
Definition some_or {A} (o : option A) (old : A) : A := match o with Some v => v | None => old end.

(** The mask list without blank entries; nil when nothing is left. *)
Definition trimmed_mask (l : list gostr) : list gostr :=
  filter (fun t => is_empty t = false) (map TrimSpace l).

(** The connection names in byte order, "default" first. *)
Definition ordered_names (conns : gmap gostr FileConnectionConfig) : list gostr :=
  let names := sort_strings (map_to_list conns).*1 in
  if bool_decide ("default" ∈ names)
  then "default" :: filter (fun n => n <> "default") names else names.

Definition ssh_of_file (s : option FileSSHConfig) : option SSHConfig :=
  match s with
  | Some s =>
      if negb (is_empty (fsHost s)) || negb (is_empty (fsUser s)) || negb (is_empty (fsKeyPath s)) then
        Some {| SSHHost := fsHost s; SSHUser := fsUser s; KeyPath := fsKeyPath s; SSHPort := fsPort s;
                StrictHostKeyChecking := fsStrictHostKeyChecking s; KnownHostsPath := fsKnownHostsPath s;
                HostKeyFingerprint := fsHostKeyFingerprint s |}
      else None
  | None => None
  end.

Definition connection_of_file (name : gostr) (c : FileConnectionConfig) : ConnectionConfig :=
  {| Name := name; DSN := fcDSN c; Description := fcDescription c; ReadOnly := fcReadOnly c;
     SSL := fcSSL c; SSH := ssh_of_file (fcSSH c) |}.

Definition file_connections (conns : gmap gostr FileConnectionConfig) : list ConnectionConfig :=
  omap (fun name => connection_of_file name <$> conns !! name) (ordered_names conns).

(** Fields of the http.mcp section, with their zero values when it is absent. *)
Definition of_mcp {A} (fc : FileConfig) (f : FileMCPHTTPConfig -> A) (zero : A) : A :=
  match fhMCP (HTTP fc) with Some m => f m | None => zero end.
Definition of_rate {A} (fc : FileConfig) (f : FileRateLimitConfig -> option A) (def : A) : A :=
  match fhRateLimit (HTTP fc) with Some r => some_or (f r) def | None => def end.

Definition ToConfig (fc : FileConfig) : Config :=
  let d := default_config in
  {|
    Connections := file_connections (FConnections fc);
    MaxRows := positive_or (fqMaxRows (Query fc)) (fqMaxRows (Query fc)) (MaxRows d);
    QueryTimeout := positive_or (fqTimeoutSeconds (Query fc))
                      (secondsToDuration (fqTimeoutSeconds (Query fc))) (QueryTimeout d);
    MaskColumns := trimmed_mask (fqMaskColumns (Query fc));
    MaxOpenConns := positive_or (fpMaxOpenConns (Pool fc)) (fpMaxOpenConns (Pool fc)) (MaxOpenConns d);
    MaxIdleConns := positive_or (fpMaxIdleConns (Pool fc)) (fpMaxIdleConns (Pool fc)) (MaxIdleConns d);
    ConnMaxLifetime := positive_or (fpConnMaxLifetimeMinutes (Pool fc))
                         (minutesToDuration (fpConnMaxLifetimeMinutes (Pool fc))) (ConnMaxLifetime d);
    ConnMaxIdleTime := positive_or (fpConnMaxIdleTimeMinutes (Pool fc))
                         (minutesToDuration (fpConnMaxIdleTimeMinutes (Pool fc))) (ConnMaxIdleTime d);
    PingTimeout := positive_or (fpPingTimeoutSeconds (Pool fc))
                     (secondsToDuration (fpPingTimeoutSeconds (Pool fc))) (PingTimeout d);
    ExtendedMode := ffExtendedTools (Features fc);
    VectorMode := ffVectorTools (Features fc);
    TokenCard := ffTokenCard (Features fc);
    ToolPack := ToLower (TrimSpace (ffToolPack (Features fc)));
    StatementLabels := some_or (ffStatementLabels (Features fc)) (StatementLabels d);
    AllowedDatabases := fxAllowedDatabases (Security fc);
    StrictReadOnly := fxStrictReadOnly (Security fc);
    AllowSystemSchemas := fxAllowSystemSchemas (Security fc);
    ProcessAdmin := fxProcessAdmin (Security fc);
    ReadAuditTool := fxReadAuditTool (Security fc);
    SlowQueryTool := fxSlowQueryTool (Security fc);
    JSONLogging := flJSONFormat (Logging fc);
    AuditLogPath := flAuditLogPath (Logging fc);
    TokenTracking := flTokenTracking (Logging fc);
    TokenModel := if negb (is_empty (TrimSpace (flTokenModel (Logging fc))))
                  then TrimSpace (flTokenModel (Logging fc)) else TokenModel d;
    HTTPMode := fhEnabled (HTTP fc);
    MetricsHTTP := MetricsHTTP d;
    HTTPPort := positive_or (fhPort (HTTP fc)) (fhPort (HTTP fc)) (HTTPPort d);
    HTTPRequestTimeout := positive_or (fhRequestTimeoutSeconds (HTTP fc))
                            (secondsToDuration (fhRequestTimeoutSeconds (HTTP fc))) (HTTPRequestTimeout d);
    RateLimitEnabled := of_rate fc frEnabled (RateLimitEnabled d);
    RateLimitRPS := of_rate fc frRPS (RateLimitRPS d);
    RateLimitBurst := of_rate fc frBurst (RateLimitBurst d);
    Transport := ToLower (TrimSpace (FTransport fc));
    MCPHTTPBind := of_mcp fc (fun m => TrimSpace (fmBind m)) [];
    MCPHTTPPath := of_mcp fc (fun m => TrimSpace (fmPath m)) [];
    MCPHTTPToken := MCPHTTPToken d;
    MCPHTTPTokenFile := of_mcp fc (fun m => TrimSpace (fmTokenFile m)) [];
    MCPHTTPTLSCert := of_mcp fc (fun m => TrimSpace (fmTLSCert m)) [];
    MCPHTTPTLSKey := of_mcp fc (fun m => TrimSpace (fmTLSKey m)) [];
    MCPHTTPStateless := of_mcp fc fmStateless false;
    MCPHTTPSessionTimeout := of_mcp fc (fun m =>
      positive_or (fmSessionTimeoutMinutes m)
        (duration (fmSessionTimeoutMinutes m) Minute) (MCPHTTPSessionTimeout d)) (MCPHTTPSessionTimeout d);
    MCPHTTPAllowedOrigins := of_mcp fc fmAllowedOrigins [];
    MCPHTTPAllowedHosts := of_mcp fc fmAllowedHosts [];
    MCPHTTPAllowInsecure := of_mcp fc fmAllowInsecure false;
    DBRetryMaxRetries := DBRetryMaxRetries d;
    DBRetryMaxInterval := DBRetryMaxInterval d
  |}.

(** ** PrintConfig: the structure that is marshalled to YAML *)
Definition file_of_ssh (s : SSHConfig) : FileSSHConfig :=
  {| fsHost := SSHHost s; fsUser := SSHUser s; fsKeyPath := KeyPath s; fsPort := SSHPort s;
     fsStrictHostKeyChecking := StrictHostKeyChecking s; fsKnownHostsPath := KnownHostsPath s;
     fsHostKeyFingerprint := HostKeyFingerprint s |}.

Definition file_of_connection (conn : ConnectionConfig) : FileConnectionConfig :=
  {| fcDSN := maskDSN (DSN conn); fcDescription := Description conn; fcReadOnly := ReadOnly conn;
     fcSSL := SSL conn; fcSSH := file_of_ssh <$> SSH conn |}.

Definition file_of_mcp (cfg : Config) : option FileMCPHTTPConfig :=
  if Transport cfg =?s TransportHTTP then
    Some {| fmBind := MCPHTTPBind cfg; fmPath := MCPHTTPPath cfg; fmTokenFile := MCPHTTPTokenFile cfg;
            fmTLSCert := MCPHTTPTLSCert cfg; fmTLSKey := MCPHTTPTLSKey cfg;
            fmStateless := MCPHTTPStateless cfg;
            fmSessionTimeoutMinutes := int_of_float (Minutes (MCPHTTPSessionTimeout cfg));
            fmAllowedOrigins := MCPHTTPAllowedOrigins cfg; fmAllowedHosts := MCPHTTPAllowedHosts cfg;
            fmAllowInsecure := MCPHTTPAllowInsecure cfg |}
  else None.

Definition printed_config (cfg : Config) : FileConfig :=
  {|
    FConnections :=
      fold_left (fun m conn => <[Name conn := file_of_connection conn]> m) (Connections cfg) ∅;
    Query := {| fqMaxRows := MaxRows cfg; fqTimeoutSeconds := int_of_float (Seconds (QueryTimeout cfg));
                fqMaskColumns := MaskColumns cfg |};
    Pool := {| fpMaxOpenConns := MaxOpenConns cfg; fpMaxIdleConns := MaxIdleConns cfg;
               fpConnMaxLifetimeMinutes := int_of_float (Minutes (ConnMaxLifetime cfg));
               fpConnMaxIdleTimeMinutes := int_of_float (Minutes (ConnMaxIdleTime cfg));
               fpPingTimeoutSeconds := int_of_float (Seconds (PingTimeout cfg)) |};
    Features := {| ffExtendedTools := ExtendedMode cfg; ffVectorTools := VectorMode cfg;
                   ffTokenCard := TokenCard cfg; ffToolPack := ToolPack cfg;
                   ffStatementLabels := if StatementLabels cfg then None else Some false |};
    Security := {| fxAllowedDatabases := AllowedDatabases cfg; fxStrictReadOnly := StrictReadOnly cfg;
                   fxAllowSystemSchemas := AllowSystemSchemas cfg; fxProcessAdmin := ProcessAdmin cfg;
                   fxReadAuditTool := ReadAuditTool cfg; fxSlowQueryTool := SlowQueryTool cfg |};
    Logging := {| flJSONFormat := JSONLogging cfg; flAuditLogPath := AuditLogPath cfg;
                  flTokenTracking := TokenTracking cfg; flTokenModel := TokenModel cfg |};
    FTransport := if Transport cfg =?s TransportHTTP then Transport cfg else [];
    HTTP := {| fhEnabled := HTTPMode cfg; fhPort := HTTPPort cfg;
               fhRequestTimeoutSeconds := int_of_float (Seconds (HTTPRequestTimeout cfg));
               fhRateLimit := Some {| frEnabled := Some (RateLimitEnabled cfg);
                                      frRPS := Some (RateLimitRPS cfg); frBurst := Some (RateLimitBurst cfg) |};
               fhMCP := file_of_mcp cfg |}
  |}.

(** ** Files and the start-up sequence

    What the code asks of the operating system and of the decoders. *)
Class ConfigIO := {
  ReadFile : gostr -> result gostr gostr;
  Stat : gostr -> bool;
  UserHomeDir : option gostr;
  yaml_Unmarshal : gostr -> result gostr FileConfig;
  json_Unmarshal : gostr -> result gostr FileConfig;
  json_connections : gostr -> result gostr (list ConnectionConfig)
}.

Inductive file_error :=
| ReadFailed (err : gostr)
| YAMLFailed (err : gostr)
| JSONFailed (err : gostr)
| NeitherFormat (err : gostr).

(** [filepath.Ext] on a slash-separated path. *)
Definition Ext (path : gostr) : gostr :=
  let last := match LastIndex path "/" with Some i => drop (i + 1) path | None => path end in
  match LastIndex last "." with Some i => drop i last | None => [] end.

Section Startup.
Context `{ConfigIO} `{UrlParse}.

Definition home_config_paths (home : gostr) : list gostr :=
  map (fun name => Clean (home ++ "/.config/mysql-mcp-server/" ++ name))
    ["config.yaml"; "config.yml"; "config.json"].
Definition system_config_paths : list gostr :=
  ["/etc/mysql-mcp-server/config.yaml"; "/etc/mysql-mcp-server/config.yml";
   "/etc/mysql-mcp-server/config.json"].
Definition local_config_paths : list gostr :=
  ["mysql-mcp-server.yaml"; "mysql-mcp-server.yml"; "mysql-mcp-server.json"].

(** [configFilePath] is the --config flag; the empty string means no file. *)
Definition FindConfigFile (configFilePath : gostr) (e : env) : gostr :=
  if negb (is_empty configFilePath) then configFilePath
  else if is_set e "MYSQL_MCP_CONFIG" then Getenv e "MYSQL_MCP_CONFIG"
  else
    let candidates :=
      local_config_paths ++
      match UserHomeDir with Some home => home_config_paths home | None => [] end ++
      system_config_paths in
    match List.find Stat candidates with Some path => path | None => [] end.

Definition LoadConfigFile (path : gostr) : result file_error FileConfig :=
  match ReadFile path with
  | Err e => Err (ReadFailed e)
  | Ok data =>
      let ext := ToLower (Ext path) in
      if one_of ext [".yaml"; ".yml"] then
        match yaml_Unmarshal data with Ok cfg => Ok cfg | Err e => Err (YAMLFailed e) end
      else if ext =?s ".json" then
        match json_Unmarshal data with Ok cfg => Ok cfg | Err e => Err (JSONFailed e) end
      else
        match yaml_Unmarshal data with
        | Ok cfg => Ok cfg
        | Err _ => match json_Unmarshal data with Ok cfg => Ok cfg | Err e => Err (NeitherFormat e) end
        end
  end.

Definition set_connections (conns : list ConnectionConfig) (cfg : Config) : Config :=
  config_with conns (Transport cfg) (MCPHTTPBind cfg) (MCPHTTPPath cfg) (MCPHTTPToken cfg)
    (MCPHTTPSessionTimeout cfg) (MCPHTTPAllowedOrigins cfg) cfg.

(** The steps Load and ValidateConfigFile share, from the base configuration on. *)
Definition overridden (e : env) (base : Config) : result config_error Config :=
  let cfg := applyMCPHTTPDefaults (applyEnvOverrides e base) in
  let? envConns := loadConnections json_connections e in
  Ok (if 0 <? length envConns then set_connections envConns cfg else cfg).

Definition checked (err : option config_error) : result config_error unit :=
  match err with Some e => Err e | None => Ok tt end.

Inductive load_error :=
| FileError (path : gostr) (err : file_error)
| ConfigError (err : config_error).

Definition lift_config {A} (r : result config_error A) : result load_error A :=
  match r with Ok a => Ok a | Err e => Err (ConfigError e) end.

Definition base_config (configFilePath : gostr) (e : env) : result load_error Config :=
  let path := FindConfigFile configFilePath e in
  if negb (is_empty path) then
    match LoadConfigFile path with
    | Err err => Err (FileError path err)
    | Ok fileCfg => Ok (ToConfig fileCfg)
    end
  else Ok default_config.

Definition Load (configFilePath : gostr) (e : env) : result load_error Config :=
  let? base := base_config configFilePath e in
  lift_config (
    let? cfg := overridden e base in
    let? _ := checked (if length (Connections cfg) =? 0 then Some NoConnections else None) in
    let? _ := checked (validateConnectionNames (Connections cfg)) in
    let? cfg := resolveMCPHTTPToken ReadFile cfg in
    let? _ := checked (validateToolPack (ToolPack cfg)) in
    let? _ := checked (ValidateTransport cfg) in
    Ok cfg).

Definition ValidateConfigFile (path : gostr) (e : env) : result load_error unit :=
  match LoadConfigFile path with
  | Err err => Err (FileError path err)
  | Ok cfg =>
      lift_config (
        let? rc := overridden e (ToConfig cfg) in
        let? _ := checked (if length (Connections rc) =? 0 then Some NoConnections else None) in
        let? _ := checked (validateConnectionNames (Connections rc)) in
        let? _ := checked (first_err (fun c => if is_empty (DSN c) then Some (EmptyDSN (Name c)) else None)
                             (Connections rc)) in
        let? rc := resolveMCPHTTPToken ReadFile rc in
        let? _ := checked (validateToolPack (ToolPack rc)) in
        checked (ValidateTransport rc))
  end.
End Startup.

(** ** The start-up sequence, step by step *)
Lemma lift_config_Ok {A} (r : result config_error A) (a : A) : lift_config r = Ok a <-> r = Ok a.
Proof. destruct r; split; by intros [= <-]. Qed.

Lemma checked_Ok (err : option config_error) (u : unit) : checked err = Ok u <-> err = None.
Proof. destruct err, u; by split. Qed.

Lemma bind_checked_Ok {A} (err : option config_error) (k : result config_error A) (a : A) :
  result_bind (checked err) (fun _ => k) = Ok a <-> err = None /\ k = Ok a.
Proof.
  rewrite result_bind_Ok. setoid_rewrite checked_Ok. split; [by intros (_ & ? & ?) | intros [? ?]; by exists tt].
Qed.

Definition names_ok (conns : list ConnectionConfig) : Prop :=
  conns <> [] /\ forall c, c ∈ conns -> HasPrefix (Name c) ReservedConnectionPrefix = false.

Lemma connections_checked (conns : list ConnectionConfig) :
  (if length conns =? 0 then Some NoConnections else None) = None /\ validateConnectionNames conns = None <->
  names_ok conns.
Proof.
  unfold names_ok, validateConnectionNames. rewrite if_None, first_err_None, Nat.eqb_neq.
  setoid_rewrite if_None. split; (intros [H1 H2]; split; [|done]); by destruct conns.
Qed.

Section StartupFacts.
Context `{ConfigIO} `{UrlParse}.

(** The runtime configuration Load computes before its checks. *)
Definition loads (configFilePath : gostr) (e : env) (cfg : Config) : Prop :=
  exists base cfg0, base_config configFilePath e = Ok base /\ overridden e base = Ok cfg0 /\
    names_ok (Connections cfg0) /\ resolveMCPHTTPToken ReadFile cfg0 = Ok cfg /\
    validateToolPack (ToolPack cfg) = None /\ ValidateTransport cfg = None.

Lemma Load_Ok (configFilePath : gostr) (e : env) (cfg : Config) :
  Load configFilePath e = Ok cfg <-> loads configFilePath e cfg.
Proof.
  unfold Load, loads. rewrite result_bind_Ok. setoid_rewrite lift_config_Ok.
  setoid_rewrite result_bind_Ok. setoid_rewrite bind_checked_Ok. setoid_rewrite bind_checked_Ok.
  setoid_rewrite result_bind_Ok. setoid_rewrite bind_checked_Ok. setoid_rewrite bind_checked_Ok.
  setoid_rewrite <- connections_checked. split.
  - intros (base & Hb & cfg0 & Ho & Hn & Hr & cfg' & Ht & Hp & Hv & [= ->]).
    exists base, cfg0. tauto.
  - intros (base & cfg0 & Hb & Ho & [Hn Hr] & Ht & Hp & Hv).
    exists base. split; [done|]. exists cfg0. do 3 (split; [done|]). by exists cfg.
Qed.

Lemma resolve_fields (cfg cfg' : Config) :
  resolveMCPHTTPToken ReadFile cfg = Ok cfg' ->
  cfg' = set_token (MCPHTTPToken cfg') cfg.
Proof.
  assert (Hid : cfg = set_token (MCPHTTPToken cfg) cfg) by by destruct cfg.
  unfold resolveMCPHTTPToken. destruct (_ || _); [by intros [= <-]|].
  destruct (ReadFile _) as [b|]; [|done]. cbv zeta. destruct (is_empty _); [done|]. by intros [= <-].
Qed.

Lemma ValidateConfigFile_Ok (path : gostr) (e : env) (u : unit) :
  ValidateConfigFile path e = Ok u <->
  exists fc cfg0 cfg, LoadConfigFile path = Ok fc /\ overridden e (ToConfig fc) = Ok cfg0 /\
    names_ok (Connections cfg0) /\ (forall c, c ∈ Connections cfg0 -> DSN c <> []) /\
    resolveMCPHTTPToken ReadFile cfg0 = Ok cfg /\
    validateToolPack (ToolPack cfg) = None /\ ValidateTransport cfg = None.
Proof.
  assert (HD : forall conns, first_err (fun c => if is_empty (DSN c) then Some (EmptyDSN (Name c)) else None) conns
      = None <-> forall c, c ∈ conns -> DSN c <> []).
  { intros conns. rewrite first_err_None. setoid_rewrite if_None. by setoid_rewrite is_empty_false. }
  unfold ValidateConfigFile. destruct (LoadConfigFile path) as [fc|err] eqn:E.
  2:{ split; [done|]. by intros (fc & _ & _ & ? & _). }
  rewrite lift_config_Ok, result_bind_Ok. setoid_rewrite bind_checked_Ok. setoid_rewrite bind_checked_Ok.
  setoid_rewrite bind_checked_Ok. setoid_rewrite result_bind_Ok. setoid_rewrite bind_checked_Ok.
  setoid_rewrite checked_Ok. setoid_rewrite HD. setoid_rewrite <- connections_checked. split.
  - intros (cfg0 & Ho & Hn & Hr & Hd & cfg & Ht & Hp & Hv).
    exists fc, cfg0, cfg. tauto.
  - intros (fc' & cfg0 & cfg & [= <-] & Ho & [Hn Hr] & Hd & Ht & Hp & Hv).
    exists cfg0. do 4 (split; [done|]). by exists cfg.
Qed.
End StartupFacts.

(** ** Connection order *)
Lemma elem_of_ordered_names (m : gmap gostr FileConnectionConfig) (n : gostr) :
  n ∈ ordered_names m <-> is_Some (m !! n).
Proof.
  assert (Hs : n ∈ sort_strings (map_to_list m).*1 <-> is_Some (m !! n)).
  { rewrite sort_strings_perm, list_elem_of_fmap. split.
    - intros ([k c] & -> & Hin). apply elem_of_map_to_list in Hin. simpl. eauto.
    - intros [c Hc]. exists (n, c). split; [done|]. by apply elem_of_map_to_list. }
  unfold ordered_names. case_bool_decide as Hd; [|done].
  rewrite elem_of_cons, list_elem_of_filter, Hs. destruct (decide (n = "default")) as [->|]; [|tauto].
  split; [|by left]. intros _. apply Hs. done.
Qed.

Lemma NoDup_ordered_names (m : gmap gostr FileConnectionConfig) : NoDup (ordered_names m).
Proof.
  assert (Hs : NoDup (sort_strings (map_to_list m).*1)).
  { rewrite sort_strings_perm. apply NoDup_fst_map_to_list. }
  unfold ordered_names. case_bool_decide; [|done].
  apply NoDup_cons. split; [|by apply NoDup_filter].
  rewrite list_elem_of_filter. by intros [? _].
Qed.

Lemma ordered_names_dom (m m' : gmap gostr FileConnectionConfig) :
  dom m = dom m' -> ordered_names m = ordered_names m'.
Proof.
  intros H. assert (E : sort_strings (map_to_list m).*1 = sort_strings (map_to_list m').*1).
  { apply sort_strings_unique, NoDup_Permutation; [apply NoDup_fst_map_to_list..|]. intros n.
    rewrite !list_elem_of_fmap. split; intros ([k c] & -> & Hin); apply elem_of_map_to_list in Hin; simpl.
    - assert (Hk : k ∈ dom m') by (rewrite <- H; apply elem_of_dom; eauto).
      apply elem_of_dom in Hk as [c' Hc']. exists (k, c'). split; [done|]. by apply elem_of_map_to_list.
    - assert (Hk : k ∈ dom m) by (rewrite H; apply elem_of_dom; eauto).
      apply elem_of_dom in Hk as [c' Hc']. exists (k, c'). split; [done|]. by apply elem_of_map_to_list. }
  unfold ordered_names. by rewrite E.
Qed.

(** ** Printing and reading back *)
Definition masked_connection (c : ConnectionConfig) : ConnectionConfig :=
  {| Name := Name c; DSN := maskDSN (DSN c); Description := Description c; ReadOnly := ReadOnly c;
     SSL := SSL c; SSH := SSH c |}.

Definition add_printed (m : gmap gostr FileConnectionConfig) (conn : ConnectionConfig) :=
  <[Name conn := file_of_connection conn]> m.

Definition connections_at (m : gmap gostr FileConnectionConfig) (l : list gostr) : list ConnectionConfig :=
  omap (fun name => connection_of_file name <$> m !! name) l.

Lemma connections_at_cons (m : gmap gostr FileConnectionConfig) (n : gostr) (l : list gostr) :
  connections_at m (n :: l) =
    match m !! n with
    | Some c => connection_of_file n c :: connections_at m l
    | None => connections_at m l
    end.
Proof. unfold connections_at. simpl. by destruct (m !! n). Qed.

Definition printed_entry (m : gmap gostr FileConnectionConfig) (n : gostr) : option FileConnectionConfig :=
  (fun c => file_of_connection (connection_of_file n c)) <$> m !! n.

Lemma printed_lookup (m acc : gmap gostr FileConnectionConfig) (l : list gostr) (n : gostr) :
  (forall k, k ∈ l -> is_Some (m !! k)) ->
  fold_left add_printed (connections_at m l) acc !! n =
    if decide (n ∈ l) then printed_entry m n else acc !! n.
Proof.
  revert acc. induction l as [|k l IH]; intros acc Hl; [by rewrite decide_False by apply not_elem_of_nil|].
  destruct (Hl k (list_elem_of_here _ _)) as [c Hc]. rewrite connections_at_cons, Hc. simpl.
  rewrite IH by (intros; apply Hl; by right).
  destruct (decide (n ∈ l)) as [Hn|Hn].
  - rewrite decide_True by by right. done.
  - unfold add_printed. simpl. destruct (decide (n = k)) as [->|Hk].
    + rewrite lookup_insert_eq, decide_True by left. unfold printed_entry. by rewrite Hc.
    + rewrite lookup_insert_ne, decide_False; [done| |done].
      rewrite elem_of_cons. tauto.
Qed.

Lemma printed_connections_lookup (m : gmap gostr FileConnectionConfig) (n : gostr) :
  fold_left add_printed (file_connections m) ∅ !! n = printed_entry m n.
Proof.
  change (file_connections m) with (connections_at m (ordered_names m)).
  rewrite printed_lookup by (intros k; apply elem_of_ordered_names).
  case_decide as Hn; [done|]. rewrite lookup_empty. unfold printed_entry.
  destruct (m !! n) eqn:E; [|done]. destruct Hn. apply elem_of_ordered_names. eauto.
Qed.

Lemma ssh_roundtrip (s : option FileSSHConfig) :
  ssh_of_file (file_of_ssh <$> ssh_of_file s) = ssh_of_file s.
Proof.
  destruct s as [[h u k p st kh fp]|]; simpl; [|done].
  destruct (negb (is_empty h) || negb (is_empty u) || negb (is_empty k)) eqn:E; simpl; [|done].
  by rewrite E.
Qed.

Lemma connections_roundtrip (m : gmap gostr FileConnectionConfig) :
  file_connections (fold_left add_printed (file_connections m) ∅) =
  map masked_connection (file_connections m).
Proof.
  set (m' := fold_left add_printed (file_connections m) ∅).
  assert (Hm' : forall n, m' !! n = printed_entry m n) by apply printed_connections_lookup.
  assert (Hd : ordered_names m' = ordered_names m).
  { apply ordered_names_dom, set_eq. intros n. rewrite !elem_of_dom, Hm'.
    unfold printed_entry. by rewrite fmap_is_Some. }
  change (connections_at m' (ordered_names m') = map masked_connection (connections_at m (ordered_names m))).
  rewrite Hd. clear Hd. generalize (ordered_names m) as l.
  induction l as [|n l IH]; [done|]. rewrite !connections_at_cons, Hm'. unfold printed_entry.
  destruct (m !! n) as [c|]; simpl; [|done]. rewrite IH. f_equal.
  unfold connection_of_file, masked_connection, file_of_connection. simpl. by rewrite ssh_roundtrip.
Qed.

(** The values of a file that survive: durations that are positive fit in 64 bits, the tool
    pack is one the server accepts, and the MCP section is there exactly for HTTP. *)
Definition printable (fc : FileConfig) : Prop :=
  (fqTimeoutSeconds (Query fc) <= maxInt64 / Second)%Z /\
  (fpConnMaxLifetimeMinutes (Pool fc) <= maxInt64 / Minute)%Z /\
  (fpConnMaxIdleTimeMinutes (Pool fc) <= maxInt64 / Minute)%Z /\
  (fpPingTimeoutSeconds (Pool fc) <= maxInt64 / Second)%Z /\
  (fhRequestTimeoutSeconds (HTTP fc) <= maxInt64 / Second)%Z /\
  (of_mcp fc fmSessionTimeoutMinutes 0 <= maxInt64 / Minute)%Z /\
  validateToolPack (ToolPack (ToConfig fc)) = None /\
  (Transport (ToConfig fc) = TransportHTTP \/
   Transport (ToConfig fc) = [] /\ fhMCP (HTTP fc) = None).

Lemma positive_or_secs (v : Z) (d : Z) :
  (v <= maxInt64 / Second)%Z -> (0 < d <= maxInt64 / Second)%Z ->
  let t := positive_or v (secondsToDuration v) (duration d Second) in
  positive_or (int_of_float (Seconds t)) (secondsToDuration (int_of_float (Seconds t))) (duration d Second) = t.
Proof.
  intros Hv Hd t. unfold t, positive_or, secondsToDuration.
  destruct (Z.ltb_spec 0 v); rewrite int_Seconds by lia; (destruct (Z.ltb_spec 0 v) || idtac);
    (destruct (Z.ltb_spec 0 d) || idtac); try done; lia.
Qed.

Lemma positive_or_mins (v : Z) (d : Z) :
  (v <= maxInt64 / Minute)%Z -> (0 < d <= maxInt64 / Minute)%Z ->
  let t := positive_or v (minutesToDuration v) (duration d Minute) in
  positive_or (int_of_float (Minutes t)) (minutesToDuration (int_of_float (Minutes t))) (duration d Minute) = t.
Proof.
  intros Hv Hd t. unfold t, positive_or, minutesToDuration.
  destruct (Z.ltb_spec 0 v); rewrite int_Minutes by lia; (destruct (Z.ltb_spec 0 v) || idtac);
    (destruct (Z.ltb_spec 0 d) || idtac); try done; lia.
Qed.

Lemma positive_or_idem (v d : Z) :
  (0 < d)%Z -> positive_or (positive_or v v d) (positive_or v v d) d = positive_or v v d.
Proof.
  intros Hd. unfold positive_or.
  destruct (Z.ltb_spec 0 v); [destruct (Z.ltb_spec 0 v) | destruct (Z.ltb_spec 0 d)]; done || lia.
Qed.

Lemma trimmed_mask_idem (l : list gostr) : trimmed_mask (trimmed_mask l) = trimmed_mask l.
Proof.
  unfold trimmed_mask. induction l as [|w l IH]; [done|]. simpl. rewrite filter_cons.
  case_decide as Hw; [|done]. simpl. rewrite TrimSpace_idemp, filter_cons, decide_True by done.
  by f_equal.
Qed.

Lemma tool_pack_roundtrip (v : gostr) : validateToolPack v = None -> ToLower (TrimSpace v) = v.
Proof.
  unfold validateToolPack. destruct (one_of v _) eqn:E; [|done]. apply one_of_elem in E. intros _.
  rewrite !elem_of_cons in E. destruct E as [->|[->|[->|E]]]; try done. by apply elem_of_nil in E.
Qed.

Lemma session_timeout_roundtrip (v : Z) :
  (v <= maxInt64 / Minute)%Z ->
  let t := positive_or v (duration v Minute) 0%Z in
  positive_or (int_of_float (Minutes t)) (duration (int_of_float (Minutes t)) Minute) 0%Z = t.
Proof.
  intros Hv t. unfold t, positive_or. destruct (Z.ltb_spec 0 v); [|done].
  rewrite int_Minutes by lia. destruct (Z.ltb_spec 0 v); [done | lia].
Qed.

Lemma token_model_roundtrip (v d : gostr) :
  TrimSpace d = d -> is_empty d = false ->
  let t := if negb (is_empty (TrimSpace v)) then TrimSpace v else d in
  (if negb (is_empty (TrimSpace t)) then TrimSpace t else d) = t.
Proof.
  intros Hd He t. unfold t. destruct (is_empty (TrimSpace v)) eqn:E; simpl.
  - by rewrite Hd, He.
  - by rewrite TrimSpace_idemp, E.
Qed.

Lemma transport_roundtrip (fc : FileConfig) :
  Transport (ToConfig fc) = TransportHTTP \/ Transport (ToConfig fc) = [] /\ fhMCP (HTTP fc) = None ->
  ToLower (TrimSpace (FTransport (printed_config (ToConfig fc)))) = Transport (ToConfig fc).
Proof.
  cbn [FTransport printed_config]. intros [->|[-> _]]; vm_compute; reflexivity.
Qed.

(** A field of the MCP section reads back when re-reading its printed value does. *)
Lemma mcp_roundtrip {A} (fc : FileConfig) (f : FileMCPHTTPConfig -> A) (field : Config -> A) (zero : A) :
  Transport (ToConfig fc) = TransportHTTP \/ Transport (ToConfig fc) = [] /\ fhMCP (HTTP fc) = None ->
  field (ToConfig fc) = of_mcp fc f zero ->
  (forall m, file_of_mcp (ToConfig fc) = Some m -> f m = field (ToConfig fc)) ->
  of_mcp (printed_config (ToConfig fc)) f zero = field (ToConfig fc).
Proof.
  intros Htr Hf Hm.
  change (match file_of_mcp (ToConfig fc) with Some m => f m | None => zero end = field (ToConfig fc)).
  destruct (file_of_mcp (ToConfig fc)) as [m|] eqn:E; [by apply Hm|].
  unfold file_of_mcp in E. destruct Htr as [Htr|[_ Hn]]; [by rewrite Htr in E|].
  rewrite Hf. unfold of_mcp. by rewrite Hn.
Qed.

(** Close a goal on a field of the MCP section. *)
Ltac mcp_field :=
  match goal with |- _ = ?field (ToConfig ?fc) =>
    apply (mcp_roundtrip fc _ field); [done | done |];
    intros m Hm; unfold file_of_mcp in Hm; destruct (_ =?s _); [|done]; injection Hm as <-; simpl;
    unfold of_mcp; destruct (fhMCP (HTTP fc)); rewrite ?TrimSpace_idemp; done
  end.

Lemma ToConfig_printed (fc : FileConfig) :
  printable fc ->
  ToConfig (printed_config (ToConfig fc)) =
  set_connections (map masked_connection (Connections (ToConfig fc))) (ToConfig fc).
Proof.
  intros (Hq & Hl & Hi & Hp & Hr & Hs & Htp & Htr).
  unfold ToConfig at 1. unfold set_connections, config_with. f_equal.
  all: try solve [apply connections_roundtrip | by apply positive_or_idem | by apply positive_or_secs
    | by apply positive_or_mins | by apply token_model_roundtrip | by apply tool_pack_roundtrip
    | apply trimmed_mask_idem | by apply transport_roundtrip | mcp_field].
  - simpl. by destruct (ffStatementLabels (Features fc)) as [[]|].
  - apply (mcp_roundtrip fc _ MCPHTTPSessionTimeout); [done..|].
    intros m Hm. unfold file_of_mcp in Hm. destruct (_ =?s _); [|done]. injection Hm as <-. simpl.
    unfold of_mcp in *. destruct (fhMCP (HTTP fc)); [|done]. by apply session_timeout_roundtrip.
Qed.

(** ** DSNs *)
Lemma maskDSN_split (user pass rest : gostr) :
  ":"%char ∉ user -> user <> [] -> "@"%char ∉ rest ->
  maskDSN (user ++ ":" ++ pass ++ "@" ++ rest) = user ++ ":***@" ++ rest.
Proof.
  intros Hu Hne Hr. unfold maskDSN. rewrite (Index_byte ":"%char user) by done.
  assert (Hat : LastIndex (user ++ ":" ++ pass ++ "@" ++ rest) "@" = Some (length (user ++ ":" ++ pass))).
  { rewrite <- (LastIndex_byte (user ++ ":" ++ pass) rest "@"%char Hr). by rewrite <- app_assoc. }
  rewrite Hat. destruct (length user) as [|n] eqn:En; [by destruct user|].
  destruct (Nat.ltb_spec (S n) (length (user ++ ":" ++ pass))) as [_|Hlt].
  2:{ rewrite length_app in Hlt. simpl in Hlt. lia. }
  rewrite <- En, (take_app_cons user _ ":"%char), <- app_assoc.
  replace (user ++ ":" ++ pass ++ "@" ++ rest) with ((user ++ ":" ++ pass) ++ "@" ++ rest)
    by by rewrite <- app_assoc.
  by rewrite drop_app_length.
Qed.

(** The parameters of a DSN, where the driver's documentation puts them: after the first
    question mark that follows the last slash. *)
Definition dsn_params (dsn : gostr) : option gostr :=
  match LastIndex dsn "/" with
  | Some i =>
      match Index (drop i dsn) "?" with
      | Some j => Some (drop (j + 1) (drop i dsn))
      | None => None
      end
  | None => None
  end.

Definition tls_off (ssl : gostr) : bool := one_of (TrimSpace (ToLower ssl)) [[]; "false"; "0"].

Lemma has_tls_param_spec (dsn : gostr) :
  has_tls_param dsn = true <->
  exists a b, dsn = a ++ "?" ++ b /\ ("?"%char ∉ a) /\ Contains ("?" ++ b) "tls=" = true.
Proof.
  unfold has_tls_param. split.
  - destruct (Index dsn "?") as [i|] eqn:Hi; [|done]. intros Hc.
    pose proof (Index_Some _ _ _ Hi) as (t & Ht & Hl).
    exists (take i dsn), t. split; [done|]. split; [by apply (Index_first_byte dsn)|].
    rewrite <- (take_drop i dsn) in Ht at 1. apply app_inv_head in Ht. by rewrite <- Ht.
  - intros (a & b & -> & Ha & Hc). rewrite (Index_byte "?"%char a b Ha).
    by rewrite drop_app_length.
Qed.

Lemma tls_appended (dsn v : gostr) :
  has_tls_param (if Contains dsn "?" then dsn ++ "&tls=" ++ v else dsn ++ "?tls=" ++ v) = true.
Proof.
  assert (Hv : Contains ("tls=" ++ v) "tls=" = true) by (apply Contains_spec; by exists [], v).
  apply has_tls_param_spec. destruct (Contains dsn "?") eqn:Hq.
  - unfold Contains in Hq. destruct (Index dsn "?") as [i|] eqn:Hi; [|done].
    pose proof (Index_Some _ _ _ Hi) as (t & Ht & _).
    exists (take i dsn), (t ++ "&tls=" ++ v). split; [|split; [by apply Index_first_byte|]].
    + rewrite Ht at 1. by rewrite <- !app_assoc.
    + apply (Contains_app_r "?"), Contains_app_r, (Contains_app_r "&"), Hv.
  - exists dsn, ("tls=" ++ v). split; [done|]. split; [by apply not_Contains_byte|].
    by apply (Contains_app_r "?").
Qed.

Lemma ApplySSLToDSN_on (dsn ssl : gostr) :
  tls_off ssl = false -> has_tls_param (ApplySSLToDSN dsn ssl) = true.
Proof.
  intros Hoff. unfold ApplySSLToDSN. unfold tls_off in Hoff. cbv zeta. rewrite Hoff.
  destruct (has_tls_param dsn) eqn:E; [done|]. apply tls_appended.
Qed.

(** ** Properties *)
Section StartupProperties.
Context `{ConfigIO} `{UrlParse}.

Lemma positive_or_pos (v d : Z) : (0 < d)%Z -> (0 < positive_or v v d)%Z.
Proof. intros. unfold positive_or. by destruct (Z.ltb_spec 0 v). Qed.

Lemma base_config_limits (configFilePath : gostr) (e : env) (base : Config) :
  base_config configFilePath e = Ok base -> limits_ok base.
Proof.
  unfold base_config. destruct (negb _).
  - destruct (LoadConfigFile _) as [fc|]; [|done]. intros [= <-].
    unfold limits_ok. simpl. repeat split; try done; by apply positive_or_pos.
  - intros [= <-]. unfold limits_ok. vm_compute. repeat split; done.
Qed.

Lemma overridden_fields (e : env) (base cfg0 : Config) :
  overridden e base = Ok cfg0 ->
  (limits_ok base -> limits_ok cfg0) /\ MCPHTTPSessionTimeout cfg0 <> 0%Z /\
  MCPHTTPBind cfg0 <> [] /\ MCPHTTPPath cfg0 <> [] /\ (HTTPMode cfg0 = true -> MetricsHTTP cfg0 = false).
Proof.
  unfold overridden. rewrite result_bind_Ok. intros (conns & _ & [= <-]).
  pose proof (applyEnvOverrides_limits e base) as HL. set (c := applyEnvOverrides e base) in *.
  assert (Hm : HTTPMode c = true -> MetricsHTTP c = false) by by (simpl; intros ->).
  clearbody c. unfold limits_ok in *.
  destruct (0 <? length conns); simpl; repeat split; try tauto; try (by case_match eqn:E; [|apply is_empty_false in E]);
    destruct (Z.eqb_spec (MCPHTTPSessionTimeout c) 0); done.
Qed.

(** The origins of a loaded configuration are valid and canonical. *)
Lemma loaded_origins `{!UrlLaws _} (configFilePath : gostr) (e : env) (cfg : Config) (o : gostr) :
  Load configFilePath e = Ok cfg -> Transport cfg = TransportHTTP -> o ∈ MCPHTTPAllowedOrigins cfg ->
  validateOrigin o = None /\ HasSuffix o "/" = false.
Proof.
  intros (base & cfg0 & _ & Ho & _ & Hr & _ & Hv)%Load_Ok Hhttp. apply ValidateTransport_None in Hv as [Hv|Hv]; [by rewrite Hv in Hhttp|].
  destruct Hv as (_ & _ & _ & Hvalid & _). intros Hin. split; [by apply Hvalid|].
  assert (Hnorm : exists o', o = normalize_origin o').
  { apply resolve_fields in Hr. rewrite Hr in Hin. cbn in Hin. unfold overridden in Ho. apply result_bind_Ok in Ho as (conns & _ & [= <-]).
    destruct (0 <? length conns); cbn in Hin; apply list_elem_of_fmap in Hin as (o' & -> & _); by exists o'. }
  destruct Hnorm as [o' ->]. specialize (Hvalid _ Hin). unfold normalize_origin in *.
  destruct (validateOrigin (TrimSpace o')) eqn:E; cbn [is_nil] in *; [congruence | by apply canonical_origin_end].
Qed.
(** What a loaded configuration satisfies. *)
Lemma loaded_config (configFilePath : gostr) (e : env) (cfg : Config)
    (Hload : Load configFilePath e = Ok cfg) :
  names_ok (Connections cfg) /\ limits_ok cfg /\ ToolPack cfg ∈ [[]; ToolPackAuto; ToolPackOff] /\
  (HTTPMode cfg = true -> MetricsHTTP cfg = false) /\
  MCPHTTPBind cfg <> [] /\ MCPHTTPPath cfg <> [] /\ MCPHTTPSessionTimeout cfg <> 0%Z /\
  (Transport cfg = TransportStdio \/ mcp_http_ok cfg).
Proof.
  apply Load_Ok in Hload as (base & cfg0 & Hb & Ho & Hn & Hr & Htp & Hv).
  apply base_config_limits in Hb. apply overridden_fields in Ho as (HL & Hs & Hbind & Hp & Hm).
  apply resolve_fields in Hr. apply ValidateTransport_None in Hv.
  assert (Htool : ToolPack cfg ∈ [[]; ToolPackAuto; ToolPackOff]).
  { apply one_of_elem. unfold validateToolPack in Htp. by destruct (one_of _ _). }
  remember (MCPHTTPToken cfg) as token eqn:Ht. clear Ht. subst cfg. specialize (HL Hb).
  repeat (split; [done|]). done.
Qed.

(** C14: a configuration that Load returns has a connection, no reserved connection name,
    positive limits, a known tool-pack mode, a bind address, a path and a session timeout
    that is not zero, and is safe to serve: stdio, or MCP HTTP with every exposed listener
    authenticated and encrypted unless the operator opted out. *)
Theorem Load_is_safe (configFilePath : gostr) (e : env) (cfg : Config)
    (Hload : Load configFilePath e = Ok cfg) :
  names_ok (Connections cfg) /\ limits_ok cfg /\ ToolPack cfg ∈ [[]; ToolPackAuto; ToolPackOff] /\
  (HTTPMode cfg = true -> MetricsHTTP cfg = false) /\
  MCPHTTPBind cfg <> [] /\ MCPHTTPPath cfg <> [] /\ MCPHTTPSessionTimeout cfg <> 0%Z /\
  (Transport cfg = TransportStdio \/ mcp_http_ok cfg).
Proof. exact (loaded_config configFilePath e cfg Hload). Qed.

(** C15: for the file that start-up would use, the validation command accepts exactly when
    start-up succeeds with a DSN on every connection: the two sequences of overrides,
    defaults and checks agree. *)
Theorem ValidateConfigFile_agrees_with_Load (configFilePath path : gostr) (e : env)
    (Hpath : FindConfigFile configFilePath e = path) (Hne : path <> []) :
  ValidateConfigFile path e = Ok tt <->
  exists cfg, Load configFilePath e = Ok cfg /\ forall c, c ∈ Connections cfg -> DSN c <> [].
Proof.
  rewrite ValidateConfigFile_Ok. setoid_rewrite Load_Ok. unfold loads, base_config.
  rewrite Hpath. apply is_empty_false in Hne. rewrite Hne. simpl. split.
  - intros (fc & cfg0 & cfg & -> & Ho & Hn & Hd & Hr & Htp & Hv). exists cfg. split; [eauto 10|].
    apply resolve_fields in Hr. rewrite Hr. exact Hd.
  - intros (cfg & (base & cfg0 & Hb & Ho & Hn & Hr & Htp & Hv) & Hd).
    destruct (LoadConfigFile path) as [fc|] eqn:Hl; [|done]. injection Hb as <-.
    exists fc, cfg0, cfg. repeat (split; [done|]). split; [|done].
    apply resolve_fields in Hr. by rewrite Hr in Hd.
Qed.
End StartupProperties.

(** Printing the configuration of a file and reading the result gives the same
    configuration back, in every field, except that the passwords are masked. *)
Theorem printed_config_roundtrip (fc : FileConfig) (Hfc : printable fc) :
  ToConfig (printed_config (ToConfig fc)) =
  set_connections (map masked_connection (Connections (ToConfig fc))) (ToConfig fc).
Proof. by apply ToConfig_printed. Qed.

Lemma connections_at_names (m : gmap gostr FileConnectionConfig) (l : list gostr) :
  (forall n, n ∈ l -> is_Some (m !! n)) -> map Name (connections_at m l) = l.
Proof.
  induction l as [|n l IH]; intros Hl; [done|]. rewrite connections_at_cons.
  destruct (Hl n (list_elem_of_here _ _)) as [c ->]. simpl. rewrite IH; [done|].
  intros k Hk. apply Hl. by right.
Qed.

Lemma elem_of_connections_at (m : gmap gostr FileConnectionConfig) (l : list gostr) (c : ConnectionConfig) :
  c ∈ connections_at m l <-> exists n f, n ∈ l /\ m !! n = Some f /\ c = connection_of_file n f.
Proof.
  unfold connections_at. rewrite list_elem_of_omap. split.
  - intros (n & Hn & Hf). destruct (m !! n) as [f|] eqn:E; [|done]. injection Hf as <-. eauto.
  - intros (n & f & Hn & Hf & ->). exists n. by rewrite Hf.
Qed.

(** Every connection of a file comes out exactly once, under its own name, with
    "default" first and the other names in byte order. *)
Theorem file_connections_order (m : gmap gostr FileConnectionConfig) :
  (forall c, c ∈ file_connections m <-> exists n f, m !! n = Some f /\ c = connection_of_file n f) /\
  NoDup (map Name (file_connections m)) /\
  (exists rest, StronglySorted str_le rest /\ ("default" ∉ rest) /\
     map Name (file_connections m) =
       (if decide (is_Some (m !! "default")) then ["default"] else []) ++ rest).
Proof.
  assert (Hn : map Name (file_connections m) = ordered_names m).
  { apply connections_at_names. intros n. apply elem_of_ordered_names. }
  split; [|split].
  - intros c. change (file_connections m) with (connections_at m (ordered_names m)).
    rewrite elem_of_connections_at. setoid_rewrite elem_of_ordered_names.
    split; [intros (n & f & _ & ?) | intros (n & f & Hf & ?)]; exists n, f; [done|].
    split; [|done]. eauto.
  - rewrite Hn. apply NoDup_ordered_names.
  - rewrite Hn. pose proof (sort_strings_sorted (map_to_list m).*1) as HS.
    assert (Hd : "default" ∈ ordered_names m <-> is_Some (m !! "default")) by apply elem_of_ordered_names.
    unfold ordered_names in *. case_bool_decide as E.
    + rewrite decide_True by (apply Hd; by left).
      eexists. split; [apply (StronglySorted_filter _ (fun n => n <> "default")), HS|]. split; [|done].
      rewrite list_elem_of_filter. by intros [? _].
    + rewrite decide_False by (by rewrite <- Hd). by eexists.
Qed.

(** The printed form of a DSN shows the user name and what follows the credentials and
    does not depend on the password, whatever bytes (at signs included) it has. *)
Theorem maskDSN_hides_password (user pass pass' rest : gostr)
    (Huser : ":"%char ∉ user) (Hne : user <> []) (Hrest : "@"%char ∉ rest) :
  maskDSN (user ++ ":" ++ pass ++ "@" ++ rest) = user ++ ":***@" ++ rest /\
  maskDSN (user ++ ":" ++ pass ++ "@" ++ rest) = maskDSN (user ++ ":" ++ pass' ++ "@" ++ rest).
Proof. by rewrite !maskDSN_split. Qed.

Lemma maskDSN_hides_password_witness :
  maskDSN ("app" ++ ":" ++ "p@s:s" ++ "@" ++ "tcp(db:3306)/app") = "app:***@tcp(db:3306)/app".
Proof.
  apply (maskDSN_hides_password "app" "p@s:s" [] "tcp(db:3306)/app"); [decide_true | done | decide_true].
Defined.

(** Whenever the SSL setting is not empty, false or 0 the DSN gets a tls parameter after
    a question mark, an existing one being kept as it is, and otherwise the DSN is unchanged. *)
Theorem ApplySSLToDSN_spec (dsn ssl : gostr) :
  (tls_off ssl = true -> ApplySSLToDSN dsn ssl = dsn) /\
  (tls_off ssl = false -> has_tls_param (ApplySSLToDSN dsn ssl) = true) /\
  (has_tls_param dsn = true -> ApplySSLToDSN dsn ssl = dsn).
Proof.
  split; [|split; [apply ApplySSLToDSN_on|]]; unfold ApplySSLToDSN, tls_off; cbv zeta; intros ->; [done|].
  by destruct (one_of _ _).
Qed.

Lemma ApplySSLToDSN_spec_witness : has_tls_param (ApplySSLToDSN "u:p@tcp(h:3306)/db?a=b" "preferred") = true.
Proof. apply ApplySSLToDSN_spec. vm_compute. reflexivity. Defined.

(** A question mark in the password is taken for the start of the parameters: the
    appended text then lands in the database name and the driver sees no parameter, so TLS
    is not requested although the setting says so. *)
Theorem ApplySSLToDSN_question_mark_in_password :
  let dsn := "app:p?ss@tcp(db:3306)/app" in
  ApplySSLToDSN dsn "true" = dsn ++ "&tls=true" /\ dsn_params (ApplySSLToDSN dsn "true") = None /\
  dsn_params (ApplySSLToDSN "app:pass@tcp(db:3306)/app" "true") = Some "tls=true".
Proof. vm_compute. repeat split. Qed.

(** A file timeout of more seconds than 64-bit nanoseconds hold becomes negative, and
    one up to that bound is kept exactly. *)
Theorem file_timeouts (s : Z) :
  ((0 < s <= maxInt64 / Second)%Z -> secondsToDuration s = (s * Second)%Z /\ (0 < secondsToDuration s)%Z) /\
  (secondsToDuration (maxInt64 / Second + 1) < 0)%Z.
Proof.
  split; [|vm_compute; reflexivity]. intros Hs. unfold secondsToDuration.
  rewrite duration_exact by (unfold Second in *; lia). unfold Second in *. lia.
Qed.

Lemma file_timeouts_witness : (0 < secondsToDuration 30)%Z.
Proof. apply (proj1 (file_timeouts 30)). vm_compute. split; [reflexivity | discriminate]. Defined.

(** A start-up on a machine with one file, to instantiate the theorems. *)
Definition demo_file : FileConfig := {|
  FConnections := {["main" := {| fcDSN := "u:p@tcp(h:3306)/d"; fcDescription := []; fcReadOnly := false;
                                 fcSSL := []; fcSSH := None |};
                    "default" := {| fcDSN := "v:q@tcp(h:3306)/d"; fcDescription := []; fcReadOnly := true;
                                 fcSSL := "true"; fcSSH := None |}]};
  Query := {| fqMaxRows := 500; fqTimeoutSeconds := 0; fqMaskColumns := [" email "; " "] |};
  Pool := {| fpMaxOpenConns := 0; fpMaxIdleConns := 0; fpConnMaxLifetimeMinutes := 0;
             fpConnMaxIdleTimeMinutes := 7; fpPingTimeoutSeconds := 0 |};
  Features := {| ffExtendedTools := true; ffVectorTools := false; ffTokenCard := false;
                 ffToolPack := " Auto"; ffStatementLabels := None |};
  Security := {| fxAllowedDatabases := ["app"]; fxStrictReadOnly := true; fxAllowSystemSchemas := false;
                 fxProcessAdmin := false; fxReadAuditTool := false; fxSlowQueryTool := false |};
  Logging := {| flJSONFormat := false; flAuditLogPath := []; flTokenTracking := false; flTokenModel := [] |};
  FTransport := "HTTP";
  HTTP := {| fhEnabled := false; fhPort := 8080; fhRequestTimeoutSeconds := 0; fhRateLimit := None;
             fhMCP := Some {| fmBind := "0.0.0.0"; fmPath := []; fmTokenFile := "/run/token"; fmTLSCert := [];
                              fmTLSKey := []; fmStateless := false; fmSessionTimeoutMinutes := 10;
                              fmAllowedOrigins := []; fmAllowedHosts := []; fmAllowInsecure := true |} |}
|}.
#[local] Instance demo_io : ConfigIO := {|
  ReadFile path := if path =?s "/run/token" then Ok "secret" else Ok empty_str;
  Stat path := path =?s "/etc/mysql-mcp-server/config.yaml";
  UserHomeDir := Some "/root";
  yaml_Unmarshal _ := Ok demo_file;
  json_Unmarshal _ := Err "unexpected end of JSON input";
  json_connections _ := Ok []
|}.
#[local] Instance demo_url : UrlParse := fun _ => None.

Definition config_of (r : result load_error Config) : Config := match r with Ok c => c | Err _ => default_config end.

Lemma Load_is_safe_witness :
  let cfg := config_of (Load [] ∅) in
  Transport cfg = TransportHTTP /\ MCPHTTPToken cfg = "secret" /\
  (Transport cfg = TransportStdio \/ mcp_http_ok cfg).
Proof.
  cbv zeta. split; [vm_compute; reflexivity|]. split; [vm_compute; reflexivity|].
  apply (Load_is_safe [] ∅). vm_compute. reflexivity.
Defined.

Lemma ValidateConfigFile_agrees_with_Load_witness :
  exists cfg, Load [] ∅ = Ok cfg /\ forall c, c ∈ Connections cfg -> DSN c <> [].
Proof.
  apply (ValidateConfigFile_agrees_with_Load [] "/etc/mysql-mcp-server/config.yaml" ∅).
  - vm_compute. reflexivity.
  - discriminate.
  - vm_compute. reflexivity.
Defined.

Lemma printed_config_roundtrip_witness :
  Connections (ToConfig (printed_config (ToConfig demo_file))) =
  map masked_connection (Connections (ToConfig demo_file)).
Proof.
  rewrite printed_config_roundtrip; [reflexivity|].
  unfold printable. repeat (split; [vm_compute; (reflexivity || discriminate)|]). left. vm_compute. reflexivity.
Defined.
