(* ===== verification/Access.v ===== *)
(** cmd/mysql-mcp-server/access.go: the database allowlist. *)
From S2P Require Import Prelude Unicode GoStrings SqlParser Config.

Inductive access_error :=
| DatabaseRequired
| DatabaseNotAllowed (db : gostr)
| ShowDatabasesNotAllowed
| QueryValidationFailed (err : ParserValidationError)
| ReferenceNotAllowed (name : gostr).

Section Access.
(** The package variable [allowedDatabaseSet], set by [initAccessControl]. *)
Variable allowedDatabaseSet : gset gostr.

Definition accessControlEnabled : bool := 0 <? size allowedDatabaseSet.

Definition allowedDatabasesLower : list gostr :=
  if negb accessControlEnabled then [] else sort_strings (elements allowedDatabaseSet).

Definition databaseAllowed (name : gostr) : bool :=
  if negb accessControlEnabled then true
  else
    let name := TrimSpace name in
    if is_empty name then false else bool_decide (ToLower name ∈ allowedDatabaseSet).

Definition requireAllowedDatabase (db : gostr) : option access_error :=
  if negb accessControlEnabled then None
  else if is_empty (TrimSpace db) then Some DatabaseRequired
  else if negb (databaseAllowed db) then Some (DatabaseNotAllowed db)
  else None.

(** The map of references is iterated in an unspecified order: here, that of [elements]. *)
Definition requireReferencedSchemasInQuery `{Sqlparser} (sqlText : gostr) : option access_error :=
  if negb accessControlEnabled then None
  else if ShowEnumeratesAllSchemasInQuery sqlText then Some ShowDatabasesNotAllowed
  else match ReferencedSchemaQualifiers sqlText with
  | Err err => Some (QueryValidationFailed err)
  | Ok refs =>
      first_err (fun name => if negb (databaseAllowed name) then Some (ReferenceNotAllowed name) else None)
        (elements refs)
  end.
End Access.

Definition initAccessControl (allowed : list gostr) : gset gostr := AllowedDatabaseSet allowed.

(** ** The allowlist as a set of names *)
Lemma elem_of_AllowedDatabaseSet (l : list gostr) (n : gostr) :
  n ∈ AllowedDatabaseSet l <-> exists s, s ∈ l /\ TrimSpace s <> [] /\ n = ToLower (TrimSpace s).
Proof.
  unfold AllowedDatabaseSet. rewrite elem_of_list_to_set, list_elem_of_In, in_map_iff.
  setoid_rewrite <- list_elem_of_In. split.
  - intros (t & <- & Ht). apply list_elem_of_filter in Ht as [Hne Ht].
    apply list_elem_of_fmap in Ht as (s & -> & Hs). exists s. by apply is_empty_false in Hne.
  - intros (s & Hs & Hne & ->). exists (TrimSpace s). split; [done|].
    apply list_elem_of_filter. split; [by apply is_empty_false|]. by apply list_elem_of_fmap_2.
Qed.

Lemma accessControlEnabled_spec (set : gset gostr) : accessControlEnabled set = true <-> set <> ∅.
Proof.
  unfold accessControlEnabled. rewrite Nat.ltb_lt. split.
  - intros H ->. rewrite size_empty in H. lia.
  - intros H. apply Nat.neq_0_lt_0. intros E. apply H, leibniz_equiv, size_empty_inv, E.
Qed.

(** The name is on the list, up to case and surrounding space. *)
Definition listed (allowed : list gostr) (name : gostr) : Prop :=
  TrimSpace name <> [] /\
  exists s, s ∈ allowed /\ TrimSpace s <> [] /\ ToLower (TrimSpace name) = ToLower (TrimSpace s).

Definition restricted (allowed : list gostr) : Prop := exists s, s ∈ allowed /\ TrimSpace s <> [].

Lemma enabled_restricted (allowed : list gostr) :
  accessControlEnabled (initAccessControl allowed) = true <-> restricted allowed.
Proof.
  rewrite accessControlEnabled_spec. unfold initAccessControl, restricted. split.
  - intros H. apply set_choose_L in H as [x Hx]. apply elem_of_AllowedDatabaseSet in Hx as (s & ? & ? & _). eauto.
  - intros (s & Hs & Hne) H.
    assert (Hin : ToLower (TrimSpace s) ∈ AllowedDatabaseSet allowed) by (apply elem_of_AllowedDatabaseSet; eauto).
    rewrite H in Hin. by apply elem_of_empty in Hin.
Qed.

Lemma databaseAllowed_spec (allowed : list gostr) (name : gostr) :
  restricted allowed -> databaseAllowed (initAccessControl allowed) name = true <-> listed allowed name.
Proof.
  intros Hr. unfold databaseAllowed, listed. apply enabled_restricted in Hr as ->. simpl.
  destruct (is_empty (TrimSpace name)) eqn:E; go_bool.
  - split; [done | by intros [? _]].
  - unfold initAccessControl. rewrite elem_of_AllowedDatabaseSet. tauto.
Qed.

(** ** Properties *)

(** With at least one non-blank entry, a database passes exactly when it is on the list
    up to case and surrounding space, and a blank name is asked for; with none, everything
    passes. *)
Theorem requireAllowedDatabase_spec (allowed : list gostr) (db : gostr) :
  (~ restricted allowed -> requireAllowedDatabase (initAccessControl allowed) db = None) /\
  (restricted allowed ->
     (requireAllowedDatabase (initAccessControl allowed) db = None <-> listed allowed db) /\
     (requireAllowedDatabase (initAccessControl allowed) db = Some DatabaseRequired <-> TrimSpace db = [])).
Proof.
  unfold requireAllowedDatabase. split; intros Hr.
  - rewrite <- enabled_restricted, not_true_iff_false in Hr. by rewrite Hr.
  - pose proof (databaseAllowed_spec allowed db Hr) as Hd. apply enabled_restricted in Hr as ->. simpl.
    destruct (is_empty (TrimSpace db)) eqn:E; [apply is_empty_true in E | apply is_empty_false in E].
    + split; [|done]. split; [done|]. by intros [? _].
    + destruct (databaseAllowed _ db); simpl; (split; [|by split]); [by rewrite <- Hd|].
      split; [done|]. intros Hl. by apply Hd in Hl.
Qed.

Lemma requireAllowedDatabase_spec_witness :
  requireAllowedDatabase (initAccessControl ["App "; " "]) " aPP" = None /\
  requireAllowedDatabase (initAccessControl ["App "; " "]) " " = Some DatabaseRequired.
Proof.
  assert (Hr : restricted ["App "; " "]) by (exists "App "; split; [left | done]).
  split.
  - apply (requireAllowedDatabase_spec ["App "; " "]); [done|]. split; [done|].
    exists "App ". split; [left | split; [done | reflexivity]].
  - apply (requireAllowedDatabase_spec ["App "; " "]); [done | reflexivity].
Defined.

(** C7: under an allowlist, a query the parser reads as a SELECT or UNION passes exactly
    when every schema named in a visited position is on the list; and a SHOW DATABASES
    never passes. *)
Theorem requireReferencedSchemas_spec `{Sqlparser} (allowed : list gostr) (sqlText piece : gostr)
    (s : SelectStatement)
  (Hr : restricted allowed) (Hpiece : single_piece sqlText = Ok piece)
  (Hparse : Parse piece = Ok (StSelect s))
  (Hshow : ShowEnumeratesAllSchemasInQuery sqlText = false) :
  requireReferencedSchemasInQuery (initAccessControl allowed) sqlText = None <->
  forall q, names_sel q s -> listed allowed q.
Proof.
  unfold requireReferencedSchemasInQuery, ReferencedSchemaQualifiers.
  rewrite (proj2 (enabled_restricted allowed) Hr), Hshow, Hpiece. simpl. rewrite Hparse.
  rewrite first_err_None. setoid_rewrite if_None. setoid_rewrite negb_false_iff.
  setoid_rewrite (databaseAllowed_spec allowed _ Hr).
  assert (HE : forall q, q ∈ elements (collectStmtReferencedSchemas (StSelect s) ∅) <-> names_sel q s).
  { intros q. rewrite elem_of_elements, collect_stmt_spec, elem_of_empty. split.
    - intros [?|Hn]; [done|]. by inversion Hn.
    - intros Hn. right. by apply names_st_select. }
  setoid_rewrite HE. done.
Qed.

#[local] Instance demo_parser : Sqlparser := {|
  SplitStatementToPieces s := Ok [s];
  Parse s := Ok (StSelect (Select (MkSelect [StarExpr []]
    [AliasedTableExpr (TableName "hr"); AliasedTableExpr (TableName [])] None [] None [] false)))
|}.
Lemma requireReferencedSchemas_spec_witness :
  requireReferencedSchemasInQuery (initAccessControl ["app"]) "SELECT * FROM hr.t, u" <> None.
Proof.
  rewrite (requireReferencedSchemas_spec ["app"] "SELECT * FROM hr.t, u" "SELECT * FROM hr.t, u"
    (Select (MkSelect [StarExpr []] [AliasedTableExpr (TableName "hr"); AliasedTableExpr (TableName [])]
      None [] None [] false))); try reflexivity.
  - intros H. assert (Hn : names_sel "hr" (Select (MkSelect [StarExpr []]
      [AliasedTableExpr (TableName "hr"); AliasedTableExpr (TableName [])] None [] None [] false))).
    { apply names_select. eapply names_from; [left|]. by apply names_qualifier. }
    apply H in Hn as (_ & s & Hs & _ & E). apply list_elem_of_singleton in Hs as ->. discriminate.
  - exists "app". split; [left | done].
Defined.
