(* ===== verification/Labels.v ===== *)
(** cmd/mysql-mcp-server/labels.go and internal/toolpack/toolpack.go: the texts of statement
    labels, connection attributes, and the SQL tool pack.  The driver's wrapper is in
    LabelDriver, the install-schema command in Install. *)
From S2P Require Import Prelude Unicode GoStrings GoNum Config.

(** ** Labels *)
Definition label_char (c : ascii) : bool :=
  in_set "_-." c || in_rangeb 97 122 c || in_rangeb 65 90 c || in_rangeb 48 57 c.

(** The kept characters are ASCII, so the loop over runes keeps bytes; [len] is [b.Len()]. *)
Fixpoint sanitize_go (len : nat) (s : gostr) : gostr :=
  match s with
  | [] => []
  | c :: s =>
      if label_char c then
        if 64 <=? S len then [c] else c :: sanitize_go (S len) s
      else if 64 <=? len then [] else sanitize_go len s
  end.
Definition sanitizeLabel (s : gostr) : gostr := sanitize_go 0 s.

Record callLabel := { tool : gostr; lreq : gostr }.

(** [reqPrefix] and the sequence number after [reqSeq.Add(1)] (an unsigned 64-bit counter). *)
Definition withCallLabel (reqPrefix : gostr) (seq : Z) (t : gostr) : callLabel :=
  {| tool := sanitizeLabel t; lreq := reqPrefix ++ "-" ++ Itoa seq |}.

Definition labelQuery (labelsEnabled : bool) (l : option callLabel) (query : gostr) : gostr :=
  if negb labelsEnabled then query
  else match l with
  | Some l =>
      if is_empty (tool l) then query
      else "/* mcp:tool=" ++ tool l ++ " req=" ++ lreq l ++ " */ " ++ query
  | None => query
  end.

(** The keys of an attribute list "k:v,k:v". *)
Definition attribute_keys (existing : gostr) : list gostr :=
  omap (fun kv => match Cut kv ":" with (k, _, true) => Some (TrimSpace k) | _ => None end)
    (Split existing ","%char).

Definition add_attribute (have : list gostr) (attrs k v : gostr) : gostr :=
  if one_of k have || is_empty v then attrs
  else (if negb (is_empty attrs) then attrs ++ "," else attrs) ++ k ++ ":" ++ sanitizeLabel v.

(** [version] is the package variable Version, set when the program is built. *)
Definition labelConnectionAttributes (version existing transport : gostr) : gostr :=
  let have := attribute_keys existing in
  let attrs := add_attribute have existing "program_name" "mysql-mcp-server" in
  let attrs := add_attribute have attrs "mcp_transport" transport in
  add_attribute have attrs "mcp_version" version.

Definition transportLabel (cfg : option Config) : gostr :=
  match cfg with
  | None => []
  | Some cfg =>
      if HTTPMode cfg then "rest"
      else if Transport cfg =?s TransportHTTP then "http"
      else "stdio"
  end.

Example label_ex :
  labelQuery true (Some (withCallLabel "3f9a2c11" 17 "list*/ tables")) "SELECT 1" =
    "/* mcp:tool=listtables req=3f9a2c11-17 */ SELECT 1" /\
  labelConnectionAttributes "1.2 " "app:x, program_name:mine" "http" =
    "app:x, program_name:mine,mcp_transport:http,mcp_version:1.2".
Proof. vm_compute. auto. Qed.

(** ** The tool pack *)
Definition SupportedMajor : Z := 1.

Definition Supported (v : gostr) : bool :=
  let '(major, _, _) := Cut v "." in bool_decide (Atoi major = Some SupportedMajor).

(** [Detect]: [version] is the result of CALL mysql_mcp.version(). *)
Definition Detect (version : result gostr gostr) : gostr :=
  match version with
  | Err _ => []
  | Ok v => if negb (Supported v) then [] else v
  end.

Definition detectToolPack (mode : gostr) (version : result gostr gostr) : gostr :=
  if mode =?s ToolPackOff then [] else Detect version.

Definition packCall (proc : gostr) (n : nat) : gostr :=
  "CALL mysql_mcp." ++ proc ++ "(" ++ TrimSuffix (Repeat "?, " n) ", " ++ ")".

(** MySQL error numbers 1305 and 1370; [None] is any other error, or none. *)
Definition packUnavailable (number : option Z) : bool :=
  match number with Some n => (n =? 1305)%Z || (n =? 1370)%Z | None => false end.

Definition firstLine (s : gostr) : gostr := let '(line, _, _) := Cut s [ch_newline] in line.

(** *** Statements: the lines of [bufio.Scanner] (each shorter than its buffer) *)
Definition drop_return (line : gostr) : gostr := TrimSuffix line [ch_return].
Definition scan_lines (script : gostr) : list gostr :=
  match rev (Split script ch_newline) with
  | last :: rest => map drop_return (rev rest ++ (if is_empty last then [] else [last]))
  | [] => []
  end.

Definition delimiter_line (trimmed : gostr) : option gostr :=
  match Fields trimmed with
  | [word; d] => if EqualFold word "DELIMITER" then Some d else None
  | _ => None
  end.

(** One line: [cur] is the statement being read and [delim] the current delimiter. *)
Definition statement_line (st : gostr * gostr * list gostr) (line : gostr) : gostr * gostr * list gostr :=
  let '(cur, delim, stmts) := st in
  let trimmed := TrimSpace line in
  let step :=
    let cur := (if is_empty cur then cur else cur ++ [ch_newline]) ++ line in
    if HasSuffix trimmed delim
    then ([], delim, stmts ++ [TrimSpace (TrimSuffix (TrimSpace cur) delim)])
    else (cur, delim, stmts) in
  if is_empty cur then
    if is_empty trimmed || HasPrefix trimmed "--" then (cur, delim, stmts)
    else match delimiter_line trimmed with
    | Some d => (cur, d, stmts)
    | None => step
    end
  else step.

Definition Statements (script : gostr) : list gostr :=
  let '(cur, _, stmts) := fold_left statement_line (scan_lines script) ([], ";", []) in
  let s := TrimSpace cur in
  if negb (is_empty s) then stmts ++ [s] else stmts.

(** [run]: the statements in order until one fails; the error names its first line. *)
Definition toolpack_run (exec : gostr -> option gostr) (script : gostr) : option (gostr * gostr) :=
  first_err (fun stmt => match exec stmt with Some e => Some (firstLine stmt, e) | None => None end)
    (Statements script).

Example statements_ex :
  Statements ("-- c" ++ [ch_newline] ++ "CREATE DATABASE d;" ++ [ch_newline] ++ "DELIMITER //" ++ [ch_newline]
    ++ "CREATE PROCEDURE p()" ++ [ch_newline] ++ "BEGIN SELECT 1; END //" ++ [ch_newline] ++ "DELIMITER ;"
    ++ [ch_newline] ++ "DROP x") =
  ["CREATE DATABASE d"; "CREATE PROCEDURE p()" ++ [ch_newline] ++ "BEGIN SELECT 1; END"; "DROP x"].
Proof. vm_compute. reflexivity. Qed.

(** ** A label cannot end its comment early *)
Lemma sanitize_go_chars (len : nat) (s : gostr) : Forall (fun c => label_char c = true) (sanitize_go len s).
Proof.
  revert len. induction s as [|c s IH]; intros len; cbn [sanitize_go]; [constructor|].
  destruct (label_char c) eqn:Hc.
  - destruct (64 <=? S len); constructor; done || apply IH.
  - destruct (64 <=? len); [constructor | apply IH].
Qed.

Lemma sanitize_go_length (len : nat) (s : gostr) : len < 64 -> length (sanitize_go len s) <= 64 - len.
Proof.
  revert len. induction s as [|c s IH]; intros len Hl; cbn [sanitize_go]; [simpl; lia|].
  destruct (label_char c).
  - destruct (Nat.leb_spec 64 (S len)); cbn [length]; [lia|]. specialize (IH (S len)). lia.
  - destruct (Nat.leb_spec 64 len); [simpl; lia | by apply IH].
Qed.

(** No ["*/"] starts inside a text without stars. *)
Lemma Index_star_slash (a b : gostr) :
  "*"%char ∉ a -> Index (a ++ "*/" ++ b) "*/" = Some (length a).
Proof.
  induction a as [|c a IH]; intros Ha; [done|]. rewrite not_elem_of_cons in Ha. destruct Ha as [Hc Ha].
  simpl. rewrite bool_decide_eq_false_2 by done. simpl. simpl in IH. by rewrite IH.
Qed.

Lemma Index_open_comment (s : gostr) : Index ("/* " ++ s) "*/" = (fun i => 3 + i) <$> Index s "*/".
Proof. simpl. by destruct (Index s "*/"). Qed.

Lemma star_not_label (c : ascii) : label_char c = true -> c <> "*"%char.
Proof. intros H ->. vm_compute in H. done. Qed.

(** ** Properties *)

(** Whatever the tool is called, the label is a comment that ends right before the
    query: its first end-of-comment mark is the label's own, what follows it is the query,
    and the tool name takes at most 64 bytes of letters, digits, dots, dashes and
    underscores. *)
Theorem labelQuery_is_a_comment (t r query : gostr) (Hr : "*"%char ∉ r) (Ht : sanitizeLabel t <> []) :
  let l := {| tool := sanitizeLabel t; lreq := r |} in
  let q := labelQuery true (Some l) query in
  HasPrefix q "/*" = true /\
  (exists i, Index q "*/" = Some i /\ drop (i + 2) q = " " ++ query) /\
  length (tool l) <= 64 /\ Forall (fun c => label_char c = true) (tool l).
Proof.
  intros l q. unfold q, labelQuery. cbn [negb tool lreq l]. apply is_empty_false in Ht. rewrite Ht.
  split; [done|]. split; [|split; [apply (sanitize_go_length 0 t); lia | apply sanitize_go_chars]].
  set (body := "mcp:tool=" ++ sanitizeLabel t ++ " req=" ++ r ++ " ").
  replace ("/* mcp:tool=" ++ sanitizeLabel t ++ " req=" ++ r ++ " */ " ++ query)
    with (("/* " ++ body ++ "*/") ++ " " ++ query) by (unfold body; by rewrite <- !app_assoc).
  assert (Hstar : "*"%char ∉ body).
  { unfold body. rewrite !not_elem_of_app. repeat split; try done; try decide_true.
    intros Hin. pose proof (sanitize_go_chars 0 t) as HF. rewrite list.Forall_forall in HF.
    by apply (star_not_label _ (HF _ Hin)). }
  exists (3 + length body). split.
  - rewrite <- !app_assoc, Index_open_comment, Index_star_slash by done. done.
  - replace (3 + length body + 2) with (length ("/* " ++ body ++ "*/")); [by rewrite drop_app_length|].
    rewrite !length_app. simpl. lia.
Qed.

Lemma labelQuery_is_a_comment_witness :
  HasPrefix (labelQuery true (Some {| tool := sanitizeLabel "x*/DROP"; lreq := "ab-1" |}) "SELECT 1") "/*" = true.
Proof. apply (labelQuery_is_a_comment "x*/DROP" "ab-1" "SELECT 1"); [decide_true | vm_compute; discriminate]. Defined.
