(* ===== verification/Retry.v ===== *)
(** internal/dbretry/retry.go: which errors are worth a retry, and the retry loop.

    The loop itself is cenkalti/backoff's [Retry], a parameter with its documented
    behaviour as laws; everything the server passes to it is modelled. *)
From S2P Require Import Prelude GoNum.

(** ** Errors of database/sql operations

    An error value is a tree: a leaf, or an error that wraps others ([fmt.Errorf] with one
    or two %w).  [context.DeadlineExceeded] is a [net.Error] too (it has [Timeout]). *)
Inductive goerr :=
| CtxCanceled
| CtxDeadlineExceeded
| NetError (msg : gostr)
| ErrInvalidConn
| ErrBadConn
| ErrNoRows
| MySQLError (number : Z) (msg : gostr)
| OtherError (msg : gostr)
| Wrap (msg : gostr) (inner : goerr)
| Wrap2 (msg : gostr) (first second : goerr).

#[export] Instance goerr_eq_dec : EqDecision goerr.
Proof. solve_decision. Defined.

(** [errors.Is] and [errors.As]: a leaf of the tree satisfies the test. *)
Fixpoint error_leaf (p : goerr -> bool) (e : goerr) : bool :=
  match e with
  | Wrap _ e => error_leaf p e
  | Wrap2 _ a b => error_leaf p a || error_leaf p b
  | _ => p e
  end.

Definition is_ctx_error (e : goerr) : bool :=
  match e with CtxCanceled | CtxDeadlineExceeded => true | _ => false end.
Definition is_net_error (e : goerr) : bool :=
  match e with NetError _ | CtxDeadlineExceeded => true | _ => false end.
Definition is_bad_conn (e : goerr) : bool :=
  match e with ErrInvalidConn | ErrBadConn => true | _ => false end.

(** [errors.As(err, &mysqlErr)]: the first MySQL error, depth first. *)
Fixpoint mysql_number (e : goerr) : option Z :=
  match e with
  | MySQLError n _ => Some n
  | Wrap _ e => mysql_number e
  | Wrap2 _ a b => match mysql_number a with Some n => Some n | None => mysql_number b end
  | _ => None
  end.

Definition IsTransientError (err : option goerr) : bool :=
  match err with
  | None => false
  | Some e =>
      if error_leaf is_ctx_error e then false
      else if error_leaf is_net_error e then true
      else if error_leaf is_bad_conn e then true
      else match mysql_number e with
      | Some n => (n =? 1040)%Z || (n =? 1213)%Z || (n =? 1205)%Z
      | None => false
      end
  end.

Definition ShouldWarmPool (e : goerr) : bool := error_leaf is_bad_conn e.

(** ** The retry loop *)
Record retry_config := { MaxRetries : Z; MaxInterval : Z }.
Definition DefaultConfig : retry_config := {| MaxRetries := 3; MaxInterval := duration 10 Second |}.

(** What the function given to [backoff.Retry] returns: nil, [backoff.Permanent(err)], or
    another error. *)
Inductive attempt := Success | Permanent (e : goerr) | Retryable (e : goerr).

(** [backoff.Retry] on an exponential back-off with the given interval cap, the context and
    the number of retries; the attempts act on a state. *)
Class Backoff := {
  context : Type;
  backoff_Retry : forall St : Type, context -> Z -> Z -> (St -> St * attempt) -> St -> St * option goerr
}.

Fixpoint attempts {St} (op : St -> St * attempt) (k : nat) (s : St) : St :=
  match k with O => s | S k => attempts op k (fst (op s)) end.

(** Documented: the operation runs again while it returns an error that is not permanent, at
    most [n] more times; the caller gets its last error, or the context's. *)
Class BackoffLaws `(B : Backoff) := {
  retry_runs : forall St ctx iv n (op : St -> St * attempt) s, (0 < n)%Z ->
    exists k, k <= Z.to_nat n /\
      (forall i, i < k -> exists e, snd (op (attempts op i s)) = Retryable e) /\
      fst (backoff_Retry St ctx iv n op s) = attempts op (S k) s /\
      match snd (op (attempts op k s)) with
      | Success => snd (backoff_Retry St ctx iv n op s) = None
      | Permanent e => snd (backoff_Retry St ctx iv n op s) = Some e
      | Retryable e =>
          (k = Z.to_nat n /\ snd (backoff_Retry St ctx iv n op s) = Some e) \/
          exists c, is_ctx_error c = true /\ snd (backoff_Retry St ctx iv n op s) = Some c
      end
}.

Section Do.
Context `{Backoff}.
Context {St : Type}.

(** [Do]: [ping] is the pool's PingContext; [None] is a nil [*sql.DB]. *)
Definition Do (ctx : context) (ping : option (St -> St)) (cfg : retry_config) (pingTimeout : Z)
    (op : St -> St * option goerr) (s : St) : St * option goerr :=
  if (MaxRetries cfg <=? 0)%Z then op s
  else
    let interval := if (MaxInterval cfg <=? 0)%Z then duration 10 Second else MaxInterval cfg in
    backoff_Retry St ctx interval (MaxRetries cfg) (fun s =>
      match op s with
      | (s, None) => (s, Success)
      | (s, Some err) =>
          if negb (IsTransientError (Some err)) then (s, Permanent err)
          else match ping with
          | Some ping => ((if (0 <? pingTimeout)%Z && ShouldWarmPool err then ping s else s), Retryable err)
          | None => (s, Retryable err)
          end
      end) s.

(** The state after an attempt that will be retried: the pool is pinged after a bad
    connection. *)
Definition after_attempt (ping : option (St -> St)) (pingTimeout : Z) (r : St * option goerr) : St :=
  match r, ping with
  | (s, Some e), Some ping =>
      if IsTransientError (Some e) && ((0 <? pingTimeout)%Z && ShouldWarmPool e) then ping s else s
  | (s, _), _ => s
  end.

(** The state before attempt [k]. *)
Fixpoint before_attempt (ping : option (St -> St)) (pingTimeout : Z) (op : St -> St * option goerr)
    (k : nat) (s : St) : St :=
  match k with
  | O => s
  | S k => before_attempt ping pingTimeout op k (after_attempt ping pingTimeout (op s))
  end.
End Do.

(** A back-off that never waits and whose context is never cancelled. *)
Fixpoint retry_now {St} (n : nat) (op : St -> St * attempt) (s : St) : St * option goerr :=
  match op s, n with
  | (s, Success), _ => (s, None)
  | (s, Permanent e), _ => (s, Some e)
  | (s, Retryable e), O => (s, Some e)
  | (s, Retryable e), S n => retry_now n op s
  end.
Definition no_wait : Backoff :=
  {| context := unit; backoff_Retry St _ _ n op s := retry_now (Z.to_nat n) op s |}.

Lemma retry_now_runs {St} (n : nat) (op : St -> St * attempt) (s : St) :
  exists k, k <= n /\
    (forall i, i < k -> exists e, snd (op (attempts op i s)) = Retryable e) /\
    fst (retry_now n op s) = attempts op (S k) s /\
    match snd (op (attempts op k s)) with
    | Success => snd (retry_now n op s) = None
    | Permanent e => snd (retry_now n op s) = Some e
    | Retryable e => k = n /\ snd (retry_now n op s) = Some e
    end.
Proof.
  revert s. induction n as [|n IH]; intros s; destruct (op s) as [s' r] eqn:Hop.
  - exists 0. split; [lia|]. split; [lia|]. cbn [retry_now attempts]. rewrite Hop.
    destruct r; cbn; auto.
  - destruct r as [|e|e].
    1,2: exists 0; split; [lia|]; split; [lia|]; cbn [retry_now attempts]; rewrite Hop; cbn; auto.
    destruct (IH s') as (k & Hk & Hbefore & Hst & Hres). exists (S k).
    split; [lia|]. cbn [retry_now attempts]. rewrite Hop. cbn [fst].
    split; [|split; [done|]].
    + intros [|i] Hi; cbn [attempts]; rewrite Hop; [by exists e|]. apply Hbefore. lia.
    + destruct (snd (op (attempts op k s'))); try done. destruct Hres as [-> ?]. done.
Qed.

#[export] Instance no_wait_laws : BackoffLaws no_wait.
Proof.
  split. intros St ctx iv n op s _. cbn [backoff_Retry no_wait].
  destruct (retry_now_runs (Z.to_nat n) op s) as (k & Hk & Hb & Hs & Hr).
  exists k. do 3 (split; [done|]). destruct (snd (op (attempts op k s))); auto.
Qed.

(** ** Properties *)
Section DoSpec.
Context `{BackoffLaws}.
Context {St : Type}.

Lemma attempts_before ping pingTimeout (op : St -> St * option goerr) (k : nat) (s : St)
    (att : St -> St * attempt) :
  (forall s, fst (att s) = after_attempt ping pingTimeout (op s)) ->
  attempts att k s = before_attempt ping pingTimeout op k s.
Proof. intros Hatt. revert s. induction k as [|k IH]; intros s; cbn; [done|]. by rewrite Hatt, IH. Qed.

(** What every attempt and the ping preserve holds at the end. *)
Lemma Do_preserves (P : St -> Prop) (ctx : context) (ping : option (St -> St)) cfg pingTimeout
    (op : St -> St * option goerr) (s : St) :
  (forall s, P s -> P (fst (op s))) -> (forall p s, ping = Some p -> P s -> P (p s)) -> P s ->
  P (fst (Do ctx ping cfg pingTimeout op s)).
Proof.
  intros Hop Hping Hs. unfold Do. destruct (Z.leb_spec (MaxRetries cfg) 0) as [Hz|Hz]; [by apply Hop|].
  set (att := fun s : St => _).
  assert (Hatt : forall s, P s -> P (fst (att s))).
  { intros s0 Hs0. unfold att. specialize (Hop s0 Hs0). destruct (op s0) as [s1 [e|]]; [|done]. cbn [fst] in Hop.
    destruct (negb (IsTransientError (Some e))); [done|]. destruct ping; [|done]. cbn [fst].
    destruct ((0 <? pingTimeout)%Z && ShouldWarmPool e); [by eapply Hping | done]. }
  destruct (retry_runs St ctx (if (MaxInterval cfg <=? 0)%Z then duration 10 Second else MaxInterval cfg)
              (MaxRetries cfg) att s Hz) as (k & _ & _ & -> & _).
  clear Hz. revert s Hs. generalize (S k). intros n. induction n as [|n IH]; intros s Hs; cbn; auto.
Qed.

(** C17: the operation runs once and then again only after transient errors, at most
    MaxRetries more times (with MaxRetries 0 or less: once).  Between two runs the pool is
    pinged exactly when the connection was bad.  Success is success of the last run; an
    error that is not transient is returned as it is, without a second run; a transient
    one is returned when the retries are used up, unless the context ended. *)
Theorem Do_retries_only_transient_errors (ctx : context) ping cfg pingTimeout (op : St -> St * option goerr) (s : St) :
  exists k, k <= Z.to_nat (MaxRetries cfg) /\
    (forall i, i < k -> IsTransientError (snd (op (before_attempt ping pingTimeout op i s))) = true) /\
    let last := op (before_attempt ping pingTimeout op k s) in
    (fst (Do ctx ping cfg pingTimeout op s) = fst last \/
     fst (Do ctx ping cfg pingTimeout op s) = after_attempt ping pingTimeout last) /\
    match snd last with
    | None => Do ctx ping cfg pingTimeout op s = last
    | Some e =>
        snd (Do ctx ping cfg pingTimeout op s) = Some e /\
          (IsTransientError (Some e) = true -> k = Z.to_nat (MaxRetries cfg)) \/
        IsTransientError (Some e) = true /\
          exists c, is_ctx_error c = true /\ snd (Do ctx ping cfg pingTimeout op s) = Some c
    end.
Proof.
  unfold Do. destruct (Z.leb_spec (MaxRetries cfg) 0) as [Hz|Hz].
  { exists 0. split; [lia|]. split; [lia|]. cbn [before_attempt]. split; [by left|].
    destruct (op s) as [s' [e|]]; [|done]. left. split; [done | lia]. }
  set (att := fun s : St => _).
  assert (Hfst : forall s, fst (att s) = after_attempt ping pingTimeout (op s)).
  { intros s0. unfold att, after_attempt. destruct (op s0) as [s1 [e|]]; [|by destruct ping].
    destruct (IsTransientError (Some e)); destruct ping; done. }
  assert (Hsnd : forall s, match snd (att s) with
    | Success => snd (op s) = None
    | Permanent e => snd (op s) = Some e /\ IsTransientError (Some e) = false
    | Retryable e => snd (op s) = Some e /\ IsTransientError (Some e) = true end).
  { intros s0. unfold att. destruct (op s0) as [s1 [e|]]; [|done].
    destruct (IsTransientError (Some e)) eqn:Ht; destruct ping; done. }
  destruct (retry_runs St ctx (if (MaxInterval cfg <=? 0)%Z then duration 10 Second else MaxInterval cfg)
              (MaxRetries cfg) att s Hz) as (k & Hk & Hbefore & Hst & Hres).
  exists k. split; [done|]. rewrite <- (attempts_before ping pingTimeout op k s att Hfst).
  assert (HS : attempts att (S k) s = after_attempt ping pingTimeout (op (attempts att k s))).
  { rewrite <- Hfst. clear. revert s. induction k as [|k IH]; intros s; [done|]. apply (IH (fst (att s))). }
  split; [|split].
  - intros i Hi. destruct (Hbefore i Hi) as [e He]. specialize (Hsnd (attempts att i s)).
    rewrite He in Hsnd. rewrite <- (attempts_before ping pingTimeout op i s att Hfst).
    by destruct Hsnd as [-> ?].
  - right. by rewrite Hst, HS.
  - specialize (Hsnd (attempts att k s)). destruct (snd (att (attempts att k s))) as [|e|e].
    + rewrite Hsnd. rewrite (surjective_pairing (backoff_Retry _ _ _ _ _ _)), Hst, HS, Hres.
      destruct (op (attempts att k s)) as [s1 r]; simpl in Hsnd; subst. by destruct ping.
    + destruct Hsnd as [-> Ht]. left. split; [done | by rewrite Ht].
    + destruct Hsnd as [-> Ht]. destruct Hres as [[Hn Hr]|Hr]; [left | right]; done.
Qed.
End DoSpec.

(** Two bad connections and then an answer: three runs, two pings. *)
Lemma Do_retries_only_transient_errors_witness :
  exists k, k <= 3 /\
    (forall i, i < k -> IsTransientError (snd ((fun s : nat * nat =>
       ((S (fst s), snd s), if fst s <? 2 then Some (Wrap "query failed" ErrBadConn) else None))
       (before_attempt (Some (fun s => (fst s, S (snd s)))) 1%Z (fun s : nat * nat =>
       ((S (fst s), snd s), if fst s <? 2 then Some (Wrap "query failed" ErrBadConn) else None)) i (0, 0)))) = true).
Proof.
  destruct (@Do_retries_only_transient_errors no_wait no_wait_laws (nat * nat) tt
    (Some (fun s => (fst s, S (snd s)))) DefaultConfig 1%Z (fun s : nat * nat =>
       ((S (fst s), snd s), if fst s <? 2 then Some (Wrap "query failed" ErrBadConn) else None)) (0, 0))
    as (k & Hk & Hb & _).
  exists k. split; [exact Hk | exact Hb].
Defined.

Example Do_ex :
  @Do no_wait _ tt (Some (fun s => (fst s, S (snd s)))) DefaultConfig 1%Z (fun s : nat * nat =>
    ((S (fst s), snd s), if fst s <? 2 then Some (Wrap "query failed" ErrBadConn) else None)) (0, 0) = ((3, 2), None).
Proof. reflexivity. Qed.
