(* ===== verification/Sql.v ===== *)
(** database/sql as the server uses it: pools, connections, result sets and Scan.

    The MySQL server and its driver are the class [SqlServer]: what a statement answers and
    how it changes the server's state.  The package's own code ([Rows.Next], [Rows.Scan],
    [Row.Scan]) is modelled. *)
From Stdlib Require Import SpecFloat.
From S2P Require Import Prelude Unicode GoStrings GoNum GoFmt Identifiers Retry.

(** The verb %v on a float and on a time. *)
Class GoPrint := { sprint_float : float -> gostr; sprint_time : Z -> gostr }.
(** [fmt.Sprintf("%v", util.NormalizeValue(v))] *)
Definition sprint_value `{GoPrint} (v : value) : gostr :=
  match v with
  | VNil => "<nil>"
  | VBytes b | VString b => b
  | VInt64 z => Itoa z
  | VFloat64 f => sprint_float f
  | VBool b => if b then "true" else "false"
  | VTime t => sprint_time t
  end.

(** A result set: its columns, the rows the driver delivers, the error that ends the
    iteration, and the error of closing it. *)
Record rowset := {
  rs_columns : list gostr; rs_rows : list (list value); rs_err : option goerr; rs_close : option goerr
}.

(** A pool is a handle of the connection manager; the handle of a missing connection fails
    every operation with its message (missingConnector). *)
Inductive dbh := Pool (p : nat) | MissingDB (msg : gostr).

Class SqlServer := {
  server : Type;
  conn : Type;
  pool_Conn : nat -> server -> server * result goerr conn;
  pool_Ping : nat -> server -> server * option goerr;
  pool_Query : nat -> gostr -> list value -> server -> server * result goerr rowset;
  pool_Exec : nat -> gostr -> server -> server * option goerr;
  conn_Exec : conn -> gostr -> server -> server * option goerr;
  conn_Query : conn -> gostr -> server -> server * result goerr rowset;
  conn_Close : conn -> server -> server;
  (** how Scan writes a float or a time into a string *)
  format_float : float -> gostr;
  format_time : Z -> gostr
}.

Section Operations.
Context `{SqlServer}.

Definition db_Conn (db : dbh) (s : server) : server * result goerr conn :=
  match db with Pool p => pool_Conn p s | MissingDB msg => (s, Err (OtherError msg)) end.
Definition db_Ping (db : dbh) (s : server) : server * option goerr :=
  match db with Pool p => pool_Ping p s | MissingDB msg => (s, Some (OtherError msg)) end.
Definition db_Query (db : dbh) (query : gostr) (args : list value) (s : server) : server * result goerr rowset :=
  match db with Pool p => pool_Query p query args s | MissingDB msg => (s, Err (OtherError msg)) end.
Definition db_Exec (db : dbh) (query : gostr) (s : server) : server * option goerr :=
  match db with Pool p => pool_Exec p query s | MissingDB msg => (s, Some (OtherError msg)) end.

(** *** Scan *)
Definition scan_string (v : value) : result goerr gostr :=
  match v with
  | VNil => Err (OtherError "converting NULL to string is unsupported")
  | VBytes b => Ok b
  | VString s => Ok s
  | VInt64 z => Ok (Itoa z)
  | VFloat64 f => Ok (format_float f)
  | VBool b => Ok (if b then "true" else "false")
  | VTime t => Ok (format_time t)
  end.

(** [sql.NullString]: [None] is invalid, whose String is empty. *)
Definition scan_null_string (v : value) : result goerr (option gostr) :=
  match v with VNil => Ok None | v => let? s := scan_string v in Ok (Some s) end.
Definition null_str (s : option gostr) : gostr := default [] s.

Definition scan_int64 (v : value) : result goerr Z :=
  match v with
  | VNil => Err (OtherError "converting NULL to int64 is unsupported")
  | VInt64 z => Ok z
  | v =>
      let? s := scan_string v in
      match Atoi s with
      | Some z => Ok z
      | None => Err (OtherError ("converting driver.Value type to a int64: invalid syntax"))
      end
  end.
Definition scan_null_int64 (v : value) : result goerr (option Z) :=
  match v with VNil => Ok None | v => let? z := scan_int64 v in Ok (Some z) end.

Definition scan_float64 (v : value) : result goerr float :=
  match v with
  | VNil => Err (OtherError "converting NULL to float64 is unsupported")
  | VFloat64 f => Ok f
  | VTime _ => Err (OtherError "converting driver.Value type time.Time to a float64: invalid syntax")
  | v =>
      let? s := scan_string v in
      match ParseFloat s with
      | Some f => Ok f
      | None => Err (OtherError "converting driver.Value type to a float64: invalid syntax")
      end
  end.
(** [sql.NullFloat64]: the zero value when NULL. *)
Definition scan_null_float64 (v : value) : result goerr float :=
  match v with VNil => Ok (S754_zero false) | v => scan_float64 v end.

(** A row into [n] [sql.NullString]s. *)
Definition scan_null_strings (n : nat) (row : list value) : result goerr (list (option gostr)) :=
  if length row =? n then
    foldr (fun v acc => let? s := scan_null_string v in let? acc := acc in Ok (s :: acc)) (Ok []) row
  else Err (OtherError "sql: expected a different number of destination arguments in Scan").

(** [rows.Scan(dest...)] with [n] destinations of the empty interface type. *)
Definition scan_any (n : nat) (row : list value) : result goerr (list value) :=
  if length row =? n then Ok row
  else Err (OtherError "sql: expected a different number of destination arguments in Scan").

(** [row.Scan(...)] of QueryRowContext: the first row, read by [scan]. *)
Definition QueryRowScan {A} (scan : list value -> result goerr A) (db : dbh) (query : gostr) (args : list value)
    (s : server) : server * result goerr A :=
  match db_Query db query args s with
  | (s, Err e) => (s, Err e)
  | (s, Ok rs) =>
      (s, match rs_rows rs with
          | [] => Err (match rs_err rs with Some e => e | None => ErrNoRows end)
          | row :: _ =>
              let? a := scan row in
              match rs_close rs with Some e => Err e | None => Ok a end
          end)
  end.
(** With one destination, and with two strings. *)
Definition scan_arity : goerr := OtherError "sql: expected a different number of destination arguments in Scan".
Definition QueryRow {A} (scan : value -> result goerr A) : dbh -> gostr -> list value -> server -> server * result goerr A :=
  QueryRowScan (fun row => match row with [v] => scan v | _ => Err scan_arity end).
Definition scan_two_strings (row : list value) : result goerr (gostr * gostr) :=
  match row with
  | [a; b] => let? a := scan_string a in let? b := scan_string b in Ok (a, b)
  | _ => Err scan_arity
  end.
End Operations.
