(* ===== verification/Client.v ===== *)
(** internal/mysql/client.go: the retry-capable client. *)
From S2P Require Import Prelude Unicode GoStrings GoNum Identifiers Retry Sql.

Record client_config := {
  cc_MaxRows : Z; cc_QueryTimeoutS : Z; cc_PingTimeout : Z; cc_Retry : retry_config
}.

(** [db] is nil for [None]. *)
Record Client := {
  client_db : dbh; client_maxRows : Z; client_queryTimeout : Z; client_pingTimeout : Z;
  client_retryCfg : retry_config
}.

Definition defaultMaxRows : Z := 200.
Definition defaultQueryTimeout : Z := duration 30 Second.

Definition applyConfigDefaults (cfg : client_config) : client_config :=
  {| cc_MaxRows := if (cc_MaxRows cfg <? 0)%Z then 0%Z
                   else if (cc_MaxRows cfg =? 0)%Z then defaultMaxRows else cc_MaxRows cfg;
     cc_QueryTimeoutS := if (cc_QueryTimeoutS cfg <=? 0)%Z then int_of_float (Seconds defaultQueryTimeout)
                         else cc_QueryTimeoutS cfg;
     cc_PingTimeout := cc_PingTimeout cfg;
     cc_Retry := {| MaxRetries := if (MaxRetries (cc_Retry cfg) <=? 0)%Z then 3 else MaxRetries (cc_Retry cfg);
                    MaxInterval := if (MaxInterval (cc_Retry cfg) <=? 0)%Z then duration 10 Second
                                   else MaxInterval (cc_Retry cfg) |} |}.

Definition NewWithDB (db : option dbh) (cfg : client_config) : result gostr Client :=
  match db with
  | None => Err "db is nil"
  | Some db =>
      let pingTimeout := if (cc_PingTimeout cfg <=? 0)%Z then duration 5 Second else cc_PingTimeout cfg in
      let cfg := applyConfigDefaults cfg in
      Ok {| client_db := db; client_maxRows := cc_MaxRows cfg;
            client_queryTimeout := duration (cc_QueryTimeoutS cfg) Second;
            client_pingTimeout := pingTimeout; client_retryCfg := cc_Retry cfg |}
  end.

(** New: the DSN and the pool's settings, the other fields in [co_config]; [open] is
    [sql.Open], and a pool that was closed again is in the second component. *)
Record client_options := {
  co_DSN : gostr; co_MaxOpenConns : Z; co_MaxIdleConns : Z; co_ConnMaxLifetime : Z; co_ConnMaxIdleTime : Z;
  co_config : client_config
}.
Record client_pool := { cp_handle : nat; cp_MaxOpen : Z; cp_MaxIdle : Z; cp_Lifetime : Z; cp_IdleTime : Z }.
Definition positive_or (z default : Z) : Z := if (z <=? 0)%Z then default else z.
Definition pool_settings (o : client_options) (h : nat) : client_pool :=
  {| cp_handle := h; cp_MaxOpen := positive_or (co_MaxOpenConns o) 10; cp_MaxIdle := positive_or (co_MaxIdleConns o) 5;
     cp_Lifetime := positive_or (co_ConnMaxLifetime o) (duration 30 Minute);
     cp_IdleTime := positive_or (co_ConnMaxIdleTime o) (duration 5 Minute) |}.
Inductive new_client_result :=
| OpenError (err : goerr) | PingError (err : goerr) (closed : nat) | NewClient (c : Client) (pool : client_pool).
Definition New `{SqlServer} (open : gostr -> result goerr nat) (o : client_options) (s : server) : server * new_client_result :=
  match open (co_DSN o) with
  | Err e => (s, OpenError e)
  | Ok h =>
      match pool_Ping h s with
      | (s, Some e) => (s, PingError e h)
      | (s, None) =>
          let cfg := applyConfigDefaults (co_config o) in
          (s, NewClient {| client_db := Pool h; client_maxRows := cc_MaxRows cfg;
                           client_queryTimeout := duration (cc_QueryTimeoutS cfg) Second;
                           client_pingTimeout := positive_or (cc_PingTimeout (co_config o)) (duration 5 Second);
                           client_retryCfg := cc_Retry cfg |} (pool_settings o h))
      end
  end.

Inductive client_error :=
| SqlRequired
| DatabaseNameRequired
| DatabaseAndTableRequired
| InvalidDatabaseName (err : ident_error)
| InvalidTableName (err : ident_error)
| NotReadOnly
| DbError (err : goerr).

Definition rejectDML (sqlText : gostr) : option client_error :=
  let upper := ToUpper (TrimSpace sqlText) in
  if HasPrefix upper "SELECT" || HasPrefix upper "SHOW" || HasPrefix upper "DESCRIBE" ||
     HasPrefix upper "DESC" || HasPrefix upper "EXPLAIN" then None
  else Some NotReadOnly.

(** Scan every row with [f]; a scan error ends the loop, else [rows.Err()] is returned. *)
Definition scan_rows {A} (f : list value -> result goerr A) (rs : rowset) : result goerr (list A) :=
  let fix go (rows : list (list value)) :=
    match rows with
    | [] => match rs_err rs with Some e => Err e | None => Ok [] end
    | row :: rows => let? a := f row in let? l := go rows in Ok (a :: l)
    end in
  go (rs_rows rs).

Section Client.
Context `{SqlServer} `{Backoff}.

(** ExecWithRetry: [op] leaves its rows in the variable of the caller, reset at every
    attempt; the last attempt's rows are the answer. *)
Definition ExecWithRetry {A} (c : Client) (ctx : context) (op : server -> server * result goerr A)
    (s : server) : server * result goerr A :=
  let ping := Some (fun st : server * result goerr A => (fst (db_Ping (client_db c) (fst st)), snd st)) in
  let '((s, r), err) :=
    Do ctx ping (client_retryCfg c) (client_pingTimeout c)
      (fun st => let '(s, r) := op (fst st) in
                 ((s, r), match r with Ok _ => None | Err e => Some e end))
      (s, Err (OtherError [])) in
  (s, match err with Some e => Err e | None => r end).

Definition query_rows {A} (c : Client) (query : gostr) (f : list gostr -> list value -> result goerr A)
    (s : server) : server * result goerr (list A) :=
  match db_Query (client_db c) query [] s with
  | (s, Err e) => (s, Err e)
  | (s, Ok rs) => (s, scan_rows (f (rs_columns rs)) rs)
  end.

(** One destination string. *)
Definition scan_name (_ : list gostr) (row : list value) : result goerr gostr :=
  match row with
  | [v] => scan_string v
  | _ => Err (OtherError "sql: expected a different number of destination arguments in Scan")
  end.
(** A Go map from column name to value: a later column of the same name wins. *)
Definition scan_map (cols : list gostr) (row : list value) : result goerr (gmap gostr value) :=
  let? values := scan_any (length cols) row in
  Ok (foldl (fun m (cv : gostr * value) => <[fst cv := snd cv]> m) ∅ (zip cols values)).

Definition db_result {S A} (r : S * result goerr A) : S * result client_error A :=
  (fst r, match snd r with Ok a => Ok a | Err e => Err (DbError e) end).

Definition ListDatabases (c : Client) (ctx : context) (s : server) : server * result client_error (list gostr) :=
  db_result (ExecWithRetry c ctx (query_rows c "SHOW DATABASES" scan_name) s).

Definition ListTables (c : Client) (ctx : context) (database : gostr) (s : server)
    : server * result client_error (list gostr) :=
  if is_empty database then (s, Err DatabaseNameRequired)
  else match QuoteIdent database with
  | Err e => (s, Err (InvalidDatabaseName e))
  | Ok dbName => db_result (ExecWithRetry c ctx (query_rows c ("SHOW TABLES FROM " ++ dbName) scan_name) s)
  end.

Definition DescribeTable (c : Client) (ctx : context) (database table : gostr) (s : server)
    : server * result client_error (list (gmap gostr value)) :=
  if is_empty database || is_empty table then (s, Err DatabaseAndTableRequired)
  else match QuoteIdent database with
  | Err e => (s, Err (InvalidDatabaseName e))
  | Ok dbName =>
      match QuoteIdent table with
      | Err e => (s, Err (InvalidTableName e))
      | Ok tableName =>
          db_result (ExecWithRetry c ctx (query_rows c ("DESCRIBE " ++ dbName ++ "." ++ tableName) scan_map) s)
      end
  end.

(** The row limit in force. *)
Definition effective_rows (c : Client) (maxRows : Z) : Z :=
  if (maxRows <=? 0)%Z || (client_maxRows c <? maxRows)%Z then client_maxRows c else maxRows.

(** RunQuery: reading stops at the limit without an error; rows.Err() is then nil, since
    the loop ended by itself. *)
Definition limited (n : Z) (rs : rowset) : rowset :=
  if (n <? Z.of_nat (length (rs_rows rs)))%Z
  then {| rs_columns := rs_columns rs; rs_rows := take (Z.to_nat n) (rs_rows rs); rs_err := None;
          rs_close := rs_close rs |}
  else rs.

Definition RunQuery (c : Client) (ctx : context) (sqlText : gostr) (maxRows : Z) (s : server)
    : server * result client_error (list (gmap gostr value)) :=
  if is_empty sqlText then (s, Err SqlRequired)
  else match rejectDML sqlText with
  | Some e => (s, Err e)
  | None =>
      db_result (ExecWithRetry c ctx (fun s =>
        match db_Query (client_db c) sqlText [] s with
        | (s, Err e) => (s, Err e)
        | (s, Ok rs) => (s, scan_rows (scan_map (rs_columns rs)) (limited (effective_rows c maxRows) rs))
        end) s)
  end.
End Client.

(** The client refuses the CTE statements its documentation permits. *)
Example rejectDML_with :
  rejectDML "WITH t AS (SELECT 1) SELECT * FROM t" = Some NotReadOnly /\ rejectDML " select 1" = None.
Proof. vm_compute. auto. Qed.
