(* ===== verification/Connection.v ===== *)
(** cmd/mysql-mcp-server/connection.go: the connection manager, the per-session
    connection state of the MCP HTTP transport, and the lookups that go through them.

    Every critical section of the code (the text between a Lock and its Unlock) is one
    function on the state; Sessions.v composes them into interleaved calls.  A pool
    ([*sql.DB]) and an SSH tunnel are handles (numbers): the world records which are open. *)
From S2P Require Import Prelude Unicode GoStrings GoNum Identifiers Config ConfigFile Labels Retry Sql Client.

(** ** The MySQL driver

    [mysql.Config] is the driver's structure: the fields the server reads or writes, and
    the rest of it as an opaque value. *)
Record mysql_config (rest : Type) := {
  User : gostr; Addr : gostr; ReadTimeout : Z; WriteTimeout : Z;
  Params : gmap gostr gostr; AllowAllFiles : bool; MultiStatements : bool;
  ConnectionAttributes : gostr; dsn_rest : rest
}.
Arguments Build_mysql_config {rest}.
Arguments User {rest}. Arguments Addr {rest}. Arguments ReadTimeout {rest}.
Arguments WriteTimeout {rest}. Arguments Params {rest}. Arguments AllowAllFiles {rest}.
Arguments MultiStatements {rest}. Arguments ConnectionAttributes {rest}. Arguments dsn_rest {rest}.

Class MySQLDriver := {
  driver_rest : Type;
  ParseDSN : gostr -> result gostr (mysql_config driver_rest);
  FormatDSN : mysql_config driver_rest -> gostr;
  NewConnector : mysql_config driver_rest -> option gostr
}.

(** ** Errors *)
Inductive conn_error :=
| ErrConnectionAlreadyExists (name : gostr)
| ErrTooManySessionConnections
| DSNInvalid (name err : gostr)
| TunnelDSNInvalid (name err : gostr)
| TunnelFailed (name err : gostr)
| OpenFailed (name err : gostr)
| PingFailed (name err : gostr)
| ConnectionNotFound (name : gostr)
| SessionEnded
| SessionLimit (owned : nat).

Definition sessionConnPrefix : gostr := ReservedConnectionPrefix.
Definition maxSessionConnections : nat := 5.
Definition maxTotalSessionConnections : nat := 20.
Definition sessionConnMaxOpenConns : Z := 2.

Definition isSessionConnKey (name : gostr) : bool := HasPrefix name sessionConnPrefix.
#[global] Arguments isSessionConnKey : simpl never.

(** ** Server type *)
Inductive ServerType := ServerTypeMySQL | ServerTypeMariaDB | ServerTypeUnknown.

(** [both]: VERSION() and @@version_comment; [fallback]: VERSION() alone. *)
Definition detectServerType (both : result gostr (gostr * gostr)) (fallback : result gostr gostr) : ServerType :=
  let classify (version versionComment : gostr) :=
    let version := TrimSpace (ToLower version) in
    let versionComment := TrimSpace (ToLower versionComment) in
    if is_empty version && is_empty versionComment then ServerTypeUnknown
    else if Contains version "mariadb" || Contains versionComment "mariadb" then ServerTypeMariaDB
    else ServerTypeMySQL in
  match both with
  | Ok (version, comment) => classify version comment
  | Err _ => match fallback with Ok version => classify version [] | Err _ => ServerTypeUnknown end
  end.

(** ** The manager's state

    [pool_config] is what the pool's connector was made of, without the opaque rest. *)
Record pool := {
  handle : nat; pool_config : mysql_config unit; MaxOpen : Z; MaxIdle : Z; Lifetime : Z; IdleTime : Z
}.

Record ConnectionManager := {
  connections : gmap gostr pool;
  clients : gmap gostr Client;
  configs : gmap gostr ConnectionConfig;
  serverTypes : gmap gostr ServerType;
  toolPacks : gmap gostr gostr;
  activeConn : gostr;
  tunnelClosers : gmap gostr nat;
  pendingAdds : gset gostr
}.

Definition NewConnectionManager : ConnectionManager :=
  {| connections := ∅; clients := ∅; configs := ∅; serverTypes := ∅; toolPacks := ∅;
     activeConn := []; tunnelClosers := ∅; pendingAdds := ∅ |}.

(** The manager with the pools and tunnels that are open, and the next unused handle. *)
Record world := {
  cm : ConnectionManager; open_pools : gset nat; open_tunnels : gset nat; next_handle : nat
}.

Definition with_cm (m : ConnectionManager) (w : world) : world :=
  {| cm := m; open_pools := open_pools w; open_tunnels := open_tunnels w; next_handle := next_handle w |}.

Definition set_active (name : gostr) (m : ConnectionManager) : ConnectionManager :=
  {| connections := connections m; clients := clients m; configs := configs m;
     serverTypes := serverTypes m; toolPacks := toolPacks m; activeConn := name;
     tunnelClosers := tunnelClosers m; pendingAdds := pendingAdds m |}.

Definition set_pending (pending : gset gostr) (m : ConnectionManager) : ConnectionManager :=
  {| connections := connections m; clients := clients m; configs := configs m;
     serverTypes := serverTypes m; toolPacks := toolPacks m; activeConn := activeConn m;
     tunnelClosers := tunnelClosers m; pendingAdds := pending |}.

Definition close_tunnel (t : option nat) (w : world) : world :=
  match t with
  | Some t => {| cm := cm w; open_pools := open_pools w; open_tunnels := open_tunnels w ∖ {[t]};
                 next_handle := next_handle w |}
  | None => w
  end.
Definition close_pool (p : nat) (w : world) : world :=
  {| cm := cm w; open_pools := open_pools w ∖ {[p]}; open_tunnels := open_tunnels w;
     next_handle := next_handle w |}.

(** tearDownNamedConnection; nothing happens for an unknown name. *)
Definition tearDownNamedConnection (name : gostr) (w : world) : world :=
  match connections (cm w) !! name with
  | None => w
  | Some existing =>
      let m := cm w in
      let w := close_tunnel (tunnelClosers m !! name) (close_pool (handle existing) w) in
      with_cm {| connections := delete name (connections m); clients := delete name (clients m);
                 configs := delete name (configs m); serverTypes := delete name (serverTypes m);
                 toolPacks := delete name (toolPacks m);
                 activeConn := if activeConn m =?s name then [] else activeConn m;
                 tunnelClosers := delete name (tunnelClosers m); pendingAdds := pendingAdds m |} w
  end.

(** ** DSN preparation *)
Section Driver.
Context `{MySQLDriver}.

Definition set_timeouts (r w : Z) (c : mysql_config driver_rest) : mysql_config driver_rest :=
  {| User := User c; Addr := Addr c; ReadTimeout := r; WriteTimeout := w; Params := Params c;
     AllowAllFiles := AllowAllFiles c; MultiStatements := MultiStatements c;
     ConnectionAttributes := ConnectionAttributes c; dsn_rest := dsn_rest c |}.
Definition set_params (p : gmap gostr gostr) (c : mysql_config driver_rest) : mysql_config driver_rest :=
  {| User := User c; Addr := Addr c; ReadTimeout := ReadTimeout c; WriteTimeout := WriteTimeout c;
     Params := p; AllowAllFiles := AllowAllFiles c; MultiStatements := MultiStatements c;
     ConnectionAttributes := ConnectionAttributes c; dsn_rest := dsn_rest c |}.
Definition set_addr (a : gostr) (c : mysql_config driver_rest) : mysql_config driver_rest :=
  {| User := User c; Addr := a; ReadTimeout := ReadTimeout c; WriteTimeout := WriteTimeout c;
     Params := Params c; AllowAllFiles := AllowAllFiles c; MultiStatements := MultiStatements c;
     ConnectionAttributes := ConnectionAttributes c; dsn_rest := dsn_rest c |}.
Definition set_attributes (a : gostr) (c : mysql_config driver_rest) : mysql_config driver_rest :=
  {| User := User c; Addr := Addr c; ReadTimeout := ReadTimeout c; WriteTimeout := WriteTimeout c;
     Params := Params c; AllowAllFiles := AllowAllFiles c; MultiStatements := MultiStatements c;
     ConnectionAttributes := a; dsn_rest := dsn_rest c |}.

Definition applyDefaultIOTimeouts (dsn : gostr) (queryTimeout : Z) : result gostr gostr :=
  let? c := ParseDSN dsn in
  let deadline := if (queryTimeout <=? 0)%Z then duration DefaultQueryTimeoutSecs Second else queryTimeout in
  let margin := duration 2 Second in
  Ok (FormatDSN (set_timeouts
    (if (ReadTimeout c =? 0)%Z then wrap64 (deadline + margin) else ReadTimeout c)
    (if (WriteTimeout c =? 0)%Z then wrap64 (deadline + margin) else WriteTimeout c) c)).

Definition applyStrictReadOnlyDSN (dsn : gostr) (strict : bool) : result gostr gostr :=
  if negb strict then Ok dsn
  else
    let? c := ParseDSN dsn in
    Ok (FormatDSN (set_params (<["transaction_read_only" := "ON"]> (Params c)) c)).

(** The DSN of a connection before tunnelling. *)
Definition prepare_dsn (connCfg : ConnectionConfig) (cfg : Config) : result conn_error gostr :=
  match applyDefaultIOTimeouts (ApplySSLToDSN (DSN connCfg) (SSL connCfg)) (QueryTimeout cfg) with
  | Err e => Err (DSNInvalid (Name connCfg) e)
  | Ok dsn =>
      match applyStrictReadOnlyDSN dsn (StrictReadOnly cfg) with
      | Err e => Err (DSNInvalid (Name connCfg) e)
      | Ok dsn => Ok dsn
      end
  end.

(** openLabeledDB: the attributes added and the connector built, of the configuration that the
    pool then has. *)
Definition openLabeledDB (version dsn : gostr) (cfg : Config) : result gostr (mysql_config driver_rest) :=
  let? c := ParseDSN dsn in
  let c := set_attributes (labelConnectionAttributes version (ConnectionAttributes c)
                             (transportLabel (Some cfg))) c in
  match NewConnector c with
  | Some e => Err e
  | None => Ok c
  end.
Definition without_rest (c : mysql_config driver_rest) : mysql_config unit :=
  {| User := User c; Addr := Addr c; ReadTimeout := ReadTimeout c; WriteTimeout := WriteTimeout c; Params := Params c;
     AllowAllFiles := AllowAllFiles c; MultiStatements := MultiStatements c; ConnectionAttributes := ConnectionAttributes c;
     dsn_rest := tt |}.

(** ** Opening a connection *)

(** What the network answered: the tunnel's local address, the ping, the version queries
    and the tool pack query. *)
Record io_outcome := {
  io_tunnel : result gostr gostr;
  io_ping : option gostr;
  io_version_both : result gostr (gostr * gostr);
  io_version : result gostr gostr;
  io_pack : result gostr gostr
}.

Record opened := { o_pool : pool; o_tunnel : option nat; o_type : ServerType; o_pack : gostr }.

Definition needs_tunnel (connCfg : ConnectionConfig) : bool :=
  match SSH connCfg with
  | Some s => negb (is_empty (SSHHost s)) && negb (is_empty (SSHUser s)) && negb (is_empty (KeyPath s))
  | None => false
  end.

(** The tunnel, when one is configured, and the DSN that goes through it. *)
Definition start_tunnel (connCfg : ConnectionConfig) (dsn : gostr) (io : io_outcome) (w : world)
    : world * result conn_error (gostr * option nat) :=
  if negb (needs_tunnel connCfg) then (w, Ok (dsn, None))
  else match ParseDSN dsn with
  | Err e => (w, Err (TunnelDSNInvalid (Name connCfg) e))
  | Ok c =>
      match io_tunnel io with
      | Err e => (w, Err (TunnelFailed (Name connCfg) e))
      | Ok localAddr =>
          let t := next_handle w in
          ({| cm := cm w; open_pools := open_pools w; open_tunnels := {[t]} ∪ open_tunnels w;
              next_handle := S t |}, Ok (FormatDSN (set_addr localAddr c), Some t))
      end
  end.

Definition or_default (n def : Z) : Z := if (n <=? 0)%Z then def else n.

(** The pool and its settings. *)
Definition pool_of (name : gostr) (c : mysql_config driver_rest) (cfg : Config) (h : nat) : pool :=
  let maxOpen := or_default (MaxOpenConns cfg) DefaultMaxOpenConns in
  let maxIdle := or_default (MaxIdleConns cfg) DefaultMaxIdleConns in
  let session := isSessionConnKey name in
  {| handle := h; pool_config := without_rest c;
     MaxOpen := if session then Z.min maxOpen sessionConnMaxOpenConns else maxOpen;
     MaxIdle := if session then Z.min maxIdle sessionConnMaxOpenConns else maxIdle;
     Lifetime := or_default (ConnMaxLifetime cfg) (duration DefaultConnMaxLifetimeMins Minute);
     IdleTime := or_default (ConnMaxIdleTime cfg) (duration DefaultConnMaxIdleTimeMins Minute) |}.

(** The part of addConnectionWithPoolConfig that runs without the lock: it opens a tunnel
    and a pool, and closes both again on an error. *)
Definition open_conn (version : gostr) (connCfg : ConnectionConfig) (cfg : Config) (io : io_outcome) (w : world)
    : world * result conn_error opened :=
  match prepare_dsn connCfg cfg with
  | Err e => (w, Err e)
  | Ok dsn =>
      match start_tunnel connCfg dsn io w with
      | (w, Err e) => (w, Err e)
      | (w, Ok (dsn, tunnelCloser)) =>
          match openLabeledDB version dsn cfg with
          | Err e => (close_tunnel tunnelCloser w, Err (OpenFailed (Name connCfg) e))
          | Ok c =>
              let h := next_handle w in
              let w := {| cm := cm w; open_pools := {[h]} ∪ open_pools w; open_tunnels := open_tunnels w;
                          next_handle := S h |} in
              match io_ping io with
              | Some e => (close_tunnel tunnelCloser (close_pool h w), Err (PingFailed (Name connCfg) e))
              | None =>
                  (w, Ok {| o_pool := pool_of (Name connCfg) c cfg h; o_tunnel := tunnelCloser;
                            o_type := detectServerType (io_version_both io) (io_version io);
                            o_pack := detectToolPack (ToolPack cfg) (io_pack io) |})
              end
          end
      end
  end.
End Driver.

(** ** Registration *)
Definition registered (name : gostr) (m : ConnectionManager) : bool := bool_decide (is_Some (connections m !! name)).

(** sessionConnCountLocked: the session keys registered or being added, each once. *)
Definition session_keys (m : ConnectionManager) : gset gostr :=
  filter (fun name => isSessionConnKey name = true) (dom (connections m)) ∪
  filter (fun name => isSessionConnKey name = true /\ registered name m = false) (pendingAdds m).
Definition sessionConnCountLocked (m : ConnectionManager) : nat :=
  size (filter (fun name => isSessionConnKey name = true) (dom (connections m))) +
  size (filter (fun name => isSessionConnKey name = true /\ registered name m = false) (pendingAdds m)).

(** The reservation of the add-if-absent path. *)
Definition reserve_add (name : gostr) (m : ConnectionManager) : ConnectionManager * option conn_error :=
  if registered name m then (m, Some (ErrConnectionAlreadyExists name))
  else if bool_decide (name ∈ pendingAdds m) then (m, Some (ErrConnectionAlreadyExists name))
  else if isSessionConnKey name && (maxTotalSessionConnections <=? sessionConnCountLocked m)
  then (m, Some ErrTooManySessionConnections)
  else (set_pending ({[name]} ∪ pendingAdds m) m, None).

(** The deferred release of the reservation. *)
Definition unreserve_add (name : gostr) (m : ConnectionManager) : ConnectionManager :=
  set_pending (pendingAdds m ∖ {[name]}) m.

Definition new_client (cfg : Config) (h : nat) : result gostr Client :=
  NewWithDB (Some (Pool h))
    {| cc_MaxRows := MaxRows cfg; cc_QueryTimeoutS := int_of_float (Seconds (QueryTimeout cfg));
       cc_PingTimeout := 0; cc_Retry := {| MaxRetries := 0; MaxInterval := 0 |} |}.

(** The manager after a registration under a free name. *)
Definition registration (connCfg : ConnectionConfig) (cfg : Config) (o : opened) (m : ConnectionManager)
    : ConnectionManager :=
  let name := Name connCfg in
  {| connections := <[name := o_pool o]> (connections m);
     clients := match new_client cfg (handle (o_pool o)) with
                | Ok c => <[name := c]> (clients m)
                | Err _ => clients m
                end;
     configs := <[name := connCfg]> (configs m);
     serverTypes := <[name := o_type o]> (serverTypes m);
     toolPacks := <[name := o_pack o]> (toolPacks m);
     activeConn := if is_empty (activeConn m) && negb (isSessionConnKey name) then name else activeConn m;
     tunnelClosers := match o_tunnel o with
                      | Some t => <[name := t]> (tunnelClosers m)
                      | None => tunnelClosers m
                      end;
     pendingAdds := pendingAdds m |}.

(** The final section of addConnectionWithPoolConfig, under the lock. *)
Definition register_conn (connCfg : ConnectionConfig) (cfg : Config) (replace : bool) (o : opened) (w : world)
    : world * option conn_error :=
  let name := Name connCfg in
  if registered name (cm w) && negb replace then
    (close_tunnel (o_tunnel o) (close_pool (handle (o_pool o)) w), Some (ErrConnectionAlreadyExists name))
  else
    let w := if registered name (cm w) then tearDownNamedConnection name w else w in
    (with_cm (registration connCfg cfg o (cm w)) w, None).

(** addConnectionWithPoolConfig, run without interference. *)
Definition addConnectionWithPoolConfig `{MySQLDriver} (version : gostr) (connCfg : ConnectionConfig) (cfg : Config)
    (replace : bool) (io : io_outcome) (w : world) : world * option conn_error :=
  let finish (w : world) : world * option conn_error :=
    match open_conn version connCfg cfg io w with
    | (w, Err e) => (w, Some e)
    | (w, Ok o) => register_conn connCfg cfg replace o w
    end in
  if replace then finish (tearDownNamedConnection (Name connCfg) w)
  else match reserve_add (Name connCfg) (cm w) with
  | (_, Some e) => (w, Some e)
  | (m, None) =>
      let '(w, err) := finish (with_cm m w) in
      (with_cm (unreserve_add (Name connCfg) (cm w)) w, err)
  end.

Definition AddConnectionWithPoolConfig `{MySQLDriver} version connCfg cfg io w :=
  addConnectionWithPoolConfig version connCfg cfg true io w.
Definition AddConnectionIfAbsentWithPoolConfig `{MySQLDriver} version connCfg cfg io w :=
  addConnectionWithPoolConfig version connCfg cfg false io w.

(** ** The other operations of the manager *)
Definition GetActive (m : ConnectionManager) : option pool * gostr := (connections m !! activeConn m, activeConn m).
Definition GetActiveDB (m : ConnectionManager) : option pool := connections m !! activeConn m.

Definition SetActive (name : gostr) (m : ConnectionManager) : ConnectionManager * option conn_error :=
  if negb (registered name m) then (m, Some (ConnectionNotFound name)) else (set_active name m, None).

Definition RemoveConnection (name : gostr) (w : world) : world * option conn_error :=
  if negb (registered name (cm w)) then (w, Some (ConnectionNotFound name))
  else (tearDownNamedConnection name w, None).

(** List, in the order of [map_to_list] (Go's order is unspecified). *)
Definition List (m : ConnectionManager) : list ConnectionConfig :=
  map (fun nc => let c := snd nc in
         {| Name := Name c; DSN := MaskDSN (DSN c); Description := Description c;
            ReadOnly := ReadOnly c; SSL := SSL c; SSH := SSH c |}) (map_to_list (configs m)).

(** GetActiveClient; [None] is the panic. *)
Definition GetActiveClient (maxRows queryTimeout : Z) (m : ConnectionManager)
    : option (ConnectionManager * Client) :=
  match clients m !! activeConn m with
  | Some c => Some (m, c)
  | None =>
      match connections m !! activeConn m with
      | Some db =>
          match NewWithDB (Some (Pool (handle db)))
                  {| cc_MaxRows := maxRows; cc_QueryTimeoutS := int_of_float (Seconds queryTimeout);
                     cc_PingTimeout := 0; cc_Retry := {| MaxRetries := 0; MaxInterval := 0 |} |} with
          | Err _ => None
          | Ok c =>
              Some ({| connections := connections m; clients := <[activeConn m := c]> (clients m);
                       configs := configs m; serverTypes := serverTypes m; toolPacks := toolPacks m;
                       activeConn := activeConn m; tunnelClosers := tunnelClosers m;
                       pendingAdds := pendingAdds m |}, c)
          end
      | None => None
      end
  end.

(** Close: the pools and tunnels are closed; the connections stay in the map. *)
Definition Close (w : world) : world :=
  let m := cm w in
  {| cm := {| connections := connections m; clients := clients m; configs := configs m;
              serverTypes := serverTypes m; toolPacks := toolPacks m; activeConn := activeConn m;
              tunnelClosers := ∅; pendingAdds := ∅ |};
     open_pools := open_pools w ∖ list_to_set (map (fun np => handle (snd np)) (map_to_list (connections m)));
     open_tunnels := open_tunnels w ∖ list_to_set (map snd (map_to_list (tunnelClosers m)));
     next_handle := next_handle w |}.

(** ** Sessions of the MCP HTTP transport *)
Record sessionConn := { id : gostr; sname : gostr; owned : gmap gostr gostr; closed : bool }.

(** [random] is the text of the eight random bytes. *)
Definition newSessionConn (random : gostr) : sessionConn :=
  {| id := random; sname := []; owned := ∅; closed := false |}.

Definition sc_set (key : gostr) (sc : sessionConn) : sessionConn :=
  {| id := id sc; sname := key; owned := owned sc; closed := closed sc |}.

Definition resolve (sc : sessionConn) (name : gostr) : gostr := default name (owned sc !! name).

(** Keys are injective in names, so at most one name has the key. *)
Definition displayName (sc : sessionConn) (key : gostr) : gostr :=
  match filter (fun nk => snd nk = key) (map_to_list (owned sc)) with
  | (name, _) :: _ => name
  | [] => key
  end.

Definition session_key (sc : sessionConn) (name : gostr) : gostr := sessionConnPrefix ++ id sc ++ "/" ++ name.
#[global] Arguments session_key : simpl never.

Definition reserve (name : gostr) (sc : sessionConn) : sessionConn * result conn_error gostr :=
  if closed sc then (sc, Err SessionEnded)
  else if bool_decide (is_Some (owned sc !! name)) then (sc, Err (ErrConnectionAlreadyExists name))
  else if maxSessionConnections <=? size (owned sc) then (sc, Err (SessionLimit (size (owned sc))))
  else
    let key := session_key sc name in
    ({| id := id sc; sname := sname sc; owned := <[name := key]> (owned sc); closed := false |}, Ok key).

Definition release (name : gostr) (sc : sessionConn) : sessionConn :=
  {| id := id sc; sname := sname sc; owned := delete name (owned sc); closed := closed sc |}.

(** [close] returns the keys in an unspecified order: here, that of [map_to_list]. *)
Definition close_session (sc : sessionConn) : sessionConn * list gostr :=
  ({| id := id sc; sname := sname sc; owned := ∅; closed := true |}, map snd (map_to_list (owned sc))).

(** ** Lookups for a call

    The context of a call carries the session, if any, and the call's pin, if any. *)
Record callctx := { ctx_session : option sessionConn; ctx_pin : option gostr }.

Definition activeNameLocked (m : ConnectionManager) (ctx : callctx) : gostr :=
  match ctx_pin ctx with
  | Some name => name
  | None =>
      match ctx_session ctx with
      | Some sc => if negb (is_empty (sname sc)) then sname sc else activeConn m
      | None => activeConn m
      end
  end.

Definition ActiveFor (m : ConnectionManager) (ctx : callctx) : option pool * gostr :=
  let name := activeNameLocked m ctx in (connections m !! name, name).

Definition Has (m : ConnectionManager) (name : gostr) : bool := registered name m.

(** SetActiveFor changes the manager or the session, and the call's pin. *)
Definition SetActiveFor (m : ConnectionManager) (ctx : callctx) (name : gostr)
    : ConnectionManager * callctx * option conn_error :=
  match ctx_session ctx with
  | None =>
      match SetActive name m with
      | (m, Some e) => (m, ctx, Some e)
      | (m, None) =>
          (m, {| ctx_session := None; ctx_pin := match ctx_pin ctx with Some _ => Some name | None => None end |}, None)
      end
  | Some sc =>
      let key := resolve sc name in
      if (isSessionConnKey name && (key =?s name)) || negb (Has m key) then (m, ctx, Some (ConnectionNotFound name))
      else (m, {| ctx_session := Some (sc_set key sc);
                  ctx_pin := match ctx_pin ctx with Some _ => Some key | None => None end |}, None)
  end.

Definition visibleConnectionCount (m : ConnectionManager) (sc : sessionConn) : nat :=
  size (filter (fun name => isSessionConnKey name = false) (dom (connections m))) +
  length (filter (fun nk => Has m (snd nk) = true) (map_to_list (owned sc))).

Definition PinFor (m : ConnectionManager) (ctx : callctx) : callctx * gostr :=
  let name := snd (ActiveFor m ctx) in ({| ctx_session := ctx_session ctx; ctx_pin := Some name |}, name).

Definition ServerTypeFor (m : ConnectionManager) (ctx : callctx) : ServerType :=
  default ServerTypeUnknown (serverTypes m !! activeNameLocked m ctx).

Definition missing_message (name : gostr) : gostr :=
  if is_empty name then "no active MySQL connection"
  else "connection '" ++ name ++ "' no longer exists; call use_connection to pick another".

Definition getDB (m : ConnectionManager) (ctx : callctx) : dbh :=
  match ActiveFor m ctx with
  | (Some db, _) => Pool (handle db)
  | (None, name) => MissingDB (missing_message name)
  end.

Definition ToolPackFor (m : ConnectionManager) (ctx : callctx) : gostr :=
  default [] (toolPacks m !! activeNameLocked m ctx).
Definition ToolPackOf (m : ConnectionManager) (name : gostr) : gostr := default [] (toolPacks m !! name).
Definition usesToolPack (m : ConnectionManager) (ctx : callctx) : bool := negb (is_empty (ToolPackFor m ctx)).
Definition dropToolPack (m : ConnectionManager) (ctx : callctx) : ConnectionManager :=
  {| connections := connections m; clients := clients m; configs := configs m; serverTypes := serverTypes m;
     toolPacks := delete (activeNameLocked m ctx) (toolPacks m); activeConn := activeConn m;
     tunnelClosers := tunnelClosers m; pendingAdds := pendingAdds m |}.

(** ** Resources and their owners

    A resource (a pool, a tunnel) is open exactly when something owns it, and nothing is
    owned twice.  [O] names the owners: a registration, or a call in flight. *)
Section Balanced.
Context {O : Type} `{EqDecision O}.

Record balanced (holds : O -> option nat) (opened : gset nat) (next : nat) : Prop := {
  open_owned : forall h, h ∈ opened <-> exists o, holds o = Some h;
  owned_once : forall o o' h, holds o = Some h -> holds o' = Some h -> o = o';
  open_old : forall h, h ∈ opened -> h < next
}.

(** The owners of [holds'] are those of [holds], without [o]. *)
Lemma balanced_close (holds holds' : O -> option nat) (opened : gset nat) (next h : nat) (o : O) :
  balanced holds opened next -> holds o = Some h -> holds' o = None ->
  (forall o', o' <> o -> holds' o' = holds o') -> balanced holds' (opened ∖ {[h]}) next.
Proof.
  intros [Hopen Honce Hold] Ho Ho' Hrest.
  assert (Hback : forall o1 h1, holds' o1 = Some h1 -> holds o1 = Some h1 /\ o1 <> o).
  { intros o1 h1 H1. assert (Hne : o1 <> o) by (intros ->; congruence).
    split; [by rewrite <- Hrest | done]. }
  split.
  - intros h1. rewrite elem_of_difference, elem_of_singleton, Hopen. split.
    + intros [[o1 H1] Hne]. exists o1. rewrite Hrest; [done|]. intros ->. congruence.
    + intros [o1 H1]. apply Hback in H1 as [H1 Hne]. split; [by exists o1|].
      intros ->. apply Hne. by apply (Honce o1 o h).
  - intros o1 o2 h1 H1 H2. apply Hback in H1 as [H1 _]. apply Hback in H2 as [H2 _]. by apply (Honce o1 o2 h1).
  - intros h1. rewrite elem_of_difference. intros [H1 _]. by apply Hold.
Qed.

Lemma balanced_new (holds holds' : O -> option nat) (opened : gset nat) (next : nat) (o : O) :
  balanced holds opened next -> holds o = None -> holds' o = Some next ->
  (forall o', o' <> o -> holds' o' = holds o') -> balanced holds' ({[next]} ∪ opened) (S next).
Proof.
  intros [Hopen Honce Hold] Ho Ho' Hrest.
  assert (Hlt : forall o1 h1, holds o1 = Some h1 -> h1 < next) by (intros o1 h1 H1; apply Hold, Hopen; by exists o1).
  assert (Hback : forall o1 h1, holds' o1 = Some h1 -> o1 = o /\ h1 = next \/ o1 <> o /\ holds o1 = Some h1).
  { intros o1 h1 H1. destruct (holds o1) as [h2|] eqn:H2.
    - right. assert (Hne : o1 <> o) by (intros ->; congruence). rewrite Hrest in H1 by done. split; congruence.
    - left. destruct (decide (o1 = o)) as [->|Hne]; [split; congruence|].
      rewrite Hrest in H1 by done. congruence. }
  split.
  - intros h1. rewrite elem_of_union, elem_of_singleton, Hopen. split.
    + intros [->|[o1 H1]]; [by exists o|]. exists o1. rewrite Hrest; [done|]. intros ->. congruence.
    + intros [o1 H1]. apply Hback in H1 as [[-> ->]|[_ H1]]; [by left|]. right. by exists o1.
  - intros o1 o2 h1 H1 H2. apply Hback in H1 as [[-> ->]|[? H1]], H2 as [[-> H2]|[? H2]]; try done.
    + apply Hlt in H2. lia.
    + apply Hlt in H1. lia.
    + by apply (Honce o1 o2 h1).
  - intros h1. rewrite elem_of_union, elem_of_singleton. intros [->|H1]; [lia|]. apply Hold in H1. lia.
Qed.

(** The resource of [o] moves to [o']. *)
Lemma balanced_move (holds holds' : O -> option nat) (opened : gset nat) (next : nat) (o o' : O) :
  balanced holds opened next -> o <> o' -> holds o' = None -> holds' o = None -> holds' o' = holds o ->
  (forall o1, o1 <> o -> o1 <> o' -> holds' o1 = holds o1) -> balanced holds' opened next.
Proof.
  intros [Hopen Honce Hold] Hne Ho' Hnew Hmoved Hrest.
  assert (Hback : forall o1 h1, holds' o1 = Some h1 ->
    o1 = o' /\ holds o = Some h1 \/ o1 <> o' /\ o1 <> o /\ holds o1 = Some h1).
  { intros o1 h1 H1. destruct (decide (o1 = o')) as [->|H2]; [left; split; congruence|].
    right. assert (o1 <> o) by (intros ->; congruence). rewrite <- Hrest by done. done. }
  split; [|..|done].
  - intros h1. rewrite Hopen. split.
    + intros [o1 H1]. destruct (decide (o1 = o)) as [->|H2]; [exists o'; congruence|].
      exists o1. rewrite Hrest; [done | done |]. intros ->. congruence.
    + intros [o1 H1]. apply Hback in H1 as [[-> H1]|(_ & _ & H1)]; eauto.
  - intros o1 o2 h1 H1 H2. apply Hback in H1 as [[-> H1]|(? & ? & H1)], H2 as [[-> H2]|(? & ? & H2)]; try done.
    + by destruct (Honce o o2 h1 H1 H2).
    + by destruct (Honce o1 o h1 H1 H2).
    + by apply (Honce o1 o2 h1).
Qed.

Lemma balanced_older (holds : O -> option nat) (opened : gset nat) (next next' : nat) :
  balanced holds opened next -> next <= next' -> balanced holds opened next'.
Proof. intros [Hopen Honce Hold] Hle. split; [done..|]. intros h Hh. apply Hold in Hh. lia. Qed.

Lemma balanced_ext (holds holds' : O -> option nat) (opened : gset nat) (next : nat) :
  balanced holds opened next -> (forall o, holds' o = holds o) -> balanced holds' opened next.
Proof.
  intros [Hopen Honce Hold] Heq. split; [|..|done].
  - intros h. rewrite Hopen. by setoid_rewrite Heq.
  - intros o o' h. rewrite !Heq. apply Honce.
Qed.
End Balanced.

(** The owners of pools and tunnels: a registration under a name, or a call that has opened
    a connection and not registered it yet. *)
Inductive owner := Registered (name : gostr) | InFlight (call : nat).
#[export] Instance owner_eq_dec : EqDecision owner.
Proof. solve_decision. Defined.

Definition holds_pool (m : ConnectionManager) (fly : gmap nat opened) (o : owner) : option nat :=
  match o with
  | Registered name => handle <$> connections m !! name
  | InFlight c => (fun o => handle (o_pool o)) <$> fly !! c
  end.
Definition holds_tunnel (m : ConnectionManager) (fly : gmap nat opened) (o : owner) : option nat :=
  match o with
  | Registered name => tunnelClosers m !! name
  | InFlight c => match fly !! c with Some o => o_tunnel o | None => None end
  end.

(** No pool or tunnel leaks, none is shared, and none is used after it was closed. *)
Record resources_ok (fly : gmap nat opened) (w : world) : Prop := {
  pools_balanced : balanced (holds_pool (cm w) fly) (open_pools w) (next_handle w);
  tunnels_balanced : balanced (holds_tunnel (cm w) fly) (open_tunnels w) (next_handle w);
  tunnels_registered : forall name, is_Some (tunnelClosers (cm w) !! name) -> is_Some (connections (cm w) !! name)
}.

Lemma resources_cm (fly : gmap nat opened) (w : world) (m : ConnectionManager) :
  connections m = connections (cm w) -> tunnelClosers m = tunnelClosers (cm w) ->
  resources_ok fly w -> resources_ok fly (with_cm m w).
Proof.
  intros Hc Ht [Hp Htun Hreg]. split; cbn [cm with_cm open_pools open_tunnels next_handle].
  - eapply balanced_ext; [exact Hp|]. intros []; cbn; by rewrite ?Hc.
  - eapply balanced_ext; [exact Htun|]. intros []; cbn; by rewrite ?Ht.
  - by rewrite Hc, Ht.
Qed.

Lemma tearDown_resources (fly : gmap nat opened) (name : gostr) (w : world) :
  resources_ok fly w -> resources_ok fly (tearDownNamedConnection name w).
Proof.
  intros [Hp Ht Hreg]. unfold tearDownNamedConnection.
  destruct (connections (cm w) !! name) as [p|] eqn:Hname; [|done].
  assert (Hpools : balanced (fun o => if decide (o = Registered name) then None else holds_pool (cm w) fly o)
            (open_pools w ∖ {[handle p]}) (next_handle w)).
  { eapply balanced_close with (o := Registered name); [exact Hp | cbn; by rewrite Hname | by rewrite decide_True |].
    intros o' Hne. by rewrite decide_False. }
  assert (Htunnels : balanced (fun o => if decide (o = Registered name) then None else holds_tunnel (cm w) fly o)
            (open_tunnels (close_tunnel (tunnelClosers (cm w) !! name) w)) (next_handle w)).
  { destruct (tunnelClosers (cm w) !! name) as [t|] eqn:Htun; cbn.
    - eapply balanced_close with (o := Registered name); [exact Ht | cbn; by rewrite Htun | by rewrite decide_True |].
      intros o' Hne. by rewrite decide_False.
    - eapply balanced_ext; [exact Ht|]. intros o. destruct (decide (o = Registered name)) as [->|]; [|done].
      cbn. by rewrite Htun. }
  split.
  - eapply balanced_ext; [destruct (tunnelClosers (cm w) !! name); exact Hpools|].
    intros [n|c]; cbn; [|by rewrite decide_False].
    destruct (decide (n = name)) as [->|Hne]; [by rewrite decide_True, lookup_delete_eq|].
    rewrite decide_False by congruence. by rewrite lookup_delete_ne by done.
  - eapply balanced_ext; [destruct (tunnelClosers (cm w) !! name); exact Htunnels|].
    intros [n|c]; cbn; [|by rewrite decide_False].
    destruct (decide (n = name)) as [->|Hne]; [by rewrite decide_True, lookup_delete_eq|].
    rewrite decide_False by congruence. by rewrite lookup_delete_ne by done.
  - intros n. cbn. destruct (decide (n = name)) as [->|Hne]; [rewrite lookup_delete_eq; by intros []|].
    rewrite !lookup_delete_ne by done. apply Hreg.
Qed.

Lemma tearDown_connections (name : gostr) (w : world) :
  connections (cm (tearDownNamedConnection name w)) = delete name (connections (cm w)).
Proof.
  unfold tearDownNamedConnection. destruct (connections (cm w) !! name) eqn:Hname; [done|].
  by rewrite delete_id.
Qed.

Lemma tearDown_pending (name : gostr) (w : world) :
  pendingAdds (cm (tearDownNamedConnection name w)) = pendingAdds (cm w).
Proof. unfold tearDownNamedConnection. by destruct (connections (cm w) !! name). Qed.

Lemma tearDown_active (name : gostr) (w : world) :
  activeConn (cm (tearDownNamedConnection name w)) = activeConn (cm w) \/
  activeConn (cm (tearDownNamedConnection name w)) = [].
Proof.
  unfold tearDownNamedConnection. destruct (connections (cm w) !! name); [|by left]. cbn.
  destruct (activeConn (cm w) =?s name); auto.
Qed.

Lemma registered_spec (name : gostr) (m : ConnectionManager) :
  registered name m = true <-> is_Some (connections m !! name).
Proof. unfold registered. by rewrite bool_decide_eq_true. Qed.

Lemma registered_false (name : gostr) (m : ConnectionManager) :
  registered name m = false <-> connections m !! name = None.
Proof. unfold registered. by rewrite bool_decide_eq_false, <- eq_None_not_Some. Qed.

(** A fresh handle is not open. *)
Lemma fresh_closed (fly : gmap nat opened) (w : world) (h : nat) :
  resources_ok fly w -> next_handle w <= h -> (h ∉ open_pools w) /\ (h ∉ open_tunnels w).
Proof.
  intros [[_ _ Hp] [_ _ Ht] _] Hle. split; intros Hin; [apply Hp in Hin | apply Ht in Hin]; lia.
Qed.

Section Open.
Context `{MySQLDriver}.

(** The shape of what [start_tunnel] leaves behind. *)
Lemma start_tunnel_cases connCfg dsn io w w' r :
  start_tunnel connCfg dsn io w = (w', r) ->
  w' = w /\ (forall d t, r = Ok (d, t) -> t = None) \/
  exists d, r = Ok (d, Some (next_handle w)) /\
    w' = {| cm := cm w; open_pools := open_pools w; open_tunnels := {[next_handle w]} ∪ open_tunnels w;
            next_handle := S (next_handle w) |}.
Proof.
  unfold start_tunnel. destruct (negb (needs_tunnel connCfg)).
  { intros [= <- <-]. left. split; [done|]. by intros d t [= <- <-]. }
  destruct (ParseDSN dsn); [|intros [= <- <-]; left; by split].
  destruct (io_tunnel io); intros [= <- <-]; [right; by eexists | left; by split].
Qed.

Lemma undo_union `{Countable A} (h : A) (X : gset A) : h ∉ X -> ({[h]} ∪ X) ∖ {[h]} = X.
Proof.
  intros Hh. apply set_eq. intros x. rewrite elem_of_difference, elem_of_union, elem_of_singleton.
  split; [tauto|]. intros Hx. split; [by right | by intros ->].
Qed.

Lemma older_resources (fly : gmap nat opened) (w w' : world) :
  resources_ok fly w -> cm w' = cm w -> open_pools w' = open_pools w -> open_tunnels w' = open_tunnels w ->
  next_handle w <= next_handle w' -> resources_ok fly w'.
Proof.
  intros [Hp Ht Hreg] Hcm Hp' Ht' Hle.
  split; rewrite ?Hcm, ?Hp', ?Ht'; [eapply balanced_older; eassumption.. | done].
Qed.

Lemma open_conn_cm version connCfg cfg io w w' r :
  open_conn version connCfg cfg io w = (w', r) -> cm w' = cm w.
Proof.
  unfold open_conn. destruct (prepare_dsn connCfg cfg) as [dsn|]; [|by intros [= <- <-]].
  destruct (start_tunnel connCfg dsn io w) as [w1 r1] eqn:Htun.
  assert (Hcm : cm w1 = cm w).
  { by destruct (start_tunnel_cases _ _ _ _ _ _ Htun) as [[-> _]|(d & _ & ->)]. }
  destruct r1 as [[dsn' t]|e]; [|by intros [= <- <-]].
  destruct (openLabeledDB version dsn' cfg); [destruct (io_ping io)|]; intros [= <- <-];
    destruct t; cbn; done.
Qed.

(** The resources of a connection opened by call [c]. *)
Lemma opened_resources (fly : gmap nat opened) (w w' : world) (c : nat) (o : opened) :
  resources_ok fly w -> fly !! c = None -> cm w' = cm w -> next_handle w <= handle (o_pool o) ->
  open_pools w' = {[handle (o_pool o)]} ∪ open_pools w -> next_handle w' = S (handle (o_pool o)) ->
  o_tunnel o = None /\ open_tunnels w' = open_tunnels w \/
  o_tunnel o = Some (next_handle w) /\ open_tunnels w' = {[next_handle w]} ∪ open_tunnels w /\
    next_handle w < handle (o_pool o) ->
  resources_ok (<[c := o]> fly) w'.
Proof.
  intros [Hp Ht Hreg] Hc Hcm Hle Hp' Hnext Htun.
  split; rewrite ?Hcm, ?Hp', ?Hnext; [| |done].
  - eapply balanced_new with (o := InFlight c);
      [eapply balanced_older; [exact Hp | lia] | cbn; by rewrite Hc | cbn; by rewrite lookup_insert_eq |].
    intros [n|c'] Hn; [done|]. cbn. by rewrite lookup_insert_ne by congruence.
  - destruct Htun as [[Hnone ->]|(Hsome & -> & Hlt)].
    + eapply balanced_ext; [eapply balanced_older; [exact Ht | lia]|].
      intros [n|c']; [done|]. cbn. destruct (decide (c = c')) as [<-|Hn]; [by rewrite lookup_insert_eq, Hc|].
      by rewrite lookup_insert_ne by done.
    + eapply balanced_older with (next := S (next_handle w)); [|lia].
      eapply balanced_new with (o := InFlight c); [exact Ht | cbn; by rewrite Hc | cbn; by rewrite lookup_insert_eq |].
      intros [n|c'] Hn; [done|]. cbn. by rewrite lookup_insert_ne by congruence.
Qed.

(** Opening leaves the manager alone; on an error it leaves the resources as they were. *)
Lemma open_conn_spec version connCfg cfg io w fly c w' r :
  resources_ok fly w -> fly !! c = None -> open_conn version connCfg cfg io w = (w', r) ->
  cm w' = cm w /\
  match r with
  | Ok o => resources_ok (<[c := o]> fly) w'
  | Err _ => resources_ok fly w' /\ open_pools w' = open_pools w /\ open_tunnels w' = open_tunnels w
  end.
Proof.
  intros Hok Hc. unfold open_conn.
  destruct (prepare_dsn connCfg cfg) as [dsn|]; [|by intros [= <- <-]].
  destruct (fresh_closed fly w (next_handle w) Hok (Nat.le_refl _)) as [Hfp Hft].
  destruct (fresh_closed fly w (S (next_handle w)) Hok (Nat.le_succ_diag_r _)) as [HfpS _].
  destruct (start_tunnel connCfg dsn io w) as [w1 r1] eqn:Htun.
  destruct (start_tunnel_cases _ _ _ _ _ _ Htun) as [[-> Hr]|(d & -> & ->)]; clear Htun.
  - destruct r1 as [[dsn' t]|e]; [|by intros [= <- <-]]. pose proof (Hr dsn' t eq_refl) as ->.
    destruct (openLabeledDB version dsn' cfg); [destruct (io_ping io)|]; intros [= <- <-]; (split; [done|]).
    + cbn. rewrite undo_union by done. split; [|done]. eapply older_resources; cbn; eauto using undo_union.
    + eapply opened_resources; eauto; cbn; lia.
    + done.
  - destruct (openLabeledDB version d cfg); [destruct (io_ping io)|]; intros [= <- <-]; (split; [done|]).
    + cbn. rewrite !undo_union by done. split; [|done]. eapply older_resources; cbn; eauto using undo_union.
    + eapply opened_resources; eauto; cbn; lia.
    + cbn. rewrite undo_union by done. split; [|done]. eapply older_resources; cbn; eauto using undo_union.
Qed.
End Open.

(** ** Registration *)
Lemma closing_keeps (t : option nat) (p : nat) (w : world) :
  cm (close_tunnel t (close_pool p w)) = cm w /\
  next_handle (close_tunnel t (close_pool p w)) = next_handle w /\
  open_pools (close_tunnel t (close_pool p w)) = open_pools w ∖ {[p]} /\
  open_tunnels (close_tunnel t (close_pool p w)) =
    match t with Some t => open_tunnels w ∖ {[t]} | None => open_tunnels w end.
Proof. by destruct t. Qed.

(** A call that gives up closes what it opened. *)
Lemma give_up_resources (fly : gmap nat opened) (c : nat) (o : opened) (w : world) :
  resources_ok fly w -> fly !! c = Some o ->
  resources_ok (delete c fly) (close_tunnel (o_tunnel o) (close_pool (handle (o_pool o)) w)).
Proof.
  intros [Hp Ht Hreg] Hc. destruct (closing_keeps (o_tunnel o) (handle (o_pool o)) w) as (Hcm & Hn & Hp' & Ht').
  assert (Hother : forall o', o' <> InFlight c ->
    holds_pool (cm w) (delete c fly) o' = holds_pool (cm w) fly o' /\
    holds_tunnel (cm w) (delete c fly) o' = holds_tunnel (cm w) fly o').
  { intros [n|c'] Hne; [done|]. cbn. by rewrite lookup_delete_ne by congruence. }
  split; rewrite ?Hcm, ?Hn, ?Hp', ?Ht'; [| |done].
  - eapply balanced_close with (o := InFlight c); [exact Hp | cbn; by rewrite Hc | cbn; by rewrite lookup_delete_eq |].
    intros o' Hne. apply Hother, Hne.
  - destruct (o_tunnel o) as [t|] eqn:Hto.
    + eapply balanced_close with (o := InFlight c); [exact Ht | cbn; by rewrite Hc | cbn; by rewrite lookup_delete_eq |].
      intros o' Hne. apply Hother, Hne.
    + eapply balanced_ext; [exact Ht|]. intros o'. destruct (decide (o' = InFlight c)) as [->|Hne]; [|apply Hother, Hne].
      cbn. by rewrite lookup_delete_eq, Hc.
Qed.

Lemma publish_resources (fly : gmap nat opened) (c : nat) (o : opened) connCfg cfg (w : world) :
  resources_ok fly w -> fly !! c = Some o -> connections (cm w) !! Name connCfg = None ->
  resources_ok (delete c fly) (with_cm (registration connCfg cfg o (cm w)) w).
Proof.
  intros [Hp Ht Hreg] Hc Hfree. set (name := Name connCfg) in *.
  assert (HfreeT : tunnelClosers (cm w) !! name = None).
  { destruct (tunnelClosers (cm w) !! name) eqn:E; [|done].
    destruct (Hreg name) as [? Hs]; [by rewrite E | by rewrite Hs in Hfree]. }
  split; cbn [cm with_cm open_pools open_tunnels next_handle].
  - eapply balanced_move with (o := InFlight c) (o' := Registered name); [exact Hp | done | | | |]; cbn.
    + by rewrite Hfree.
    + by rewrite lookup_delete_eq.
    + fold name. by rewrite lookup_insert_eq, Hc.
    + intros [n|c'] H1 H2; cbn; fold name; [by rewrite lookup_insert_ne by congruence|].
      by rewrite lookup_delete_ne by congruence.
  - destruct (o_tunnel o) as [t|] eqn:Hto.
    + eapply balanced_move with (o := InFlight c) (o' := Registered name); [exact Ht | done | | | |]; cbn;
        rewrite ?Hto; fold name.
      * done.
      * by rewrite lookup_delete_eq.
      * by rewrite lookup_insert_eq, Hc, Hto.
      * intros [n|c'] H1 H2; cbn; rewrite ?Hto; fold name; [by rewrite lookup_insert_ne by congruence|].
        by rewrite lookup_delete_ne by congruence.
    + eapply balanced_ext; [exact Ht|]. intros [n|c']; cbn; rewrite ?Hto; [done|].
      destruct (decide (c = c')) as [<-|Hne]; [by rewrite lookup_delete_eq, Hc, Hto|].
      by rewrite lookup_delete_ne by done.
  - intros n. cbn. fold name. destruct (decide (n = name)) as [->|Hne]; [by rewrite lookup_insert_eq|].
    rewrite (lookup_insert_ne (connections _)) by done. intros Hn. apply Hreg.
    destruct (o_tunnel o); [by rewrite lookup_insert_ne in Hn by done | done].
Qed.

(** [register_conn] on each branch. *)
Lemma register_conn_cases connCfg cfg replace o w :
  register_conn connCfg cfg replace o w =
    if registered (Name connCfg) (cm w) && negb replace then
      (close_tunnel (o_tunnel o) (close_pool (handle (o_pool o)) w), Some (ErrConnectionAlreadyExists (Name connCfg)))
    else
      let w := tearDownNamedConnection (Name connCfg) w in
      (with_cm (registration connCfg cfg o (cm w)) w, None).
Proof.
  unfold register_conn. destruct (registered (Name connCfg) (cm w)) eqn:Hr; destruct replace; cbn [andb negb]; try done.
  all: assert (tearDownNamedConnection (Name connCfg) w = w) as ->; [|done].
  all: unfold tearDownNamedConnection; apply registered_false in Hr; by rewrite Hr.
Qed.

Lemma register_resources (fly : gmap nat opened) (c : nat) (o : opened) connCfg cfg replace (w : world) :
  resources_ok fly w -> fly !! c = Some o ->
  resources_ok (delete c fly) (fst (register_conn connCfg cfg replace o w)).
Proof.
  intros Hok Hc. rewrite register_conn_cases. destruct (registered (Name connCfg) (cm w) && negb replace).
  - by apply give_up_resources.
  - cbn [fst]. apply publish_resources; [by apply tearDown_resources | done |].
    rewrite tearDown_connections. by rewrite lookup_delete_eq.
Qed.

Lemma set_pending_id (m : ConnectionManager) : set_pending (pendingAdds m) m = m.
Proof. by destruct m. Qed.

(** What the reservation does. *)
Lemma reserve_add_None (name : gostr) (m m' : ConnectionManager) :
  reserve_add name m = (m', None) <->
    registered name m = false /\ (name ∉ pendingAdds m) /\
    (isSessionConnKey name = true -> sessionConnCountLocked m < maxTotalSessionConnections) /\
    m' = set_pending ({[name]} ∪ pendingAdds m) m.
Proof.
  unfold reserve_add. destruct (registered name m); [by split; [|intros (? & _)]|].
  case_bool_decide as Hp; [by split; [|intros (_ & ? & _)]|].
  destruct (isSessionConnKey name && (maxTotalSessionConnections <=? sessionConnCountLocked m)) eqn:Hb.
  - go_bool. destruct Hb as [Hs Hle]. split; [done|]. intros (_ & _ & Hlt & _). specialize (Hlt Hs). lia.
  - go_bool. split.
    + intros [= <-]. repeat split; [done|]. intros Hs. destruct Hb as [Hb|Hb]; [congruence | done].
    + intros (_ & _ & _ & ->). done.
Qed.

Lemma reserve_add_Some (name : gostr) (m m' : ConnectionManager) (e : conn_error) :
  reserve_add name m = (m', Some e) -> m' = m.
Proof. unfold reserve_add. intros Heq. repeat case_match; congruence. Qed.

Section Sequential.
Context `{MySQLDriver}.

Lemma add_finish version connCfg cfg replace io w w1 r :
  resources_ok ∅ w -> open_conn version connCfg cfg io w = (w1, r) ->
  match r with
  | Err e => resources_ok ∅ w1 /\ cm w1 = cm w /\ open_pools w1 = open_pools w /\ open_tunnels w1 = open_tunnels w
  | Ok o => resources_ok ∅ (fst (register_conn connCfg cfg replace o w1)) /\ cm w1 = cm w /\
            (handle (o_pool o) ∉ open_pools w)
  end.
Proof.
  intros Hok Hopen. destruct (open_conn_spec _ _ _ _ _ ∅ 0 _ _ Hok (lookup_empty _) Hopen) as [Hcm Hr].
  destruct r as [o|e]; [|tauto]. split; [|split; [done|]].
  - rewrite <- (delete_insert_id (∅ : gmap nat opened) 0 o) by done.
    apply register_resources; [done | by rewrite lookup_insert_eq].
  - intros Hin. destruct Hok as [Hp _ _], Hr as [[Ho Hone _] _ _].
    destruct (open_owned _ _ _ Hp (handle (o_pool o))) as [Hx _]. destruct (Hx Hin) as [[n|c] Hh]; [|done].
    specialize (Hone (Registered n) (InFlight 0) (handle (o_pool o))). cbn in Hone, Hh.
    rewrite Hcm, lookup_insert_eq in Hone. by specialize (Hone Hh eq_refl).
Qed.

Lemma replace_resources version connCfg cfg io w :
  resources_ok ∅ w -> resources_ok ∅ (fst (addConnectionWithPoolConfig version connCfg cfg true io w)).
Proof.
  intros Hok. unfold addConnectionWithPoolConfig.
  destruct (open_conn version connCfg cfg io (tearDownNamedConnection (Name connCfg) w)) as [w1 r] eqn:Hopen.
  pose proof (add_finish _ _ _ true _ _ _ _ (tearDown_resources ∅ (Name connCfg) w Hok) Hopen) as Hfin.
  destruct r; [by destruct Hfin | cbn; tauto].
Qed.

Lemma add_if_absent_effects version connCfg cfg io w
    (Hok : resources_ok ∅ w) :
  let w' := fst (addConnectionWithPoolConfig version connCfg cfg false io w) in
  resources_ok ∅ w' /\
  match snd (addConnectionWithPoolConfig version connCfg cfg false io w) with
  | Some e => cm w' = cm w /\ open_pools w' = open_pools w /\ open_tunnels w' = open_tunnels w
  | None =>
      registered (Name connCfg) (cm w) = false /\ (Name connCfg ∉ pendingAdds (cm w)) /\
      (isSessionConnKey (Name connCfg) = true -> sessionConnCountLocked (cm w) < maxTotalSessionConnections) /\
      exists o, (handle (o_pool o) ∉ open_pools w) /\ cm w' = registration connCfg cfg o (cm w)
  end.
Proof.
  unfold addConnectionWithPoolConfig. destruct (reserve_add (Name connCfg) (cm w)) as [m [e|]] eqn:Hres; [done|].
  apply reserve_add_None in Hres as (Hreg & Hpend & Hcap & ->).
  set (w0 := with_cm (set_pending ({[Name connCfg]} ∪ pendingAdds (cm w)) (cm w)) w).
  assert (Hok0 : resources_ok ∅ w0) by (by apply resources_cm).
  assert (Hundo : forall m, set_pending (({[Name connCfg]} ∪ pendingAdds (cm w)) ∖ {[Name connCfg]}) m
                            = set_pending (pendingAdds (cm w)) m) by (intros; by rewrite undo_union).
  destruct (open_conn version connCfg cfg io w0) as [w1 r] eqn:Hopen.
  pose proof (add_finish _ _ _ false _ _ _ _ Hok0 Hopen) as Hfin. destruct r as [o|e].
  - destruct Hfin as (Hok1 & Hcm & Hfresh). rewrite register_conn_cases in Hok1 |- *.
    rewrite Hcm in Hok1 |- *. change (registered (Name connCfg) (cm w0)) with (registered (Name connCfg) (cm w)) in *.
    rewrite Hreg in Hok1 |- *. cbn [andb fst snd] in Hok1 |- *.
    assert (Htd : tearDownNamedConnection (Name connCfg) w1 = w1).
    { unfold tearDownNamedConnection. rewrite Hcm. cbn. apply registered_false in Hreg. by rewrite Hreg. }
    rewrite Htd, Hcm in Hok1 |- *. split; [by apply resources_cm|]. repeat split; try done.
    exists o. split; [done|]. cbn [cm with_cm]. unfold unreserve_add. cbn [pendingAdds registration set_pending cm w0 with_cm].
    rewrite Hundo. done.
  - destruct Hfin as (Hok1 & Hcm & Hp & Ht). cbn [fst snd]. split; [by apply resources_cm|].
    cbn [cm with_cm open_pools open_tunnels]. rewrite Hcm. unfold unreserve_add. cbn [pendingAdds w0 with_cm cm set_pending].
    rewrite Hundo. split; [|done]. change (set_pending (pendingAdds (cm w)) (cm w) = cm w). apply set_pending_id.
Qed.

(** C13: add-if-absent is all or nothing.  When it fails, for whatever reason and at whatever
    point (name taken, name being added, session cap, unparsable DSN, tunnel, open or ping
    failure), the manager is exactly as before and so are the open pools and tunnels.  When
    it succeeds, the name was free, below the session cap, and the only change is the
    registration of a new pool.  In both cases every open pool and tunnel has one owner. *)
Theorem add_if_absent_all_or_nothing version connCfg cfg io w
    (Hok : resources_ok ∅ w) :
  let w' := fst (addConnectionWithPoolConfig version connCfg cfg false io w) in
  resources_ok ∅ w' /\
  match snd (addConnectionWithPoolConfig version connCfg cfg false io w) with
  | Some e => cm w' = cm w /\ open_pools w' = open_pools w /\ open_tunnels w' = open_tunnels w
  | None =>
      registered (Name connCfg) (cm w) = false /\ (Name connCfg ∉ pendingAdds (cm w)) /\
      (isSessionConnKey (Name connCfg) = true -> sessionConnCountLocked (cm w) < maxTotalSessionConnections) /\
      exists o, (handle (o_pool o) ∉ open_pools w) /\ cm w' = registration connCfg cfg o (cm w)
  end.
Proof. by apply add_if_absent_effects. Qed.

(** Replacing a connection removes it first.  When the new DSN then cannot be opened,
    the old connection is gone and its pool closed, while the comment of the function says
    that a failed replace does not remove a working pool. *)
Theorem failed_replace_removes_connection version connCfg cfg io w (p : pool)
    (Hok : resources_ok ∅ w) (Hp : connections (cm w) !! Name connCfg = Some p)
    (Hfail : snd (addConnectionWithPoolConfig version connCfg cfg true io w) <> None) :
  let w' := fst (addConnectionWithPoolConfig version connCfg cfg true io w) in
  connections (cm w') = delete (Name connCfg) (connections (cm w)) /\ (handle p ∉ open_pools w') /\ resources_ok ∅ w'.
Proof.
  revert Hfail. unfold addConnectionWithPoolConfig. set (w0 := tearDownNamedConnection (Name connCfg) w).
  assert (Hok0 : resources_ok ∅ w0) by (by apply tearDown_resources).
  destruct (open_conn version connCfg cfg io w0) as [w1 r] eqn:Hopen.
  pose proof (add_finish _ _ _ true _ _ _ _ Hok0 Hopen) as Hfin. destruct r as [o|e].
  { rewrite register_conn_cases, andb_false_r. done. }
  intros _. destruct Hfin as (Hok1 & Hcm & Hpools & _). cbn [fst]. rewrite Hcm, Hpools.
  split; [apply tearDown_connections|]. split; [|done].
  unfold w0, tearDownNamedConnection. rewrite Hp.
  destruct (tunnelClosers (cm w) !! Name connCfg); cbn; rewrite elem_of_difference, elem_of_singleton; tauto.
Qed.
End Sequential.

(** ** What every pool is opened with *)

(** The configurations that the server formats: a DSN that was parsed, with Go durations for
    timeouts, with transaction_read_only set, or with the address of a tunnel. *)
Inductive edited `{MySQLDriver} : mysql_config driver_rest -> Prop :=
| ed_parsed dsn c : ParseDSN dsn = Ok c -> edited c
| ed_timeouts r w c : edited c -> r = ReadTimeout c \/ in_int64 r -> w = WriteTimeout c \/ in_int64 w -> edited (set_timeouts r w c)
| ed_read_only c : edited c -> edited (set_params (<["transaction_read_only" := "ON"]> (Params c)) c)
| ed_addr a c : edited c -> edited (set_addr a c).

(** What the driver documents of the text that FormatDSN writes of such a configuration "which
    can be passed to the driver": readTimeout and writeTimeout are durations, and a parameter
    the driver does not know is a system variable.  Nothing is said of a timeout that is not
    positive (the driver does not write it), of the other fields, or of whether the text
    parses. *)
Class DriverLaws `(MySQLDriver) := {
  format_read c c' : edited c -> ParseDSN (FormatDSN c) = Ok c' -> (0 < ReadTimeout c)%Z -> ReadTimeout c' = ReadTimeout c;
  format_write c c' : edited c -> ParseDSN (FormatDSN c) = Ok c' -> (0 < WriteTimeout c)%Z -> WriteTimeout c' = WriteTimeout c;
  format_read_only c c' : edited c -> ParseDSN (FormatDSN c) = Ok c' ->
    Params c !! ("transaction_read_only" : gostr) = Some ("ON" : gostr) ->
    Params c' !! ("transaction_read_only" : gostr) = Some ("ON" : gostr)
}.

(** The deadline of a pool whose DSN asks for [asked]: the one asked for, or the query timeout
    with two seconds more, where that is a duration.  A negative one is not a deadline: the
    server takes it for one, and the driver sets none. *)
Definition query_deadline (cfg : Config) : Z :=
  if (QueryTimeout cfg <=? 0)%Z then (DefaultQueryTimeoutSecs * Second)%Z else QueryTimeout cfg.
Definition has_deadline (cfg : Config) (asked got : Z) : Prop :=
  ((0 < asked)%Z -> got = asked) /\
  (asked = 0%Z -> in_int64 (query_deadline cfg + 2 * Second) -> got = (query_deadline cfg + 2 * Second)%Z /\ (0 < got)%Z).

(** The mode and the deadlines of the pool of a connection. *)
Record safe_pool `{MySQLDriver} (cfg : Config) (conn : ConnectionConfig) (p : pool) : Prop := {
  sp_mode : StrictReadOnly cfg = true -> Params (pool_config p) !! ("transaction_read_only" : gostr) = Some ("ON" : gostr);
  sp_deadlines : exists asked, ParseDSN (ApplySSLToDSN (DSN conn) (SSL conn)) = Ok asked /\
    has_deadline cfg (ReadTimeout asked) (ReadTimeout (pool_config p)) /\ has_deadline cfg (WriteTimeout asked) (WriteTimeout (pool_config p))
}.

Section Dsn.
Context `{DriverLaws}.

(** What a configuration keeps on its way through the DSNs: the mode, and positive timeouts. *)
Definition keeps {rest} (strict : bool) (r w : Z) (c : mysql_config rest) : Prop :=
  (strict = true -> Params c !! ("transaction_read_only" : gostr) = Some ("ON" : gostr)) /\
  ((0 < r)%Z -> ReadTimeout c = r) /\ ((0 < w)%Z -> WriteTimeout c = w).
Definition text_keeps (strict : bool) (r w : Z) (dsn : gostr) : Prop :=
  exists c, edited c /\ dsn = FormatDSN c /\ keeps strict r w c.

Lemma text_keeps_parse strict r w dsn c : text_keeps strict r w dsn -> ParseDSN dsn = Ok c -> keeps strict r w c.
Proof.
  intros (c0 & Hed & -> & Hs & Hr & Hw) Hparse. split; [|split].
  - intros Hstrict. eapply format_read_only; eauto.
  - intros Hpos. rewrite <- (Hr Hpos) in Hpos |- *. eapply format_read; eauto.
  - intros Hpos. rewrite <- (Hw Hpos) in Hpos |- *. eapply format_write; eauto.
Qed.

(** The timeouts that applyDefaultIOTimeouts sets. *)
Definition timeout_set (cfg : Config) (asked : Z) : Z :=
  if (asked =? 0)%Z then wrap64 (query_deadline cfg + 2 * Second) else asked.
Lemma query_deadline_pos cfg : (0 < query_deadline cfg)%Z.
Proof. unfold query_deadline. destruct (Z.leb_spec (QueryTimeout cfg) 0); [done | lia]. Qed.
Lemma timeout_set_deadline cfg asked got : ((0 < timeout_set cfg asked)%Z -> got = timeout_set cfg asked) -> has_deadline cfg asked got.
Proof.
  unfold timeout_set. intros Hgot. split.
  - intros Hpos. destruct (Z.eqb_spec asked 0); [lia|]. by apply Hgot.
  - intros -> Hfits. cbn in Hgot. rewrite wrap64_id in Hgot by done. pose proof (query_deadline_pos cfg).
    assert (0 < query_deadline cfg + 2 * Second)%Z by (unfold Second; lia). rewrite Hgot by done. done.
Qed.

Lemma prepare_dsn_keeps connCfg cfg dsn : prepare_dsn connCfg cfg = Ok dsn ->
  exists asked, ParseDSN (ApplySSLToDSN (DSN connCfg) (SSL connCfg)) = Ok asked /\
    text_keeps (StrictReadOnly cfg) (timeout_set cfg (ReadTimeout asked)) (timeout_set cfg (WriteTimeout asked)) dsn.
Proof.
  unfold prepare_dsn, applyDefaultIOTimeouts.
  destruct (ParseDSN (ApplySSLToDSN (DSN connCfg) (SSL connCfg))) as [c|e] eqn:Hasked; [|done]. cbn [result_bind].
  change (duration DefaultQueryTimeoutSecs Second) with (DefaultQueryTimeoutSecs * Second)%Z.
  change (duration 2 Second) with (2 * Second)%Z. fold (query_deadline cfg).
  fold (timeout_set cfg (ReadTimeout c)) (timeout_set cfg (WriteTimeout c)).
  set (c1 := set_timeouts _ _ c). assert (Hed : edited c1).
  { apply ed_timeouts; [by eapply ed_parsed| |]; unfold timeout_set; (destruct (_ =? 0)%Z; [right; apply wrap64_in | by left]). }
  assert (Htext : text_keeps false (timeout_set cfg (ReadTimeout c)) (timeout_set cfg (WriteTimeout c)) (FormatDSN c1)) by by exists c1.
  unfold applyStrictReadOnlyDSN. intros Hdsn. exists c. split; [done|].
  destruct (StrictReadOnly cfg); cbn [negb] in Hdsn; [|injection Hdsn as <-; exact Htext].
  destruct (ParseDSN (FormatDSN c1)) as [c2|e] eqn:Hparse; [|done]. injection Hdsn as <-.
  destruct (text_keeps_parse _ _ _ _ _ Htext Hparse) as (_ & Hr & Hw). eexists. split; [by eapply ed_read_only, ed_parsed|].
  split; [done|]. split; [|by split]. intros _. apply lookup_insert_eq.
Qed.

Lemma start_tunnel_keeps strict r w connCfg dsn io wd wd' dsn' t :
  text_keeps strict r w dsn -> start_tunnel connCfg dsn io wd = (wd', Ok (dsn', t)) -> text_keeps strict r w dsn'.
Proof.
  intros Htext. unfold start_tunnel. destruct (negb (needs_tunnel connCfg)); [by intros [= <- <- <-]|].
  destruct (ParseDSN dsn) as [c|] eqn:Hparse; [|done]. destruct (io_tunnel io) as [a|]; [|done]. intros [= <- <- <-].
  exists (set_addr a c). split; [by eapply ed_addr, ed_parsed|]. split; [done|]. by apply (text_keeps_parse _ _ _ _ _ Htext Hparse).
Qed.

(** An opened pool has the mode and the deadlines. *)
Lemma opened_safe version connCfg cfg io w w' o :
  open_conn version connCfg cfg io w = (w', Ok o) -> safe_pool cfg connCfg (o_pool o).
Proof.
  unfold open_conn. destruct (prepare_dsn connCfg cfg) as [dsn|] eqn:Hprep; [|done].
  destruct (prepare_dsn_keeps _ _ _ Hprep) as (asked & Hasked & Htext).
  destruct (start_tunnel connCfg dsn io w) as [w1 [[dsn1 t]|]] eqn:Htun; [|done].
  apply (start_tunnel_keeps _ _ _ _ _ _ _ _ _ _ Htext) in Htun. unfold openLabeledDB.
  destruct (ParseDSN dsn1) as [c|] eqn:Hparse; [|done]. cbn [result_bind].
  destruct (NewConnector _); [done|]. destruct (io_ping io); [done|]. intros [= <- <-].
  destruct (text_keeps_parse _ _ _ _ _ Htun Hparse) as (Hs & Hr & Hw).
  split; [exact Hs|]. exists asked. split; [done|]. split; by apply timeout_set_deadline.
Qed.
End Dsn.

(** The settings of an opened pool. *)
Lemma opened_pool `{MySQLDriver} version connCfg cfg io w w' o :
  open_conn version connCfg cfg io w = (w', Ok o) -> exists c h, o_pool o = pool_of (Name connCfg) c cfg h.
Proof.
  unfold open_conn. destruct (prepare_dsn connCfg cfg) as [dsn|]; [|done].
  destruct (start_tunnel connCfg dsn io w) as [w1 [[dsn1 t]|]]; [|done].
  destruct (openLabeledDB version dsn1 cfg) as [c|]; [|done]. destruct (io_ping io); [done|]. intros [= <- <-]. by do 2 eexists.
Qed.

(** C12: a DSN cannot take a pool out of strict mode, and one without timeouts is given them.
    Whatever the DSN of the configuration or of add_connection says, through a tunnel or not:
    the driver's configuration that the pool is opened with sets transaction_read_only to ON
    in strict mode; its read and write deadlines are those the DSN asks for when they are
    positive, and two seconds over the query timeout when it asks for none (as long as that is
    a duration).  A negative timeout in the DSN is the exception
    ([negative_timeout_sets_no_deadline]).  The pool of a session has at most two
    connections. *)
Theorem opened_pool_is_safe `{DriverLaws} version connCfg cfg io w w' o
    (Hopen : open_conn version connCfg cfg io w = (w', Ok o)) :
  let c := pool_config (o_pool o) in
  (StrictReadOnly cfg = true -> Params c !! ("transaction_read_only" : gostr) = Some ("ON" : gostr)) /\
  (exists asked, ParseDSN (ApplySSLToDSN (DSN connCfg) (SSL connCfg)) = Ok asked /\
     has_deadline cfg (ReadTimeout asked) (ReadTimeout c) /\ has_deadline cfg (WriteTimeout asked) (WriteTimeout c)) /\
  (isSessionConnKey (Name connCfg) = true -> (MaxOpen (o_pool o) <= 2)%Z /\ (MaxIdle (o_pool o) <= 2)%Z) /\
  (0 < MaxOpen (o_pool o))%Z.
Proof.
  destruct (opened_safe _ _ _ _ _ _ _ Hopen) as [Hmode Hdead]. destruct (opened_pool _ _ _ _ _ _ _ Hopen) as (c & h & Hp).
  cbv zeta. do 2 (split; [done|]). rewrite Hp. cbn. unfold or_default, sessionConnMaxOpenConns, DefaultMaxOpenConns.
  destruct (isSessionConnKey (Name connCfg)), (Z.leb_spec (MaxOpenConns cfg) 0); (split; [intros ?; try done; split; apply Z.le_min_r | lia]).
Qed.

(** ** A concrete driver, for the examples: a DSN spells the encoding of the fields, and like the
    real one it does not write a timeout that is not positive *)
Fixpoint pos_str (p : positive) : gostr :=
  match p with
  | xH => []
  | xO p => "0"%char :: pos_str p
  | xI p => "1"%char :: pos_str p
  end.
Fixpoint str_pos (s : gostr) : positive :=
  match s with
  | [] => xH
  | c :: s => if bool_decide (c = "0"%char) then xO (str_pos s) else xI (str_pos s)
  end.
Lemma str_pos_str (p : positive) : str_pos (pos_str p) = p.
Proof. induction p as [p IH|p IH|]; cbn; by rewrite ?IH. Qed.

Definition plain_config (r w : Z) (params : gmap gostr gostr) : mysql_config unit :=
  {| User := []; Addr := []; ReadTimeout := r; WriteTimeout := w; Params := params;
     AllowAllFiles := false; MultiStatements := false; ConnectionAttributes := []; dsn_rest := tt |}.
Definition plain_driver : MySQLDriver :=
  {| driver_rest := unit;
     FormatDSN c := pos_str (encode (Z.max 0 (ReadTimeout c), Z.max 0 (WriteTimeout c), Params c));
     ParseDSN dsn := match decode (str_pos dsn) with
                     | Some (r, w, params) => Ok (plain_config r w params)
                     | None => Err "invalid DSN"
                     end;
     NewConnector _ := None |}.
#[export] Instance plain_driver_laws : DriverLaws plain_driver.
Proof.
  assert (Hparse : forall (c c' : mysql_config unit), @ParseDSN plain_driver (@FormatDSN plain_driver c) = Ok c' ->
    c' = plain_config (Z.max 0 (ReadTimeout c)) (Z.max 0 (WriteTimeout c)) (Params c)).
  { intros c c'. cbn. rewrite str_pos_str, decode_encode. by intros [= <-]. }
  split; intros c c' _ ->%Hparse; cbn; [lia | lia | done].
Qed.

Definition example_cfg : Config :=
  applyEnvOverrides {[("MYSQL_MCP_STRICT_READ_ONLY" : gostr) := ("1" : gostr)]} default_config.
Definition example_conn (name : gostr) : ConnectionConfig :=
  {| Name := name; DSN := @FormatDSN plain_driver (plain_config 0 7 {[("transaction_read_only" : gostr) := ("OFF" : gostr)]});
     Description := []; ReadOnly := true; SSL := []; SSH := None |}.
Definition example_io (ping : option gostr) : io_outcome :=
  {| io_tunnel := Err "no tunnel"; io_ping := ping; io_version_both := Ok ("8.4.0" : gostr, "MySQL" : gostr);
     io_version := Err "unused"; io_pack := Err "no such procedure" |}.
Definition example_world : world :=
  {| cm := NewConnectionManager; open_pools := ∅; open_tunnels := ∅; next_handle := 0 |}.

Lemma example_world_ok : resources_ok ∅ example_world.
Proof.
  split.
  - split; cbn; [intros h; split; [by rewrite elem_of_empty | by intros [[]]] | by intros [] ? | intros h; by rewrite elem_of_empty].
  - split; cbn; [intros h; split; [by rewrite elem_of_empty | by intros [[]]] | by intros [] ? | intros h; by rewrite elem_of_empty].
  - intros n [? Hn]. done.
Qed.

(** The read-only parameter of the DSN was OFF, its read timeout unset and its write timeout
    seven nanoseconds. *)
Lemma opened_pool_is_safe_witness :
  match @open_conn plain_driver "1.0" (example_conn "main") example_cfg (example_io None) example_world with
  | (_, Ok o) =>
      let c := pool_config (o_pool o) in
      Params c !! ("transaction_read_only" : gostr) = Some ("ON" : gostr) /\ ReadTimeout c = (32 * Second)%Z /\ WriteTimeout c = 7%Z
  | _ => False
  end.
Proof.
  destruct (@open_conn plain_driver "1.0" (example_conn "main") example_cfg (example_io None) example_world)
    as [w' [o|e]] eqn:Hopen.
  - destruct (@opened_pool_is_safe plain_driver plain_driver_laws "1.0" (example_conn "main") example_cfg (example_io None)
      example_world w' o Hopen) as (Hmode & (asked & Hasked & Hr & Hw) & _). vm_compute in Hasked. injection Hasked as <-.
    split; [apply Hmode; vm_compute; reflexivity|]. split; [apply (proj2 Hr eq_refl); decide_true | apply (proj1 Hw); reflexivity].
  - vm_compute in Hopen. discriminate.
Defined.

(** A DSN may ask for a negative timeout, which is neither replaced nor written again: the pool
    has no read deadline at all. *)
Definition negative_driver : MySQLDriver :=
  {| driver_rest := unit; FormatDSN := @FormatDSN plain_driver;
     ParseDSN dsn := if dsn =?s "app@/?readTimeout=-1s" then Ok (plain_config (- Second) 0 ∅) else @ParseDSN plain_driver dsn;
     NewConnector _ := None |}.
Example negative_timeout_sets_no_deadline :
  match @open_conn negative_driver "1.0" {| Name := "main"; DSN := "app@/?readTimeout=-1s"; Description := []; ReadOnly := true; SSL := []; SSH := None |}
          example_cfg (example_io None) example_world with
  | (_, Ok o) => ReadTimeout (pool_config (o_pool o)) = 0%Z /\ WriteTimeout (pool_config (o_pool o)) = (32 * Second)%Z
  | _ => False
  end.
Proof. vm_compute. repeat split. Qed.

(** A query timeout so long that two seconds more are no duration has the same effect. *)
Definition long_timeout : Config := applyEnvOverrides {[("MYSQL_QUERY_TIMEOUT_SECONDS" : gostr) := ("9223372036" : gostr)]} default_config.
Example overflowing_timeout_sets_no_deadline :
  QueryTimeout long_timeout = (9223372036 * Second)%Z /\
  match @open_conn plain_driver "1.0" (example_conn "main") long_timeout (example_io None) example_world with
  | (_, Ok o) => ReadTimeout (pool_config (o_pool o)) = 0%Z
  | _ => False
  end.
Proof. vm_compute. repeat split. Qed.

Lemma add_if_absent_all_or_nothing_witness :
  resources_ok ∅ (fst (@addConnectionWithPoolConfig plain_driver "1.0" (example_conn "main") example_cfg false
                         (example_io (Some ("refused" : gostr))) example_world)).
Proof.
  exact (proj1 (@add_if_absent_all_or_nothing plain_driver "1.0" (example_conn "main") example_cfg
           (example_io (Some ("refused" : gostr))) example_world example_world_ok)).
Defined.

Definition example_world_main : world :=
  fst (@addConnectionWithPoolConfig plain_driver "1.0" (example_conn "main") example_cfg true (example_io None) example_world).

Lemma example_world_main_ok : resources_ok ∅ example_world_main.
Proof. apply (@replace_resources plain_driver), example_world_ok. Qed.

(** The ping of the new server fails. *)
Lemma failed_replace_removes_connection_witness :
  connections (cm (fst (@addConnectionWithPoolConfig plain_driver "1.0" (example_conn "main") example_cfg true
    (example_io (Some ("refused" : gostr))) example_world_main))) = delete ("main" : gostr) (connections (cm example_world_main)).
Proof.
  destruct (connections (cm example_world_main) !! ("main" : gostr)) as [p|] eqn:Hp.
  - refine (proj1 (@failed_replace_removes_connection plain_driver "1.0" (example_conn "main") example_cfg
      (example_io (Some ("refused" : gostr))) example_world_main p example_world_main_ok Hp _)).
    vm_compute. discriminate.
  - vm_compute in Hp. discriminate.
Defined.
