(* ===== verification/Sessions.v ===== *)
(** Concurrent add_connection and use_connection calls of MCP HTTP sessions
    (toolAddConnection and toolUseConnection in tools.go, sessionConnMiddleware and
    closeSessionConnections in mcp_http.go, the locks of connection.go).

    A call is a program counter; one step of a call is one critical section of the code, so
    a run is any interleaving of the calls, of the ends of sessions, and of their clean-up.
    The invariant [inv] gives the caps, the isolation of sessions and the absence of leaks. *)
From S2P Require Import Prelude Unicode GoStrings Config Labels Sql Connection.

(** ** Calls *)
Inductive phase :=
| AtHas                                                  (* cm.Has(name) *)
| AtReserve                                              (* sc.reserve(name) *)
| AtPending (key : gostr)                                (* the reservation in pendingAdds *)
| AtOpen (key : gostr)                                   (* tunnel, pool and ping, without the lock *)
| AtRegister (key : gostr) (o : opened)                  (* the final section of the add *)
| AtUnreserve (key : gostr) (ok : bool)                  (* the deferred release of the reservation *)
| AtRelease (key : gostr)                                (* sc.release(name) after a failed add *)
| AtClosedCheck (key : gostr)                            (* sc.isClosed() *)
| AtRemove (key : gostr)                                 (* cm.RemoveConnection(key) *)
| AtResolve (added : option gostr)                       (* SetActiveFor: sc.resolve(name) *)
| AtHasKey (added : option gostr) (target : gostr)       (* SetActiveFor: cm.Has(key) *)
| AtSet (added : option gostr) (target : gostr)          (* SetActiveFor: sc.set(key) *)
| AtRollback (key : gostr).                              (* sc.release(name) after a failed activation *)

Record call := { c_sid : nat; c_name : gostr; c_dsn : gostr; c_desc : gostr; c_phase : phase }.

Definition set_phase (p : phase) (cl : call) : call :=
  {| c_sid := c_sid cl; c_name := c_name cl; c_dsn := c_dsn cl; c_desc := c_desc cl; c_phase := p |}.

(** The configuration add_connection builds. *)
Definition runtime_config (key dsn desc : gostr) : ConnectionConfig :=
  {| Name := key; DSN := dsn; Description := desc; ReadOnly := false; SSL := []; SSH := None |}.

Record system := {
  w : world; sess : gmap nat sessionConn; calls : gmap nat call; closers : gmap nat (list gostr)
}.

Section Steps.
Context `{MySQLDriver}.
Variable version : gostr.
Variable cfg : Config.

(** One step of a call; [None]: the call returns. *)
Definition call_step (io : io_outcome) (cl : call) (w : world) (sc : sessionConn)
    : world * sessionConn * option phase :=
  let name := c_name cl in
  match c_phase cl with
  | AtHas => (w, sc, if Has (cm w) name then None else Some AtReserve)
  | AtReserve =>
      match reserve name sc with
      | (sc, Ok key) => (w, sc, Some (AtPending key))
      | (sc, Err _) => (w, sc, None)
      end
  | AtPending key =>
      match reserve_add key (cm w) with
      | (m, None) => (with_cm m w, sc, Some (AtOpen key))
      | (m, Some _) => (with_cm m w, sc, Some (AtRelease key))
      end
  | AtOpen key =>
      match open_conn version (runtime_config key (c_dsn cl) (c_desc cl)) cfg io w with
      | (w, Ok o) => (w, sc, Some (AtRegister key o))
      | (w, Err _) => (w, sc, Some (AtUnreserve key false))
      end
  | AtRegister key o =>
      match register_conn (runtime_config key (c_dsn cl) (c_desc cl)) cfg false o w with
      | (w, err) => (w, sc, Some (AtUnreserve key (is_nil err)))
      end
  | AtUnreserve key ok =>
      (with_cm (unreserve_add key (cm w)) w, sc, Some (if ok then AtClosedCheck key else AtRelease key))
  | AtRelease key => (w, release name sc, None)
  | AtClosedCheck key => (w, sc, Some (if closed sc then AtRemove key else AtResolve (Some key)))
  | AtRemove key => (fst (RemoveConnection key w), sc, None)
  | AtResolve added => (w, sc, Some (AtHasKey added (resolve sc name)))
  | AtHasKey added target =>
      (w, sc, if (isSessionConnKey name && (target =?s name)) || negb (Has (cm w) target)
              then match added with Some key => Some (AtRollback key) | None => None end
              else Some (AtSet added target))
  | AtSet added target => (w, sc_set target sc, None)
  | AtRollback key => (w, release name sc, Some (AtRemove key))
  end.

Definition put_call (c : nat) (cl : call) (p : option phase) (l : gmap nat call) : gmap nat call :=
  match p with Some p => <[c := set_phase p cl]> l | None => delete c l end.

Inductive step : system -> system -> Prop :=
| step_open s i random :
    (* eight random bytes in hexadecimal; a new session's differ from every other's *)
    sess s !! i = None -> ("/"%char ∉ random) ->
    (forall j sc, sess s !! j = Some sc -> id sc <> random) ->
    step s {| w := w s; sess := <[i := newSessionConn random]> (sess s); calls := calls s; closers := closers s |}
| step_add s c i sc name dsn desc :
    calls s !! c = None -> sess s !! i = Some sc -> isSessionConnKey name = false ->
    step s {| w := w s; sess := sess s; closers := closers s;
              calls := <[c := {| c_sid := i; c_name := name; c_dsn := dsn; c_desc := desc; c_phase := AtHas |}]> (calls s) |}
| step_use s c i sc name :
    calls s !! c = None -> sess s !! i = Some sc ->
    step s {| w := w s; sess := sess s; closers := closers s;
              calls := <[c := {| c_sid := i; c_name := name; c_dsn := []; c_desc := []; c_phase := AtResolve None |}]> (calls s) |}
| step_call s c cl sc io w' sc' p :
    calls s !! c = Some cl -> sess s !! c_sid cl = Some sc -> call_step io cl (w s) sc = (w', sc', p) ->
    step s {| w := w'; sess := <[c_sid cl := sc']> (sess s); calls := put_call c cl p (calls s); closers := closers s |}
| step_end s i sc :
    sess s !! i = Some sc -> closed sc = false ->
    step s {| w := w s; sess := <[i := fst (close_session sc)]> (sess s); calls := calls s;
              closers := <[i := snd (close_session sc)]> (closers s) |}
| step_cleanup s i key keys :
    closers s !! i = Some (key :: keys) ->
    step s {| w := fst (RemoveConnection key (w s)); sess := sess s; calls := calls s;
              closers := <[i := keys]> (closers s) |}.

(** The process starts with the connections of the configuration, then serves sessions. *)
Definition startup (ios : list (ConnectionConfig * io_outcome)) (w : world) : world :=
  fold_left (fun w ci => fst (AddConnectionWithPoolConfig version (fst ci) cfg (snd ci) w)) ios w.

Definition init (ios : list (ConnectionConfig * io_outcome)) : system :=
  {| w := startup ios {| cm := NewConnectionManager; open_pools := ∅; open_tunnels := ∅; next_handle := 0 |};
     sess := ∅; calls := ∅; closers := ∅ |}.

Inductive reachable : system -> Prop :=
| reach_init ios :
    validateConnectionNames (map fst ios) = None -> reachable (init ios)
| reach_step s s' : reachable s -> step s s' -> reachable s'.
End Steps.

(** ** Keys *)
Lemma session_key_is_session (sc : sessionConn) (name : gostr) : isSessionConnKey (session_key sc name) = true.
Proof. unfold isSessionConnKey, session_key. apply HasPrefix_app. Qed.

Lemma app_no_slash (a b x y : gostr) :
  ("/"%char ∉ a) -> ("/"%char ∉ b) -> a ++ "/" ++ x = b ++ "/" ++ y -> a = b /\ x = y.
Proof.
  revert b. induction a as [|c a IH]; intros [|d b] Ha Hb Heq.
  - injection Heq as ->. done.
  - injection Heq as <- _. destruct Hb. left.
  - injection Heq as -> _. destruct Ha. left.
  - rewrite not_elem_of_cons in Ha, Hb. cbn [app] in Heq. injection Heq as -> Heq.
    destruct (IH b) as [-> ->]; tauto.
Qed.

Lemma session_key_inj (sc sc' : sessionConn) (n n' : gostr) :
  ("/"%char ∉ id sc) -> ("/"%char ∉ id sc') -> session_key sc n = session_key sc' n' -> id sc = id sc' /\ n = n'.
Proof.
  intros Hi Hi' Heq. unfold session_key in Heq. apply app_inv_head in Heq. by apply app_no_slash in Heq.
Qed.

Lemma session_key_id (sc sc' : sessionConn) (n : gostr) : id sc' = id sc -> session_key sc' n = session_key sc n.
Proof. unfold session_key. by intros ->. Qed.

(** ** The invariant

    What each phase of a call says about its session and the manager. *)
Definition key_at (p : phase) : option gostr :=
  match p with
  | AtPending k | AtOpen k | AtRegister k _ | AtUnreserve k _ | AtRelease k | AtClosedCheck k
  | AtRemove k | AtRollback k | AtResolve (Some k) | AtHasKey (Some k) _ | AtSet (Some k) _ => Some k
  | _ => None
  end.
(** The call works on a name it has reserved in its session. *)
Definition exclusive (p : phase) : bool :=
  match p with
  | AtPending _ | AtOpen _ | AtRegister _ _ | AtUnreserve _ _ | AtRelease _ | AtClosedCheck _ => true
  | _ => false
  end.
Definition needs_owned (p : phase) : bool :=
  exclusive p || match p with AtResolve (Some _) | AtHasKey (Some _) _ => true | _ => false end.
Definition needs_free (p : phase) : bool :=
  match p with
  | AtPending _ | AtOpen _ | AtRegister _ _ | AtUnreserve _ false | AtRelease _ => true
  | _ => false
  end.
Definition needs_registered (p : phase) : bool :=
  match p with
  | AtUnreserve _ true | AtClosedCheck _ | AtResolve (Some _) | AtHasKey (Some _) _ => true
  | _ => false
  end.
Definition needs_pending (p : phase) : bool :=
  match p with AtOpen _ | AtRegister _ _ | AtUnreserve _ _ => true | _ => false end.
Definition needs_closed (p : phase) : bool :=
  match p with AtRemove _ | AtRollback _ => true | _ => false end.
(** The call will remove the connection, or look whether it has to. *)
Definition disposes (p : phase) : bool :=
  match p with AtUnreserve _ true | AtClosedCheck _ | AtRemove _ | AtRollback _ => true | _ => false end.
Definition adding (p : phase) : bool :=
  match p with AtResolve None | AtHasKey None _ | AtSet None _ => false | _ => true end.
Definition in_flight (p : phase) : option opened := match p with AtRegister _ o => Some o | _ => None end.

Definition own_name (sc : sessionConn) (t : gostr) : Prop :=
  isSessionConnKey t = false \/ exists n, t = session_key sc n.

Record call_ok (m : ConnectionManager) (sc : sessionConn) (cl : call) : Prop := {
  ok_name : adding (c_phase cl) = true -> isSessionConnKey (c_name cl) = false;
  ok_key : forall k, key_at (c_phase cl) = Some k -> k = session_key sc (c_name cl);
  ok_owned : needs_owned (c_phase cl) = true -> closed sc = false ->
    owned sc !! c_name cl = Some (session_key sc (c_name cl));
  ok_free : needs_free (c_phase cl) = true -> closed sc = false -> connections m !! session_key sc (c_name cl) = None;
  ok_registered : needs_registered (c_phase cl) = true -> closed sc = false ->
    is_Some (connections m !! session_key sc (c_name cl));
  ok_pending : needs_pending (c_phase cl) = true -> session_key sc (c_name cl) ∈ pendingAdds m;
  ok_closed : needs_closed (c_phase cl) = true -> closed sc = true;
  ok_target : match c_phase cl with
    | AtHasKey added t => (t = c_name cl \/ exists n, t = session_key sc n) /\
        (is_Some added -> closed sc = false -> t = session_key sc (c_name cl))
    | AtSet _ t => own_name sc t
    | _ => True
    end
}.

Record sess_ok (sc : sessionConn) : Prop := {
  ok_id : "/"%char ∉ id sc;
  ok_keys : forall n k, owned sc !! n = Some k -> k = session_key sc n;
  ok_size : size (owned sc) <= maxSessionConnections;
  ok_ended : closed sc = true -> owned sc = ∅;
  ok_active : own_name sc (sname sc)
}.

(** A registered session key: owned by an open session, or about to be removed. *)
Definition accounted (s : system) (k : gostr) : Prop :=
  exists i sc n, sess s !! i = Some sc /\ k = session_key sc n /\
    (owned sc !! n = Some k \/
     (exists c cl, calls s !! c = Some cl /\ c_sid cl = i /\ c_name cl = n /\ disposes (c_phase cl) = true) \/
     exists keys, closers s !! i = Some keys /\ k ∈ keys).

Definition fly (s : system) : gmap nat opened := omap (fun cl => in_flight (c_phase cl)) (calls s).

Record inv (s : system) : Prop := {
  inv_ids : forall i j sc sc', sess s !! i = Some sc -> sess s !! j = Some sc' -> id sc = id sc' -> i = j;
  inv_sess : forall i sc, sess s !! i = Some sc -> sess_ok sc;
  inv_calls : forall c cl, calls s !! c = Some cl ->
    exists sc, sess s !! c_sid cl = Some sc /\ call_ok (cm (w s)) sc cl;
  inv_exclusive : forall c c' cl cl', calls s !! c = Some cl -> calls s !! c' = Some cl' ->
    exclusive (c_phase cl) = true -> exclusive (c_phase cl') = true ->
    c_sid cl = c_sid cl' -> c_name cl = c_name cl' -> c = c';
  inv_closers : forall i keys, closers s !! i = Some keys ->
    exists sc, sess s !! i = Some sc /\ closed sc = true /\ forall k, k ∈ keys -> exists n, k = session_key sc n;
  inv_registered : forall k, isSessionConnKey k = true -> is_Some (connections (cm (w s)) !! k) -> accounted s k;
  inv_pending : forall k, k ∈ pendingAdds (cm (w s)) ->
    exists c cl sc, calls s !! c = Some cl /\ needs_pending (c_phase cl) = true /\
      sess s !! c_sid cl = Some sc /\ k = session_key sc (c_name cl);
  inv_cap : sessionConnCountLocked (cm (w s)) <= maxTotalSessionConnections;
  inv_active : isSessionConnKey (activeConn (cm (w s))) = false;
  inv_resources : resources_ok (fly s) (w s)
}.

(** ** What a step of a call changes *)
Lemma call_ok_frame (m m' : ConnectionManager) (sc sc' : sessionConn) (cl : call) :
  call_ok m sc cl -> id sc' = id sc -> (closed sc' = false -> closed sc = false) ->
  (closed sc = true -> closed sc' = true) ->
  (needs_owned (c_phase cl) = true -> closed sc' = false ->
     owned sc !! c_name cl = Some (session_key sc (c_name cl)) -> owned sc' !! c_name cl = owned sc !! c_name cl) ->
  (needs_free (c_phase cl) = true -> closed sc' = false ->
     connections m !! session_key sc (c_name cl) = None -> connections m' !! session_key sc (c_name cl) = None) ->
  (needs_registered (c_phase cl) = true -> closed sc' = false ->
     is_Some (connections m !! session_key sc (c_name cl)) -> is_Some (connections m' !! session_key sc (c_name cl))) ->
  (needs_pending (c_phase cl) = true ->
     session_key sc (c_name cl) ∈ pendingAdds m -> session_key sc (c_name cl) ∈ pendingAdds m') ->
  call_ok m' sc' cl.
Proof.
  intros [Hn Hk Ho Hf Hr Hp Hc Ht] Hid Hopen Hclosed Howned Hfree Hreg Hpend.
  assert (Hkey : forall n, session_key sc' n = session_key sc n) by (intros n; by apply session_key_id).
  split; rewrite ?Hkey; auto.
  - intros H1 H2. rewrite Howned by auto. auto.
  - destruct (c_phase cl); try done.
    + destruct Ht as [[Ht|[n Ht]] Ht']; (split; [first [by left | right; exists n; by rewrite Hkey] | rewrite ?Hkey; auto]).
    + destruct Ht as [Ht|[n Ht]]; [by left | right; exists n; by rewrite Hkey].
Qed.

Section Effects.
Context `{MySQLDriver}.
Variable version : gostr.
Variable cfg : Config.

(** The session: a reservation adds the name, a release takes it away. *)
Lemma call_step_session io cl w0 sc w' sc' p :
  call_step version cfg io cl w0 sc = (w', sc', p) ->
  id sc' = id sc /\ closed sc' = closed sc /\
  (owned sc' = owned sc \/
   c_phase cl = AtReserve /\ closed sc = false /\ owned sc !! c_name cl = None /\
     size (owned sc) < maxSessionConnections /\ p = Some (AtPending (session_key sc (c_name cl))) /\
     owned sc' = <[c_name cl := session_key sc (c_name cl)]> (owned sc) \/
   (exists k, c_phase cl = AtRelease k \/ c_phase cl = AtRollback k) /\ owned sc' = delete (c_name cl) (owned sc)) /\
  (sname sc' = sname sc \/ exists added, c_phase cl = AtSet added (sname sc')).
Proof.
  unfold call_step. destruct (c_phase cl); intros Heq;
    try (repeat case_match; simplify_eq; cbn; eauto 10; fail).
  unfold reserve in Heq. destruct (closed sc) eqn:Hc; [simplify_eq; auto|].
  case_bool_decide as Hown; [simplify_eq; auto|].
  destruct (Nat.leb_spec maxSessionConnections (size (owned sc))); simplify_eq; [auto|].
  split; [done|]. split; [done|]. split; [|by left]. right. left. rewrite <- eq_None_not_Some in Hown. auto 10.
Qed.

(** The manager: everything happens at the call's own key. *)
Lemma call_step_manager io cl w0 sc w' sc' p :
  call_ok (cm w0) sc cl -> call_step version cfg io cl w0 sc = (w', sc', p) ->
  let k := session_key sc (c_name cl) in
  (connections (cm w') = connections (cm w0) \/
   (exists o, c_phase cl = AtRegister k o /\ p = Some (AtUnreserve k true) /\ connections (cm w0) !! k = None /\
      connections (cm w') = <[k := o_pool o]> (connections (cm w0))) \/
   c_phase cl = AtRemove k /\ connections (cm w') = delete k (connections (cm w0))) /\
  (pendingAdds (cm w') = pendingAdds (cm w0) \/
   c_phase cl = AtPending k /\ p = Some (AtOpen k) /\ (k ∉ pendingAdds (cm w0)) /\ registered k (cm w0) = false /\
     sessionConnCountLocked (cm w0) < maxTotalSessionConnections /\ pendingAdds (cm w') = {[k]} ∪ pendingAdds (cm w0) \/
   (exists ok, c_phase cl = AtUnreserve k ok) /\ pendingAdds (cm w') = pendingAdds (cm w0) ∖ {[k]}) /\
  (activeConn (cm w') = activeConn (cm w0) \/ activeConn (cm w') = []).
Proof.
  intros Hok Heq k. pose proof (ok_key _ _ _ Hok) as Hkey. unfold call_step in Heq.
  destruct (c_phase cl) as [| |key|key|key o|key ok|key|key|key|added|added t|added t|key] eqn:Hph;
    try (pose proof (Hkey key eq_refl) as ->; fold k in Heq |- *);
    try (repeat case_match; simplify_eq; auto; fail).
  - destruct (reserve_add k (cm w0)) as [m [e|]] eqn:Hres; simplify_eq.
    + apply reserve_add_Some in Hres as ->. auto.
    + apply reserve_add_None in Hres as (Hr & Hp & Hcap & ->). cbn. specialize (Hcap (session_key_is_session _ _)). auto 10.
  - destruct (open_conn version _ cfg io w0) as [w1 r] eqn:Hopen.
    assert (Hcm : cm w1 = cm w0) by (by eapply open_conn_cm). destruct r; simplify_eq; rewrite Hcm; auto.
  - rewrite register_conn_cases in Heq. cbn [Name runtime_config negb] in Heq. rewrite andb_true_r in Heq.
    destruct (registered k (cm w0)) eqn:Hr; simplify_eq; cbn [is_nil].
    + destruct (closing_keeps (o_tunnel o) (handle (o_pool o)) w0) as (-> & _). auto.
    + assert (Htd : tearDownNamedConnection k w0 = w0).
      { unfold tearDownNamedConnection. apply registered_false in Hr. by rewrite Hr. }
      cbn [cm with_cm registration connections pendingAdds activeConn Name runtime_config]. rewrite !Htd.
      split; [|split; [by left|]].
      * right. left. exists o. apply registered_false in Hr. auto.
      * rewrite (session_key_is_session _ _ : isSessionConnKey k = true), andb_false_r. by left.
  - simplify_eq. cbn. eauto 10.
  - simplify_eq. unfold RemoveConnection. destruct (registered k (cm w0)) eqn:Hr; cbn [negb fst].
    + rewrite tearDown_connections, tearDown_pending. auto using tearDown_active.
    + split; [|auto]. right. right. split; [done|]. apply registered_false in Hr. by rewrite delete_id.
Qed.

Lemma phase_ok (m : ConnectionManager) (sc : sessionConn) (cl : call) (p : phase) :
  (adding p = true -> isSessionConnKey (c_name cl) = false) ->
  (forall k, key_at p = Some k -> k = session_key sc (c_name cl)) ->
  (closed sc = false ->
     (needs_owned p = true -> owned sc !! c_name cl = Some (session_key sc (c_name cl))) /\
     (needs_free p = true -> connections m !! session_key sc (c_name cl) = None) /\
     (needs_registered p = true -> is_Some (connections m !! session_key sc (c_name cl)))) ->
  (needs_pending p = true -> session_key sc (c_name cl) ∈ pendingAdds m) ->
  (needs_closed p = true -> closed sc = true) ->
  match p with
  | AtHasKey added t => (t = c_name cl \/ exists n, t = session_key sc n) /\
      (is_Some added -> closed sc = false -> t = session_key sc (c_name cl))
  | AtSet _ t => own_name sc t
  | _ => True
  end -> call_ok m sc (set_phase p cl).
Proof. intros Ha Hk Hopen Hp Hc Ht. split; cbn; try tauto; intros Hn Hcl; destruct (Hopen Hcl) as (? & ? & ?); auto. Qed.

Ltac phase_ok :=
  apply phase_ok; cbn; intros; repeat match goal with |- _ /\ _ => split end; intros; simplify_eq/=; try done; auto.

(** The call that steps keeps its own invariant. *)
Lemma call_step_self io cl w0 sc w' sc' p' :
  call_ok (cm w0) sc cl -> sess_ok sc ->
  (c_phase cl = AtReserve -> closed sc = false -> owned sc !! c_name cl = None ->
     connections (cm w0) !! session_key sc (c_name cl) = None) ->
  call_step version cfg io cl w0 sc = (w', sc', Some p') -> call_ok (cm w') sc' (set_phase p' cl).
Proof.
  intros [Hn Hk Ho Hf Hr Hp Hc Ht] [Hid Hkeys Hsize Hended Hact] Hres Heq.
  unfold call_step in Heq.
  destruct (c_phase cl) as [| |key|key|key o|key ok|key|key|key|added|added t|added t|key] eqn:Hph;
    cbn in Hn, Hk, Ho, Hf, Hr, Hp, Hc, Ht; try (pose proof (Hk key eq_refl) as ->);
    try (simplify_eq; fail).
  - destruct (Has (cm w0) (c_name cl)); simplify_eq. phase_ok.
  - unfold reserve in Heq. destruct (closed sc) eqn:Hcl; [simplify_eq|].
    case_bool_decide as Hown; [simplify_eq|]. rewrite <- eq_None_not_Some in Hown.
    destruct (maxSessionConnections <=? size (owned sc)); simplify_eq.
    apply phase_ok; cbn; try done; [by intros k [= <-]|].
    intros _. rewrite lookup_insert_eq. auto.
  - destruct (reserve_add (session_key sc (c_name cl)) (cm w0)) as [m [e|]] eqn:Hra; simplify_eq.
    + apply reserve_add_Some in Hra as ->. phase_ok.
    + apply reserve_add_None in Hra as (_ & _ & _ & ->). phase_ok. by apply elem_of_union_l, elem_of_singleton.
  - destruct (open_conn version _ cfg io w0) as [w1 r] eqn:Hopen.
    assert (Hcm : cm w1 = cm w0) by (by eapply open_conn_cm).
    destruct r; simplify_eq; (rewrite ?Hcm; phase_ok).
  - destruct (register_conn _ cfg false o w0) as [w1 err] eqn:Hreg. simplify_eq.
    rewrite register_conn_cases in Hreg. cbn [Name runtime_config negb] in Hreg. rewrite andb_true_r in Hreg.
    destruct (registered (session_key sc' (c_name cl)) (cm w0)) eqn:Hrg; simplify_eq; cbn [is_nil].
    + destruct (closing_keeps (o_tunnel o) (handle (o_pool o)) w0) as (Hcm & _).
      rewrite ?Hcm; phase_ok.
    + phase_ok; [by rewrite lookup_insert_eq | rewrite tearDown_pending; auto].
  - simplify_eq. destruct ok; (phase_ok).
  - simplify_eq. destruct (closed sc') eqn:Hcl; phase_ok; congruence.
  - simplify_eq. unfold resolve. phase_ok.
    + destruct (owned sc' !! c_name cl) as [k|] eqn:Hown; cbn; [|by left]. rewrite (Hkeys _ _ Hown). right. by eexists.
    + destruct added; [|by match goal with Hs : is_Some None |- _ => destruct Hs end]. by rewrite Ho.
  - destruct Ht as [Ht Ht']. simplify_eq.
    destruct (isSessionConnKey (c_name cl) && (t =?s c_name cl)) eqn:Hb; cbn [orb] in *.
    { destruct added as [key|]; [|done]. go_bool. destruct Hb as [Hb _]. cbn in Hn. rewrite Hn in Hb; done. }
    destruct (Has (cm w') t) eqn:Hhas; cbn [negb] in *.
    + simplify_eq. phase_ok.
      destruct Ht as [->|Ht]; [|by right]. left.
      destruct (isSessionConnKey (c_name cl)) eqn:Hs; [|done]. by rewrite str_eqb_refl in Hb.
    + destruct added as [key|]; simplify_eq. phase_ok.
      destruct (closed sc') eqn:Hcl; [done|]. exfalso.
      rewrite (Ht' ltac:(by eexists) eq_refl) in Hhas. unfold Has in Hhas. apply registered_false in Hhas.
      cbn in Hr. destruct Hr as [? Hr]; [done | done |]. by rewrite Hhas in Hr.
  - simplify_eq. phase_ok.
Qed.
End Effects.

(** ** Consequences of the invariant used in its own preservation *)
Lemma disposes_cases (p : phase) : disposes p = true -> needs_owned p = true \/ needs_closed p = true.
Proof. destruct p; cbn; auto. Qed.

Section Consequences.
Context {s : system} (Hinv : inv s).

Lemma inv_key_inj i j sc sc' n n' :
  sess s !! i = Some sc -> sess s !! j = Some sc' -> session_key sc n = session_key sc' n' -> i = j /\ n = n'.
Proof.
  intros Hi Hj Heq.
  destruct (session_key_inj sc sc' n n') as [Hid ->]; [by eapply ok_id, inv_sess..| done |].
  split; [by eapply inv_ids | done].
Qed.

Lemma inv_call c cl sc :
  calls s !! c = Some cl -> sess s !! c_sid cl = Some sc -> call_ok (cm (w s)) sc cl.
Proof. intros Hc Hs. destruct (inv_calls _ Hinv _ _ Hc) as (sc' & Hs' & Hok). congruence. Qed.

(** An open session has no registered connection under a name it does not own. *)
Lemma unowned_unregistered i sc n :
  sess s !! i = Some sc -> closed sc = false -> owned sc !! n = None ->
  connections (cm (w s)) !! session_key sc n = None.
Proof.
  intros Hi Hopen Hown. destruct (connections (cm (w s)) !! session_key sc n) eqn:Hreg; [|done]. exfalso.
  destruct (inv_registered _ Hinv (session_key sc n)) as (j & sc' & n' & Hj & Hkey & Hwhy);
    [apply session_key_is_session | by rewrite Hreg |].
  destruct (inv_key_inj _ _ _ _ _ _ Hi Hj Hkey) as [<- <-]. assert (sc' = sc) as -> by congruence.
  destruct Hwhy as [Hwhy|[(c & cl & Hc & Hsid & Hname & Hdis)|(keys & Hkeys & _)]].
  - congruence.
  - subst i n. pose proof (inv_call _ _ _ Hc Hi) as Hok.
    destruct (disposes_cases _ Hdis) as [Hp|Hp];
      [by rewrite (ok_owned _ _ _ Hok Hp Hopen) in Hown | by rewrite (ok_closed _ _ _ Hok Hp) in Hopen].
  - destruct (inv_closers _ Hinv _ _ Hkeys) as (sc' & Hsc' & Hcl & _). congruence.
Qed.
End Consequences.

(** The count is the size of the set of session keys, registered or being added. *)
Definition session_set (m : ConnectionManager) : gset gostr :=
  filter (fun name => isSessionConnKey name = true) (dom (connections m) ∪ pendingAdds m).

Lemma session_count (m : ConnectionManager) : sessionConnCountLocked m = size (session_set m).
Proof.
  unfold sessionConnCountLocked, session_set. rewrite <- size_union.
  - f_equal. apply set_eq. intros k. rewrite elem_of_union, !elem_of_filter, elem_of_union, elem_of_dom, registered_false.
    rewrite <- (not_eq_None_Some (connections m !! k)).
    destruct (decide (connections m !! k = None)); tauto.
  - intros k. rewrite !elem_of_filter, elem_of_dom, registered_false. intros [_ [p Hp]] [[_ Hn] _]. congruence.
Qed.

(** ** The step of a call *)
Section CallStep.
Context `{MySQLDriver}.
Variable version : gostr.
Variable cfg : Config.
Context {s : system} (Hinv : inv s).
Context {c : nat} {cl : call} {sc : sessionConn} {io : io_outcome} {w' : world} {sc' : sessionConn} {p : option phase}.
Context (Hc : calls s !! c = Some cl) (Hsc : sess s !! c_sid cl = Some sc)
        (Hstep : call_step version cfg io cl (w s) sc = (w', sc', p)).

Definition after : system :=
  {| w := w'; sess := <[c_sid cl := sc']> (sess s); calls := put_call c cl p (calls s); closers := closers s |}.

Lemma after_call_other c2 : c2 <> c -> calls after !! c2 = calls s !! c2.
Proof.
  intros Hne. unfold after, put_call. cbn. destruct p; [by rewrite lookup_insert_ne | by rewrite lookup_delete_ne].
Qed.
Lemma after_call_self cl2 : calls after !! c = Some cl2 -> exists p', p = Some p' /\ cl2 = set_phase p' cl.
Proof.
  unfold after, put_call. cbn. destruct p as [p'|]; [|by rewrite lookup_delete_eq].
  rewrite lookup_insert_eq. intros [= <-]. eauto.
Qed.
Lemma after_sess_self : sess after !! c_sid cl = Some sc'.
Proof. unfold after. cbn. apply lookup_insert_eq. Qed.
Lemma after_sess_other j : j <> c_sid cl -> sess after !! j = sess s !! j.
Proof. intros Hne. unfold after. cbn. by rewrite lookup_insert_ne. Qed.

Lemma step_ok : call_ok (cm (w s)) sc cl.
Proof. by eapply inv_call. Qed.

Lemma step_session :
  id sc' = id sc /\ closed sc' = closed sc.
Proof. by destruct (call_step_session _ _ _ _ _ _ _ _ _ Hstep) as (? & ? & _). Qed.

(** A session after the step, and the same session before. *)
Lemma after_sess_inv j sc2 :
  sess after !! j = Some sc2 -> exists sc1, sess s !! j = Some sc1 /\ id sc2 = id sc1 /\ closed sc2 = closed sc1 /\
    (j <> c_sid cl -> sc2 = sc1) /\ (j = c_sid cl -> sc2 = sc' /\ sc1 = sc).
Proof.
  destruct (decide (j = c_sid cl)) as [->|Hne].
  - rewrite after_sess_self. intros [= <-]. exists sc. destruct step_session. done.
  - rewrite after_sess_other by done. intros Hj. exists sc2. done.
Qed.
Lemma after_sess_fwd j sc1 :
  sess s !! j = Some sc1 -> exists sc2, sess after !! j = Some sc2 /\ id sc2 = id sc1 /\ closed sc2 = closed sc1.
Proof.
  destruct (decide (j = c_sid cl)) as [->|Hne].
  - rewrite Hsc. intros [= <-]. exists sc'. split; [apply after_sess_self | apply step_session].
  - intros Hj. exists sc1. by rewrite after_sess_other.
Qed.

Lemma step_inv_ids i j sc1 sc2 :
  sess after !! i = Some sc1 -> sess after !! j = Some sc2 -> id sc1 = id sc2 -> i = j.
Proof.
  intros Hi Hj Heq. apply after_sess_inv in Hi as (a & Hi & Hia & _), Hj as (b & Hj & Hjb & _).
  eapply inv_ids; [exact Hinv | exact Hi | exact Hj | congruence].
Qed.

Lemma step_inv_sess i sc2 : sess after !! i = Some sc2 -> sess_ok sc2.
Proof.
  intros Hi. destruct (after_sess_inv _ _ Hi) as (sc1 & Hi1 & Hid & Hcl & Hother & Hself).
  destruct (inv_sess _ Hinv _ _ Hi1) as [H1 H2 H3 H4 H5].
  destruct (decide (i = c_sid cl)) as [->|Hne]; [|by rewrite (Hother Hne)].
  destruct (Hself eq_refl) as [-> ->].
  destruct (call_step_session _ _ _ _ _ _ _ _ _ Hstep) as (_ & _ & Howned & Hname).
  assert (Hkey : forall n, session_key sc' n = session_key sc n) by (intros; by apply session_key_id).
  assert (Hown : forall t, own_name sc t -> own_name sc' t).
  { intros t [Ht|[n Ht]]; [by left | right; exists n; by rewrite Hkey]. }
  split; [congruence | | | |].
  - intros n k. rewrite Hkey. destruct Howned as [->|[(_ & _ & _ & _ & _ & ->)|(_ & ->)]]; [apply H2 | |].
    + rewrite lookup_insert_Some. intros [[<- <-]|[_ Hk]]; [done | by apply H2].
    + rewrite lookup_delete_Some. intros [_ Hk]. by apply H2.
  - destruct Howned as [->|[(_ & _ & Hnone & Hlt & _ & ->)|(_ & ->)]]; [done | |].
    + rewrite map_size_insert_None by done. lia.
    + rewrite map_size_delete. destruct (owned sc !! c_name cl); cbn; lia.
  - rewrite Hcl. intros Hcl1. specialize (H4 Hcl1).
    destruct Howned as [->|[(_ & Hopen & _)|(_ & ->)]]; [done | congruence | by rewrite H4, delete_empty].
  - apply Hown. destruct Hname as [->|[added Hph]]; [done|].
    pose proof (ok_target _ _ _ step_ok) as Ht. by rewrite Hph in Ht.
Qed.

Lemma step_manager :
  let k := session_key sc (c_name cl) in
  (connections (cm w') = connections (cm (w s)) \/
   (exists o, c_phase cl = AtRegister k o /\ p = Some (AtUnreserve k true) /\ connections (cm (w s)) !! k = None /\
      connections (cm w') = <[k := o_pool o]> (connections (cm (w s)))) \/
   c_phase cl = AtRemove k /\ connections (cm w') = delete k (connections (cm (w s)))) /\
  (pendingAdds (cm w') = pendingAdds (cm (w s)) \/
   c_phase cl = AtPending k /\ p = Some (AtOpen k) /\ (k ∉ pendingAdds (cm (w s))) /\ registered k (cm (w s)) = false /\
     sessionConnCountLocked (cm (w s)) < maxTotalSessionConnections /\
     pendingAdds (cm w') = {[k]} ∪ pendingAdds (cm (w s)) \/
   (exists ok, c_phase cl = AtUnreserve k ok) /\ pendingAdds (cm w') = pendingAdds (cm (w s)) ∖ {[k]}) /\
  (activeConn (cm w') = activeConn (cm (w s)) \/ activeConn (cm w') = []).
Proof. exact (call_step_manager _ _ _ _ _ _ _ _ _ step_ok Hstep). Qed.

(** Another call with the key of the call that steps is a call of the same session and name. *)
Lemma same_key c2 cl2 sc2 :
  calls s !! c2 = Some cl2 -> sess s !! c_sid cl2 = Some sc2 ->
  session_key sc2 (c_name cl2) = session_key sc (c_name cl) -> c_sid cl2 = c_sid cl /\ c_name cl2 = c_name cl /\ sc2 = sc.
Proof.
  intros _ Hs2 Heq. destruct (inv_key_inj Hinv _ _ _ _ _ _ Hs2 Hsc Heq) as [Hsid Hname].
  rewrite Hsid in Hs2. repeat split; [done | done | congruence].
Qed.

(** The other calls keep their invariant. *)
Lemma step_other_call c2 cl2 sc2 sc2' :
  c2 <> c -> calls s !! c2 = Some cl2 -> sess s !! c_sid cl2 = Some sc2 -> sess after !! c_sid cl2 = Some sc2' ->
  call_ok (cm w') sc2' cl2.
Proof.
  intros Hne Hc2 Hs2 Hs2'. pose proof (inv_call Hinv _ _ _ Hc2 Hs2) as Hok2.
  destruct (after_sess_inv _ _ Hs2') as (sc1 & Hs1 & Hid & Hcl & Hother & Hself).
  assert (sc1 = sc2) as -> by congruence.
  destruct step_manager as (Hconn & Hpend & _).
  assert (Hexcl : exclusive (c_phase cl) = true -> exclusive (c_phase cl2) = true ->
            session_key sc2 (c_name cl2) = session_key sc (c_name cl) -> False).
  { intros H1 H2 Hk. destruct (same_key _ _ _ Hc2 Hs2 Hk) as (Hsid & Hname & _).
    apply Hne. by eapply inv_exclusive. }
  eapply call_ok_frame; [exact Hok2 | done | congruence | congruence | | | |].
  - intros Hneed Hopen Hown. destruct (decide (c_sid cl2 = c_sid cl)) as [Hsid|Hsid]; [|by rewrite Hother].
    destruct (Hself Hsid) as [-> ->].
    destruct (call_step_session _ _ _ _ _ _ _ _ _ Hstep) as (_ & _ & Howned & _).
    destruct Howned as [->|[(_ & _ & Hnone & _ & _ & ->)|([k Hph] & ->)]]; [done | |].
    + destruct (decide (c_name cl2 = c_name cl)) as [Hn|Hn]; [congruence | by rewrite lookup_insert_ne by congruence].
    + destruct (decide (c_name cl2 = c_name cl)) as [Hn|Hn]; [|by rewrite lookup_delete_ne by congruence]. exfalso.
      assert (Hopen' : closed sc = false) by congruence. pose proof step_ok as Hok.
      destruct Hph as [Hph|Hph]; [|pose proof (ok_closed _ _ _ Hok) as Hx; rewrite Hph in Hx; rewrite Hx in Hopen'; done].
      destruct (exclusive (c_phase cl2)) eqn:He; [apply Hexcl; [by rewrite Hph | done | by rewrite Hn]|].
      pose proof (ok_free _ _ _ Hok) as Hf. rewrite Hph in Hf. specialize (Hf eq_refl Hopen').
      destruct (ok_registered _ _ _ Hok2) as [pl Hpl]; [|done|rewrite Hn in Hpl; congruence].
      destruct (c_phase cl2); try done; by destruct added.
  - intros Hneed Hopen Hfree.
    destruct Hconn as [->|[(o & Hph & _ & _ & ->)|(Hph & ->)]]; [done | |].
    + rewrite lookup_insert_ne; [done|]. intros Hk. apply Hexcl; [by rewrite Hph | | done].
      by destruct (c_phase cl2).
    + rewrite lookup_delete_None. auto.
  - intros Hneed Hopen Hreg.
    destruct Hconn as [->|[(o & Hph & _ & _ & ->)|(Hph & ->)]]; [done | |].
    + rewrite lookup_insert_is_Some'. auto.
    + rewrite lookup_delete_ne; [done|]. intros Hk. symmetry in Hk.
      destruct (same_key _ _ _ Hc2 Hs2 Hk) as (_ & _ & ->).
      pose proof (ok_closed _ _ _ step_ok) as Hx. rewrite Hph in Hx. rewrite Hx in Hcl; [congruence | done].
  - intros Hneed Hin.
    destruct Hpend as [->|[(_ & _ & _ & _ & _ & ->)|([ok Hph] & ->)]]; [done | by apply elem_of_union_r |].
    rewrite elem_of_difference, elem_of_singleton. split; [done|]. intros Hk.
    apply Hexcl; [by rewrite Hph | | done]. by destruct (c_phase cl2).
Qed.

Lemma step_inv_calls c2 cl2 :
  calls after !! c2 = Some cl2 -> exists sc2, sess after !! c_sid cl2 = Some sc2 /\ call_ok (cm (w after)) sc2 cl2.
Proof.
  destruct (decide (c2 = c)) as [->|Hne].
  - intros Hc2. apply after_call_self in Hc2 as (p' & Hp & ->). exists sc'. split; [apply after_sess_self|].
    cbn. eapply call_step_self; [apply step_ok | by eapply inv_sess | | rewrite Hstep, Hp; done].
    intros _ Hopen Hown. by eapply unowned_unregistered.
  - rewrite after_call_other by done. intros Hc2.
    destruct (inv_calls _ Hinv _ _ Hc2) as (sc2 & Hs2 & _). destruct (after_sess_fwd _ _ Hs2) as (sc2' & Hs2' & _).
    exists sc2'. split; [done|]. by eapply step_other_call.
Qed.

(** Only a reservation makes a call exclusive, and then no other call has the name. *)
Lemma step_exclusive p' :
  p = Some p' -> exclusive p' = true ->
  exclusive (c_phase cl) = true \/ closed sc = false /\ owned sc !! c_name cl = None.
Proof.
  intros -> He. pose proof (call_step_session _ _ _ _ _ _ _ _ _ Hstep) as (_ & _ & Howned & _).
  destruct (c_phase cl) eqn:Hph; try (by left); right; unfold call_step in Hstep; rewrite Hph in Hstep.
  all: try (repeat case_match; simplify_eq; done).
  unfold reserve in Hstep. destruct (closed sc) eqn:Hcl; [simplify_eq|].
  case_bool_decide as Hown; [simplify_eq|]. by rewrite <- eq_None_not_Some in Hown.
Qed.

Lemma step_inv_exclusive c1 c2 cl1 cl2 :
  calls after !! c1 = Some cl1 -> calls after !! c2 = Some cl2 ->
  exclusive (c_phase cl1) = true -> exclusive (c_phase cl2) = true ->
  c_sid cl1 = c_sid cl2 -> c_name cl1 = c_name cl2 -> c1 = c2.
Proof.
  assert (Hmain : forall c2 cl2 p', c2 <> c -> calls s !! c2 = Some cl2 -> p = Some p' -> exclusive p' = true ->
    exclusive (c_phase cl2) = true -> c_sid cl2 = c_sid cl -> c_name cl2 = c_name cl -> False).
  { intros c3 cl3 p' Hne Hc3 Hp He He3 Hsid Hname. destruct (step_exclusive p' Hp He) as [Hold|[Hopen Hown]].
    - apply Hne. eapply inv_exclusive; eauto.
    - rewrite <- Hsid in Hsc. pose proof (inv_call Hinv _ _ _ Hc3 Hsc) as Hok.
      rewrite <- Hname in Hown. rewrite (ok_owned _ _ _ Hok) in Hown; [done | | done]. unfold needs_owned. by rewrite He3. }
  destruct (decide (c1 = c)) as [->|H1], (decide (c2 = c)) as [->|H2]; [done|..].
  - intros Hc1 Hc2 He1 He2 Hsid Hname. rewrite after_call_other in Hc2 by done.
    apply after_call_self in Hc1 as (p' & Hp & ->). cbn in *. exfalso. by eapply Hmain.
  - intros Hc1 Hc2 He1 He2 Hsid Hname. rewrite after_call_other in Hc1 by done.
    apply after_call_self in Hc2 as (p' & Hp & ->). cbn in *. exfalso. by eapply Hmain.
  - rewrite !after_call_other by done. apply inv_exclusive. done.
Qed.

Lemma step_inv_closers i keys :
  closers after !! i = Some keys ->
  exists sc2, sess after !! i = Some sc2 /\ closed sc2 = true /\ forall k, k ∈ keys -> exists n, k = session_key sc2 n.
Proof.
  intros Hi. destruct (inv_closers _ Hinv _ _ Hi) as (sc1 & Hs1 & Hcl & Hk).
  destruct (after_sess_fwd _ _ Hs1) as (sc2 & Hs2 & Hid & Hcl2). exists sc2. split; [done|]. split; [congruence|].
  intros k Hin. destruct (Hk _ Hin) as [n ->]. exists n. symmetry. by apply session_key_id.
Qed.

Lemma step_next : p = snd (match c_phase cl with
  | AtRollback key => (w', sc', Some (AtRemove key))
  | AtUnreserve key true => (w', sc', Some (AtClosedCheck key))
  | AtClosedCheck key => (w', sc', Some (if closed sc then AtRemove key else AtResolve (Some key)))
  | _ => (w', sc', p)
  end).
Proof. pose proof Hstep as Hst. unfold call_step in Hst. repeat case_match; simplify_eq; done. Qed.

Lemma account_call p' :
  p = Some p' -> disposes p' = true -> accounted after (session_key sc (c_name cl)).
Proof.
  intros Hp Hd. exists (c_sid cl), sc', (c_name cl). split; [apply after_sess_self|].
  split; [symmetry; apply session_key_id, step_session|]. right. left. exists c, (set_phase p' cl).
  split; [|done]. unfold after, put_call. cbn. rewrite Hp. apply lookup_insert_eq.
Qed.

Lemma account_owned :
  owned sc' !! c_name cl = Some (session_key sc (c_name cl)) -> accounted after (session_key sc (c_name cl)).
Proof.
  intros Hown. exists (c_sid cl), sc', (c_name cl). split; [apply after_sess_self|].
  split; [symmetry; apply session_key_id, step_session | by left].
Qed.

Lemma step_owned_accounted :
  is_Some (connections (cm (w s)) !! session_key sc (c_name cl)) ->
  owned sc !! c_name cl = Some (session_key sc (c_name cl)) -> accounted after (session_key sc (c_name cl)).
Proof.
  intros [pl Hreg] Hown. destruct (call_step_session _ _ _ _ _ _ _ _ _ Hstep) as (_ & _ & Howned & _).
  destruct Howned as [Hsame|[(_ & _ & Hnone & _)|([k Hph] & _)]]; [apply account_owned; by rewrite Hsame | congruence |].
  destruct Hph as [Hph|Hph].
  - exfalso. destruct (closed sc) eqn:Hcl.
    + destruct (inv_sess _ Hinv _ _ Hsc) as [_ _ _ Hended _]. by rewrite (Hended Hcl), lookup_empty in Hown.
    + pose proof (ok_free _ _ _ step_ok) as Hf. rewrite Hph in Hf. rewrite Hf in Hreg; done.
  - eapply account_call; [by rewrite step_next, Hph | done].
Qed.

Lemma step_disposes_accounted :
  is_Some (connections (cm (w s)) !! session_key sc (c_name cl)) ->
  connections (cm w') = connections (cm (w s)) ->
  disposes (c_phase cl) = true -> accounted after (session_key sc (c_name cl)).
Proof.
  intros Hreg Hsame Hdis. pose proof (ok_key _ _ _ step_ok) as Hkey. pose proof (ok_owned _ _ _ step_ok) as Hown.
  pose proof step_next as Hp. pose proof (call_step_session _ _ _ _ _ _ _ _ _ Hstep) as (_ & Hcl & _).
  destruct (c_phase cl) as [| | | | |k []|k|k|k| | | |k] eqn:Hph; try done; try (pose proof (Hkey k eq_refl) as ->);
    cbn in Hp.
  - by eapply account_call.
  - destruct (closed sc) eqn:Hcl'; [by eapply account_call|]. apply account_owned.
    replace (owned sc') with (owned sc); [by apply Hown|].
    assert (Hsc' : sc' = snd (fst (call_step version cfg io cl (w s) sc))) by (by rewrite Hstep).
    unfold call_step in Hsc'. rewrite Hph in Hsc'. by rewrite Hsc'.
  - exfalso. assert (Hw : w' = fst (fst (call_step version cfg io cl (w s) sc))) by (by rewrite Hstep).
    unfold call_step in Hw. rewrite Hph in Hw. cbn in Hw. rewrite Hw in Hsame.
    unfold RemoveConnection in Hsame. rewrite (proj2 (registered_spec _ _) Hreg) in Hsame.
    cbn [negb fst] in Hsame. rewrite tearDown_connections in Hsame. rewrite <- Hsame, lookup_delete_eq in Hreg. by destruct Hreg.
  - by eapply account_call.
Qed.

Lemma step_pending_next :
  needs_pending (c_phase cl) = true -> pendingAdds (cm w') = pendingAdds (cm (w s)) ->
  exists p', p = Some p' /\ needs_pending p' = true.
Proof.
  intros Hn Hsame. pose proof (ok_key _ _ _ step_ok) as Hkey. pose proof (ok_pending _ _ _ step_ok Hn) as Hin.
  pose proof Hstep as Hst. unfold call_step in Hst.
  destruct (c_phase cl) as [| | |k|k o|k ok| | | | | | |] eqn:Hph; try done.
  - repeat case_match; simplify_eq; eauto.
  - repeat case_match; simplify_eq; eauto.
  - exfalso. simplify_eq. pose proof (Hkey k eq_refl) as ->. cbn in Hsame. rewrite <- Hsame in Hin.
    apply elem_of_difference in Hin as [_ Hin]. by apply Hin, elem_of_singleton.
Qed.

(** Registered keys stay accounted for. *)
Lemma step_inv_registered k :
  isSessionConnKey k = true -> is_Some (connections (cm (w after)) !! k) -> accounted after k.
Proof.
  intros Hsess Hreg. destruct step_manager as (Hconn & _ & _).
  destruct (call_step_session _ _ _ _ _ _ _ _ _ Hstep) as (_ & _ & Howned & _).
  assert (Hold : is_Some (connections (cm (w s)) !! k) -> accounted s k) by (by apply inv_registered).
  destruct (decide (k = session_key sc (c_name cl))) as [Hk|Hk].
  - (* the key of the call *)
    destruct Hconn as [Hsame|[(o & Hph & Hp & _ & _)|(Hph & Hdel)]].
    2: { rewrite Hk. by eapply account_call. }
    2: { cbn in Hreg. rewrite Hdel, Hk, lookup_delete_eq in Hreg. by destruct Hreg. }
    cbn in Hreg. rewrite Hsame in Hreg. destruct (Hold Hreg) as (i & sc1 & n & Hi & Hkey & Hwhy).
    destruct (inv_key_inj Hinv _ _ _ _ _ _ Hsc Hi (eq_trans (eq_sym Hk) Hkey)) as [<- <-].
    assert (sc1 = sc) as -> by congruence.
    destruct Hwhy as [Hown|[(c2 & cl2 & Hc2 & Hsid & Hname & Hdis)|(keys & Hkeys & Hin)]].
    + rewrite Hk. apply step_owned_accounted; congruence.
    + destruct (decide (c2 = c)) as [->|Hne].
      * assert (cl2 = cl) as -> by congruence. rewrite Hk in Hreg |- *. by apply step_disposes_accounted.
      * exists (c_sid cl), sc', (c_name cl). split; [apply after_sess_self|].
        split; [rewrite Hk; symmetry; apply session_key_id, step_session|]. right. left. exists c2, cl2.
        by rewrite after_call_other.
    + exists (c_sid cl), sc', (c_name cl). split; [apply after_sess_self|].
      split; [rewrite Hk; symmetry; apply session_key_id, step_session|]. right. right. by exists keys.
  - (* another key *)
    assert (Hreg' : is_Some (connections (cm (w s)) !! k)).
    { cbn in Hreg. destruct Hconn as [Hsame|[(o & _ & _ & _ & Hins)|(_ & Hdel)]]; [by rewrite <- Hsame | |].
      - by rewrite Hins, lookup_insert_ne in Hreg by done.
      - by rewrite Hdel, lookup_delete_ne in Hreg by done. }
    destruct (Hold Hreg') as (i & sc1 & n & Hi & Hkey & Hwhy).
    destruct (after_sess_fwd _ _ Hi) as (sc2 & Hi2 & Hid & Hcl2).
    exists i, sc2, n. split; [done|]. split; [rewrite Hkey; symmetry; by apply session_key_id|].
    destruct Hwhy as [Hown|[(c2 & cl2 & Hc2 & Hsid & Hname & Hdis)|Hclo]]; [left | | by right; right].
    + destruct (after_sess_inv _ _ Hi2) as (sc0 & Hs0 & _ & _ & Hother & Hself). assert (sc0 = sc1) as -> by congruence.
      destruct (decide (i = c_sid cl)) as [Hi'|Hi']; [|by rewrite Hother]. destruct (Hself Hi') as [-> ->].
      assert (Hn : n <> c_name cl) by (intros ->; done).
      destruct Howned as [->|[(_ & _ & _ & _ & _ & ->)|(_ & ->)]]; [done | by rewrite lookup_insert_ne | by rewrite lookup_delete_ne].
    + right. left. exists c2, cl2. rewrite after_call_other; [done|]. intros ->. apply Hk.
      assert (cl2 = cl) as -> by congruence. subst. congruence.
Qed.

(** Pending keys belong to calls between their reservation and its release. *)
Lemma step_inv_pending k :
  k ∈ pendingAdds (cm (w after)) ->
  exists c2 cl2 sc2, calls after !! c2 = Some cl2 /\ needs_pending (c_phase cl2) = true /\
    sess after !! c_sid cl2 = Some sc2 /\ k = session_key sc2 (c_name cl2).
Proof.
  intros Hin. cbn in Hin. destruct step_manager as (_ & Hpend & _).
  assert (Hself : forall p', p = Some p' -> needs_pending p' = true -> k = session_key sc (c_name cl) ->
    exists c2 cl2 sc2, calls after !! c2 = Some cl2 /\ needs_pending (c_phase cl2) = true /\
      sess after !! c_sid cl2 = Some sc2 /\ k = session_key sc2 (c_name cl2)).
  { intros p' Hp Hn ->. exists c, (set_phase p' cl), sc'. split; [unfold after, put_call; cbn; rewrite Hp; apply lookup_insert_eq|].
    split; [done|]. split; [apply after_sess_self|]. symmetry. apply session_key_id, step_session. }
  assert (Hold : k ∈ pendingAdds (cm (w s)) ->
    (k = session_key sc (c_name cl) -> needs_pending (c_phase cl) = true -> pendingAdds (cm w') = pendingAdds (cm (w s))) ->
    exists c2 cl2 sc2, calls after !! c2 = Some cl2 /\ needs_pending (c_phase cl2) = true /\
      sess after !! c_sid cl2 = Some sc2 /\ k = session_key sc2 (c_name cl2)).
  { intros Hin' Hp. destruct (inv_pending _ Hinv _ Hin') as (c2 & cl2 & sc2 & Hc2 & Hn & Hs2 & Hk).
    destruct (decide (c2 = c)) as [->|Hne].
    - assert (cl2 = cl) as -> by congruence. assert (sc2 = sc) as -> by congruence.
      destruct (step_pending_next Hn (Hp Hk Hn)) as (p' & Hp' & Hn'). by eapply Hself.
    - destruct (after_sess_fwd _ _ Hs2) as (sc2' & Hs2' & Hid & _). exists c2, cl2, sc2'.
      rewrite after_call_other by done. do 3 (split; [done|]). rewrite Hk. symmetry. by apply session_key_id. }
  destruct Hpend as [Hsame|[(Hph & Hp & _ & _ & _ & Hadd)|([ok Hph] & Hrem)]].
  - rewrite Hsame in Hin. by apply Hold.
  - rewrite Hadd, elem_of_union, elem_of_singleton in Hin. destruct Hin as [Hk|Hin]; [by eapply Hself|].
    apply Hold; [done|]. intros _ Hn. by rewrite Hph in Hn.
  - rewrite Hrem, elem_of_difference, elem_of_singleton in Hin. destruct Hin as [Hin Hk]. apply Hold; [done|]. by intros ->.
Qed.

Lemma session_set_after : session_set (cm w') ⊆ session_set (cm (w s)) \/
  sessionConnCountLocked (cm (w s)) < maxTotalSessionConnections /\
  session_set (cm w') ⊆ {[session_key sc (c_name cl)]} ∪ session_set (cm (w s)).
Proof.
  destruct step_manager as (Hconn & Hpend & _). unfold session_set.
  assert (Hdom : dom (connections (cm w')) ∪ pendingAdds (cm (w s)) ⊆ dom (connections (cm (w s))) ∪ pendingAdds (cm (w s))).
  { intros k. rewrite !elem_of_union. intros [Hk|Hk]; [|by right].
    destruct Hconn as [Heq|[(o & Hph & _ & _ & Heq)|(_ & Heq)]]; rewrite Heq in Hk; [by left | |].
    - rewrite dom_insert, elem_of_union, elem_of_singleton in Hk. destruct Hk as [->|Hk]; [right | by left].
      apply (ok_pending _ _ _ step_ok). by rewrite Hph.
    - rewrite dom_delete, elem_of_difference in Hk. left. tauto. }
  destruct Hpend as [->|[(Hph & _ & _ & _ & Hlt & ->)|(_ & ->)]].
  - left. intros k. rewrite !elem_of_filter. intros [? Hk]. split; [done | by apply Hdom].
  - right. split; [done|]. intros k. specialize (Hdom k). rewrite !elem_of_union in Hdom.
    rewrite elem_of_union, !elem_of_filter, !elem_of_union, elem_of_singleton. tauto.
  - left. intros k. specialize (Hdom k). rewrite !elem_of_union in Hdom.
    rewrite !elem_of_filter, !elem_of_union, elem_of_difference. tauto.
Qed.

Lemma step_inv_cap : sessionConnCountLocked (cm w') <= maxTotalSessionConnections.
Proof.
  pose proof (inv_cap _ Hinv) as Hcap. rewrite session_count in Hcap |- *.
  destruct session_set_after as [Hsub|[Hlt Hsub]]; apply subseteq_size in Hsub; [lia|].
  rewrite session_count in Hlt. pose proof (size_union_alt {[session_key sc (c_name cl)]} (session_set (cm (w s)))) as Hsize.
  rewrite size_singleton in Hsize.
  pose proof (subseteq_size (session_set (cm (w s)) ∖ {[session_key sc (c_name cl)]}) (session_set (cm (w s))) ltac:(intros k; rewrite elem_of_difference; tauto)).
  lia.
Qed.

Lemma step_inv_active : isSessionConnKey (activeConn (cm w')) = false.
Proof. destruct step_manager as (_ & _ & [-> | ->]); [apply Hinv | done]. Qed.

Lemma fly_after :
  fly after = match p ≫= in_flight with Some o => <[c := o]> (fly s) | None => delete c (fly s) end.
Proof.
  unfold fly, after, put_call. cbn. destruct p as [p'|]; cbn.
  - apply map_eq. intros c2. destruct (in_flight p') as [o|] eqn:Hf; rewrite lookup_omap.
    + destruct (decide (c2 = c)) as [->|Hne]; [by rewrite !lookup_insert_eq|].
      by rewrite !lookup_insert_ne, lookup_omap by done.
    + destruct (decide (c2 = c)) as [->|Hne]; [by rewrite lookup_insert_eq, lookup_delete_eq|].
      by rewrite lookup_insert_ne, lookup_delete_ne, lookup_omap by done.
  - apply omap_delete.
Qed.

Lemma fly_here : fly s !! c = in_flight (c_phase cl).
Proof. unfold fly. by rewrite lookup_omap, Hc. Qed.

Lemma step_inv_resources : resources_ok (fly after) (w after).
Proof.
  pose proof (inv_resources _ Hinv) as Hres. rewrite fly_after. cbn. pose proof fly_here as Hhere.
  assert (Hkeep : in_flight (c_phase cl) = None -> delete c (fly s) = fly s) by (intros Hf; apply delete_id; congruence).
  pose proof Hstep as Hst. unfold call_step in Hst.
  destruct (c_phase cl) as [| |key|key|key o|key ok|key|key|key|added|added t|added t|key] eqn:Hph;
    cbn in Hhere.
  - repeat case_match; simplify_eq/=; by rewrite ?Hkeep.
  - repeat case_match; simplify_eq/=; by rewrite ?Hkeep.
  - destruct (reserve_add key (cm (w s))) as [m [e|]] eqn:Hra; simplify_eq/=; rewrite Hkeep by done.
    + apply reserve_add_Some in Hra as ->. by apply resources_cm.
    + apply reserve_add_None in Hra as (_ & _ & _ & ->). by apply resources_cm.
  - destruct (open_conn version _ cfg io (w s)) as [w1 r] eqn:Hopen.
    pose proof (open_conn_spec _ _ _ _ _ _ _ _ _ Hres Hhere Hopen) as [_ Hr].
    destruct r; simplify_eq/=; [done | rewrite Hkeep by done; tauto].
  - destruct (register_conn _ cfg false o (w s)) as [w1 err] eqn:Hreg. simplify_eq/=.
    replace w' with (fst (register_conn (runtime_config key (c_dsn cl) (c_desc cl)) cfg false o (w s))) by (by rewrite Hreg).
    by apply register_resources.
  - simplify_eq/=. destruct ok; cbn; rewrite Hkeep by done; by apply resources_cm.
  - simplify_eq/=. by rewrite Hkeep.
  - simplify_eq/=. destruct (closed sc'); cbn; by rewrite Hkeep.
  - simplify_eq/=. rewrite Hkeep by done. unfold RemoveConnection.
    destruct (negb (registered key (cm (w s)))); [done | by apply tearDown_resources].
  - simplify_eq/=. by rewrite Hkeep.
  - repeat case_match; simplify_eq/=; by rewrite ?Hkeep.
  - simplify_eq/=. by rewrite Hkeep.
  - simplify_eq/=. by rewrite Hkeep.
Qed.

Lemma step_call_inv : inv after.
Proof.
  split; cbn [w].
  - exact step_inv_ids.
  - exact step_inv_sess.
  - exact step_inv_calls.
  - exact step_inv_exclusive.
  - exact step_inv_closers.
  - exact step_inv_registered.
  - exact step_inv_pending.
  - exact step_inv_cap.
  - exact step_inv_active.
  - exact step_inv_resources.
Qed.
End CallStep.

(** ** The other steps *)
Section OtherSteps.
Context {s : system} (Hinv : inv s).

Lemma accounted_mono s' k :
  accounted s k ->
  (forall i sc, sess s !! i = Some sc -> sess s' !! i = Some sc) ->
  (forall c cl, calls s !! c = Some cl -> calls s' !! c = Some cl) -> closers s' = closers s -> accounted s' k.
Proof.
  intros (i & sc & n & Hi & Hk & Hwhy) Hsess Hcalls Hclo. exists i, sc, n. split; [by apply Hsess|]. split; [done|].
  rewrite Hclo. destruct Hwhy as [?|[(c & cl & Hc & ?)|?]]; [by left | right; left; exists c, cl; auto | by right; right].
Qed.

Lemma new_call_inv c cl :
  calls s !! c = None -> is_Some (sess s !! c_sid cl) ->
  (forall sc, sess s !! c_sid cl = Some sc -> call_ok (cm (w s)) sc cl) ->
  exclusive (c_phase cl) = false -> in_flight (c_phase cl) = None ->
  inv {| w := w s; sess := sess s; calls := <[c := cl]> (calls s); closers := closers s |}.
Proof.
  intros Hc [sc Hsc] Hok Hexcl Hfly.
  assert (Hmono : forall c' cl', calls s !! c' = Some cl' -> <[c:=cl]> (calls s) !! c' = Some cl').
  { intros c' cl' Hc'. rewrite lookup_insert_ne; [done|]. intros ->. congruence. }
  split; cbn; try apply Hinv.
  - intros c' cl'. rewrite lookup_insert_Some. intros [[<- <-]|[_ Hc']]; [exists sc; auto | by eapply inv_calls].
  - intros c1 c2 cl1 cl2. rewrite !lookup_insert_Some.
    intros [[<- <-]|[_ H1]] [[<- <-]|[_ H2]]; try (by intros; congruence). exact (inv_exclusive _ Hinv c1 c2 cl1 cl2 H1 H2).
  - intros k Hk Hreg. eapply accounted_mono; [by apply inv_registered | done..].
  - intros k Hk. destruct (inv_pending _ Hinv _ Hk) as (c' & cl' & sc' & Hc' & ?). exists c', cl', sc'. auto.
  - match goal with |- resources_ok ?f _ => replace f with (fly s) end; [apply Hinv|]. unfold fly. cbn. apply map_eq. intros c'. rewrite !lookup_omap.
    destruct (decide (c' = c)) as [->|Hne]; [by rewrite lookup_insert_eq, Hc | by rewrite lookup_insert_ne].
Qed.

Lemma start_ok m sc i name dsn desc :
  isSessionConnKey name = false ->
  call_ok m sc {| c_sid := i; c_name := name; c_dsn := dsn; c_desc := desc; c_phase := AtHas |}.
Proof. by split. Qed.
Lemma use_ok m sc i name dsn desc :
  call_ok m sc {| c_sid := i; c_name := name; c_dsn := dsn; c_desc := desc; c_phase := AtResolve None |}.
Proof. by split. Qed.

Lemma open_session_inv i random :
  sess s !! i = None -> ("/"%char ∉ random) -> (forall j sc, sess s !! j = Some sc -> id sc <> random) ->
  inv {| w := w s; sess := <[i := newSessionConn random]> (sess s); calls := calls s; closers := closers s |}.
Proof.
  intros Hi Hslash Hfresh.
  assert (Hmono : forall j sc, sess s !! j = Some sc -> <[i := newSessionConn random]> (sess s) !! j = Some sc).
  { intros j sc Hj. rewrite lookup_insert_ne; [done|]. intros ->. congruence. }
  split; cbn; try apply Hinv.
  - intros j1 j2 sc1 sc2. rewrite !lookup_insert_Some.
    intros [[<- <-]|[_ H1]] [[<- <-]|[_ H2]]; [done | | |by eapply inv_ids].
    + cbn. intros Heq. by destruct (Hfresh _ _ H2).
    + cbn. intros Heq. by destruct (Hfresh _ _ H1).
  - intros j sc. rewrite lookup_insert_Some. intros [[<- <-]|[_ Hj]]; [|by eapply inv_sess].
    split; cbn; [done | by intros ? ? | rewrite map_size_empty; unfold maxSessionConnections; lia | done | by left].
  - intros c cl Hc. destruct (inv_calls _ Hinv _ _ Hc) as (sc & Hsc & Hok). exists sc. auto.
  - intros j keys Hj. destruct (inv_closers _ Hinv _ _ Hj) as (sc & Hsc & ?). exists sc. auto.
  - intros k Hk Hreg. eapply accounted_mono; [by apply inv_registered | done..].
  - intros k Hk. destruct (inv_pending _ Hinv _ Hk) as (c & cl & sc & Hc & Hn & Hsc & ->). exists c, cl, sc. auto.
Qed.

Lemma end_session_inv i sc :
  sess s !! i = Some sc -> closed sc = false ->
  inv {| w := w s; sess := <[i := fst (close_session sc)]> (sess s); calls := calls s;
         closers := <[i := snd (close_session sc)]> (closers s) |}.
Proof.
  intros Hi Hopen. set (sc' := fst (close_session sc)).
  assert (Hkey : forall n, session_key sc' n = session_key sc n) by done.
  assert (Hfwd : forall j sc1, sess s !! j = Some sc1 ->
    exists sc2, <[i := sc']> (sess s) !! j = Some sc2 /\ id sc2 = id sc1 /\ (closed sc1 = true -> closed sc2 = true)).
  { intros j sc1 Hj. destruct (decide (j = i)) as [->|Hne].
    - exists sc'. rewrite lookup_insert_eq. repeat split. by rewrite Hi in Hj; simplify_eq.
    - exists sc1. by rewrite lookup_insert_ne by done. }
  split; cbn; try apply Hinv.
  - intros j1 j2 sc1 sc2. rewrite !lookup_insert_Some.
    intros [[<- <-]|[_ H1]] [[<- <-]|[_ H2]]; [done | | |by eapply inv_ids]; cbn; intros Heq; eapply inv_ids; eauto.
  - intros j sc1. rewrite lookup_insert_Some. intros [[<- <-]|[_ Hj]]; [|by eapply inv_sess].
    destruct (inv_sess _ Hinv _ _ Hi) as [H1 H2 H3 H4 H5]. split; cbn; try done. rewrite map_size_empty. unfold maxSessionConnections. lia.
  - intros c cl Hc. destruct (inv_calls _ Hinv _ _ Hc) as (sc1 & Hsc1 & Hok).
    destruct (decide (c_sid cl = i)) as [Heq|Hne]; [|exists sc1; by rewrite lookup_insert_ne by done].
    exists sc'. rewrite Heq, lookup_insert_eq. split; [done|]. rewrite Heq in Hsc1.
    assert (sc1 = sc) as -> by congruence. by eapply call_ok_frame.
  - intros j keys. rewrite lookup_insert_Some. intros [[<- <-]|[Hne Hj]].
    + exists sc'. rewrite lookup_insert_eq. do 2 (split; [done|]). intros k Hk. cbn in Hk.
      apply list_elem_of_In, in_map_iff in Hk as ([n k'] & <- & Hin). apply list_elem_of_In, elem_of_map_to_list in Hin.
      exists n. destruct (inv_sess _ Hinv _ _ Hi) as [_ Hkeys _ _ _]. by apply Hkeys.
    + destruct (inv_closers _ Hinv _ _ Hj) as (sc1 & Hsc1 & ?). exists sc1. by rewrite lookup_insert_ne by done.
  - intros k Hk Hreg. destruct (inv_registered _ Hinv _ Hk Hreg) as (j & sc1 & n & Hj & Hkk & Hwhy).
    destruct (Hfwd _ _ Hj) as (sc2 & Hj2 & Hid & _). exists j, sc2, n. split; [done|].
    split; [rewrite Hkk; symmetry; by apply session_key_id|].
    destruct Hwhy as [Hown|[Hcall|(keys & Hkeys & Hin)]]; [|by right; left|].
    + destruct (decide (j = i)) as [->|Hne].
      * right. right. exists (snd (close_session sc)). cbn. rewrite lookup_insert_eq. split; [done|].
        assert (sc1 = sc) as -> by congruence. apply list_elem_of_In, in_map_iff. exists (n, k). split; [done|].
        by apply list_elem_of_In, elem_of_map_to_list.
      * left. rewrite lookup_insert_ne in Hj2 by done. congruence.
    + right. right. exists keys. cbn. rewrite lookup_insert_ne; [done|]. intros ->.
      destruct (inv_closers _ Hinv _ _ Hkeys) as (sc3 & Hsc3 & Hcl & _). congruence.
  - intros k Hk. destruct (inv_pending _ Hinv _ Hk) as (c & cl & sc1 & Hc & Hn & Hsc & ->).
    destruct (Hfwd _ _ Hsc) as (sc2 & Hj2 & Hid & _). exists c, cl, sc2. do 3 (split; [done|]). symmetry. by apply session_key_id.
Qed.

Lemma RemoveConnection_effects k (w0 : world) :
  connections (cm (fst (RemoveConnection k w0))) = delete k (connections (cm w0)) /\
  pendingAdds (cm (fst (RemoveConnection k w0))) = pendingAdds (cm w0) /\
  (activeConn (cm (fst (RemoveConnection k w0))) = activeConn (cm w0) \/ activeConn (cm (fst (RemoveConnection k w0))) = []).
Proof.
  unfold RemoveConnection. destruct (registered k (cm w0)) eqn:Hr; cbn [negb fst].
  - rewrite tearDown_connections, tearDown_pending. auto using tearDown_active.
  - apply registered_false in Hr. rewrite delete_id by done. auto.
Qed.

Lemma RemoveConnection_resources fly k (w0 : world) :
  resources_ok fly w0 -> resources_ok fly (fst (RemoveConnection k w0)).
Proof. intros Hok. unfold RemoveConnection. destruct (negb (registered k (cm w0))); [done | by apply tearDown_resources]. Qed.

Lemma cleanup_inv i key keys :
  closers s !! i = Some (key :: keys) ->
  inv {| w := fst (RemoveConnection key (w s)); sess := sess s; calls := calls s; closers := <[i := keys]> (closers s) |}.
Proof.
  intros Hi. destruct (RemoveConnection_effects key (w s)) as (Hconn & Hpend & Hact).
  destruct (inv_closers _ Hinv _ _ Hi) as (sc & Hsc & Hcl & Hkeys).
  destruct (Hkeys key) as [n0 Hkey0]; [left|].
  split; cbn; try apply Hinv.
  - intros c cl Hc. destruct (inv_calls _ Hinv _ _ Hc) as (sc1 & Hsc1 & Hok). exists sc1. split; [done|].
    eapply call_ok_frame; [exact Hok | try done..].
    + intros _ _ Hfree. rewrite Hconn, lookup_delete_None. auto.
    + intros _ Hopen Hreg. rewrite Hconn, lookup_delete_ne; [done|]. intros Heq. rewrite Hkey0 in Heq.
      destruct (inv_key_inj Hinv _ _ _ _ _ _ Hsc Hsc1 Heq) as [Hsid _]. rewrite <- Hsid in Hsc1. congruence.
    + by rewrite Hpend.
  - intros j ks. rewrite lookup_insert_Some. intros [[<- <-]|[_ Hj]]; [|by eapply inv_closers].
    exists sc. split; [done|]. split; [done|]. intros k Hk. apply Hkeys. by right.
  - intros k Hk. rewrite Hconn. intros [p Hp]. apply lookup_delete_Some in Hp as [Hne Hp].
    destruct (inv_registered _ Hinv k Hk) as (j & sc1 & n & Hj & Hkk & Hwhy); [by eexists|].
    exists j, sc1, n. split; [done|]. split; [done|].
    destruct Hwhy as [?|[?|(ks & Hks & Hin)]]; [by left | by right; left | right; right]. cbn.
    destruct (decide (j = i)) as [->|Hji]; [|exists ks; by rewrite lookup_insert_ne by done].
    exists keys. rewrite lookup_insert_eq. split; [done|]. rewrite Hi in Hks. injection Hks as <-.
    apply elem_of_cons in Hin as [->|Hin]; done.
  - rewrite Hpend. intros k Hk. destruct (inv_pending _ Hinv _ Hk) as (c & cl & sc1 & H1). by exists c, cl, sc1.
  - pose proof (inv_cap _ Hinv) as Hcap. rewrite session_count in Hcap |- *. etransitivity; [|exact Hcap].
    apply subseteq_size. unfold session_set. rewrite Hconn, Hpend. intros k.
    rewrite !elem_of_filter, !elem_of_union, !elem_of_dom. intros [? [Hk|Hk]]; (split; [done|]); [left | by right].
    destruct Hk as [p Hp]. apply lookup_delete_Some in Hp as [_ Hp]. by eexists.
  - destruct Hact as [->| ->]; [apply Hinv | done].
  - apply RemoveConnection_resources. apply Hinv.
Qed.
End OtherSteps.

(** ** Every reachable state satisfies the invariant *)
Section Reachable.
Context `{MySQLDriver}.
Variable version : gostr.
Variable cfg : Config.

Definition started (w0 : world) : Prop :=
  resources_ok ∅ w0 /\ (forall k, is_Some (connections (cm w0) !! k) -> isSessionConnKey k = false) /\
  pendingAdds (cm w0) = ∅ /\ isSessionConnKey (activeConn (cm w0)) = false.

Lemma add_start_ok connCfg io w0 :
  isSessionConnKey (Name connCfg) = false -> started w0 ->
  started (fst (AddConnectionWithPoolConfig version connCfg cfg io w0)).
Proof.
  intros Hname (Hres & Hkeys & Hpend & Hact). split; [by apply replace_resources|].
  unfold AddConnectionWithPoolConfig, addConnectionWithPoolConfig.
  set (w1 := tearDownNamedConnection (Name connCfg) w0).
  assert (H1 : (forall k, is_Some (connections (cm w1) !! k) -> isSessionConnKey k = false) /\
               pendingAdds (cm w1) = ∅ /\ isSessionConnKey (activeConn (cm w1)) = false).
  { unfold w1. rewrite tearDown_connections, tearDown_pending. split; [|split; [done|]].
    - intros k [pl Hk]. apply lookup_delete_Some in Hk as [_ Hk]. apply Hkeys. by eexists.
    - by destruct (tearDown_active (Name connCfg) w0) as [-> | ->]. }
  destruct (open_conn version connCfg cfg io w1) as [w2 r] eqn:Hopen.
  apply open_conn_cm in Hopen. rewrite <- Hopen in H1. clear Hopen. destruct r as [o|e]; [|done].
  rewrite register_conn_cases, andb_false_r. cbn [fst].
  destruct H1 as (H1 & H2 & H3). cbn. rewrite tearDown_connections, tearDown_pending. split; [|split; [done|]].
  - intros k. destruct (decide (k = Name connCfg)) as [->|Hne]; [done|]. rewrite lookup_insert_ne by done.
    intros [pl Hk]. apply lookup_delete_Some in Hk as [_ Hk]. apply H1. by eexists.
  - destruct (is_empty _ && _); [done|]. by destruct (tearDown_active (Name connCfg) w2) as [-> | ->].
Qed.

Lemma startup_ok ios w0 :
  validateConnectionNames (map fst ios) = None -> started w0 -> started (startup version cfg ios w0).
Proof.
  unfold validateConnectionNames. rewrite first_err_None. revert w0.
  induction ios as [|[connCfg io] ios IH]; intros w0 Hnames Hok; [done|]. cbn.
  apply IH; [intros x Hx; apply Hnames; by right|]. apply add_start_ok; [|done].
  specialize (Hnames connCfg (list_elem_of_here _ _)).
  change (HasPrefix (Name connCfg) ReservedConnectionPrefix) with (isSessionConnKey (Name connCfg)) in Hnames.
  cbn [fst]. by destruct (isSessionConnKey (Name connCfg)).
Qed.

Lemma start_world_ok :
  started {| cm := NewConnectionManager; open_pools := ∅; open_tunnels := ∅; next_handle := 0 |}.
Proof. split; [apply example_world_ok|]. split; [|done]. intros k [x Hx]. cbn in Hx. by rewrite lookup_empty in Hx. Qed.

Lemma init_inv ios : validateConnectionNames (map fst ios) = None -> inv (init version cfg ios).
Proof.
  intros Hnames. destruct (startup_ok ios _ Hnames start_world_ok) as (Hres & Hkeys & Hpend & Hact).
  unfold init. split; cbn [sess calls closers w];
    try (intros; match goal with Hx : ∅ !! _ = Some _ |- _ => by rewrite lookup_empty in Hx end).
  - intros k Hk Hreg. apply Hkeys in Hreg. congruence.
  - intros k Hk. rewrite Hpend in Hk. by apply elem_of_empty in Hk.
  - rewrite session_count. unfold session_set. rewrite Hpend, union_empty_r_L.
    replace (filter _ _) with (∅ : gset gostr); [rewrite size_empty; lia|]. symmetry. apply set_eq. intros k.
    rewrite elem_of_filter, elem_of_dom. split; [|by intros Hx%elem_of_empty]. intros [H1 H2]. apply Hkeys in H2. congruence.
  - done.
  - unfold fly. cbn. by rewrite omap_empty.
Qed.

Lemma step_inv s s' : inv s -> step version cfg s s' -> inv s'.
Proof.
  intros Hinv Hstep. destruct Hstep as [s i random ? ? ?|s c i sc name dsn desc ? Hsc ?|s c i sc name ? Hsc
    |s c cl sc io w' sc' p Hc Hsc Hst|s i sc ? ?|s i key keys ?].
  - by apply open_session_inv.
  - apply new_call_inv; cbn; eauto using start_ok.
  - apply new_call_inv; cbn; eauto using use_ok.
  - exact (step_call_inv version cfg Hinv Hc Hsc Hst).
  - by apply end_session_inv.
  - by eapply cleanup_inv.
Qed.

Lemma reachable_inv s : reachable version cfg s -> inv s.
Proof. induction 1; [by apply init_inv | by eapply step_inv]. Qed.
End Reachable.

(** ** Running one call to its end *)
Definition rank (p : phase) : nat :=
  match p with
  | AtHas => 12 | AtReserve => 11 | AtPending _ => 10 | AtOpen _ => 9 | AtRegister _ _ => 8 | AtUnreserve _ _ => 7
  | AtClosedCheck _ => 6 | AtResolve _ => 5 | AtHasKey _ _ => 4 | AtSet _ _ => 3 | AtRollback _ => 2
  | AtRemove _ => 1 | AtRelease _ => 1
  end.

Section Run.
Context `{MySQLDriver}.
Variable version : gostr.
Variable cfg : Config.

Lemma call_step_rank io cl w0 sc w' sc' p' :
  call_step version cfg io cl w0 sc = (w', sc', Some p') -> rank p' < rank (c_phase cl).
Proof.
  unfold call_step. destruct (c_phase cl); intros Heq; repeat case_match; simplify_eq; cbn; lia.
Qed.

(** [n] steps of call [c], without interference. *)
Fixpoint run_call (n : nat) (io : io_outcome) (c : nat) (s : system) : system :=
  match n with
  | O => s
  | S n =>
      match calls s !! c with
      | None => s
      | Some cl =>
          match sess s !! c_sid cl with
          | None => s
          | Some sc =>
              let '(w', sc', p) := call_step version cfg io cl (w s) sc in
              run_call n io c {| w := w'; sess := <[c_sid cl := sc']> (sess s); calls := put_call c cl p (calls s);
                                 closers := closers s |}
          end
      end
  end.

Lemma run_call_reachable n io c s : reachable version cfg s -> reachable version cfg (run_call n io c s).
Proof.
  revert s. induction n as [|n IH]; intros s Hs; [done|]. cbn.
  destruct (calls s !! c) as [cl|] eqn:Hc; [|done]. destruct (sess s !! c_sid cl) as [sc|] eqn:Hsc; [|done].
  destruct (call_step version cfg io cl (w s) sc) as [[w' sc'] p] eqn:Hst.
  apply IH. eapply reach_step; [done|]. by eapply step_call.
Qed.

Lemma run_call_calls n io c s cl :
  inv s -> calls s !! c = Some cl -> rank (c_phase cl) <= n ->
  calls (run_call n io c s) !! c = None.
Proof.
  revert s cl. induction n as [|n IH]; intros s cl Hinv Hc Hrank; [destruct (c_phase cl); cbn in Hrank; lia|].
  cbn. rewrite Hc. destruct (inv_calls _ Hinv _ _ Hc) as (sc & Hsc & _). rewrite Hsc.
  destruct (call_step version cfg io cl (w s) sc) as [[w' sc'] p] eqn:Hst.
  pose proof (step_call_inv version cfg Hinv Hc Hsc Hst) as Hinv'. destruct p as [p'|].
  - eapply IH; [exact Hinv' | cbn; apply lookup_insert_eq |]. apply call_step_rank in Hst. cbn. lia.
  - destruct n; cbn; rewrite lookup_delete_eq; [done|]. cbn. apply lookup_delete_eq.
Qed.
End Run.

(** ** Properties *)
Section Properties.
Context `{MySQLDriver}.
Variable version : gostr.
Variable cfg : Config.

(** C10: the caps hold in every interleaving of add_connection calls, ends of sessions and
    clean-ups: at most 20 session connections are registered or being added in the whole
    process, and a session owns at most 5 names. *)
Theorem session_caps_hold s (Hs : reachable version cfg s) :
  size (session_set (cm (w s))) <= 20 /\
  forall i sc, sess s !! i = Some sc -> size (owned sc) <= 5.
Proof.
  apply reachable_inv in Hs. split.
  - rewrite <- session_count. apply Hs.
  - intros i sc Hi. exact (ok_size _ (inv_sess _ Hs _ _ Hi)).
Qed.

(** C9: sessions are isolated in every interleaving.  The connection a session resolves to,
    a name it resolves, and the process-wide default are never a connection of another
    session. *)
Theorem sessions_are_isolated s i j sc sc' name n (Hs : reachable version cfg s)
    (Hi : sess s !! i = Some sc) (Hj : sess s !! j = Some sc') (Hij : i <> j) :
  activeNameLocked (cm (w s)) {| ctx_session := Some sc; ctx_pin := None |} <> session_key sc' n /\
  (isSessionConnKey name = false -> resolve sc name <> session_key sc' n) /\
  activeConn (cm (w s)) <> session_key sc' n.
Proof.
  apply reachable_inv in Hs. pose proof (session_key_is_session sc' n) as Hkey.
  assert (Hother : forall m, session_key sc m <> session_key sc' n).
  { intros m Heq. by destruct (inv_key_inj Hs _ _ _ _ _ _ Hi Hj Heq). }
  assert (Hact : activeConn (cm (w s)) <> session_key sc' n).
  { intros Heq. pose proof (inv_active _ Hs) as Ha. congruence. }
  destruct (inv_sess _ Hs _ _ Hi) as [_ Hkeys _ _ Hown]. split; [|split; [|done]].
  - unfold activeNameLocked. cbn. destruct (negb (is_empty (sname sc))); [|done].
    destruct Hown as [Hown|[m ->]]; [congruence | done].
  - intros Hname. unfold resolve. destruct (owned sc !! name) as [k|] eqn:Hk; cbn; [|congruence].
    by rewrite (Hkeys _ _ Hk).
Qed.

(** An ended session whose calls have returned and whose clean-up is done. *)
Lemma ended_session_clean s i sc n : inv s -> sess s !! i = Some sc -> closed sc = true -> closers s !! i = Some [] ->
  (forall c cl, calls s !! c = Some cl -> c_sid cl <> i) ->
  connections (cm (w s)) !! session_key sc n = None /\ (session_key sc n ∉ pendingAdds (cm (w s))).
Proof.
  intros Hs Hi Hended Hclean Hcalls. split.
  - destruct (connections (cm (w s)) !! session_key sc n) eqn:Hreg; [|done]. exfalso.
    destruct (inv_registered _ Hs (session_key sc n)) as (j & sc' & m & Hj & Hkey & Hwhy);
      [apply session_key_is_session | by rewrite Hreg |].
    destruct (inv_key_inj Hs _ _ _ _ _ _ Hi Hj Hkey) as [<- <-]. assert (sc' = sc) as -> by congruence.
    destruct Hwhy as [Hown|[(c & cl & Hc & Hsid & _)|(keys & Hkeys & Hin)]].
    + destruct (inv_sess _ Hs _ _ Hi) as [_ _ _ He _]. by rewrite (He Hended), lookup_empty in Hown.
    + by apply (Hcalls c cl).
    + rewrite Hclean in Hkeys. injection Hkeys as <-. by apply not_elem_of_nil in Hin.
  - intros Hin. destruct (inv_pending _ Hs _ Hin) as (c & cl & sc' & Hc & _ & Hsc' & Hkey).
    destruct (inv_key_inj Hs _ _ _ _ _ _ Hi Hsc' Hkey) as [Hsid _]. by apply (Hcalls c cl).
Qed.

(** C8: a finished session leaves nothing behind.  Once its calls have returned and its
    clean-up is done, no connection of the session is registered or being added, in
    whatever order the end of the session and its add_connection calls were interleaved. *)
Theorem ended_session_leaves_nothing s i sc n (Hs : reachable version cfg s)
    (Hi : sess s !! i = Some sc) (Hended : closed sc = true) (Hclean : closers s !! i = Some [])
    (Hcalls : forall c cl, calls s !! c = Some cl -> c_sid cl <> i) :
  connections (cm (w s)) !! session_key sc n = None /\ (session_key sc n ∉ pendingAdds (cm (w s))).
Proof. eapply ended_session_clean; [by eapply reachable_inv | done..]. Qed.

(** C11: in every interleaving, no pool leaks and none is used after it was closed: a pool is
    open exactly when it is registered under a name or held by one call about to register
    it, and no two registrations share a pool. *)
Theorem every_pool_has_one_owner s h (Hs : reachable version cfg s) :
  (h ∈ open_pools (w s) <->
     (exists name p, connections (cm (w s)) !! name = Some p /\ handle p = h) \/
     (exists c cl key o, calls s !! c = Some cl /\ c_phase cl = AtRegister key o /\ handle (o_pool o) = h)) /\
  (forall name name' p p', connections (cm (w s)) !! name = Some p -> connections (cm (w s)) !! name' = Some p' ->
     handle p = handle p' -> name = name').
Proof.
  apply reachable_inv, inv_resources in Hs as [[Hopen Honce _] _ _]. split.
  - rewrite Hopen. split.
    + intros [[name|c] Ho]; cbn in Ho; apply fmap_Some in Ho as (x & Hx & ->); [left; eauto|].
      unfold fly in Hx. rewrite lookup_omap in Hx. destruct (calls s !! c) as [cl|] eqn:Hc; [|done]. cbn in Hx.
      right. destruct (c_phase cl) as [| | | |key o| | | | | | | |] eqn:Hph; try done. injection Hx as ->.
      by exists c, cl, key, x.
    + intros [(name & pl & Hp & <-)|(c & cl & key & o & Hc & Hph & <-)].
      * exists (Registered name). cbn. by rewrite Hp.
      * exists (InFlight c). cbn. unfold fly. rewrite lookup_omap, Hc. cbn. by rewrite Hph.
  - intros name name' pl pl' Hp Hp' Heq. specialize (Honce (Registered name) (Registered name') (handle pl)).
    cbn in Honce. rewrite Hp, Hp' in Honce. cbn in Honce. rewrite Heq in Honce. specialize (Honce eq_refl eq_refl). congruence.
Qed.

(** Every call returns: in a reachable state, a call that runs has at most 12 steps
    left, whatever the network answers. *)
Theorem call_returns s c cl io (Hs : reachable version cfg s) (Hc : calls s !! c = Some cl) :
  calls (run_call version cfg 12 io c s) !! c = None.
Proof.
  apply reachable_inv in Hs. eapply run_call_calls; [done | done |]. destruct (c_phase cl); cbn; lia.
Qed.
End Properties.

(** ** A run: a session adds a connection, then ends, next to another session *)
Definition with_session (i : nat) (random : gostr) (s : system) : system :=
  {| w := w s; sess := <[i := newSessionConn random]> (sess s); calls := calls s; closers := closers s |}.
Definition with_add (c i : nat) (name dsn : gostr) (s : system) : system :=
  {| w := w s; sess := sess s; closers := closers s;
     calls := <[c := {| c_sid := i; c_name := name; c_dsn := dsn; c_desc := []; c_phase := AtHas |}]> (calls s) |}.
Definition without_session (i : nat) (s : system) : system :=
  match sess s !! i with
  | Some sc => {| w := w s; sess := <[i := fst (close_session sc)]> (sess s); calls := calls s;
                  closers := <[i := snd (close_session sc)]> (closers s) |}
  | None => s
  end.
Definition cleaned (i : nat) (s : system) : system :=
  match closers s !! i with
  | Some (key :: keys) => {| w := fst (RemoveConnection key (w s)); sess := sess s; calls := calls s;
                             closers := <[i := keys]> (closers s) |}
  | _ => s
  end.

Definition run0 : system := @init plain_driver "1.0" example_cfg [(example_conn "main", example_io None)].
Definition run1 : system :=
  with_add 7 0 "reports" (DSN (example_conn [])) (with_session 1 "0f" (with_session 0 "a1" run0)).
Definition run2 : system := @run_call plain_driver "1.0" example_cfg 12 (example_io None) 7 run1.
Definition run3 : system := cleaned 0 (without_session 0 run2).

Lemma run0_reachable : @reachable plain_driver "1.0" example_cfg run0.
Proof. apply (@reach_init plain_driver "1.0" example_cfg [(example_conn "main", example_io None)]). vm_compute. reflexivity. Qed.
Lemma run1_reachable : @reachable plain_driver "1.0" example_cfg run1.
Proof.
  apply (reach_step "1.0" example_cfg (with_session 1 "0f" (with_session 0 "a1" run0)));
    [apply (reach_step "1.0" example_cfg (with_session 0 "a1" run0)); [apply (reach_step "1.0" example_cfg run0); [exact run0_reachable|]|]|].
  - apply (step_open "1.0" example_cfg run0 0 "a1"); [reflexivity | decide_true | intros j sc Hj; unfold run0, init in Hj; cbn [sess] in Hj; by rewrite lookup_empty in Hj].
  - apply (step_open "1.0" example_cfg (with_session 0 "a1" run0) 1 "0f"); [reflexivity | decide_true |].
    intros j sc Hj. unfold with_session in Hj. cbn [sess] in Hj. apply lookup_insert_Some in Hj as [[_ <-]|[_ Hj]]; [decide_true|].
    unfold run0, init in Hj. cbn [sess] in Hj. by rewrite lookup_empty in Hj.
  - apply (step_add "1.0" example_cfg (with_session 1 "0f" (with_session 0 "a1" run0)) 7 0 (newSessionConn "a1") "reports");
      [reflexivity | reflexivity | vm_compute; reflexivity].
Qed.
Lemma run2_reachable : @reachable plain_driver "1.0" example_cfg run2.
Proof. exact (run_call_reachable "1.0" example_cfg 12 (example_io None) 7 run1 run1_reachable). Qed.

Lemma without_session_reachable `{MySQLDriver} version cfg i s :
  reachable version cfg s -> (closed <$> sess s !! i) <> Some true -> reachable version cfg (without_session i s).
Proof.
  intros Hs Hopen. unfold without_session. destruct (sess s !! i) as [sc|] eqn:Hi; [|done].
  eapply reach_step; [exact Hs|]. apply step_end; [done|]. cbn in Hopen. by destruct (closed sc).
Qed.
Lemma cleaned_reachable `{MySQLDriver} version cfg i s :
  reachable version cfg s -> reachable version cfg (cleaned i s).
Proof.
  intros Hs. unfold cleaned. destruct (closers s !! i) as [[|key keys]|] eqn:Hi; [done | | done].
  eapply reach_step; [exact Hs|]. by apply step_cleanup.
Qed.

Lemma run3_reachable : @reachable plain_driver "1.0" example_cfg run3.
Proof.
  apply cleaned_reachable, without_session_reachable; [exact run2_reachable|]. vm_compute. discriminate.
Qed.

(** The connection was registered, and is gone after the session. *)
Example run_ex :
  registered (sessionConnPrefix ++ "a1/reports") (cm (w run2)) = true /\
  registered (sessionConnPrefix ++ "a1/reports") (cm (w run3)) = false /\
  registered "main" (cm (w run3)) = true /\ activeConn (cm (w run3)) = "main" /\
  size (open_pools (w run2)) = 2 /\ size (open_pools (w run3)) = 1.
Proof. vm_compute. repeat split. Qed.

Lemma session_caps_hold_witness : size (session_set (cm (w run2))) <= 20.
Proof. exact (proj1 (@session_caps_hold plain_driver "1.0" example_cfg run2 run2_reachable)). Defined.

(** The session that did not register the connection does not see it. *)
Lemma sessions_are_isolated_witness :
  match sess run2 !! 1, sess run2 !! 0 with
  | Some sc, Some sc' => resolve sc "reports" <> session_key sc' "reports"
  | _, _ => False
  end.
Proof.
  destruct (sess run2 !! 1) as [sc|] eqn:H1; [|vm_compute in H1; discriminate].
  destruct (sess run2 !! 0) as [sc'|] eqn:H0; [|vm_compute in H0; discriminate].
  destruct (@sessions_are_isolated plain_driver "1.0" example_cfg run2 1 0 sc sc' "reports" "reports" run2_reachable H1 H0)
    as (_ & Hr & _); [discriminate | apply Hr; vm_compute; reflexivity].
Defined.

Lemma ended_session_leaves_nothing_witness :
  match sess run3 !! 0 with
  | Some sc => connections (cm (w run3)) !! session_key sc "reports" = None
  | None => False
  end.
Proof.
  destruct (sess run3 !! 0) as [sc|] eqn:H0; [|vm_compute in H0; discriminate].
  refine (proj1 (@ended_session_leaves_nothing plain_driver "1.0" example_cfg run3 0 sc "reports" run3_reachable H0 _ _ _)).
  - apply (f_equal (fmap closed)) in H0. vm_compute in H0. by injection H0.
  - vm_compute. reflexivity.
  - assert (Hnone : calls run3 = ∅) by (vm_compute; reflexivity). intros c cl Hc. rewrite Hnone in Hc. by rewrite lookup_empty in Hc.
Defined.

Lemma every_pool_has_one_owner_witness :
  0 ∈ open_pools (w run2) <->
     (exists name p, connections (cm (w run2)) !! name = Some p /\ handle p = 0) \/
     (exists c cl key o, calls run2 !! c = Some cl /\ c_phase cl = AtRegister key o /\ handle (o_pool o) = 0).
Proof. exact (proj1 (@every_pool_has_one_owner plain_driver "1.0" example_cfg run2 0 run2_reachable)). Defined.

Lemma call_returns_witness :
  calls (@run_call plain_driver "1.0" example_cfg 12 (example_io (Some ("refused" : gostr))) 7 run1) !! 7 = None.
Proof.
  refine (@call_returns plain_driver "1.0" example_cfg run1 7
    {| c_sid := 0; c_name := "reports"; c_dsn := DSN (example_conn []); c_desc := []; c_phase := AtHas |}
    (example_io (Some ("refused" : gostr))) run1_reachable _).
  unfold run1, with_add. cbn [calls]. apply lookup_insert_eq.
Defined.
