(* ===== verification/Quiescence.v ===== *)
(** Progress of the MCP sessions: once no new session, call or end of session arrives, the
    critical sections that are left run out, in every order, and nothing of an ended session
    is left. *)
From S2P Require Import Prelude Identifiers Config Connection Sessions.

(** ** The steps the process owes: those of its calls and of its clean-ups *)
Section Quiescence.
Context `{MySQLDriver}.
Variable version : gostr.
Variable cfg : Config.

Inductive owed_step : system -> system -> Prop :=
| owed_call s c cl sc io w' sc' p :
    calls s !! c = Some cl -> sess s !! c_sid cl = Some sc -> call_step version cfg io cl (w s) sc = (w', sc', p) ->
    owed_step s {| w := w'; sess := <[c_sid cl := sc']> (sess s); calls := put_call c cl p (calls s); closers := closers s |}
| owed_cleanup s i key keys :
    closers s !! i = Some (key :: keys) ->
    owed_step s {| w := fst (RemoveConnection key (w s)); sess := sess s; calls := calls s;
                   closers := <[i := keys]> (closers s) |}.

Lemma owed_is_step s s' : owed_step s s' -> step version cfg s s'.
Proof. intros Hstep. destruct Hstep; [by eapply step_call | by eapply step_cleanup]. Qed.
Lemma owed_reachable s s' : reachable version cfg s -> rtc owed_step s s' -> reachable version cfg s'.
Proof. intros Hs Hr. induction Hr as [|s s1 s2 Hst _ IH]; [done|]. apply IH. eapply reach_step; [done | by apply owed_is_step]. Qed.

(** ** What is owed, as a number *)
Definition owed (s : system) : nat := weight (fun cl => rank (c_phase cl)) (calls s) + weight length (closers s).

Lemma owed_decreases s s' : owed_step s s' -> owed s' < owed s.
Proof.
  intros Hstep. unfold owed. destruct Hstep as [s c cl sc io w' sc' [p|] Hc _ Hst|s i key keys Hk]; cbn.
  - pose proof (weight_insert (fun cl => rank (c_phase cl)) (calls s) c cl (set_phase p cl) Hc) as Hw. cbn in Hw.
    apply call_step_rank in Hst. lia.
  - rewrite (weight_delete (fun cl => rank (c_phase cl)) (calls s) c cl Hc). destruct (c_phase cl); cbn; lia.
  - pose proof (weight_insert length (closers s) i (key :: keys) keys Hk) as Hw. cbn in Hw. lia.
Qed.

Lemma owed_bounds_runs k s s' : nsteps owed_step k s s' -> k + owed s' <= owed s.
Proof. apply (measure_bounds_runs owed owed_step), owed_decreases. Qed.

(** Every ended session has a clean-up, done or not. *)
Lemma ended_has_cleanup s i sc :
  reachable version cfg s -> sess s !! i = Some sc -> closed sc = true -> is_Some (closers s !! i).
Proof.
  intros Hs. revert i sc. induction Hs as [ios _|s s' _ IH Hst]; intros i sc.
  - unfold init. cbn. by rewrite lookup_empty.
  - destruct Hst as [s j random _ _ _|s c j sc1 name dsn desc _ _ _|s c j sc1 name _ _|s c cl sc1 io w' sc' p _ Hsc1 Hst|s j sc1 _ _
        |s j key keys Hk]; cbn.
    + intros [[_ <-]|[_ Hi]]%lookup_insert_Some; [done | by apply IH].
    + apply IH.
    + apply IH.
    + intros [[<- <-]|[_ Hi]]%lookup_insert_Some Hcl; [|by eapply IH].
      destruct (call_step_session _ _ _ _ _ _ _ _ _ Hst) as (_ & Hsame & _). eapply IH; [exact Hsc1 | congruence].
    + intros [[<- _]|[Hne Hi]]%lookup_insert_Some Hcl; [by rewrite lookup_insert_eq|]. rewrite lookup_insert_ne by done. by eapply IH.
    + intros Hi Hcl. destruct (decide (j = i)) as [->|Hne]; [by rewrite lookup_insert_eq|]. rewrite lookup_insert_ne by done. by eapply IH.
Qed.

(** Some answer of the network. *)
Definition some_io : io_outcome :=
  {| io_tunnel := Err []; io_ping := None; io_version_both := Err []; io_version := Err []; io_pack := Err [] |}.

Lemma nothing_owed s : inv s -> (forall s', ~ owed_step s s') ->
  calls s = ∅ /\ forall i keys, closers s !! i = Some keys -> keys = [].
Proof.
  intros Hinv Hstuck. split.
  - apply map_empty. intros c. destruct (calls s !! c) as [cl|] eqn:Hc; [|done]. exfalso.
    destruct (inv_calls _ Hinv _ _ Hc) as (sc & Hsc & _).
    destruct (call_step version cfg some_io cl (w s) sc) as [[w' sc'] p] eqn:Hst. by eapply Hstuck, owed_call.
  - intros i [|key keys] Hk; [done|]. exfalso. by eapply Hstuck, owed_cleanup.
Qed.
End Quiescence.

(** C16: an ended session is always released.  From any reachable state, let the process
    finish what it owes (the rest of its calls and the clean-ups of ended sessions), in any
    order and with any answers of the network: it takes at most as many steps as the state
    owes, so it ends; and where nothing more can run, no call is left and no connection of an
    ended session is registered or being added. *)
Theorem ended_sessions_are_released `{MySQLDriver} version cfg s (Hs : reachable version cfg s) :
  (forall k s', nsteps (owed_step version cfg) k s s' -> k <= owed s) /\
  forall s', rtc (owed_step version cfg) s s' -> (forall s'', ~ owed_step version cfg s' s'') ->
    calls s' = ∅ /\
    forall i sc n, sess s' !! i = Some sc -> closed sc = true ->
      connections (cm (w s')) !! session_key sc n = None /\ (session_key sc n ∉ pendingAdds (cm (w s'))).
Proof.
  split.
  - intros k s' Hrun. apply owed_bounds_runs in Hrun. lia.
  - intros s' Hrun Hstuck. pose proof (owed_reachable version cfg _ _ Hs Hrun) as Hs'. pose proof (reachable_inv _ _ _ Hs') as Hinv.
    destruct (nothing_owed version cfg s' Hinv Hstuck) as [Hcalls Hdone]. split; [done|]. intros i sc n Hi Hcl.
    destruct (ended_has_cleanup version cfg s' i sc Hs' Hi Hcl) as [keys Hk]. rewrite (Hdone _ _ Hk) in Hk.
    eapply ended_session_clean; try done. intros c cl Hc. by rewrite Hcalls, lookup_empty in Hc.
Qed.

Lemma ended_sessions_are_released_witness :
  owed run1 = 12 /\
  forall k s', nsteps (@owed_step plain_driver "1.0" example_cfg) k run1 s' -> k <= owed run1.
Proof.
  split; [by vm_compute|]. exact (proj1 (@ended_sessions_are_released plain_driver "1.0" example_cfg run1 run1_reachable)).
Defined.
