(* ===== verification/Tunnel.v ===== *)
(** internal/sshtunnel/tunnel.go: the SSH tunnel of a connection, its check of the bastion's
    host key, and the connections it forwards. *)
From S2P Require Import Prelude Unicode GoStrings GoNum GoNet GoHash Config.

Definition defaultSSHPort : Z := 22.

Record TunnelConfig := {
  tc_Host : gostr; tc_User : gostr; tc_KeyPath : gostr; tc_Port : Z;
  tc_InsecureIgnoreHostKey : bool; tc_KnownHostsPath : gostr; tc_HostKeyFingerprint : gostr
}.

(** The configuration the connection manager starts a tunnel with. *)
Definition tunnelCfg (s : SSHConfig) : TunnelConfig := {|
  tc_Host := SSHHost s; tc_User := SSHUser s; tc_KeyPath := KeyPath s; tc_Port := SSHPort s;
  tc_InsecureIgnoreHostKey := negb (EffectiveStrictSSHHostKeyChecking (Some s));
  tc_KnownHostsPath := KnownHostsPath s; tc_HostKeyFingerprint := HostKeyFingerprint s |}.

(** ** The file system and the SSH library

    A host key is its wire form ([PublicKey.Marshal]); a callback is asked with the host name,
    the remote address and the key.  A dial answers the remote address and the host key of
    the handshake it completed; listening answers the local address. *)
Definition HostKeyCallback : Type := gostr -> gostr -> gostr -> option gostr.
Inductive stat_answer := StatOk | StatNotExist | StatFailed (err : gostr).
Record ClientConfig (signer : Type) := { cc_User : gostr; cc_Key : signer; cc_HostKeyCallback : HostKeyCallback }.
Arguments cc_User {_} _.
Arguments cc_Key {_} _.
Arguments cc_HostKeyCallback {_} _.

Class SSHLib := {
  HomeDir : option gostr;
  os_Stat : gostr -> stat_answer;
  os_ReadFile : gostr -> result gostr gostr;
  signer : Type;
  ParsePrivateKey : gostr -> result gostr signer;
  knownhosts_New : gostr -> result gostr HostKeyCallback;
  ssh_Dial : gostr -> ClientConfig signer -> result gostr (gostr * gostr);
  tcp_Listen : gostr -> result gostr gostr
}.
(** The library asks the callback during the handshake and gives up when it answers an
    error. *)
Class SSHLaws (L : SSHLib) := {
  dial_asks_callback addr c remote key :
    ssh_Dial addr c = Ok (remote, key) -> cc_HostKeyCallback c addr remote key = None
}.

Inductive tunnel_error :=
| FieldsRequired | HomeUnknown | KnownHostsHomeUnknown
| KnownHostsMissing (path : gostr) | KnownHostsStat (path err : gostr) | KnownHostsInvalid (path err : gostr)
| KeyUnreadable (err : gostr) | KeyInvalid (err : gostr) | DialFailed (err : gostr) | ListenFailed (err : gostr).

(** ** Fingerprints *)
Record fingerprintNorm := { algo : gostr; raw : gostr }.

(** [strings.ReplaceAll(s, c, "")] for one byte. *)
Definition remove_byte (c : ascii) (s : gostr) : gostr := filter (fun d => d <> c) s.

Definition normalizeFingerprintInput (s : gostr) : fingerprintNorm :=
  let s := remove_byte " " (TrimSpace s) in
  if is_empty s then {| algo := "sha256"; raw := [] |}
  else
    let bare :=
      if Contains s ":" && negb (Contains s "/") then {| algo := "md5"; raw := remove_byte ":" (ToLower s) |}
      else {| algo := "sha256"; raw := s |} in
    match Index s ":" with
    | Some i =>
        let prefix := ToLower (take i s) in
        let payload := drop (i + 1) s in
        if prefix =?s "sha256" then {| algo := "sha256"; raw := payload |}
        else if prefix =?s "md5" then {| algo := "md5"; raw := remove_byte ":" (ToLower payload) |}
        else bare
    | None => bare
    end.

Fixpoint constant_time_go (v : Z) (x y : gostr) : Z :=
  match x, y with
  | a :: x, b :: y => constant_time_go (Z.lor v (Z.lxor (code a) (code b))) x y
  | _, _ => v
  end.
Definition subtleConstantTimeBytes (x y : gostr) : bool :=
  if negb (length x =? length y) then false else (constant_time_go 0 x y =? 0)%Z.
Definition subtleConstantTimeEq (a b : gostr) : bool := (length a =? length b) && subtleConstantTimeBytes a b.

Definition fingerprintEqual (key : gostr) (exp : fingerprintNorm) : bool :=
  if algo exp =?s "sha256" then subtleConstantTimeEq (RawStdEncoding (sha256_Sum key)) (raw exp)
  else if algo exp =?s "md5" then subtleConstantTimeEq (sprint_x (md5_Sum key)) (raw exp)
  else false.

Definition fingerprintHostKeyCallback (expected : gostr) : HostKeyCallback := fun _ _ key =>
  if fingerprintEqual key (normalizeFingerprintInput expected) then None
  else Some ("ssh: host key fingerprint mismatch (expected " ++ TrimSpace expected ++ ")").

(** ** Tunnel *)
(** [filepath.Join] on a slash-separated system. *)
Definition filepath_Join (ws : list gostr) : gostr :=
  match filter (fun w => w <> []) ws with [] => [] | ws => Clean (Join ws "/") end.

(** The connections to bastions and the listeners the process holds. *)
Record net_state := { ssh_clients : gset nat; listeners : gset nat; next_fd : nat }.

Section Tunnel.
Context `{SSHLib}.

Definition expandTilde (path : gostr) : result tunnel_error gostr :=
  if is_empty path || (negb (path =?s "~") && negb (HasPrefix path "~/")) then Ok path
  else match HomeDir with
  | None => Err HomeUnknown
  | Some home => Ok (if path =?s "~" then home else filepath_Join [home; drop 2 path])
  end.

Definition InsecureIgnoreHostKey : HostKeyCallback := fun _ _ _ => None.

(** The known_hosts file, the user's own when none is configured. *)
Definition known_hosts_path (cfg : TunnelConfig) : result tunnel_error gostr :=
  let khPath := TrimSpace (tc_KnownHostsPath cfg) in
  let? khPath :=
    if is_empty khPath
    then match HomeDir with None => Err KnownHostsHomeUnknown | Some home => Ok (filepath_Join [home; ".ssh"; "known_hosts"]) end
    else Ok khPath in
  expandTilde khPath.

Definition buildHostKeyCallback (cfg : TunnelConfig) : result tunnel_error HostKeyCallback :=
  if tc_InsecureIgnoreHostKey cfg then Ok InsecureIgnoreHostKey
  else
    let fp := TrimSpace (tc_HostKeyFingerprint cfg) in
    if negb (is_empty fp) then Ok (fingerprintHostKeyCallback fp)
    else
      let? khPath := known_hosts_path cfg in
      match os_Stat khPath with
      | StatNotExist => Err (KnownHostsMissing khPath)
      | StatFailed e => Err (KnownHostsStat khPath e)
      | StatOk =>
          match knownhosts_New khPath with
          | Err e => Err (KnownHostsInvalid khPath e)
          | Ok cb => Ok cb
          end
      end.

Definition add_client (n : net_state) : net_state :=
  {| ssh_clients := {[next_fd n]} ∪ ssh_clients n; listeners := listeners n; next_fd := S (next_fd n) |}.
Definition add_listener (n : net_state) : net_state :=
  {| ssh_clients := ssh_clients n; listeners := {[next_fd n]} ∪ listeners n; next_fd := S (next_fd n) |}.
Definition close_client (c : nat) (n : net_state) : net_state :=
  {| ssh_clients := ssh_clients n ∖ {[c]}; listeners := listeners n; next_fd := next_fd n |}.
Definition close_listener (l : nat) (n : net_state) : net_state :=
  {| ssh_clients := ssh_clients n; listeners := listeners n ∖ {[l]}; next_fd := next_fd n |}.

(** The bastion's address, the key and the callback of a tunnel. *)
Definition dial_config (cfg : TunnelConfig) : result tunnel_error (gostr * ClientConfig signer) :=
  if is_empty (tc_Host cfg) || is_empty (tc_User cfg) || is_empty (tc_KeyPath cfg) then Err FieldsRequired
  else
    let? keyPath := expandTilde (tc_KeyPath cfg) in
    match os_ReadFile keyPath with
    | Err e => Err (KeyUnreadable e)
    | Ok key =>
        match ParsePrivateKey key with
        | Err e => Err (KeyInvalid e)
        | Ok key =>
            let port := if (tc_Port cfg <=? 0)%Z then defaultSSHPort else tc_Port cfg in
            let? cb := buildHostKeyCallback cfg in
            Ok (JoinHostPort (tc_Host cfg) (Itoa port), {| cc_User := tc_User cfg; cc_Key := key; cc_HostKeyCallback := cb |})
        end
    end.

(** The local address and the two handles its close function closes. *)
Definition Tunnel (cfg : TunnelConfig) (n : net_state) : net_state * result tunnel_error (gostr * (nat * nat)) :=
  match dial_config cfg with
  | Err e => (n, Err e)
  | Ok (sshAddr, sshConfig) =>
      match ssh_Dial sshAddr sshConfig with
      | Err e => (n, Err (DialFailed e))
      | Ok _ =>
          let client := next_fd n in
          let n := add_client n in
          match tcp_Listen "127.0.0.1:0" with
          | Err e => (close_client client n, Err (ListenFailed e))
          | Ok localAddr => (add_listener n, Ok (localAddr, (client, next_fd n)))
          end
      end
  end.
Definition closeFn (t : nat * nat) (n : net_state) : net_state := close_client (fst t) (close_listener (snd t) n).
End Tunnel.

(** ** The forwarded connections

    The listener's loop and, for every accepted connection, [proxy]: it dials through the
    bastion, copies upwards in a goroutine of its own and downwards itself, and closes both
    ends when the downward copy ends. *)
Inductive proxy :=
| Dialing
| Copying (up : bool)    (* both ends are open; whether the upward copy still runs *)
| Closed (up : bool).    (* both ends are closed *)
Record forwarding := { accepting : bool; listening : bool; client_up : bool; proxies : gmap nat proxy }.

Definition set_proxy (i : nat) (p : proxy) (s : forwarding) : forwarding :=
  {| accepting := accepting s; listening := listening s; client_up := client_up s; proxies := <[i := p]> (proxies s) |}.

(** The steps of the goroutines. *)
Inductive forward_step : forwarding -> forwarding -> Prop :=
| fwd_accept s i : accepting s = true -> listening s = true -> proxies s !! i = None ->
    forward_step s (set_proxy i Dialing s)
| fwd_accept_error s : accepting s = true ->
    forward_step s {| accepting := false; listening := listening s; client_up := client_up s; proxies := proxies s |}
| fwd_dial s i : proxies s !! i = Some Dialing -> client_up s = true -> forward_step s (set_proxy i (Copying true) s)
| fwd_dial_error s i : proxies s !! i = Some Dialing -> forward_step s (set_proxy i (Closed false) s)
| fwd_up_end s i : proxies s !! i = Some (Copying true) -> forward_step s (set_proxy i (Copying false) s)
| fwd_down_end s i up : proxies s !! i = Some (Copying up) -> forward_step s (set_proxy i (Closed up) s)
| fwd_up_closed s i : proxies s !! i = Some (Closed true) -> forward_step s (set_proxy i (Closed false) s).

(** A tunnel as [Tunnel] returns it, and after its close function. *)
Definition forwarding_start : forwarding := {| accepting := true; listening := true; client_up := true; proxies := ∅ |}.
Definition forwarding_close (s : forwarding) : forwarding :=
  {| accepting := accepting s; listening := false; client_up := false; proxies := proxies s |}.

Definition proxy_rank (p : proxy) : nat :=
  match p with Dialing => 4 | Copying true => 3 | Copying false => 2 | Closed true => 1 | Closed false => 0 end.
Definition forwarding_rank (s : forwarding) : nat := (if accepting s then 1 else 0) + weight proxy_rank (proxies s).

(** ** Comparison in constant time *)
Lemma constant_time_go_zero v x y :
  length x = length y -> constant_time_go v x y = 0%Z <-> v = 0%Z /\ x = y.
Proof.
  revert v y. induction x as [|a x IH]; intros v [|b y] Hl; try discriminate Hl; cbn; [tauto|].
  rewrite IH by (injection Hl; done). rewrite Z.lor_eq_0_iff, Z.lxor_eq_0_iff. split.
  - intros [[-> Hab] ->]. apply code_inj in Hab as ->. done.
  - intros [-> [= -> ->]]. done.
Qed.
Lemma subtleConstantTimeEq_eq (a b : gostr) : subtleConstantTimeEq a b = bool_decide (a = b).
Proof.
  unfold subtleConstantTimeEq, subtleConstantTimeBytes. apply eq_true_iff_eq.
  rewrite bool_decide_eq_true, andb_true_iff, Nat.eqb_eq. split.
  - intros [Hl Hc]. rewrite Hl, Nat.eqb_refl in Hc. cbn in Hc. apply Z.eqb_eq, constant_time_go_zero in Hc; [|done]. by destruct Hc.
  - intros ->. rewrite Nat.eqb_refl. cbn. split; [done|]. apply Z.eqb_eq, constant_time_go_zero; done.
Qed.

(** ** The spellings of a fingerprint *)
Lemma fingerprintEqual_iff key exp :
  fingerprintEqual key exp = true <->
  (algo exp = "sha256" /\ RawStdEncoding (sha256_Sum key) = raw exp) \/ (algo exp = "md5" /\ sprint_x (md5_Sum key) = raw exp).
Proof.
  unfold fingerprintEqual. rewrite !subtleConstantTimeEq_eq.
  destruct (algo exp =?s "sha256") eqn:Hs; [apply str_eqb_eq in Hs | apply str_eqb_neq in Hs].
  { rewrite bool_decide_eq_true, Hs. split; [tauto|]. by intros [[_ ?]|[? _]]. }
  destruct (algo exp =?s "md5") eqn:Hm; [apply str_eqb_eq in Hm | apply str_eqb_neq in Hm].
  { rewrite bool_decide_eq_true, Hm. split; [tauto|]. by intros [[? _]|[_ ?]]. }
  split; [done|]. by intros [[? _]|[? _]].
Qed.

Lemma callback_iff fp addr remote key :
  fingerprintHostKeyCallback fp addr remote key = None <-> fingerprintEqual key (normalizeFingerprintInput fp) = true.
Proof. unfold fingerprintHostKeyCallback. by destruct (fingerprintEqual _ _). Qed.

(** Bytes that no trimming removes, and the bytes of the two encodings. *)
Definition plain (c : ascii) : bool := in_rangeb 33 126 c.
Definition base64_char (c : ascii) : bool := in_rangeb 43 57 c || in_rangeb 65 90 c || in_rangeb 97 122 c.
Definition hex_char (c : ascii) : bool := in_rangeb 48 57 c || in_rangeb 97 102 c.

Lemma plain_no_space (c : ascii) :
  plain c = true -> space1 c = false /\ (forall d, space2 c d = false /\ space2 d c = false) /\
                    (forall d e, space3 c d e = false /\ space3 d e c = false).
Proof.
  intros Hp. assert (Hr : forall lo hi, (128 <= lo)%Z -> in_rangeb lo hi c = false).
  { intros lo hi Hlo. unfold plain, in_rangeb in *. apply andb_true_iff in Hp as [_ Hp]. apply Z.leb_le in Hp.
    apply andb_false_intro1, Z.leb_gt. lia. }
  split; [|split].
  - pose proof (all_bytes (fun c => implb (plain c) (negb (space1 c))) ltac:(vm_compute; reflexivity) c) as H. cbn beta in H.
    rewrite Hp in H. by destruct (space1 c).
  - intros d. unfold space2, is_cont. rewrite !Hr by lia. by rewrite ?andb_false_r.
  - intros d e. unfold space3, is_cont. rewrite !Hr by lia. by rewrite ?andb_false_r.
Qed.

Lemma no_lead_plain p1 p2 p3 (s : gostr) :
  (forall c, plain c = true -> p1 c = false /\ (forall d, p2 c d = false) /\ forall d e, p3 c d e = false) ->
  Forall (fun c => plain c = true) s -> strip p1 p2 p3 s = s.
Proof.
  intros Hc Hs. apply strip_id. destruct s as [|c s]; [done|]. apply Forall_cons in Hs as [(H1 & H2 & H3)%Hc _]. cbn.
  rewrite H1. destruct s as [|c2 s]; [done|]. rewrite H2. destruct s; [done|]. by rewrite H3.
Qed.
Lemma TrimSpace_plain (s : gostr) : Forall (fun c => plain c = true) s -> TrimSpace s = s.
Proof.
  intros Hs. unfold TrimSpace, TrimRightSpace. replace (TrimLeftSpace s) with s.
  - rewrite no_lead_plain; [apply rev_involutive | | by apply Forall_rev].
    intros c (? & H2 & H3)%plain_no_space. split; [done|]. split; intros; [apply H2 | apply H3].
  - symmetry. apply no_lead_plain; [|done].
    intros c (? & H2 & H3)%plain_no_space. split; [done|]. split; intros; [apply H2 | apply H3].
Qed.

Lemma remove_byte_app c s t : remove_byte c (s ++ t) = remove_byte c s ++ remove_byte c t.
Proof. apply filter_app. Qed.
Lemma remove_byte_none c (P : ascii -> bool) s : P c = false -> Forall (fun d => P d = true) s -> remove_byte c s = s.
Proof.
  intros Hc Hs. induction Hs as [|d s Hd _ IH]; [done|]. unfold remove_byte in *. rewrite filter_cons_True; [by f_equal | intros ->; congruence].
Qed.
Lemma ToLower_id s : Forall (fun c => is_ascii c && negb (in_rangeb 65 90 c) = true) s -> ToLower s = s.
Proof.
  intros Hs. unfold ToLower. replace (all_ascii s) with true.
  - induction Hs as [|c s Hc _ IH]; [done|]. cbn. rewrite IH. unfold lower_byte. apply andb_true_iff in Hc as [_ Hc%negb_true_iff]. by rewrite Hc.
  - symmetry. induction Hs as [|c s Hc _ IH]; [done|]. rewrite all_ascii_cons, IH. apply andb_true_iff in Hc as [-> _]. done.
Qed.

(** A fact about one kind of bytes from another. *)
Lemma bytes_impl (P Q : ascii -> bool) :
  forallb (fun n => let c := byte (Z.of_nat n) in implb (P c) (Q c)) (seq 0 256) = true ->
  forall s, Forall (fun c => P c = true) s -> Forall (fun c => Q c = true) s.
Proof.
  intros H s Hs. eapply Forall_impl; [exact Hs|]. intros c Hc. pose proof (all_bytes (fun c => implb (P c) (Q c)) H c) as Hi. cbn beta in Hi.
  by rewrite Hc in Hi.
Qed.
Ltac by_bytes := (eapply bytes_impl; [|eassumption]; vm_compute; reflexivity).

Lemma base64_digit_char z sh : base64_char (base64_digit (Z.shiftr z sh mod 64)) = true.
Proof.
  pose proof (Z.mod_pos_bound (Z.shiftr z sh) 64 ltac:(lia)) as Hd. set (d := (Z.shiftr z sh mod 64)%Z) in *.
  assert (Hall : forallb (fun n => base64_char (base64_digit (Z.of_nat n))) (seq 0 64) = true) by (vm_compute; reflexivity).
  rewrite forallb_forall in Hall. specialize (Hall (Z.to_nat d)). rewrite Z2Nat.id in Hall by lia. apply Hall, in_seq. lia.
Qed.
Lemma RawStdEncoding_chars s : Forall (fun c => base64_char c = true) (RawStdEncoding s).
Proof.
  induction s as [|a|a b|a b c s IH] using list_ind3; cbn [RawStdEncoding base64_digits map take app];
    repeat (constructor; [apply base64_digit_char|]); done.
Qed.
Lemma hex_byte_chars c : Forall (fun d => hex_char d = true) (hex_byte c).
Proof.
  pose proof (all_bytes (fun c => forallb hex_char (hex_byte c)) ltac:(vm_compute; reflexivity) c) as H. cbn beta in H.
  apply Is_true_true, forallb_True in H. eapply Forall_impl; [exact H|]. by intros d ?%Is_true_true.
Qed.

Lemma Forall_concat_bytes {A} (P : ascii -> Prop) (f : A -> gostr) (l : list A) :
  (forall a, Forall P (f a)) -> Forall P (concat (map f l)).
Proof. intros Hf. induction l as [|a l IH]; [done|]. cbn. apply Forall_app. by split. Qed.
Lemma sprint_x_chars s : Forall (fun c => hex_char c = true) (sprint_x s).
Proof. apply Forall_concat_bytes, hex_byte_chars. Qed.

(** The fingerprints that ssh-keygen prints. *)
Definition colon_hex (s : gostr) : gostr := Join (map hex_byte s) ":".
Definition ssh_sha256 (key : gostr) : gostr := "SHA256:" ++ RawStdEncoding (sha256_Sum key).
Definition ssh_md5 (key : gostr) : gostr := "MD5:" ++ colon_hex (md5_Sum key).

Definition colon_char (c : ascii) : bool := bool_decide (c = ":"%char) || hex_char c.
Lemma colon_hex_chars s : Forall (fun c => colon_char c = true) (colon_hex s).
Proof.
  unfold colon_hex. induction s as [|c s IH]; [done|].
  assert (Hc : Forall (fun c => colon_char c = true) (hex_byte c)) by (pose proof (hex_byte_chars c); by_bytes).
  destruct s as [|d s]; [exact Hc|].
  change (Forall (fun c => colon_char c = true) (hex_byte c ++ ":" ++ Join (map hex_byte (d :: s)) ":")).
  apply Forall_app. split; [done|]. by constructor.
Qed.
Lemma remove_colons s : remove_byte ":" (colon_hex s) = sprint_x s.
Proof.
  assert (Hx : forall c, remove_byte ":" (hex_byte c) = hex_byte c).
  { intros c. by apply (remove_byte_none _ hex_char), hex_byte_chars. }
  unfold colon_hex. induction s as [|c s IH]; [done|]. destruct s as [|d s]; [exact (Hx c)|].
  change (remove_byte ":" (hex_byte c ++ ":" ++ Join (map hex_byte (d :: s)) ":") = hex_byte c ++ sprint_x (d :: s)).
  rewrite !remove_byte_app, Hx, IH. done.
Qed.

Lemma no_spaces s : Forall (fun c => plain c = true) s -> remove_byte " " (TrimSpace s) = s.
Proof. intros Hs. rewrite TrimSpace_plain by done. by apply (remove_byte_none _ plain). Qed.

Lemma absent_byte c (P : ascii -> bool) s : P c = false -> Forall (fun d => P d = true) s -> c ∉ s.
Proof. intros Hc Hs Hin. rewrite Forall_forall in Hs. rewrite (Hs c Hin) in Hc. done. Qed.

Lemma normalize_ssh_sha256 key :
  normalizeFingerprintInput (ssh_sha256 key) = {| algo := "sha256"; raw := RawStdEncoding (sha256_Sum key) |}.
Proof.
  unfold normalizeFingerprintInput, ssh_sha256. rewrite no_spaces; [done|]. apply Forall_app. split; [by repeat constructor|].
  pose proof (RawStdEncoding_chars (sha256_Sum key)). by_bytes.
Qed.
Lemma normalize_base64 key :
  normalizeFingerprintInput (RawStdEncoding (sha256_Sum key)) = {| algo := "sha256"; raw := RawStdEncoding (sha256_Sum key) |}.
Proof.
  pose proof (RawStdEncoding_chars (sha256_Sum key)) as Hc. set (s := RawStdEncoding (sha256_Sum key)) in *.
  unfold normalizeFingerprintInput. rewrite no_spaces by by_bytes. destruct (is_empty s) eqn:He; [by apply is_empty_true in He as ->|].
  rewrite (Index_absent s ":"); [|by apply (absent_byte _ base64_char)].
  unfold Contains. by rewrite (Index_absent s ":") by by apply (absent_byte _ base64_char).
Qed.

Lemma colon_hex_ToLower s : ToLower (colon_hex s) = colon_hex s.
Proof. apply ToLower_id. pose proof (colon_hex_chars s). by_bytes. Qed.
Lemma normalize_ssh_md5 key :
  normalizeFingerprintInput (ssh_md5 key) = {| algo := "md5"; raw := sprint_x (md5_Sum key) |}.
Proof.
  pose proof (colon_hex_chars (md5_Sum key)) as Hc. unfold normalizeFingerprintInput, ssh_md5. rewrite no_spaces.
  2: { apply Forall_app. split; [by repeat constructor|]. by_bytes. }
  transitivity {| algo := "md5"; raw := remove_byte ":" (ToLower (colon_hex (md5_Sum key))) |}; [done|].
  by rewrite colon_hex_ToLower, remove_colons.
Qed.

(** At least two bytes: the first pair of digits, a colon and more. *)
Lemma md5_two key : exists c d s, md5_Sum key = c :: d :: s.
Proof. unfold md5_Sum. destruct (fold_left _ _ _) as [[[a b] c] d]. cbn [bytes_le app]. by do 3 eexists. Qed.
Lemma normalize_colon_hex key :
  normalizeFingerprintInput (colon_hex (md5_Sum key)) = {| algo := "md5"; raw := sprint_x (md5_Sum key) |}.
Proof.
  pose proof (colon_hex_chars (md5_Sum key)) as Hc. unfold normalizeFingerprintInput. rewrite no_spaces by by_bytes.
  assert (Hslash : Contains (colon_hex (md5_Sum key)) "/" = false).
  { unfold Contains. by rewrite Index_absent by by apply (absent_byte _ colon_char). }
  rewrite Hslash, colon_hex_ToLower, remove_colons. destruct (md5_two key) as (c & d & s & Hs).
  assert (Hpair : colon_hex (md5_Sum key) = hex_byte c ++ ":" ++ colon_hex (d :: s)) by by rewrite Hs.
  assert (Hi : Index (colon_hex (md5_Sum key)) ":" = Some 2).
  { rewrite Hpair. apply (Index_byte ":"%char (hex_byte c)). by apply (absent_byte _ hex_char), hex_byte_chars. }
  assert (Hl : ToLower (hex_byte c) = hex_byte c) by (apply ToLower_id; pose proof (hex_byte_chars c); by_bytes).
  unfold Contains. rewrite Hi, Hpair. change (take 2 (hex_byte c ++ ":" ++ colon_hex (d :: s))) with (hex_byte c). rewrite Hl.
  assert (Hne : forall w, 2 < length w -> (hex_byte c =?s w) = false).
  { intros w Hw. apply str_eqb_neq. intros <-. cbn in Hw. lia. }
  rewrite !Hne by (cbn; lia). done.
Qed.

(** A configured fingerprint pins one digest.  Every spelling that ssh-keygen prints, with
    or without the name of the digest, accepts exactly the keys with the digest of that key:
    the encodings lose nothing, and the comparison in constant time is equality.  Whatever
    text was configured, two keys that it accepts have the same SHA-256 or the same MD5
    digest, so no text accepts every key. *)
Lemma fingerprint_pins_one_digest (key key' addr remote : gostr) :
  let accepts fp := fingerprintHostKeyCallback fp addr remote key' = None in
  (accepts (ssh_sha256 key) <-> sha256_Sum key' = sha256_Sum key) /\
  (accepts (RawStdEncoding (sha256_Sum key)) <-> sha256_Sum key' = sha256_Sum key) /\
  (accepts (ssh_md5 key) <-> md5_Sum key' = md5_Sum key) /\
  (accepts (colon_hex (md5_Sum key)) <-> md5_Sum key' = md5_Sum key) /\
  forall fp, fingerprintHostKeyCallback fp addr remote key = None -> accepts fp ->
    sha256_Sum key' = sha256_Sum key \/ md5_Sum key' = md5_Sum key.
Proof.
  cbv zeta. rewrite !callback_iff, normalize_ssh_sha256, normalize_base64, normalize_ssh_md5, normalize_colon_hex, !fingerprintEqual_iff.
  cbn [algo raw]. repeat split; try (by intros ->; auto).
  1-4: intros [[Ha Hr]|[Ha Hr]]; try discriminate Ha; (by apply RawStdEncoding_inj) || by apply sprint_x_inj.
  intros fp. rewrite !callback_iff, !fingerprintEqual_iff. intros [[Ha Hr]|[Ha Hr]] [[Ha' Hr']|[Ha' Hr']]; try congruence.
  - left. apply RawStdEncoding_inj. congruence.
  - right. apply sprint_x_inj. congruence.
Qed.

(** ** The bastion's key *)
Section Bastion.
Context {L : SSHLib} {HL : SSHLaws L}.

(** What a started tunnel has gone through. *)
Lemma Tunnel_Ok cfg n n' local t : Tunnel cfg n = (n', Ok (local, t)) ->
  exists sshAddr conf remote key,
    dial_config cfg = Ok (sshAddr, conf) /\ ssh_Dial sshAddr conf = Ok (remote, key) /\
    cc_HostKeyCallback conf sshAddr remote key = None /\ tcp_Listen "127.0.0.1:0" = Ok local.
Proof.
  unfold Tunnel. destruct (dial_config cfg) as [[addr conf]|] eqn:Hc; [|done].
  destruct (ssh_Dial addr conf) as [[remote key]|] eqn:Hd; [|done].
  destruct (tcp_Listen _) eqn:Hl; [|done]. intros [= <- <- <-]. exists addr, conf, remote, key. repeat split; [done|].
  by apply dial_asks_callback.
Qed.

Lemma dial_config_callback cfg addr conf : dial_config cfg = Ok (addr, conf) -> buildHostKeyCallback cfg = Ok (cc_HostKeyCallback conf).
Proof.
  unfold dial_config. destruct (_ || _); [done|]. destruct (expandTilde _); [|done]. cbn. destruct (os_ReadFile _); [|done].
  destruct (ParsePrivateKey _); [|done]. destruct (buildHostKeyCallback cfg) as [cb|]; [|done]. cbn. by intros [= <- <-].
Qed.

(** The three ways a key is accepted. *)
Lemma callback_accepts cfg cb addr remote key :
  buildHostKeyCallback cfg = Ok cb -> cb addr remote key = None ->
  tc_InsecureIgnoreHostKey cfg = true \/
  (TrimSpace (tc_HostKeyFingerprint cfg) <> [] /\
   fingerprintHostKeyCallback (tc_HostKeyFingerprint cfg) addr remote key = None) \/
  (TrimSpace (tc_HostKeyFingerprint cfg) = [] /\
   exists path known, known_hosts_path cfg = Ok path /\ os_Stat path = StatOk /\ knownhosts_New path = Ok known /\
     known addr remote key = None).
Proof.
  unfold buildHostKeyCallback. destruct (tc_InsecureIgnoreHostKey cfg); [by left|]. intros Hb Hcb. right.
  set (fp := tc_HostKeyFingerprint cfg) in *. destruct (is_empty (TrimSpace fp)) eqn:He; cbn [negb] in Hb.
  - apply is_empty_true in He. right. split; [done|]. destruct (known_hosts_path cfg) as [path|]; [|done]. cbn in Hb.
    destruct (os_Stat path) eqn:Hs; try done. destruct (knownhosts_New path) as [known|] eqn:Hk; [|done].
    injection Hb as ->. by exists path, cb.
  - apply is_empty_false in He. left. split; [done|]. injection Hb as <-. apply callback_iff in Hcb. apply callback_iff.
    unfold normalizeFingerprintInput in *. by rewrite TrimSpace_idemp in Hcb.
Qed.
End Bastion.

(** C33: a tunnel is only started to a bastion whose host key was checked.  Unless the
    connection's strict checking is switched off explicitly, the key of the handshake
    was accepted by the configured fingerprint, or, when none is configured, by the
    known_hosts file, which exists; a fingerprint that ssh-keygen printed for a key means
    that the bastion's key has the same digest, and any fingerprint accepts keys of one
    digest only.  The tunnel listens on the loopback interface. *)
Theorem tunnel_checks_the_host_key {L : SSHLib} {HL : SSHLaws L} (s : SSHConfig) n n' local t
    (Hrun : Tunnel (tunnelCfg s) n = (n', Ok (local, t))) :
  exists sshAddr conf remote key,
    dial_config (tunnelCfg s) = Ok (sshAddr, conf) /\ ssh_Dial sshAddr conf = Ok (remote, key) /\
    tcp_Listen "127.0.0.1:0" = Ok local /\
    (StrictHostKeyChecking s = Some false \/
     (TrimSpace (HostKeyFingerprint s) <> [] /\
      forall k, (HostKeyFingerprint s = ssh_sha256 k -> sha256_Sum key = sha256_Sum k) /\
                (HostKeyFingerprint s = ssh_md5 k -> md5_Sum key = md5_Sum k) /\
                (fingerprintHostKeyCallback (HostKeyFingerprint s) sshAddr remote k = None ->
                 sha256_Sum k = sha256_Sum key \/ md5_Sum k = md5_Sum key)) \/
     (TrimSpace (HostKeyFingerprint s) = [] /\
      exists path known, known_hosts_path (tunnelCfg s) = Ok path /\ os_Stat path = StatOk /\
        knownhosts_New path = Ok known /\ known sshAddr remote key = None)).
Proof.
  destruct (Tunnel_Ok _ _ _ _ _ Hrun) as (addr & conf & remote & key & Hc & Hd & Hcb & Hl). exists addr, conf, remote, key.
  repeat (split; [done|]). destruct (callback_accepts _ _ _ _ _ (dial_config_callback _ _ _ Hc) Hcb) as [Hi|[[Hfp Hk]|Hk]].
  - left. cbn in Hi. destruct (StrictHostKeyChecking s) as [[]|]; [done..|]. done.
  - right. left. split; [done|]. cbn in Hk. intros k.
    destruct (fingerprint_pins_one_digest k key addr remote) as (H1 & _ & H2 & _).
    destruct (fingerprint_pins_one_digest key k addr remote) as (_ & _ & _ & _ & H3). repeat split.
    + intros Heq. apply H1. by rewrite <- Heq.
    + intros Heq. apply H2. by rewrite <- Heq.
    + by apply H3.
  - by right; right.
Qed.

(** A bastion with the key "bastion key", behind a dial that does what the library
    documents. *)
Definition example_ssh : SSHLib := {|
  HomeDir := Some ("/home/u" : gostr); os_Stat _ := StatNotExist; os_ReadFile _ := Ok ("PEM" : gostr);
  signer := gostr; ParsePrivateKey k := Ok k; knownhosts_New _ := Err [];
  ssh_Dial addr c :=
    match cc_HostKeyCallback c addr "203.0.113.7:22" "bastion key" with
    | None => Ok ("203.0.113.7:22" : gostr, "bastion key" : gostr)
    | Some e => Err e
    end;
  tcp_Listen _ := Ok ("127.0.0.1:40001" : gostr) |}.
#[export] Instance example_ssh_laws : SSHLaws example_ssh.
Proof.
  constructor. intros addr c remote key. cbn. case_match eqn:Hc; [done|]. congruence.
Qed.

Definition example_bastion (fp : gostr) : SSHConfig := {|
  SSHHost := "bastion.example.com"; SSHUser := "deploy"; KeyPath := "~/.ssh/id_ed25519"; SSHPort := 0;
  StrictHostKeyChecking := None; KnownHostsPath := []; HostKeyFingerprint := fp |}.
Definition no_net : net_state := {| ssh_clients := ∅; listeners := ∅; next_fd := 0 |}.
Definition example_fingerprint : gostr := "SHA256:HXYTHQRxs2g9Iw7jBcuA8cEDZOyDJnUU0RaJW801V8g".

Example example_fingerprint_eq : example_fingerprint = ssh_sha256 "bastion key".
Proof. vm_compute. reflexivity. Qed.
Example tunnel_refuses :
  snd (@Tunnel example_ssh (tunnelCfg (example_bastion "SHA256:AAAA")) no_net) =
    Err (DialFailed "ssh: host key fingerprint mismatch (expected SHA256:AAAA)") /\
  snd (@Tunnel example_ssh (tunnelCfg (example_bastion [])) no_net) = Err (KnownHostsMissing "/home/u/.ssh/known_hosts").
Proof. vm_compute. split; reflexivity. Qed.

Lemma tunnel_checks_the_host_key_witness :
  exists sshAddr conf remote key,
    @dial_config example_ssh (tunnelCfg (example_bastion example_fingerprint)) = Ok (sshAddr, conf) /\
    @ssh_Dial example_ssh sshAddr conf = Ok (remote, key) /\ sha256_Sum key = sha256_Sum "bastion key".
Proof.
  destruct (@Tunnel example_ssh (tunnelCfg (example_bastion example_fingerprint)) no_net) as [n' r] eqn:Hrun.
  assert (Hr : r = Ok ("127.0.0.1:40001" : gostr, (0, 1))).
  { apply (f_equal snd) in Hrun. vm_compute in Hrun. by rewrite <- Hrun. }
  subst r. destruct (tunnel_checks_the_host_key _ _ _ _ _ Hrun) as (addr & conf & remote & key & Hc & Hd & _ & [H|[[_ H]|[H _]]]).
  - discriminate H.
  - exists addr, conf, remote, key. split; [done|]. split; [done|]. exact (proj1 (H "bastion key") example_fingerprint_eq).
  - vm_compute in H. discriminate H.
Defined.

(** ** Closing a tunnel *)
Definition net_ok (n : net_state) : Prop := forall h, h ∈ ssh_clients n ∪ listeners n -> h < next_fd n.

Lemma Tunnel_resources `{SSHLib} cfg n n' r : net_ok n -> Tunnel cfg n = (n', r) ->
  net_ok n' /\
  match r with
  | Err _ => ssh_clients n' = ssh_clients n /\ listeners n' = listeners n
  | Ok (_, (c, l)) =>
      (c ∈ ssh_clients n' /\ l ∈ listeners n') /\
      ssh_clients (closeFn (c, l) n') = ssh_clients n /\ listeners (closeFn (c, l) n') = listeners n
  end.
Proof.
  intros Hok. assert (Hfresh : forall k, next_fd n <= k -> k ∉ ssh_clients n /\ k ∉ listeners n).
  { intros k Hk. split; intros Hin; specialize (Hok k ltac:(set_solver)); lia. }
  unfold Tunnel. destruct (dial_config cfg) as [[addr conf]|]; [|by intros [= <- <-]].
  destruct (ssh_Dial addr conf); [|by intros [= <- <-]].
  destruct (Hfresh (next_fd n) ltac:(lia)) as [Hc _]. destruct (Hfresh (S (next_fd n)) ltac:(lia)) as [_ Hl].
  destruct (tcp_Listen _); intros [= <- <-]; unfold net_ok, closeFn; cbn.
  - split; [|split; [set_solver | split; set_solver]]. intros h Hh. rewrite !elem_of_union, !elem_of_singleton in Hh.
    assert (h = next_fd n \/ h = S (next_fd n) \/ h ∈ ssh_clients n ∪ listeners n) as [->|[->|Hin%Hok]] by set_solver; lia.
  - split; [|split; [set_solver | done]]. intros h Hh. assert (Hin : h ∈ ssh_clients n ∪ listeners n) by set_solver.
    apply Hok in Hin. lia.
Qed.

(** Steps after the close function: nothing is accepted or dialled any more. *)
Definition closed_fwd (s : forwarding) : Prop := listening s = false /\ client_up s = false.
Lemma forward_step_closed s s' : forward_step s s' -> closed_fwd s -> closed_fwd s' /\ forwarding_rank s' < forwarding_rank s.
Proof.
  intros Hst [Hl Hu]. destruct Hst as [s i _ Hx _|s Ha|s i _ Hx|s i Hp|s i Hp|s i up Hp|s i Hp]; try congruence;
    (split; [done|]); unfold forwarding_rank; cbn.
  - rewrite Ha. lia.
  - pose proof (weight_insert proxy_rank _ i _ (Closed false) Hp) as Hw. cbn in Hw. lia.
  - pose proof (weight_insert proxy_rank _ i _ (Copying false) Hp) as Hw. cbn in Hw. lia.
  - pose proof (weight_insert proxy_rank _ i _ (Closed up) Hp) as Hw. destruct up; cbn in Hw; lia.
  - pose proof (weight_insert proxy_rank _ i _ (Closed false) Hp) as Hw. cbn in Hw. lia.
Qed.
Lemma closed_run k s s' : nsteps forward_step k s s' -> closed_fwd s -> closed_fwd s' /\ k + forwarding_rank s' <= forwarding_rank s.
Proof.
  induction 1 as [s|k s s1 s2 Hst _ IH]; intros Hc; [split; [done | lia]|].
  destruct (forward_step_closed _ _ Hst Hc) as [Hc1 Hr]. destruct (IH Hc1). split; [done | lia].
Qed.
Lemma forward_stuck s : (forall s', ~ forward_step s s') ->
  accepting s = false /\ forall i p, proxies s !! i = Some p -> p = Closed false.
Proof.
  intros Hs. split.
  - destruct (accepting s) eqn:Ha; [|done]. exfalso. by eapply Hs, fwd_accept_error.
  - intros i [|up|[]] Hp; [..|done]; exfalso.
    + by eapply Hs, fwd_dial_error.
    + by eapply Hs, fwd_down_end.
    + by eapply Hs, fwd_up_closed.
Qed.

(** C34: a tunnel releases what it holds.  Starting one leaves the process's SSH connections
    and listeners as they were when it fails, and adds exactly the two that its close
    function closes when it succeeds.  Once it is closed, in whatever state its forwarded
    connections are, no connection is accepted or forwarded any more, its goroutines take at
    most as many steps as the state holds, and when they can take none the accept loop has
    returned and both ends of every forwarded connection are closed. *)
Theorem closed_tunnel_drains `{SSHLib} cfg n n' r (Hok : net_ok n) (Hrun : Tunnel cfg n = (n', r)) :
  match r with
  | Err _ => ssh_clients n' = ssh_clients n /\ listeners n' = listeners n
  | Ok (_, t) =>
      (fst t ∈ ssh_clients n' /\ snd t ∈ listeners n') /\
      ssh_clients (closeFn t n') = ssh_clients n /\ listeners (closeFn t n') = listeners n
  end /\
  forall s k s', nsteps forward_step k (forwarding_close s) s' ->
    k <= forwarding_rank s /\
    (forall i, proxies s !! i = None -> proxies s' !! i = None) /\
    ((forall s'', ~ forward_step s' s'') -> accepting s' = false /\ forall i p, proxies s' !! i = Some p -> p = Closed false).
Proof.
  split.
  { apply Tunnel_resources in Hrun as [_ Hr]; [|done]. by destruct r as [[local [c l]]|e]. }
  intros s k s' Hsteps. destruct (closed_run _ _ _ Hsteps) as [_ Hk]; [done|]. split; [|split; [|apply forward_stuck]].
  - change (forwarding_rank (forwarding_close s)) with (forwarding_rank s) in Hk. lia.
  - intros i Hi. assert (Hc : closed_fwd (forwarding_close s)) by done. change (proxies (forwarding_close s) !! i = None) in Hi.
    clear Hk. induction Hsteps as [s1|k s1 s2 s3 Hst _ IH]; [done|]. destruct (forward_step_closed _ _ Hst Hc) as [Hc2 _].
    apply IH; [|done]. destruct Hst as [s1 j _ Hx _|s1 _|s1 j Hp _|s1 j Hp|s1 j Hp|s1 j up Hp|s1 j Hp]; cbn; try done;
      [destruct Hc; congruence|..]; (rewrite lookup_insert_ne; [done | intros ->; congruence]).
Qed.

(** A forwarded connection of a tunnel that is closed while it copies. *)
Definition copying_fwd : forwarding := set_proxy 0 (Copying true) forwarding_start.

Lemma no_net_ok : net_ok no_net.
Proof. intros h Hh. cbn in Hh. set_solver. Qed.

Lemma closed_tunnel_drains_witness :
  let '(n', r) := @Tunnel example_ssh (tunnelCfg (example_bastion example_fingerprint)) no_net in
  r = Ok ("127.0.0.1:40001" : gostr, (0, 1)) /\ ssh_clients (closeFn (0, 1) n') = ∅ /\
  rtc forward_step forwarding_start copying_fwd /\
  forall k s', nsteps forward_step k (forwarding_close copying_fwd) s' -> k <= 4.
Proof.
  destruct (@Tunnel example_ssh (tunnelCfg (example_bastion example_fingerprint)) no_net) as [n' r] eqn:Hrun.
  assert (Hr : r = Ok ("127.0.0.1:40001" : gostr, (0, 1))).
  { apply (f_equal snd) in Hrun. vm_compute in Hrun. by rewrite <- Hrun. }
  subst r. destruct (closed_tunnel_drains _ _ _ _ no_net_ok Hrun) as [Hres Hdrain]. split; [done|]. split; [exact (proj1 (proj2 Hres))|]. split.
  - eapply rtc_l; [by apply (fwd_accept _ 0)|]. eapply rtc_l; [|apply rtc_refl].
    assert (Heq : copying_fwd = set_proxy 0 (Copying true) (set_proxy 0 Dialing forwarding_start)).
    { unfold copying_fwd, set_proxy. cbn. f_equal. }
    rewrite Heq. by apply fwd_dial.
  - intros k s' Hk. apply Hdrain in Hk as [Hk _]. exact Hk.
Defined.

(** An error of [Accept] ends the loop for good, also one that is passing, while the
    listener stays open. *)
Example accept_error_is_final s s' : accepting s = false -> rtc forward_step s s' ->
  accepting s' = false /\ listening s' = listening s /\ forall i, proxies s !! i = None -> proxies s' !! i = None.
Proof.
  intros Ha Hrun. revert Ha. induction Hrun as [s|s s1 s2 Hst _ IH]; intros Ha; [done|].
  assert (H1 : accepting s1 = false /\ listening s1 = listening s /\ forall i, proxies s !! i = None -> proxies s1 !! i = None).
  { destruct Hst as [s j Hx _ _|s Hx|s j Hp _|s j Hp|s j Hp|s j up Hp|s j Hp]; try congruence;
      (split; [done|]; split; [done|]; intros i Hi; cbn; rewrite lookup_insert_ne; [done | intros ->; congruence]). }
  destruct H1 as (Ha1 & Hl & Hn). destruct (IH Ha1) as (Ha2 & Hl2 & Hn2). split; [done|]. split; [congruence|]. auto.
Qed.
