(* ===== verification/QueryTools.v ===== *)
(** cmd/mysql-mcp-server/tools.go: run_query, ping and the package variables they read.

    A handler is a function on the server's state (and on the connection manager where it
    can change it).  Audit entries, log lines and token estimates, which decide nothing, are
    added in QueryLog.v. *)
From S2P Require Import Prelude Unicode GoStrings GoNum Identifiers SqlValidator SqlParser Config Access Labels Retry Sql Connection.

Inductive tool_error :=
| Required (what : gostr)
| AccessDenied (err : access_error)
| Rejected (err : ParserValidationError + SQLValidationError)
| OffsetNegative
| LimitNotPositive (limit : Z)
| Pagination (err : paginate_error)
| Failed (err : goerr)
| DatabaseNotFound (db : gostr)
| TableNotFound (db table : gostr)
| NoColumns (db table : gostr)
| InvalidName (what : gostr) (err : ident_error)
| UnexpectedColumns (n : nat)
| Invalid (what : gostr).

(** The package variables main sets from the configuration. *)
Record globals := {
  g_maxRows : Z; g_retry : retry_config; g_pingTimeout : Z; g_mask : list gostr;
  g_allowed : gset gostr; g_allowSystemSchemas : bool
}.

(** ** run_query *)
Record RunQueryInput := { SQL : gostr; in_MaxRows : option Z; Offset : option Z; Database : gostr }.
Record QueryResult := {
  Columns : list gostr; Rows : list (list value); Truncated : bool; HasMore : bool;
  NextOffset : option Z; Warning : gostr
}.

(** scanAndNormalizeRow *)
Definition scanAndNormalizeRow (ncols : nat) (row : list value) : result goerr (list value) :=
  match scan_any ncols row with
  | Err e => Err (Wrap "failed to scan row" e)
  | Ok values => Ok (map NormalizeValue values)
  end.

(** The loop over the rows: what was appended, and whether a row beyond the limit was seen
    (the loop then stops). *)
Fixpoint scan_loop (limit : Z) (ncols : nat) (rows : list (list value)) (out : list (list value))
    : result goerr (list (list value) * bool) :=
  match rows with
  | [] => Ok (out, false)
  | row :: rows =>
      match scanAndNormalizeRow ncols row with
      | Err e => Err e
      | Ok rowValues =>
          if (Z.of_nat (length out) <? limit)%Z then scan_loop limit ncols rows (out ++ [rowValues])
          else Ok (out, true)
      end
  end.

(** The part of runQueryScan after the query was accepted. *)
Definition collect (limit : Z) (paginated : bool) (pageOffset : Z) (rs : rowset) : result goerr QueryResult :=
  match scan_loop limit (length (rs_columns rs)) (rs_rows rs) [] with
  | Err e => Err e
  | Ok (rows, more) =>
      match (if more then None else rs_err rs) with
      | Some e => Err (Wrap "row iteration failed" e)
      | None =>
          match rs_close rs with
          | Some e => Err (Wrap "failed to close rows" e)
          | None =>
              Ok {| Columns := rs_columns rs; Rows := rows; Truncated := more && negb paginated;
                    HasMore := more && paginated;
                    NextOffset := if more && paginated then Some (wrap64 (pageOffset + limit)) else None;
                    Warning := [] |}
          end
      end
  end.

Section Query.
Context `{SqlServer}.

Definition runQueryScan (db : dbh) (finalSQL database : gostr) (limit : Z) (paginated : bool) (pageOffset : Z)
    (s : server) : server * result goerr QueryResult :=
  match db_Conn db s with
  | (s, Err e) => (s, Err (Wrap "failed to get connection" e))
  | (s, Ok conn) =>
      let run (s : server) :=
        match conn_Query conn finalSQL s with
        | (s, Err e) => (s, Err (Wrap "query failed" e))
        | (s, Ok rs) => (s, collect limit paginated pageOffset rs)
        end in
      let '(s, r) :=
        if is_empty database then run s
        else match QuoteIdent database with
        | Err _ => (s, Err (OtherError "invalid database name"))
        | Ok quotedDB =>
            match conn_Exec conn ("USE " ++ quotedDB) s with
            | (s, Some e) => (s, Err (Wrap ("failed to select database '" ++ database ++ "'") e))
            | (s, None) => run s
            end
        end in
      (conn_Close conn s, r)
  end.
End Query.

(** ** maskResults *)
Definition mask_pattern (patterns : list gostr) : list gostr :=
  filter (fun p => is_empty p = false) (map TrimSpace patterns).
Definition masked_column (patterns : list gostr) (col : gostr) : bool :=
  existsb (fun p => Contains (ToLower col) (ToLower p)) (mask_pattern patterns).
Definition mask_cell (v : value) : value := match v with VNil => VNil | _ => VString "********" end.

(** A cell beyond the columns has no index in the map. *)
Fixpoint mask_row (masked : list bool) (row : list value) : list value :=
  match masked, row with
  | b :: masked, v :: row => (if b then mask_cell v else v) :: mask_row masked row
  | _, row => row
  end.
Definition maskResults (cols : list gostr) (rows : list (list value)) (patterns : list gostr) : list (list value) :=
  map (mask_row (map (masked_column patterns) cols)) rows.

Definition star_warning : gostr :=
  "SELECT * retrieves all columns, which increases payload size. Specify only the columns you need for better performance.".

Section RunQuery.
Context `{Sqlparser} `{SqlServer} `{Backoff}.
Variable g : globals.

(** The row limit in force. *)
Definition effective_limit (maxRows : option Z) : Z :=
  let limit := match maxRows with
    | Some n => if (0 <? n)%Z && (n <? g_maxRows g)%Z then n else g_maxRows g
    | None => g_maxRows g
    end in
  if (limit <? 0)%Z then 0%Z else limit.

(** Everything toolRunQuery checks before it asks for the database. *)
Definition check_query (input : RunQueryInput) : result tool_error (gostr * gostr * gostr * Z) :=
  let sqlText := TrimSpace (SQL input) in
  if is_empty sqlText then Err (Required "sql")
  else
    let database := TrimSpace (Database input) in
    match (if accessControlEnabled (g_allowed g) then
             if is_empty database then Some (Required "database")
             else match requireAllowedDatabase (g_allowed g) database with
                  | Some e => Some (AccessDenied e)
                  | None => None
                  end
           else None) with
    | Some e => Err e
    | None =>
        match ValidateSQLCombined (g_allowSystemSchemas g) sqlText with
        | Some e => Err (Rejected e)
        | None =>
            match requireReferencedSchemasInQuery (g_allowed g) sqlText with
            | Some e => Err (AccessDenied e)
            | None =>
                let limit := effective_limit (in_MaxRows input) in
                match Offset input with
                | Some pageOffset =>
                    if (pageOffset <? 0)%Z then Err OffsetNegative
                    else if (limit <=? 0)%Z then Err (LimitNotPositive limit)
                    else match InjectLimitWithOffset sqlText (wrap64 (limit + 1)) pageOffset with
                    | Err e => Err (Pagination e)
                    | Ok finalSQL => Ok (sqlText, finalSQL, database, limit)
                    end
                | None => Ok (sqlText, InjectLimit sqlText limit, database, limit)
                end
            end
        end
    end.

(** The attempts leave their rows in [out]; the last one's are the answer. *)
Definition query_attempt (db : dbh) (finalSQL database : gostr) (limit : Z) (paginated : bool) (pageOffset : Z)
    (st : server * result goerr QueryResult) : server * result goerr QueryResult * option goerr :=
  let '(s, r) := runQueryScan db finalSQL database limit paginated pageOffset (fst st) in
  ((s, r), match r with Ok _ => None | Err e => Some e end).
Definition query_ping (db : dbh) (st : server * result goerr QueryResult) : server * result goerr QueryResult :=
  (fst (db_Ping db (fst st)), snd st).
Definition run_with_retry (ctx : context) (db : dbh) (finalSQL database : gostr) (limit : Z) (paginated : bool)
    (pageOffset : Z) (s : server) : server * result goerr QueryResult :=
  let '((s, r), err) :=
    Do ctx (Some (query_ping db)) (g_retry g) (g_pingTimeout g)
      (query_attempt db finalSQL database limit paginated pageOffset) (s, Err (OtherError [])) in
  (s, match err with Some e => Err e | None => r end).

Definition finish_result (hasStar : bool) (out : QueryResult) : QueryResult :=
  {| Columns := Columns out; Rows := maskResults (Columns out) (Rows out) (g_mask g);
     Truncated := Truncated out; HasMore := HasMore out; NextOffset := NextOffset out;
     Warning := if hasStar then star_warning else Warning out |}.

Definition toolRunQuery (ctx : context) (db : dbh) (input : RunQueryInput) (s : server)
    : server * result tool_error QueryResult :=
  match check_query input with
  | Err e => (s, Err e)
  | Ok (sqlText, finalSQL, database, limit) =>
      let hasStar := HasSelectStar sqlText in
      let usePagination := match Offset input with Some _ => true | None => false end in
      match run_with_retry ctx db finalSQL database limit usePagination (default 0%Z (Offset input)) s with
      | (s, Err e) => (s, Err (Failed e))
      | (s, Ok out) => (s, Ok (finish_result hasStar out))
      end
  end.

(** toolPing: the outcome of the retried ping. *)
Definition toolPing (ctx : context) (db : dbh) (s : server) : server * option goerr :=
  Do ctx (Some (fun s => fst (db_Ping db s))) (g_retry g) (g_pingTimeout g) (db_Ping db) s.
End RunQuery.

(** ** Lemmas on the loop and the mask *)
Lemma scan_loop_widths (limit : Z) (ncols : nat) (rows out : list (list value)) res :
  scan_loop limit ncols rows out = Ok res -> (Z.of_nat (length out) <= Z.max limit 0)%Z ->
  Forall (fun row => length row = ncols) out ->
  (Z.of_nat (length (fst res)) <= Z.max limit 0)%Z /\ Forall (fun row => length row = ncols) (fst res).
Proof.
  revert out. induction rows as [|row rows IH]; intros out; cbn; [by intros [= <-]|].
  unfold scanAndNormalizeRow, scan_any. destruct (Nat.eqb_spec (length row) ncols) as [Hw|]; [|done].
  destruct (Z.ltb_spec (Z.of_nat (length out)) limit) as [Hlt|Hge].
  - intros Heq Hlen HF. apply IH in Heq; [done | rewrite length_app; cbn; lia |].
    apply list.Forall_app. split; [done|]. constructor; [by rewrite length_map | constructor].
  - intros [= <-] Hlen HF. done.
Qed.

Lemma scan_loop_rows (limit ncols : nat) (rows out : list (list value)) :
  Forall (fun row => length row = ncols) rows -> length out <= limit ->
  scan_loop (Z.of_nat limit) ncols rows out =
    Ok (out ++ map (map NormalizeValue) (take (limit - length out) rows), limit - length out <? length rows).
Proof.
  revert out. induction rows as [|row rows IH]; intros out HF Hlen; cbn [scan_loop].
  - by rewrite take_nil, app_nil_r.
  - apply list.Forall_cons in HF as [Hw HF]. unfold scanAndNormalizeRow, scan_any. rewrite Hw, Nat.eqb_refl.
    destruct (Z.ltb_spec (Z.of_nat (length out)) (Z.of_nat limit)) as [Hlt|Hge].
    + rewrite IH by (rewrite ?length_app; cbn; lia || done). rewrite length_app. cbn [length].
      replace (limit - length out) with (S (limit - (length out + 1))) by lia. cbn [take map].
      by rewrite <- app_assoc.
    + replace (limit - length out) with 0 by lia. cbn. by rewrite app_nil_r.
Qed.

Lemma scan_loop_short (limit : Z) (ncols : nat) (rows out res : list (list value)) (more : bool) :
  scan_loop limit ncols rows out = Ok (res, more) -> (Z.of_nat (length out + length rows) <= limit)%Z -> more = false.
Proof.
  revert out. induction rows as [|row rows IH]; intros out; cbn [scan_loop]; [by intros [= _ <-]|].
  destruct (scanAndNormalizeRow ncols row); [|done]. cbn [length].
  destruct (Z.ltb_spec (Z.of_nat (length out)) limit); [|lia].
  intros Hs Hlen. eapply IH; [exact Hs|]. rewrite length_app. cbn. lia.
Qed.

Lemma mask_row_length (masked : list bool) (row : list value) : length (mask_row masked row) = length row.
Proof. revert row. induction masked as [|b masked IH]; intros [|v row]; cbn; auto. Qed.

Lemma mask_row_lookup (masked : list bool) (row : list value) (i : nat) :
  mask_row masked row !! i =
    match masked !! i, row !! i with
    | Some true, Some v => Some (mask_cell v)
    | _, r => r
    end.
Proof.
  revert row i. induction masked as [|b masked IH]; intros [|v row] [|i]; cbn; try done.
  - by destruct b.
  - by destruct (masked !! i) as [[]|].
  - by destruct b.
Qed.

(** ** Paging through a result *)

(** The server's answer for one page: at most [limit + 1] rows from the offset on. *)
Definition page_rows (cols : list gostr) (all : list (list value)) (limit : nat) (offset : Z) : rowset :=
  {| rs_columns := cols; rs_rows := take (limit + 1) (drop (Z.to_nat offset) all); rs_err := None; rs_close := None |}.

(** A client that follows next_offset while there is one. *)
Fixpoint read_pages (fuel : nat) (cols : list gostr) (all : list (list value)) (limit : nat) (offset : Z)
    : result goerr (list (list value)) :=
  match fuel with
  | O => Err (OtherError "out of fuel")
  | S fuel =>
      match collect (Z.of_nat limit) true offset (page_rows cols all limit offset) with
      | Err e => Err e
      | Ok out =>
          match NextOffset out with
          | None => Ok (Rows out)
          | Some next => let? rest := read_pages fuel cols all limit next in Ok (Rows out ++ rest)
          end
      end
  end.

Lemma read_pages_from (fuel : nat) (cols : list gostr) (all : list (list value)) (limit offset : nat) :
  Forall (fun row => length row = length cols) all -> 0 < limit ->
  (Z.of_nat (length all) + Z.of_nat limit <= maxInt64)%Z -> length (drop offset all) < fuel ->
  read_pages fuel cols all limit (Z.of_nat offset) = Ok (map (map NormalizeValue) (drop offset all)).
Proof.
  intros HF Hlim Hmax. revert offset. induction fuel as [|fuel IH]; intros offset Hfuel; [lia|].
  cbn [read_pages]. unfold collect, page_rows. cbn [rs_columns rs_rows rs_err rs_close]. rewrite Nat2Z.id.
  rewrite scan_loop_rows by (try apply list.Forall_take, list.Forall_drop; cbn; lia || done).
  rewrite Nat.sub_0_r, take_take, length_take. cbn [app].
  replace (limit `min` (limit + 1)) with limit by lia.
  destruct (Nat.ltb_spec limit ((limit + 1) `min` length (drop offset all))) as [Hmore|Hlast]; cbn [andb negb NextOffset Rows].
  - rewrite length_drop in Hmore, Hfuel. rewrite wrap64_id by (unfold in_int64, maxInt64 in *; lia).
    replace (Z.of_nat offset + Z.of_nat limit)%Z with (Z.of_nat (offset + limit)) by lia.
    rewrite IH by (rewrite length_drop; lia). cbn [result_bind]. rewrite <- map_app, <- drop_drop. by rewrite take_drop.
  - by rewrite take_ge by lia.
Qed.

(** C22: Offset pagination is complete.  Whatever the page size, a client that starts at
    offset 0 and follows next_offset ends, and has then read every row of the result once
    and in order. *)
Theorem pagination_reads_everything (cols : list gostr) (all : list (list value)) (limit : nat)
    (Hwidth : Forall (fun row => length row = length cols) all) (Hlimit : 0 < limit)
    (Hmax : (Z.of_nat (length all) + Z.of_nat limit <= maxInt64)%Z) :
  read_pages (S (length all)) cols all limit 0 = Ok (map (map NormalizeValue) all).
Proof. apply (read_pages_from (S (length all)) cols all limit 0); [done | done | done |]. rewrite drop_0. lia. Qed.

Lemma pagination_reads_everything_witness :
  read_pages 6 ["id"] [[VInt64 1]; [VInt64 2]; [VBytes "3"]; [VNil]; [VInt64 5]] 2 0 =
    Ok [[VInt64 1]; [VInt64 2]; [VString "3"]; [VNil]; [VInt64 5]].
Proof.
  apply (pagination_reads_everything ["id"] [[VInt64 1]; [VInt64 2]; [VBytes "3"]; [VNil]; [VInt64 5]] 2);
    [by repeat constructor | lia | vm_compute; discriminate].
Defined.

(** ** run_query as a whole *)
Lemma pagination_text `{Sqlparser} (sqlText out : gostr) (n offset : Z) :
  InjectLimitWithOffset sqlText n offset = Ok out ->
  out = sqlText \/ out = InjectLimit sqlText n ++ " OFFSET " ++ Itoa offset.
Proof.
  unfold InjectLimitWithOffset, InjectLimit. destruct (n <=? 0)%Z; [by intros [= <-]; left|].
  destruct (offset <? 0)%Z; [done|]. destruct (Parse (TrimSpace sqlText)) as [stmt|]; [|done].
  destruct (top_level_limit stmt) as [[]|]; try done. rewrite <- !app_assoc. intros [= <-]. by right.
Qed.

(** The statements run_query may send. *)
Record only_statements `{SqlServer} (P : server -> Prop) (db : dbh) (database finalSQL : gostr) : Prop := {
  only_ping : forall s, P s -> P (fst (db_Ping db s));
  only_conn : forall s, P s -> P (fst (db_Conn db s));
  only_close : forall c s, P s -> P (conn_Close c s);
  only_use : forall c q s, QuoteIdent database = Ok q -> P s -> P (fst (conn_Exec c ("USE " ++ q) s));
  only_query : forall c s, P s -> P (fst (conn_Query c finalSQL s))
}.

Lemma runQueryScan_preserves `{SqlServer} P db finalSQL database limit paginated pageOffset s :
  only_statements P db database finalSQL -> P s ->
  P (fst (runQueryScan db finalSQL database limit paginated pageOffset s)).
Proof.
  intros [_ Hconn Hclose Huse Hquery] Hs. unfold runQueryScan.
  specialize (Hconn s Hs). destruct (db_Conn db s) as [s1 [c|e]]; [|done]. cbn [fst] in Hconn.
  assert (Hrun : forall s, P s -> P (fst (match conn_Query c finalSQL s with
    | (s, Err e) => (s, Err (Wrap "query failed" e))
    | (s, Ok rs) => (s, collect limit paginated pageOffset rs) end))).
  { intros s2 Hs2. specialize (Hquery c s2 Hs2). by destruct (conn_Query c finalSQL s2) as [s3 []]. }
  destruct (is_empty database).
  - specialize (Hrun s1 Hconn). destruct (conn_Query c finalSQL s1) as [s3 []]; by apply Hclose.
  - destruct (QuoteIdent database) as [q|]; [|by apply Hclose].
    specialize (Huse c q s1 eq_refl Hconn). destruct (conn_Exec c ("USE " ++ q) s1) as [s2 [e|]]; [by apply Hclose|].
    specialize (Hrun s2 Huse). destruct (conn_Query c finalSQL s2) as [s3 []]; by apply Hclose.
Qed.

(** What a successful scan returns. *)
Definition good_page (limit : Z) (paginated : bool) (pageOffset : Z) (out : QueryResult) : Prop :=
  (Z.of_nat (length (Rows out)) <= Z.max limit 0)%Z /\
  Forall (fun row => length row = length (Columns out)) (Rows out) /\
  HasMore out && negb paginated = false /\ Truncated out && paginated = false /\
  NextOffset out = if HasMore out then Some (wrap64 (pageOffset + limit)) else None.

Lemma collect_good limit paginated pageOffset rs out :
  collect limit paginated pageOffset rs = Ok out -> good_page limit paginated pageOffset out.
Proof.
  unfold collect. destruct (scan_loop limit _ _ []) as [[rows more]|e] eqn:Hscan; [|done].
  apply scan_loop_widths in Hscan; [|cbn; lia | constructor]. destruct Hscan as [Hlen HF].
  destruct (if more then None else rs_err rs); [done|]. destruct (rs_close rs); [done|]. intros [= <-].
  unfold good_page. cbn in *. by destruct more, paginated.
Qed.

Lemma runQueryScan_good `{SqlServer} db finalSQL database limit paginated pageOffset s out :
  snd (runQueryScan db finalSQL database limit paginated pageOffset s) = Ok out ->
  good_page limit paginated pageOffset out.
Proof.
  unfold runQueryScan. destruct (db_Conn db s) as [s1 [c|e]]; [|done]. intros Heq.
  assert (Hrun : forall s, snd (match conn_Query c finalSQL s with
    | (s, Err e) => (s, Err (Wrap "query failed" e))
    | (s, Ok rs) => (s, collect limit paginated pageOffset rs) end) = Ok out -> good_page limit paginated pageOffset out).
  { intros s2. destruct (conn_Query c finalSQL s2) as [s3 []]; [apply collect_good | done]. }
  destruct (is_empty database).
  - apply (Hrun s1). by destruct (conn_Query c finalSQL s1) as [s3 []].
  - destruct (QuoteIdent database) as [q|]; [|done].
    destruct (conn_Exec c ("USE " ++ q) s1) as [s2 [e|]]; [done|].
    apply (Hrun s2). by destruct (conn_Query c finalSQL s2) as [s3 []].
Qed.

Section RunQuerySpec.
Context `{Sqlparser} `{SqlServer} `{BackoffLaws}.
Variable g : globals.

Lemma run_with_retry_preserves P ctx db finalSQL database limit paginated pageOffset s :
  only_statements P db database finalSQL -> P s ->
  P (fst (run_with_retry g ctx db finalSQL database limit paginated pageOffset s)).
Proof.
  intros Honly Hs. unfold run_with_retry.
  pose proof (Do_preserves (fun st => P (fst st)) ctx (Some (query_ping db)) (g_retry g) (g_pingTimeout g)
    (query_attempt db finalSQL database limit paginated pageOffset) (s, Err (OtherError []))) as HDo.
  destruct (Do _ _ _ _ _ _) as [[s1 r] err]. cbn [fst] in *. apply HDo; [| |done].
  - intros [s2 r2] Hs2. unfold query_attempt. cbn [fst] in *.
    pose proof (runQueryScan_preserves P db finalSQL database limit paginated pageOffset s2 Honly Hs2) as Hscan.
    by destruct (runQueryScan db finalSQL database limit paginated pageOffset s2).
  - intros p' [s2 r2] [= <-] Hs2. cbn [fst] in *. by apply (only_ping _ _ _ _ Honly).
Qed.

Lemma run_with_retry_good ctx db finalSQL database limit paginated pageOffset s s' out :
  run_with_retry g ctx db finalSQL database limit paginated pageOffset s = (s', Ok out) ->
  good_page limit paginated pageOffset out.
Proof.
  unfold run_with_retry.
  pose proof (Do_preserves (fun st => forall out, snd st = Ok out -> good_page limit paginated pageOffset out) ctx
    (Some (query_ping db)) (g_retry g) (g_pingTimeout g)
    (query_attempt db finalSQL database limit paginated pageOffset) (s, Err (OtherError []))) as HDo.
  destruct (Do _ _ _ _ _ _) as [[s1 r] [err|]]; [done|].
  intros [= _ ->]. cbn [fst] in HDo. refine (HDo _ _ _ out eq_refl).
  - intros [s2 r2] _ out2. unfold query_attempt. cbn [fst].
    pose proof (runQueryScan_good db finalSQL database limit paginated pageOffset s2) as Hgood.
    destruct (runQueryScan db finalSQL database limit paginated pageOffset s2). cbn in *. apply Hgood.
  - intros p' [s2 r2] [= <-] Hold out2. cbn [snd] in *. apply Hold.
  - done.
Qed.

(** What passed the checks. *)
Definition checked_query (input : RunQueryInput) (sqlText finalSQL database : gostr) : Prop :=
  sqlText = TrimSpace (SQL input) /\ sqlText <> [] /\
  ValidateSQLCombined (g_allowSystemSchemas g) sqlText = None /\
  requireReferencedSchemasInQuery (g_allowed g) sqlText = None /\
  requireAllowedDatabase (g_allowed g) database = None /\
  (finalSQL = sqlText \/ exists n, finalSQL = InjectLimit sqlText n \/
     exists offset, finalSQL = InjectLimit sqlText n ++ " OFFSET " ++ Itoa offset).

Lemma check_query_sound input sqlText finalSQL database limit :
  check_query g input = Ok (sqlText, finalSQL, database, limit) -> checked_query input sqlText finalSQL database.
Proof.
  unfold check_query, checked_query. destruct (is_empty (TrimSpace (SQL input))) eqn:Hempty; [done|]. apply is_empty_false in Hempty.
  destruct (accessControlEnabled (g_allowed g)) eqn:Hacc.
  1: destruct (is_empty (TrimSpace (Database input))); [done|].
  1: destruct (requireAllowedDatabase (g_allowed g) (TrimSpace (Database input))) eqn:Hdb; [done|].
  2: assert (Hdb : requireAllowedDatabase (g_allowed g) (TrimSpace (Database input)) = None)
       by (unfold requireAllowedDatabase; by rewrite Hacc).
  all: destruct (ValidateSQLCombined (g_allowSystemSchemas g) (TrimSpace (SQL input))) eqn:Hval; [done|];
    destruct (requireReferencedSchemasInQuery (g_allowed g) (TrimSpace (SQL input))) eqn:Href; [done|];
    destruct (Offset input) as [off|];
    [destruct (off <? 0)%Z; [done|]; destruct (effective_limit g (in_MaxRows input) <=? 0)%Z; [done|];
     destruct (InjectLimitWithOffset _ _ off) as [final|] eqn:Hpage; [|done]; apply pagination_text in Hpage|];
    intros [= <- <- <- <-]; repeat (split; [done|]).
  all: try (destruct Hpage as [->| ->]; [by left | right; eexists; right; by eexists]).
  all: right; eexists; by left.
Qed.

Lemma toolRunQuery_preserves P ctx db input sqlText finalSQL database limit s :
  check_query g input = Ok (sqlText, finalSQL, database, limit) -> only_statements P db database finalSQL -> P s ->
  P (fst (toolRunQuery g ctx db input s)).
Proof.
  intros Hcheck Honly Hs. unfold toolRunQuery. rewrite Hcheck. cbv zeta.
  pose proof (run_with_retry_preserves P ctx db finalSQL database limit
    match Offset input with Some _ => true | None => false end (default 0%Z (Offset input)) s Honly Hs) as Hrun.
  by destruct (run_with_retry _ _ _ _ _ _ _ _ s) as [? []].
Qed.

(** C20: run_query sends nothing that was not checked.  When a check fails the server is not
    touched at all; otherwise the statement is the validated text, possibly with a LIMIT
    (and OFFSET), both layers accepted it, the allowlist accepted its database and its
    references, and the call runs only that statement, USE of the quoted database, and
    pings: every property of the server they preserve holds afterwards, retries included. *)
Theorem run_query_sends_only_checked_statements (ctx : context) (db : dbh) (input : RunQueryInput) (s : server) :
  match check_query g input with
  | Err e => toolRunQuery g ctx db input s = (s, Err e)
  | Ok (sqlText, finalSQL, database, limit) =>
      sqlText = TrimSpace (SQL input) /\ sqlText <> [] /\
      ValidateSQLCombined (g_allowSystemSchemas g) sqlText = None /\
      requireReferencedSchemasInQuery (g_allowed g) sqlText = None /\
      requireAllowedDatabase (g_allowed g) database = None /\
      (finalSQL = sqlText \/ exists n, finalSQL = InjectLimit sqlText n \/
         exists offset, finalSQL = InjectLimit sqlText n ++ " OFFSET " ++ Itoa offset) /\
      forall P : server -> Prop, only_statements P db database finalSQL -> P s -> P (fst (toolRunQuery g ctx db input s))
  end.
Proof.
  destruct (check_query g input) as [[[[sqlText finalSQL] database] limit]|e] eqn:Hcheck; [|unfold toolRunQuery; by rewrite Hcheck].
  destruct (check_query_sound _ _ _ _ _ Hcheck) as (? & ? & ? & ? & ? & ?). repeat (split; [done|]).
  intros P. by apply toolRunQuery_preserves with (sqlText := sqlText) (limit := limit).
Qed.

(** C21: What a successful run_query returns.  There are at most as many rows as the
    smaller of the caller's limit and the server's, every row has one cell per column,
    every cell of a column whose name contains a configured pattern is null or stars, and
    next_offset is given exactly when a page has a successor, truncated only without
    paging. *)
Theorem run_query_result_is_bounded_and_masked (ctx : context) (db : dbh) (input : RunQueryInput) (s s' : server)
    (out : QueryResult) (Hrun : toolRunQuery g ctx db input s = (s', Ok out)) :
  (Z.of_nat (length (Rows out)) <= effective_limit g (in_MaxRows input))%Z /\
  (effective_limit g (in_MaxRows input) <= Z.max (g_maxRows g) 0)%Z /\
  Forall (fun row => length row = length (Columns out)) (Rows out) /\
  (forall row i col v, row ∈ Rows out -> Columns out !! i = Some col -> masked_column (g_mask g) col = true ->
     row !! i = Some v -> v = VNil \/ v = VString "********") /\
  (NextOffset out <> None <-> HasMore out = true) /\ (HasMore out = true -> Offset input <> None) /\
  (Truncated out = true -> Offset input = None).
Proof.
  revert Hrun. unfold toolRunQuery.
  destruct (check_query g input) as [[[[sqlText finalSQL] database] limit]|e] eqn:Hcheck; [|done].
  assert (Hlimit : limit = effective_limit g (in_MaxRows input)).
  { revert Hcheck. unfold check_query. repeat case_match; try done; by intros [= <- <- <- <-]. }
  destruct (run_with_retry _ _ _ _ _ _ _ _ s) as [s1 [out0|e]] eqn:Hret; [|done]. intros [= <- <-].
  apply run_with_retry_good in Hret as (Hlen & Hwidth & Hmore & Htrunc & Hnext).
  cbn [Rows Columns NextOffset HasMore Truncated finish_result]. rewrite <- Hlimit.
  unfold maskResults. rewrite length_map.
  assert (Hpos : (0 <= limit <= Z.max (g_maxRows g) 0)%Z).
  { rewrite Hlimit. unfold effective_limit. destruct (in_MaxRows input) as [n|].
    - destruct (Z.ltb_spec 0 n), (Z.ltb_spec n (g_maxRows g)); cbn [andb];
        match goal with |- context [(?x <? 0)%Z] => destruct (Z.ltb_spec x 0) end; lia.
    - destruct (Z.ltb_spec (g_maxRows g) 0); lia. }
  split; [lia|]. split; [lia|]. split; [|split; [|split; [|split]]].
  - apply List.Forall_map. eapply list.Forall_impl; [exact Hwidth|]. intros row Hrow. by rewrite mask_row_length.
  - intros row i col v Hin Hcol Hmask Hv. apply list_elem_of_fmap in Hin as (row0 & -> & _).
    rewrite mask_row_lookup, list_lookup_fmap, Hcol in Hv. cbn in Hv. rewrite Hmask in Hv.
    destruct (row0 !! i) as [v0|]; [|done]. injection Hv as <-. destruct v0; auto.
  - rewrite Hnext. by destruct (HasMore out0).
  - intros Hm. rewrite Hm in Hmore. by destruct (Offset input).
  - intros Ht. rewrite Ht in Htrunc. by destruct (Offset input).
Qed.
End RunQuerySpec.

(** ** A small server: it logs its statements and answers every query with two rows *)
Definition log_server : SqlServer :=
  {| server := list gostr; conn := unit;
     pool_Conn _ s := (s, Ok tt);
     pool_Ping _ s := (s, None);
     pool_Query _ q _ s := (s ++ [q], Ok {| rs_columns := []; rs_rows := []; rs_err := None; rs_close := None |});
     pool_Exec _ q s := (s ++ [q], None);
     conn_Exec _ q s := (s ++ [q], None);
     conn_Query _ q s := (s ++ [q], Ok {| rs_columns := ["id"; "Password"]; rs_err := None; rs_close := None;
                                          rs_rows := [[VInt64 1; VBytes "secret"]; [VInt64 2; VNil]] |});
     conn_Close _ s := s;
     format_float _ := []; format_time _ := [] |}.
Definition one_table_parser : Sqlparser :=
  {| SplitStatementToPieces s := Ok [s]; Parse _ := Ok StOtherRead |}.
Definition example_globals : globals :=
  {| g_maxRows := 2; g_retry := DefaultConfig; g_pingTimeout := 1; g_mask := [" passw "]; g_allowed := ∅;
     g_allowSystemSchemas := false |}.
Definition example_input : RunQueryInput :=
  {| SQL := " DESCRIBE users "; in_MaxRows := Some 5%Z; Offset := None; Database := "app" |}.

Example run_query_ex :
  @toolRunQuery one_table_parser log_server no_wait example_globals tt (Pool 0) example_input [] =
    (["USE `app`" : gostr; "DESCRIBE users" : gostr],
     Ok {| Columns := ["id"; "Password"]; Rows := [[VInt64 1; VString "********"]; [VInt64 2; VNil]];
           Truncated := false; HasMore := false; NextOffset := None; Warning := [] |}).
Proof. vm_compute. reflexivity. Qed.

(** No statement but the two of the example is sent. *)
Lemma run_query_sends_only_checked_statements_witness :
  Forall (fun q => q ∈ (["USE `app`" : gostr; "DESCRIBE users" : gostr]))
    (fst (@toolRunQuery one_table_parser log_server no_wait example_globals tt (Pool 0) example_input [])).
Proof.
  pose proof (@run_query_sends_only_checked_statements one_table_parser log_server no_wait no_wait_laws
    example_globals tt (Pool 0) example_input []) as Hthm.
  assert (Hc : @check_query one_table_parser example_globals example_input =
    Ok ("DESCRIBE users" : gostr, "DESCRIBE users" : gostr, "app" : gostr, 2%Z)) by (vm_compute; reflexivity).
  rewrite Hc in Hthm. destruct Hthm as (_ & _ & _ & _ & _ & _ & Hall).
  apply (Hall (Forall (fun q => q ∈ (["USE `app`" : gostr; "DESCRIBE users" : gostr])))); [|constructor].
  split; try done.
  - intros c q s Hq Hs. assert (q = "`app`") as -> by (vm_compute in Hq; congruence).
    apply list.Forall_app. split; [done|]. constructor; [decide_true | constructor].
  - intros c s Hs. apply list.Forall_app. split; [done|]. constructor; [decide_true | constructor].
Defined.

Lemma run_query_result_is_bounded_and_masked_witness :
  (Z.of_nat (length (Rows {| Columns := ["id"; "Password"]; Rows := [[VInt64 1; VString "********"]; [VInt64 2; VNil]];
     Truncated := false; HasMore := false; NextOffset := None; Warning := [] |})) <=
   effective_limit example_globals (in_MaxRows example_input))%Z.
Proof.
  refine (proj1 (@run_query_result_is_bounded_and_masked one_table_parser log_server no_wait no_wait_laws
    example_globals tt (Pool 0) example_input [] ["USE `app`" : gostr; "DESCRIBE users" : gostr] _ _)).
  vm_compute. reflexivity.
Defined.

(** A SELECT without a LIMIT never reports truncation: run_query adds a LIMIT equal to
    the row cap, so the server's answer never has the extra row that would set the flag,
    however many rows existed beyond the cap. *)
Theorem injected_limit_hides_truncation `{SqlServer} (db : dbh) (finalSQL database : gostr) (limit : Z)
    (s s' : server) (out : QueryResult) (Hlimit : (0 <= limit)%Z)
    (Hserver : forall c s1 s2 rs, conn_Query c finalSQL s1 = (s2, Ok rs) -> (Z.of_nat (length (rs_rows rs)) <= limit)%Z)
    (Hrun : runQueryScan db finalSQL database limit false 0 s = (s', Ok out)) :
  Truncated out = false.
Proof.
  assert (Hcollect : forall rs, (Z.of_nat (length (rs_rows rs)) <= limit)%Z -> collect limit false 0 rs = Ok out ->
            Truncated out = false).
  { intros rs Hlen. unfold collect. destruct (scan_loop limit _ _ []) as [[rows more]|e] eqn:Hscan; [|done].
    destruct (if more then None else rs_err rs); [done|]. destruct (rs_close rs); [done|]. intros [= <-]. cbn.
    rewrite andb_true_r. eapply scan_loop_short in Hscan; [done | cbn; lia]. }
  assert (Hq : forall c s1 s2, (match conn_Query c finalSQL s1 with
    | (s, Err e) => (s, Err (Wrap "query failed" e))
    | (s, Ok rs) => (s, collect limit false 0 rs) end) = (s2, Ok out) -> Truncated out = false).
  { intros c s1 s2. destruct (conn_Query c finalSQL s1) as [s3 [rs|e]] eqn:E; [|done]. intros [= _ Heq].
    eapply Hcollect; [by eapply Hserver | done]. }
  revert Hrun. unfold runQueryScan. destruct (db_Conn db s) as [s1 [c|e]]; [|done].
  destruct (is_empty database).
  - specialize (Hq c s1). destruct (conn_Query c finalSQL s1) as [s3 [rs|e]]; intros Heq; injection Heq as _ Heq; [|done].
    apply (Hq s3). by rewrite Heq.
  - destruct (QuoteIdent database) as [q|]; [|done]. destruct (conn_Exec c ("USE " ++ q) s1) as [s2 [e|]]; [done|].
    specialize (Hq c s2). destruct (conn_Query c finalSQL s2) as [s3 [rs|e]]; intros Heq; injection Heq as _ Heq; [|done].
    apply (Hq s3). by rewrite Heq.
Qed.

Lemma injected_limit_hides_truncation_witness :
  Truncated {| Columns := ["id"; "Password"]; Rows := [[VInt64 1; VString "secret"]; [VInt64 2; VNil]];
     Truncated := false; HasMore := false; NextOffset := None; Warning := [] |} = false.
Proof.
  apply (@injected_limit_hides_truncation log_server (Pool 0) "SELECT id, Password FROM users LIMIT 2" "" 2 []
    ["SELECT id, Password FROM users LIMIT 2" : gostr]); [lia | | vm_compute; reflexivity].
  intros c s1 s2 rs [= _ <-]. vm_compute. discriminate.
Defined.
