(* ===== verification/Tools.v ===== *)
(** cmd/mysql-mcp-server/tools.go: list_databases, list_tables, describe_table (with
    catalogRows of toolpack.go), and the tools of the connection manager. *)
From S2P Require Import Prelude Unicode GoStrings GoNum Identifiers SqlParser Config Access Labels Retry Sql Connection Sessions QueryTools.

(** ** The catalog tools *)
Record TableInfo := { t_name : gostr; t_engine : gostr; t_rows : option Z; t_comment : gostr }.
Record ColumnInfo := {
  col_name : gostr; col_type : gostr; col_null : gostr; col_key : gostr; col_default : gostr; col_extra : gostr;
  col_comment : gostr; col_collation : gostr
}.

(** The loop over the rows: [scan] reads a row, [None] skips it; the loop stops when [maxRows]
    entries were appended.  The boolean says that it stopped. *)
Fixpoint list_loop {A} (scan : list value -> result goerr (option A)) (maxRows : Z) (rows : list (list value))
    (out : list A) : result goerr (list A * bool) :=
  match rows with
  | [] => Ok (out, false)
  | row :: rows =>
      match scan row with
      | Err e => Err (Wrap "scan failed" e)
      | Ok None => list_loop scan maxRows rows out
      | Ok (Some a) =>
          let out := out ++ [a] in
          if (maxRows <=? Z.of_nat (length out))%Z then Ok (out, true) else list_loop scan maxRows rows out
      end
  end.
Definition list_rows {A} (iteration : goerr -> goerr) (scan : list value -> result goerr (option A)) (maxRows : Z) (rs : rowset)
    : result goerr (list A) :=
  match list_loop scan maxRows (rs_rows rs) [] with
  | Err e => Err e
  | Ok (out, stopped) =>
      match (if stopped then None else rs_err rs) with
      | Some e => Err (iteration e)
      | None => Ok out
      end
  end.

Definition list_tables_sql : gostr :=
  "SELECT TABLE_NAME, ENGINE, TABLE_ROWS, TABLE_COMMENT 
			  FROM information_schema.TABLES 
			  WHERE TABLE_SCHEMA = ?
			  ORDER BY TABLE_NAME, CAST(TABLE_NAME AS BINARY)".
Definition describe_table_sql : gostr :=
  "SELECT 
				COLUMN_NAME, COLUMN_TYPE, IS_NULLABLE, COLUMN_KEY, 
				COLUMN_DEFAULT, EXTRA, COLUMN_COMMENT, COLLATION_NAME
			  FROM information_schema.COLUMNS 
			  WHERE TABLE_SCHEMA = ? AND TABLE_NAME = ?
			  ORDER BY ORDINAL_POSITION".

Section Catalog.
Context `{SqlServer}.
Variable g : globals.

(** catalogRows of toolpack.go; [None] arguments are NULL. *)
Definition catalogRows (ctx : callctx) (proc : gostr) (procArgs : list value) (query : gostr) (args : list value)
    (m : ConnectionManager) (s : server) : ConnectionManager * server * result goerr rowset :=
  let embedded (m : ConnectionManager) (s : server) :=
    let '(s, r) := db_Query (getDB m ctx) query args s in (m, s, r) in
  if usesToolPack m ctx then
    let '(s, r) := db_Query (getDB m ctx) (packCall proc (length procArgs)) procArgs s in
    if negb (packUnavailable match r with Err e => mysql_number e | Ok _ => None end) then (m, s, r)
    else embedded (dropToolPack m ctx) s
  else embedded m s.

Definition schemaExists (ctx : callctx) (m : ConnectionManager) (database : gostr) (s : server) : server * result tool_error bool :=
  match QueryRow scan_int64 (getDB m ctx) "SELECT 1 FROM information_schema.SCHEMATA WHERE SCHEMA_NAME = ? LIMIT 1"
          [VString database] s with
  | (s, Ok _) => (s, Ok true)
  | (s, Err ErrNoRows) => (s, Ok false)
  | (s, Err e) => (s, Err (Failed (Wrap "schema existence check failed" e)))
  end.
Definition tableExists (ctx : callctx) (m : ConnectionManager) (database table : gostr) (s : server)
    : server * result tool_error bool :=
  match QueryRow scan_int64 (getDB m ctx)
          "SELECT 1 FROM information_schema.TABLES WHERE TABLE_SCHEMA = ? AND TABLE_NAME = ? LIMIT 1"
          [VString database; VString table] s with
  | (s, Ok _) => (s, Ok true)
  | (s, Err ErrNoRows) => (s, Ok false)
  | (s, Err e) => (s, Err (Failed (Wrap "table existence check failed" e)))
  end.

Definition scan_database (row : list value) : result goerr (option gostr) :=
  match row with
  | [v] => let? name := scan_string v in
           if negb (databaseAllowed (g_allowed g) name) then Ok None else Ok (Some name)
  | _ => Err scan_arity
  end.

Definition toolListDatabases (ctx : callctx) (m : ConnectionManager) (s : server)
    : ConnectionManager * server * result tool_error (list gostr) :=
  match catalogRows ctx "list_databases" []
          "SELECT SCHEMA_NAME FROM information_schema.SCHEMATA ORDER BY SCHEMA_NAME, CAST(SCHEMA_NAME AS BINARY)" [] m s with
  | (m, s, Err e) => (m, s, Err (Failed (Wrap "ListDatabases failed" e)))
  | (m, s, Ok rs) =>
      (m, s, match list_rows (Wrap "row iteration failed") scan_database (g_maxRows g) rs with Ok out => Ok out | Err e => Err (Failed e) end)
  end.

Definition scan_table (row : list value) : result goerr (option TableInfo) :=
  match row with
  | [name; engine; tableRows; comment] =>
      let? name := scan_string name in
      let? engine := scan_null_string engine in
      let? tableRows := scan_null_int64 tableRows in
      let? comment := scan_null_string comment in
      Ok (Some {| t_name := name; t_engine := null_str engine; t_rows := tableRows; t_comment := null_str comment |})
  | _ => Err scan_arity
  end.

Definition toolListTables (ctx : callctx) (database : gostr) (m : ConnectionManager) (s : server)
    : ConnectionManager * server * result tool_error (list TableInfo) :=
  if is_empty (TrimSpace database) then (m, s, Err (Required "database"))
  else match requireAllowedDatabase (g_allowed g) database with
  | Some e => (m, s, Err (AccessDenied e))
  | None =>
      match catalogRows ctx "list_tables" [VString database] list_tables_sql [VString database] m s with
      | (m, s, Err e) => (m, s, Err (Failed (Wrap "ListTables failed" e)))
      | (m, s, Ok rs) =>
          match list_rows (Wrap "ListTables rows iteration") scan_table (g_maxRows g) rs with
          | Err e => (m, s, Err (Failed e))
          | Ok [] =>
              match rs_close rs with
              | Some e => (m, s, Err (Failed (Wrap "failed to close rows" e)))
              | None =>
                  match schemaExists ctx m database s with
                  | (s, Err e) => (m, s, Err e)
                  | (s, Ok false) => (m, s, Err (DatabaseNotFound database))
                  | (s, Ok true) => (m, s, Ok [])
                  end
              end
          | Ok out => (m, s, Ok out)
          end
      end
  end.

Definition scan_column (row : list value) : result goerr (option ColumnInfo) :=
  match row with
  | [name; colType; nullable; key; dataDefault; extra; comment; collation] =>
      let? name := scan_null_string name in
      let? colType := scan_null_string colType in
      let? nullable := scan_null_string nullable in
      let? key := scan_null_string key in
      let? dataDefault := scan_null_string dataDefault in
      let? extra := scan_null_string extra in
      let? comment := scan_null_string comment in
      let? collation := scan_null_string collation in
      Ok (Some {| col_name := null_str name; col_type := null_str colType; col_null := null_str nullable;
                  col_key := null_str key; col_default := null_str dataDefault; col_extra := null_str extra;
                  col_comment := null_str comment; col_collation := null_str collation |})
  | _ => Err scan_arity
  end.

Definition toolDescribeTable (ctx : callctx) (database table : gostr) (m : ConnectionManager) (s : server)
    : ConnectionManager * server * result tool_error (list ColumnInfo) :=
  if is_empty (TrimSpace database) then (m, s, Err (Required "database"))
  else if is_empty (TrimSpace table) then (m, s, Err (Required "table"))
  else match requireAllowedDatabase (g_allowed g) database with
  | Some e => (m, s, Err (AccessDenied e))
  | None =>
      match catalogRows ctx "describe_table" [VString database; VString table] describe_table_sql
              [VString database; VString table] m s with
      | (m, s, Err e) => (m, s, Err (Failed (Wrap "DescribeTable failed" e)))
      | (m, s, Ok rs) =>
          match list_rows (Wrap "row iteration failed") scan_column (g_maxRows g) rs with
          | Err e => (m, s, Err (Failed e))
          | Ok [] =>
              match tableExists ctx m database table s with
              | (s, Err e) => (m, s, Err e)
              | (s, Ok true) => (m, s, Err (NoColumns database table))
              | (s, Ok false) =>
                  match schemaExists ctx m database s with
                  | (s, Err e) => (m, s, Err e)
                  | (s, Ok false) => (m, s, Err (DatabaseNotFound database))
                  | (s, Ok true) => (m, s, Err (TableNotFound database table))
                  end
              end
          | Ok out => (m, s, Ok out)
          end
      end
  end.
End Catalog.

(** ** The tools of the connection manager *)
Record ConnectionInfo := { ci_name : gostr; ci_dsn : gostr; ci_description : gostr; ci_active : bool }.

(** toolListConnections: the entries and the active name. *)
Definition toolListConnections (m : ConnectionManager) (ctx : callctx) : list ConnectionInfo * gostr :=
  let configs := List m in
  let '(_, activeKey) := ActiveFor m ctx in
  let owned_as (key : gostr) : option gostr :=
    match ctx_session ctx with
    | None => None
    | Some sc =>
        match filter (fun nk => snd nk = key) (map_to_list (owned sc)) with
        | (name, _) :: _ => Some name
        | [] => None
        end
    end in
  let activeName := match ctx_session ctx with None => activeKey | Some sc => displayName sc activeKey end in
  (omap (fun c =>
     let entry name := {| ci_name := name; ci_dsn := DSN c; ci_description := Description c;
                          ci_active := Name c =?s activeKey |} in
     if isSessionConnKey (Name c) then entry <$> owned_as (Name c) else Some (entry (Name c))) configs,
   activeName).

(** toolUseConnection: the switch, then the name of the current database, which may fail. *)
Inductive use_outcome :=
| UseNameRequired
| UseFailed (err : conn_error)
| UseSwitched (name : gostr) (database : option gostr) (note : bool).

Definition toolUseConnection `{SqlServer} (name : gostr) (m : ConnectionManager) (ctx : callctx) (s : server)
    : ConnectionManager * callctx * server * use_outcome :=
  if is_empty name then (m, ctx, s, UseNameRequired)
  else match SetActiveFor m ctx name with
  | (m, ctx, Some e) => (m, ctx, s, UseFailed e)
  | (m, ctx, None) =>
      match QueryRow scan_null_string (getDB m ctx) "SELECT DATABASE()" [] s with
      | (s, Err _) => (m, ctx, s, UseSwitched name None true)
      | (s, Ok currentDB) => (m, ctx, s, UseSwitched name currentDB false)
      end
  end.

Inductive add_error :=
| NameAndDSNRequired
| InvalidDSN (err : gostr)
| RootNotAllowed
| AllowAllFilesNotAllowed
| MultiStatementsNotAllowed
| ReservedConnName
| StatelessMode
| AlreadyExists (name : gostr)
| ReserveFailed (err : conn_error)
| AddFailed (err : conn_error)
| AddSessionEnded
| ActivateFailed (err : conn_error) (rollback : option conn_error).

Definition checkRuntimeDSNOptions {rest} (c : mysql_config rest) : option add_error :=
  if AllowAllFiles c then Some AllowAllFilesNotAllowed
  else if MultiStatements c then Some MultiStatementsNotAllowed
  else None.

Section AddConnection.
Context `{MySQLDriver}.
Variable version : gostr.
Variable cfg : Config.

(** The checks before the connection manager is asked. *)
Definition check_add (in_name in_dsn : gostr) : result add_error (gostr * gostr) :=
  let name := TrimSpace in_name in
  let dsn := TrimSpace in_dsn in
  if is_empty name || is_empty dsn then Err NameAndDSNRequired
  else match ParseDSN dsn with
  | Err e => Err (InvalidDSN e)
  | Ok mysqlCfg =>
      if EqualFold (TrimSpace (User mysqlCfg)) "root" then Err RootNotAllowed
      else match checkRuntimeDSNOptions mysqlCfg with
      | Some e => Err e
      | None => if isSessionConnKey name then Err ReservedConnName else Ok (name, dsn)
      end
  end.

Definition is_exists (e : conn_error) : bool := match e with ErrConnectionAlreadyExists _ => true | _ => false end.

(** Over stdio: the connection is process-wide. *)
Definition add_process_wide (name dsn desc : gostr) (io : io_outcome) (pin : option gostr) (w : world)
    : world * option add_error :=
  match AddConnectionIfAbsentWithPoolConfig version (runtime_config name dsn desc) cfg io w with
  | (w, Some e) => (w, Some (if is_exists e then AlreadyExists name else AddFailed e))
  | (w, None) =>
      match SetActiveFor (cm w) {| ctx_session := None; ctx_pin := pin |} name with
      | (m, _, None) => (with_cm m w, None)
      | (m, _, Some e) =>
          let '(w, rb) := RemoveConnection name (with_cm m w) in (w, Some (ActivateFailed e rb))
      end
  end.

(** Over HTTP: the connection belongs to the session. *)
Definition add_to_session (name dsn desc : gostr) (io : io_outcome) (w : world) (sc : sessionConn)
    : world * sessionConn * option add_error :=
  if MCPHTTPStateless cfg then (w, sc, Some StatelessMode)
  else if Has (cm w) name then (w, sc, Some (AlreadyExists name))
  else match reserve name sc with
  | (sc, Err e) => (w, sc, Some (if is_exists e then AlreadyExists name else ReserveFailed e))
  | (sc, Ok key) =>
      match AddConnectionIfAbsentWithPoolConfig version (runtime_config key dsn desc) cfg io w with
      | (w, Some e) => (w, release name sc, Some (if is_exists e then AlreadyExists name else AddFailed e))
      | (w, None) =>
          if closed sc then (fst (RemoveConnection key w), sc, Some AddSessionEnded)
          else match SetActiveFor (cm w) {| ctx_session := Some sc; ctx_pin := None |} name with
          | (m, ctx, None) => (with_cm m w, default sc (ctx_session ctx), None)
          | (m, ctx, Some e) =>
              let sc := release name sc in
              let '(w, rb) := RemoveConnection key (with_cm m w) in (w, sc, Some (ActivateFailed e rb))
          end
      end
  end.

Definition toolAddConnection (in_name in_dsn desc : gostr) (io : io_outcome) (w : world) (sc : option sessionConn)
    : world * option sessionConn * option add_error :=
  match check_add in_name in_dsn with
  | Err e => (w, sc, Some e)
  | Ok (name, dsn) =>
      match sc with
      | None => let '(w, err) := add_process_wide name dsn desc io None w in (w, None, err)
      | Some sc => let '(w, sc, err) := add_to_session name dsn desc io w sc in (w, Some sc, err)
      end
  end.
End AddConnection.

(** ** The allowlist and the row cap of the lists *)
(** The entries of a list of rows that all scan. *)
Definition entries {A} (scan : list value -> result goerr (option A)) (rows : list (list value)) : list A :=
  omap (fun row => match scan row with Ok o => o | Err _ => None end) rows.

Lemma list_loop_spec {A} (scan : list value -> result goerr (option A)) maxRows rows out res b :
  list_loop scan maxRows rows out = Ok (res, b) -> (Z.of_nat (length out) < maxRows)%Z ->
  exists k, res = out ++ take k (entries scan rows) /\ (Z.of_nat (length res) <= maxRows)%Z /\
    (b = false -> (Z.of_nat (length res) < maxRows)%Z /\ res = out ++ entries scan rows).
Proof.
  revert out. induction rows as [|row rows IH]; intros out; cbn [list_loop].
  { intros [= <- <-] Hlen. exists 0. cbn. rewrite app_nil_r. split; [done|]. split; [lia | done]. }
  change (entries scan (row :: rows)) with
    (match match scan row with Ok o => o | Err _ => None end with Some a => a :: entries scan rows | None => entries scan rows end).
  destruct (scan row) as [[a|]|e] eqn:Hscan; [| |done].
  - destruct (Z.leb_spec maxRows (Z.of_nat (length (out ++ [a])))) as [Hge|Hlt].
    + intros [= <- <-] Hlen. exists 1. cbn [take]. rewrite take_0. rewrite length_app in *. cbn in *.
      split; [done|]. split; [lia | done].
    + intros Heq Hlen. destruct (IH _ Heq Hlt) as (k & -> & Hk & Hb). exists (S k). cbn [take].
      rewrite <- app_assoc in *. split; [done|]. split; [done|]. intros Hfull. destruct (Hb Hfull) as [? Hres].
      split; [done|]. by rewrite Hres, <- app_assoc.
  - intros Heq Hlen. apply (IH _ Heq Hlen).
Qed.

Lemma list_rows_spec {A} iteration (scan : list value -> result goerr (option A)) maxRows rs out :
  list_rows iteration scan maxRows rs = Ok out -> (0 < maxRows)%Z ->
  exists k, out = take k (entries scan (rs_rows rs)) /\ (Z.of_nat (length out) <= maxRows)%Z.
Proof.
  unfold list_rows. intros Heq Hmax. destruct (list_loop scan maxRows (rs_rows rs) []) as [[res b]|] eqn:Hloop; [|done].
  destruct (if b then None else rs_err rs); [done|]. injection Heq as <-.
  destruct (list_loop_spec _ _ _ _ _ _ Hloop Hmax) as (k & -> & Hk & _). by exists k.
Qed.

(** List_databases shows no database outside the allowlist, whatever the server and the
    tool pack answer, and at most as many as the row cap. *)
Theorem list_databases_shows_only_allowed `{SqlServer} (g : globals) ctx m s m' s' out
    (Hmax : (0 < g_maxRows g)%Z) (Hrun : toolListDatabases g ctx m s = (m', s', Ok out)) :
  Forall (fun name => databaseAllowed (g_allowed g) name = true) out /\ (Z.of_nat (length out) <= g_maxRows g)%Z.
Proof.
  revert Hrun. unfold toolListDatabases.
  destruct (catalogRows ctx _ _ _ _ m s) as [[m1 s1] [rs|e]]; [|done].
  destruct (list_rows _ (scan_database g) (g_maxRows g) rs) as [out1|] eqn:Hlist; [|done]. intros [= _ _ <-].
  destruct (list_rows_spec _ _ _ _ _ Hlist Hmax) as (k & -> & Hlen). split; [|done].
  apply list.Forall_take, list.Forall_forall. intros name Hin. apply list_elem_of_omap in Hin as (row & _ & Hrow).
  unfold scan_database in Hrow. destruct row as [|v [|]]; try done. destruct (scan_string v) as [n|]; [|done].
  cbn in Hrow. destruct (databaseAllowed (g_allowed g) n) eqn:Hn; [|done]. cbn in Hrow. by injection Hrow as <-.
Qed.

(** A server with three databases, for the example. *)
Definition three_databases : SqlServer :=
  {| server := unit; conn := unit;
     pool_Conn _ s := (s, Ok tt); pool_Ping _ s := (s, None);
     pool_Query _ _ _ s := (s, Ok {| rs_columns := ["SCHEMA_NAME"]; rs_err := None; rs_close := None;
                                     rs_rows := [[VBytes "App"]; [VBytes "hr"]; [VBytes "mysql"]] |});
     pool_Exec _ _ s := (s, None); conn_Exec _ _ s := (s, None);
     conn_Query _ _ s := (s, Err ErrNoRows);
     conn_Close _ s := s; format_float _ := []; format_time _ := [] |}.
Definition app_only : globals :=
  {| g_maxRows := 10; g_retry := DefaultConfig; g_pingTimeout := 1; g_mask := []; g_allowed := {["app"]};
     g_allowSystemSchemas := false |}.
Lemma list_databases_shows_only_allowed_witness :
  Forall (fun name => databaseAllowed (g_allowed app_only) name = true) (["App"]).
Proof.
  refine (proj1 (@list_databases_shows_only_allowed three_databases app_only {| ctx_session := None; ctx_pin := Some ("main" : gostr) |}
    (cm example_world_main) tt (cm example_world_main) tt ["App"] _ _)); vm_compute; reflexivity.
Defined.

(** ** add_connection: the checks, and the steps it is made of *)

(** Add_connection refuses a DSN that names the root user, lets the server read local
    files or allows several statements in one query, and a name in the reserved space;
    nothing is opened or registered then. *)
Theorem unsafe_runtime_dsn_is_refused `{MySQLDriver} version cfg in_name in_dsn desc io w0 sc c
    (Hparse : ParseDSN (TrimSpace in_dsn) = Ok c)
    (Hunsafe : EqualFold (TrimSpace (User c)) "root" = true \/ AllowAllFiles c = true \/ MultiStatements c = true \/
               isSessionConnKey (TrimSpace in_name) = true) :
  exists e, toolAddConnection version cfg in_name in_dsn desc io w0 sc = (w0, sc, Some e).
Proof.
  unfold toolAddConnection, check_add.
  destruct (is_empty (TrimSpace in_name) || is_empty (TrimSpace in_dsn)); [by eexists|]. rewrite Hparse.
  destruct (EqualFold (TrimSpace (User c)) "root"); [by eexists|]. unfold checkRuntimeDSNOptions.
  destruct (AllowAllFiles c); [by eexists|]. destruct (MultiStatements c); [by eexists|].
  destruct (isSessionConnKey (TrimSpace in_name)); [by eexists|]. by destruct Hunsafe as [?|[?|[?|?]]].
Qed.

(** The steps of one call, on the world and its session. *)
Section Phases.
Context `{MySQLDriver}.
Variable version : gostr.
Variable cfg : Config.

Fixpoint run_phases (n : nat) (io : io_outcome) (cl : call) (w0 : world) (sc : sessionConn) : world * sessionConn :=
  match n with
  | O => (w0, sc)
  | S n =>
      let '(w', sc', p) := call_step version cfg io cl w0 sc in
      match p with None => (w', sc') | Some p => run_phases n io (set_phase p cl) w' sc' end
  end.

Lemma run_call_phases n io c s cl sc :
  calls s !! c = Some cl -> sess s !! c_sid cl = Some sc ->
  let r := run_phases n io cl (w s) sc in
  w (run_call version cfg n io c s) = fst r /\ sess (run_call version cfg n io c s) = <[c_sid cl := snd r]> (sess s).
Proof.
  revert s cl sc. induction n as [|n IH]; intros s cl sc Hc Hsc; cbn.
  { split; [done|]. by rewrite insert_id. }
  rewrite Hc, Hsc. destruct (call_step version cfg io cl (w s) sc) as [[w' sc'] [p|]] eqn:Hstep.
  - destruct (IH {| w := w'; sess := <[c_sid cl := sc']> (sess s); calls := <[c := set_phase p cl]> (calls s);
                    closers := closers s |} (set_phase p cl) sc') as [H1 H2].
    + apply lookup_insert_eq.
    + apply lookup_insert_eq.
    + cbn in *. rewrite H1, H2. split; [done|]. apply insert_insert_eq.
  - destruct n; cbn; rewrite ?lookup_delete_eq; by destruct (closers s).
Qed.

Ltac phases := cbn [run_phases call_step c_phase c_name c_dsn c_desc c_sid set_phase].

(** The cases of the sequential add with a reservation. *)
Lemma phases_of_add io name dsn desc i w0 sc :
  MCPHTTPStateless cfg = false ->
  run_phases 12 io {| c_sid := i; c_name := name; c_dsn := dsn; c_desc := desc; c_phase := AtHas |} w0 sc =
  (let '(w', sc', _) := add_to_session version cfg name dsn desc io w0 sc in (w', sc')).
Proof.
  intros Hst. unfold add_to_session. rewrite Hst. phases.
  destruct (Has (cm w0) name); [done|]. phases.
  destruct (reserve name sc) as [sc1 [key|e]] eqn:Hres; [|done].
  assert (Hopen : closed sc1 = false).
  { unfold reserve in Hres. destruct (closed sc); [done|]. destruct (bool_decide _); [done|].
    destruct (_ <=? _); [done|]. by injection Hres as <- _. }
  phases. unfold AddConnectionIfAbsentWithPoolConfig, addConnectionWithPoolConfig. cbn [Name runtime_config].
  destruct (reserve_add key (cm w0)) as [m [e|]] eqn:Hra.
  { apply reserve_add_Some in Hra as ->. phases. by destruct w0. }
  phases. destruct (open_conn version (runtime_config key dsn desc) cfg io (with_cm m w0)) as [w1 [o|e]];
    [|phases; phases; done].
  phases. destruct (register_conn (runtime_config key dsn desc) cfg false o w1) as [w2 [e|]]; cbn [is_nil].
  { phases. phases. done. }
  phases. phases. rewrite Hopen. phases. phases. unfold SetActiveFor. cbn [ctx_session ctx_pin].
  destruct ((isSessionConnKey name && (resolve sc1 name =?s name)) ||
            negb (Has (cm (with_cm (unreserve_add key (cm w2)) w2)) (resolve sc1 name))).
  - phases. phases. by destruct (RemoveConnection key _).
  - phases. done.
Qed.
End Phases.

(** C28: The handler of add_connection is the call of the interleaving model.  Run without
    interference, the twelve critical sections of a call have the effect of
    toolAddConnection on the manager, the pools and the session, whatever the network
    answers; so the invariants of every interleaving hold for the handler. *)
Theorem add_connection_refines_its_steps `{MySQLDriver} version cfg io s c i in_name in_dsn name dsn desc sc
    (Hcheck : check_add in_name in_dsn = Ok (name, dsn)) (Hstateful : MCPHTTPStateless cfg = false)
    (Hc : calls s !! c = Some {| c_sid := i; c_name := name; c_dsn := dsn; c_desc := desc; c_phase := AtHas |})
    (Hsc : sess s !! i = Some sc) :
  let '(w', sc', _) := toolAddConnection version cfg in_name in_dsn desc io (w s) (Some sc) in
  w (run_call version cfg 12 io c s) = w' /\
  Some (sess (run_call version cfg 12 io c s)) = (fun sc' => <[i := sc']> (sess s)) <$> sc'.
Proof.
  unfold toolAddConnection. rewrite Hcheck.
  pose proof (phases_of_add version cfg io name dsn desc i (w s) sc Hstateful) as Hphases.
  destruct (run_call_phases version cfg 12 io c s _ sc Hc Hsc) as [Hw Hsess]. rewrite Hphases in Hw, Hsess.
  cbn [c_sid] in Hsess. destruct (add_to_session version cfg name dsn desc io (w s) sc) as [[w1 sc1] err].
  cbn [fst snd] in *. split; [done|]. by rewrite Hsess.
Qed.

Lemma add_connection_refines_its_steps_witness :
  let '(w', _, _) := @toolAddConnection plain_driver "1.0" example_cfg " reports" (DSN (example_conn [])) [] (example_io None)
                       (w run1) (Some (newSessionConn "a1")) in
  w (@run_call plain_driver "1.0" example_cfg 12 (example_io None) 7 run1) = w'.
Proof.
  pose proof (@add_connection_refines_its_steps plain_driver "1.0" example_cfg (example_io None) run1 7 0
    " reports" (DSN (example_conn [])) "reports" (DSN (example_conn [])) [] (newSessionConn "a1")) as Hthm.
  specialize (Hthm ltac:(vm_compute; reflexivity) ltac:(vm_compute; reflexivity) ltac:(vm_compute; reflexivity)
    ltac:(vm_compute; reflexivity)).
  destruct (@toolAddConnection plain_driver _ _ _ _ _ _ _ _) as [[w' sc'] err]. exact (proj1 Hthm).
Defined.

Lemma unsafe_runtime_dsn_is_refused_witness :
  exists e, @toolAddConnection plain_driver "1.0" example_cfg "mcp-session/a1/x" (DSN (example_conn [])) [] (example_io None)
    example_world None = (example_world, None, Some e).
Proof.
  apply (@unsafe_runtime_dsn_is_refused plain_driver "1.0" example_cfg "mcp-session/a1/x" (DSN (example_conn [])) []
    (example_io None) example_world None (plain_config 0 7 {[("transaction_read_only" : gostr) := ("OFF" : gostr)]}));
    [vm_compute; reflexivity | right; right; right; vm_compute; reflexivity].
Defined.

(** ** list_connections *)

(** List_connections shows a session the process-wide connections under their own names
    and its own connections under the names it chose, never a connection of another
    session, and every DSN masked; in any interleaving. *)
Theorem list_connections_hides_other_sessions `{MySQLDriver} version cfg s i sc (info : ConnectionInfo)
    (Hs : reachable version cfg s) (Hi : sess s !! i = Some sc)
    (Hin : info ∈ fst (toolListConnections (cm (w s)) {| ctx_session := Some sc; ctx_pin := None |})) :
  exists key c, configs (cm (w s)) !! key = Some c /\ ci_dsn info = MaskDSN (DSN c) /\
    (isSessionConnKey (Name c) = false /\ ci_name info = Name c \/
     owned sc !! ci_name info = Some (Name c)) /\
    forall j sc' n, sess s !! j = Some sc' -> j <> i -> Name c <> session_key sc' n.
Proof.
  apply reachable_inv in Hs. unfold toolListConnections, List in Hin.
  destruct (ActiveFor (cm (w s)) _) as [pl activeKey]. cbn [fst ctx_session] in Hin.
  apply list_elem_of_omap in Hin as (c' & Hc' & Hentry).
  apply list_elem_of_In, in_map_iff in Hc' as ([key c] & <- & Hkey). cbn [snd Name DSN Description] in Hentry.
  apply list_elem_of_In, elem_of_map_to_list in Hkey. exists key, c. split; [done|].
  destruct (isSessionConnKey (Name c)) eqn:Hsess.
  - apply fmap_Some in Hentry as (name & Hname & ->). cbn. split; [done|].
    destruct (filter _ _) as [|[n k] rest] eqn:Hf; [done|]. injection Hname as <-.
    assert (Hmem : (n, k) ∈ filter (fun nk : gostr * gostr => nk.2 = Name c) (map_to_list (owned sc))) by (rewrite Hf; left).
    apply list_elem_of_filter in Hmem as [Heq Hmem]. cbn in Heq. subst k. apply elem_of_map_to_list in Hmem.
    split; [by right|]. intros j sc' m Hj Hne Heq.
    rewrite (ok_keys _ (inv_sess _ Hs _ _ Hi) _ _ Hmem) in Heq.
    by destruct (inv_key_inj Hs _ _ _ _ _ _ Hi Hj Heq).
  - injection Hentry as <-. cbn. split; [done|]. split; [by left|]. intros j sc' m _ _ Heq.
    rewrite Heq, session_key_is_session in Hsess. done.
Qed.

Lemma list_connections_hides_other_sessions_witness :
  match sess run2 !! 1 with
  | Some sc => Forall (fun info => exists key c, configs (cm (w run2)) !! key = Some c /\ ci_dsn info = MaskDSN (DSN c))
                 (fst (toolListConnections (cm (w run2)) {| ctx_session := Some sc; ctx_pin := None |}))
  | None => False
  end.
Proof.
  destruct (sess run2 !! 1) as [sc|] eqn:H1; [|vm_compute in H1; discriminate].
  apply list.Forall_forall. intros info Hin.
  destruct (@list_connections_hides_other_sessions plain_driver "1.0" example_cfg run2 1 sc info run2_reachable H1 Hin)
    as (key & c & Hc & Hdsn & _).
  exists key, c. split; [exact Hc | exact Hdsn].
Defined.

Example list_ex :
  match sess run2 !! 1, sess run2 !! 0 with
  | Some sc, Some owner =>
      map ci_name (fst (toolListConnections (cm (w run2)) {| ctx_session := Some sc; ctx_pin := None |})) = ["main"] /\
      snd (toolListConnections (cm (w run2)) {| ctx_session := Some owner; ctx_pin := None |}) = "reports"
  | _, _ => False
  end.
Proof. vm_compute. auto. Qed.
