(* ===== verification/Guard.v ===== *)
(** cmd/mysql-mcp-server/guard.go and call_middleware.go: refusals of the server's MCP guard,
    and the middleware around every tool call. *)
From S2P Require Import Prelude Unicode GoStrings GoNum Regex Identifiers Config Labels Retry Sql Connection Sessions QueryTools Tools.

(** ** Guard refusals *)
Definition guardMetaKey : gostr := "mysql-mcp-server/guard".
Definition refusal_head : gostr := "running with the ".
Definition refusal_tail : gostr := " option so it cannot execute this statement".
Definition setting_char (c : ascii) : bool :=
  in_rangeb 97 122 c || in_rangeb 48 57 c || bool_decide (c = "_"%char).
(** [mcp(?:\.[a-z0-9_]+)?|mcp_guard], the group of the expression. *)
Definition setting_re : re :=
  Alt (Cat (lit "mcp") (opt (Cat (lit ".") (plus (Chr setting_char))))) (lit "mcp_guard").
Definition guardRefusalRe : re := Cat (lit refusal_head) (Cat setting_re (lit refusal_tail)).

(** [FindStringSubmatch] and its group 1, which lies between two literals. *)
Definition refused_setting (s : gostr) : option gostr :=
  match FindStringIndex guardRefusalRe s with
  | Some (i, j) =>
      let start := i + length refusal_head in
      Some (take (j - length refusal_tail - start) (drop start s))
  | None => None
  end.

(** The first MySQL error of an error tree ([errors.As]). *)
Fixpoint mysql_error (e : goerr) : option (Z * gostr) :=
  match e with
  | MySQLError n msg => Some (n, msg)
  | Wrap _ e => mysql_error e
  | Wrap2 _ a b => match mysql_error a with Some x => Some x | None => mysql_error b end
  | _ => None
  end.

(** guardHit: the settings seen; [None] is the nil pointer of a call without a label. *)
Definition guardHit : Type := gset gostr.
Definition note (h : option guardHit) (err : option goerr) : option guardHit :=
  match h, err with
  | Some settings, Some e =>
      match mysql_error e with
      | Some (n, msg) =>
          if negb (n =? 1290)%Z then h
          else match refused_setting msg with
          | Some setting => Some ({[setting]} ∪ settings)
          | None => h
          end
      | None => h
      end
  | _, _ => h
  end.
(** The errors of a call, in the order the driver returned them. *)
Definition noted (h : option guardHit) (errs : list goerr) : option guardHit :=
  fold_left (fun h e => note h (Some e)) errs h.
Definition saw (h : option guardHit) (setting : gostr) : bool :=
  match h with Some settings => bool_decide (setting ∈ settings) | None => false end.

Definition guardHints : gmap gostr gostr := list_to_map [
  ("mcp.read_only", "MCP sessions may only read on this server");
  ("mcp.deny_system_schemas", "MCP sessions may not read the mysql and sys schemas on this server");
  ("mcp.allowed_schemas", "this schema is outside the ones MCP sessions may access on this server");
  ("mcp.enabled", "MCP access is switched off on this server");
  ("mcp.max_execution_time_ms", "MCP sessions may not raise the statement time limit on this server");
  ("mcp_guard", "the server could not track this MCP session")].

(** ** Results of tool calls *)
Inductive content := TextContent (text : gostr) | OtherContent.
Record tool_result := { Meta : gmap gostr gostr; Content : list content; IsError : bool }.

Definition guard_text (setting text : gostr) : gostr :=
  "Refused by the server's MCP guard (component_mcp_guard, " ++ setting ++ "): " ++
  default "the statement is not allowed for MCP sessions on this server" (guardHints !! setting) ++
  ". Ask the database administrator if this is needed. Server error: " ++ text.

(** The setting a block is rewritten for. *)
Definition explained (hit : option guardHit) (c : content) : option gostr :=
  match c with
  | TextContent text =>
      if negb (Contains text "1290") then None
      else match refused_setting text with
      | Some setting => if negb (saw hit setting) then None else Some setting
      | None => None
      end
  | OtherContent => None
  end.
Fixpoint explain_blocks (hit : option guardHit) (cs : list content) : option (gostr * list content) :=
  match cs with
  | [] => None
  | c :: cs =>
      match c, explained hit c with
      | TextContent text, Some setting => Some (setting, TextContent (guard_text setting text) :: cs)
      | _, _ => match explain_blocks hit cs with
                | Some (setting, cs) => Some (setting, c :: cs)
                | None => None
                end
      end
  end.
Definition explainGuardRefusal (r : tool_result) (hit : option guardHit) : tool_result :=
  match explain_blocks hit (Content r) with
  | Some (setting, cs) => {| Meta := <[guardMetaKey := setting]> (Meta r); Content := cs; IsError := IsError r |}
  | None => r
  end.

(** guardInfo: the mcp.* variables. *)
Record GuardInfo := { Installed : bool; Settings : gmap gostr gostr; gi_error : option goerr }.

Fixpoint scan_settings (rows : list (list value)) (acc : gmap gostr gostr) `{SqlServer} : result goerr (gmap gostr gostr) :=
  match rows with
  | [] => Ok acc
  | [name; v] :: rows =>
      let? name := scan_string name in
      let? v := scan_string v in
      scan_settings rows (<[name := v]> acc)
  | _ :: _ => Err scan_arity
  end.
Definition guardInfo `{SqlServer} (ctx : callctx) (m : ConnectionManager) (s : server) : server * GuardInfo :=
  let failed e := {| Installed := false; Settings := ∅; gi_error := Some e |} in
  match db_Query (getDB m ctx) "SHOW GLOBAL VARIABLES LIKE 'mcp.%'" [] s with
  | (s, Err e) => (s, failed e)
  | (s, Ok rs) =>
      (s, match scan_settings (rs_rows rs) ∅ with
          | Err e => failed e
          | Ok settings =>
              match rs_err rs with
              | Some e => failed e
              | None => {| Installed := 0 <? size settings; Settings := settings; gi_error := None |}
              end
          end)
  end.

(** ** toolCallMiddleware *)
Definition connectionMetaKey : gostr := "mysql-mcp-server/connection".

Definition annotateConnection (r : tool_result) (name : gostr) : tool_result :=
  if is_empty name then r
  else {| Meta := <[connectionMetaKey := name]> (Meta r);
          Content := Content r ++ [TextContent ("connection: " ++ name)]; IsError := IsError r |}.

(** The answer of the inner handler: the manager and the call's context after it (the tool
    may move the pin), the errors the driver returned during the call, and the result. *)
Definition tool_answer : Type := ConnectionManager * callctx * list goerr * option tool_result.

(** [seq] is the process's request counter, [name] the tool of a request with parameters. *)
Definition toolCallMiddleware (reqPrefix : gostr) (method : gostr) (name : option gostr)
    (next : ConnectionManager -> callctx -> option callLabel -> tool_answer)
    (seq : Z) (m : ConnectionManager) (ctx : callctx)
    : Z * ConnectionManager * callctx * option tool_result :=
  if negb (method =?s "tools/call") then
    let '(m, ctx, _, res) := next m ctx None in (seq, m, ctx, res)
  else
    let '(pinned, _) := PinFor m ctx in
    let '(seq, label) :=
      match name with
      | Some tool => let seq := ((seq + 1) mod 2 ^ 64)%Z in (seq, Some (withCallLabel reqPrefix seq tool))
      | None => (seq, None)
      end in
    let '(m, ctx, errs, res) := next m pinned label in
    let hit := noted (match label with Some _ => Some ∅ | None => None end) errs in
    let res :=
      match res with
      | Some r => Some (if IsError r then explainGuardRefusal r hit else r)
      | None => None
      end in
    (seq, m, ctx,
     match ctx_session ctx, res with
     | Some sc, Some r =>
         if 1 <? visibleConnectionCount m sc
         then Some (annotateConnection r (displayName sc (default [] (ctx_pin ctx))))
         else Some r
     | _, _ => res
     end).

Example refused_setting_ex :
  refused_setting "Error 1290 (HY000): The MySQL server is running with the mcp.read_only option so it cannot execute this statement"
    = Some "mcp.read_only" /\
  refused_setting "running with the mcp_guard option so it cannot execute this statement" = Some "mcp_guard" /\
  refused_setting "running with the mcp. option so it cannot execute this statement" = None.
Proof. vm_compute. auto. Qed.

(** ** An explanation needs a refusal *)

(** The driver returned a refusal that names the setting. *)
Definition refused (setting : gostr) (e : goerr) : Prop :=
  exists msg, mysql_error e = Some (1290%Z, msg) /\ refused_setting msg = Some setting.

Lemma note_saw (h : option guardHit) (e : goerr) (setting : gostr) :
  saw (note h (Some e)) setting = true <-> (h <> None /\ refused setting e) \/ saw h setting = true.
Proof.
  unfold refused, note. destruct h as [settings|]; [|by split; [right | intros [[? _]|?]]].
  destruct (mysql_error e) as [[n msg]|]; [|split; [by right | intros [(_ & ? & ? & _)|?]; done]].
  destruct (Z.eqb_spec n 1290) as [->|Hn]; cbn [negb].
  - destruct (refused_setting msg) as [s|] eqn:E; unfold saw; rewrite !bool_decide_eq_true; [rewrite elem_of_union, elem_of_singleton|].
    + split; [intros [->|?]; [left; split; [done|]; by exists msg | by right]|].
      intros [(_ & m & [= <-] & Hm)|?]; [left; congruence | by right].
    + split; [by right|]. intros [(_ & m & [= <-] & Hm)|?]; [congruence | done].
  - split; [by right|]. intros [(_ & m & [= ? ?] & _)|?]; done.
Qed.

Lemma note_none (h : option guardHit) (e : option goerr) : note h e = None <-> h = None.
Proof. unfold note. by repeat case_match. Qed.

Lemma noted_saw (h : option guardHit) (errs : list goerr) (setting : gostr) :
  h <> None -> saw (noted h errs) setting = true <-> (exists e, e ∈ errs /\ refused setting e) \/ saw h setting = true.
Proof.
  unfold noted. revert h. induction errs as [|e errs IH]; intros h Hh; cbn [fold_left].
  - split; [by right|]. intros [(? & Hin & _)|?]; [by apply not_elem_of_nil in Hin | done].
  - rewrite IH by (by rewrite note_none). rewrite note_saw. setoid_rewrite elem_of_cons. naive_solver.
Qed.

Lemma explained_spec (hit : option guardHit) (c : content) (setting : gostr) :
  explained hit c = Some setting ->
  exists text, c = TextContent text /\ refused_setting text = Some setting /\ saw hit setting = true.
Proof.
  destruct c as [text|]; [|done]. unfold explained. destruct (negb (Contains text "1290")); [done|].
  destruct (refused_setting text) as [s|] eqn:E; [|done]. destruct (saw hit s) eqn:Es; [|done]. cbn. naive_solver.
Qed.

Lemma explain_blocks_spec (hit : option guardHit) (cs : list content) :
  match explain_blocks hit cs with
  | None => forall c, c ∈ cs -> explained hit c = None
  | Some (setting, cs') => exists before text after,
      cs = before ++ TextContent text :: after /\ cs' = before ++ TextContent (guard_text setting text) :: after /\
      explained hit (TextContent text) = Some setting /\ forall c, c ∈ before -> explained hit c = None
  end.
Proof.
  induction cs as [|c cs IH]; [by intros c ?%not_elem_of_nil|]. cbn [explain_blocks].
  assert (Hskip : explained hit c = None ->
    match match explain_blocks hit cs with Some (setting, cs) => Some (setting, c :: cs) | None => None end with
    | None => forall c', c' ∈ c :: cs -> explained hit c' = None
    | Some (setting, cs') => exists before text after,
        c :: cs = before ++ TextContent text :: after /\ cs' = before ++ TextContent (guard_text setting text) :: after /\
        explained hit (TextContent text) = Some setting /\ forall c, c ∈ before -> explained hit c = None
    end).
  { intros Hc. destruct (explain_blocks hit cs) as [[setting cs']|].
    - destruct IH as (before & text & after & -> & -> & Ht & Hb). exists (c :: before), text, after.
      repeat split; [done|]. intros c' [->|?]%elem_of_cons; auto.
    - intros c' [->|?]%elem_of_cons; auto. }
  destruct c as [text|]; [|by apply Hskip].
  destruct (explained hit (TextContent text)) as [setting|] eqn:E; [|by apply Hskip].
  exists [], text, cs. repeat split; [done|]. by intros c ?%not_elem_of_nil.
Qed.

(** An error is explained as a guard refusal only when the server refused.  At most one
    block of a result is rewritten: the first one that quotes a setting which the server
    refused, with MySQL error 1290, in this very call; the rewritten block keeps the server's
    text at its end, and the setting is named in the metadata.  A result in which no block
    quotes such a setting is unchanged, whatever text it holds. *)
Theorem guard_explanation_is_grounded (errs : list goerr) (r : tool_result) :
  let hit := noted (Some ∅) errs in
  let grounded c := exists text setting e, c = TextContent text /\ refused_setting text = Some setting /\
    e ∈ errs /\ refused setting e in
  (explainGuardRefusal r hit = r /\ forall c, c ∈ Content r -> explained hit c = None) \/
  exists before text after setting,
    Content r = before ++ TextContent text :: after /\ grounded (TextContent text) /\
    refused_setting text = Some setting /\ (forall c, c ∈ before -> explained hit c = None) /\
    explainGuardRefusal r hit =
      {| Meta := <[guardMetaKey := setting]> (Meta r);
         Content := before ++ TextContent (guard_text setting text) :: after; IsError := IsError r |}.
Proof.
  intros hit grounded. unfold explainGuardRefusal. pose proof (explain_blocks_spec hit (Content r)) as Hspec.
  destruct (explain_blocks hit (Content r)) as [[setting cs]|]; [right|by left].
  destruct Hspec as (before & text & after & Hc & -> & Ht & Hb). exists before, text, after, setting.
  apply explained_spec in Ht as (text' & [= <-] & Hs & Hsaw).
  apply noted_saw in Hsaw as [(e & He & Hr)|Hsaw]; [|by apply bool_decide_eq_true in Hsaw|done].
  repeat split; try done. by exists text, setting, e.
Qed.
