(* ===== verification/LabelDriver.v ===== *)
(** cmd/mysql-mcp-server/labels.go: the wrapper around the MySQL driver, which labels the
    statements of tool calls and notes the refusals of the server's guard, below
    database/sql's use of a driver. *)
From S2P Require Import Prelude Unicode GoStrings Identifiers Config Labels Retry Sql Connection QueryTools Tools Guard.

(** ** Drivers

    What database/sql calls of a connection, a prepared statement and a result set; a state
    [S] stands for the connection, the network and the server.  [full_conn], [full_stmt] and
    [full_rows] say whether a value implements the optional interfaces the wrapper needs. *)
Class Driver (S : Type) := {
  dconn : Type; dstmt : Type; drows : Type;
  d_Connect : S -> S * result goerr dconn;
  d_Query : dconn -> gostr -> list value -> S -> S * result goerr drows;
  d_Exec : dconn -> gostr -> list value -> S -> S * result goerr unit;
  d_Prepare : dconn -> gostr -> S -> S * result goerr dstmt;
  st_Query : dstmt -> list value -> S -> S * result goerr drows;
  st_Exec : dstmt -> list value -> S -> S * result goerr unit;
  st_Close : dstmt -> S -> S;
  r_Next : drows -> S -> S * result goerr (list value);
  r_NextResultSet : drows -> S -> S * option goerr;
  r_Close : drows -> S -> S * option goerr;
  full_conn : dconn -> bool; full_stmt : dstmt -> bool; full_rows : drows -> bool
}.

(** [driver.ErrSkip] and [io.EOF] *)
Definition ErrSkip : goerr := OtherError "driver: skip fast-path; continue as if unimplemented".
Definition EOF : goerr := OtherError "EOF".
Definition err_of {A} (r : result goerr A) : option goerr := match r with Ok _ => None | Err e => Some e end.
Definition map_ok {A B} (f : A -> B) (r : result goerr A) : result goerr B :=
  match r with Ok a => Ok (f a) | Err e => Err e end.

(** ** The wrapper

    A wrapped value is the driver's with a flag: whether it is wrapped, or the driver's own.
    The state carries the guard record of the call, [None] outside a tool call. *)
Section Wrapper.
Context {S : Type} (D : Driver S).
Variables (labelsEnabled : bool) (l : option callLabel).

Definition newLabelConn (c : dconn) : dconn * bool := (c, full_conn c).
Definition newLabelStmt (st : dstmt) : dstmt * bool := (st, full_stmt st).
Definition newLabelRows (r : drows) (hit : option guardHit) : drows * bool :=
  (r, full_rows r && match hit with Some _ => true | None => false end).

(** A call of the driver, its error noted. *)
Definition noting {A B} (wrap : A -> B) (call : S -> S * result goerr A) (sh : S * option guardHit)
    : (S * option guardHit) * result goerr B :=
  let '(s, h) := sh in
  let '(s, r) := call s in ((s, note h (err_of r)), map_ok wrap r).
Definition noting_error (call : S -> S * option goerr) (sh : S * option guardHit) : (S * option guardHit) * option goerr :=
  let '(s, h) := sh in
  let '(s, err) := call s in ((s, note h err), err).
Definition same {A} (a : A) : A := a.
(** A call of a value that is not wrapped. *)
Definition passing {A B} (wrap : A -> B) (call : S -> S * A) (sh : S * option guardHit) : (S * option guardHit) * B :=
  let '(s, h) := sh in
  let '(s, r) := call s in ((s, h), wrap r).

#[export] Instance label_driver : Driver (S * option guardHit) := {|
  dconn := dconn * bool; dstmt := dstmt * bool; drows := drows * bool;
  d_Connect := passing (map_ok newLabelConn) d_Connect;
  d_Query cw query args sh :=
    if snd cw then noting (fun r => newLabelRows r (snd sh)) (d_Query (fst cw) (labelQuery labelsEnabled l query) args) sh
    else passing (map_ok (fun r => (r, false))) (d_Query (fst cw) query args) sh;
  d_Exec cw query args sh :=
    if snd cw then noting same (d_Exec (fst cw) (labelQuery labelsEnabled l query) args) sh
    else passing same (d_Exec (fst cw) query args) sh;
  d_Prepare cw query sh :=
    if snd cw then noting newLabelStmt (d_Prepare (fst cw) (labelQuery labelsEnabled l query)) sh
    else passing (map_ok (fun st => (st, false))) (d_Prepare (fst cw) query) sh;
  st_Query sw args sh :=
    if snd sw then noting (fun r => newLabelRows r (snd sh)) (st_Query (fst sw) args) sh
    else passing (map_ok (fun r => (r, false))) (st_Query (fst sw) args) sh;
  st_Exec sw args sh := if snd sw then noting same (st_Exec (fst sw) args) sh else passing same (st_Exec (fst sw) args) sh;
  st_Close sw sh := (st_Close (fst sw) (fst sh), snd sh);
  r_Next rw sh := if snd rw then noting same (r_Next (fst rw)) sh else passing same (r_Next (fst rw)) sh;
  r_NextResultSet rw sh :=
    if snd rw then noting_error (r_NextResultSet (fst rw)) sh else passing same (r_NextResultSet (fst rw)) sh;
  r_Close rw sh := if snd rw then noting_error (r_Close (fst rw)) sh else passing same (r_Close (fst rw)) sh;
  full_conn cw := full_conn (fst cw); full_stmt sw := full_stmt (fst sw); full_rows rw := full_rows (fst rw)
|}.
End Wrapper.

(** ** database/sql on a driver

    A statement goes the direct way; when the driver skips it, it is prepared.  Rows are
    read up to a number of them, then the rows and the statement behind them are closed. *)
Section DatabaseSQL.
Context {S : Type} {D : Driver S}.

Definition sql_Query (c : dconn) (query : gostr) (args : list value) (s : S) : S * result goerr (drows * option dstmt) :=
  match d_Query c query args s with
  | (s, Ok r) => (s, Ok (r, None))
  | (s, Err e) =>
      if bool_decide (e = ErrSkip) then
        match d_Prepare c query s with
        | (s, Err e) => (s, Err e)
        | (s, Ok st) =>
            match st_Query st args s with
            | (s, Err e) => (st_Close st s, Err e)
            | (s, Ok r) => (s, Ok (r, Some st))
            end
        end
      else (s, Err e)
  end.
Definition sql_Exec (c : dconn) (query : gostr) (args : list value) (s : S) : S * result goerr unit :=
  match d_Exec c query args s with
  | (s, Ok r) => (s, Ok r)
  | (s, Err e) =>
      if bool_decide (e = ErrSkip) then
        match d_Prepare c query s with
        | (s, Err e) => (s, Err e)
        | (s, Ok st) => let '(s, r) := st_Exec st args s in (st_Close st s, r)
        end
      else (s, Err e)
  end.

Fixpoint read_rows (n : nat) (r : drows) (s : S) : S * (list (list value) * option goerr) :=
  match n with
  | O => (s, ([], None))
  | Datatypes.S n =>
      match r_Next r s with
      | (s, Err e) => (s, ([], if bool_decide (e = EOF) then None else Some e))
      | (s, Ok row) => let '(s, (rows, err)) := read_rows n r s in (s, (row :: rows, err))
      end
  end.
Definition close_rows (r : drows) (st : option dstmt) (s : S) : S * option goerr :=
  let '(s, err) := r_Close r s in
  (match st with Some st => st_Close st s | None => s end, err).

(** A query, up to [n] of its rows, the error that ended them, and the error of closing. *)
Definition sql_rows (n : nat) (c : dconn) (query : gostr) (args : list value) (s : S)
    : S * result goerr (list (list value) * option goerr * option goerr) :=
  match sql_Query c query args s with
  | (s, Err e) => (s, Err e)
  | (s, Ok (r, st)) =>
      let '(s, (rows, err)) := read_rows n r s in
      let '(s, cerr) := close_rows r st s in
      (s, Ok (rows, err, cerr))
  end.
End DatabaseSQL.

(** ** The wrapper changes nothing but the text *)
Lemma noted_app (h : option guardHit) (a b : list goerr) : noted (noted h a) b = noted h (a ++ b).
Proof. unfold noted. by rewrite fold_left_app. Qed.
Lemma noted_None (errs : list goerr) : noted None errs = None.
Proof. induction errs as [|e errs IH]; [done|]. exact IH. Qed.
Lemma noted_label (h : option guardHit) (errs : list goerr) :
  (match noted h errs with Some _ => true | None => false end) = match h with Some _ => true | None => false end.
Proof.
  revert h. induction errs as [|e errs IH]; intros h; [done|].
  change (noted h (e :: errs)) with (noted (note h (Some e)) errs). rewrite IH.
  destruct h as [settings|]; [|done]. unfold note. by repeat case_match.
Qed.
Lemma elem_of_option_list {A} (o : option A) (a : A) : a ∈ option_list o -> o = Some a.
Proof. destruct o; cbn; [by intros ->%list_elem_of_singleton | by intros ?%not_elem_of_nil]. Qed.
Lemma note_nothing (h : option guardHit) : note h None = h.
Proof. by destruct h. Qed.
Lemma note_list (h : option guardHit) (err : option goerr) : note h err = noted h (option_list err).
Proof. destruct err; [done|]. by destruct h. Qed.

Section Transparent.
Context {S : Type} (D : Driver S).
Variables (en : bool) (l : option callLabel).
(** The driver the wrapper was written for. *)
Hypothesis Hstmt : forall st : dstmt, full_stmt st = true.
Hypothesis Hrows : forall r : drows, full_rows r = true.
#[local] Instance W : Driver (S * option guardHit) := label_driver D en l.

Definition is_label (h : option guardHit) : bool := match h with Some _ => true | None => false end.

(** The wrapper's call of a query: the driver's call on the labelled text, the errors noted,
    the last one among them. *)
Lemma sql_Query_label c query args s h s' r :
  sql_Query c (labelQuery en l query) args s = (s', r) ->
  exists errs, sql_Query (D := W) (c, true) query args (s, h) =
      ((s', noted h errs), map_ok (fun rs => ((fst rs, is_label h), (fun st => (st, true)) <$> snd rs)) r) /\
    forall e, r = Err e -> e ∈ errs.
Proof.
  unfold sql_Query. cbn. unfold noting. destruct (d_Query c (labelQuery en l query) args s) as [s1 [r1|e1]]; cbn.
  { intros [= <- <-]. exists []. cbn. unfold newLabelRows. rewrite Hrows. by destruct h. }
  destruct (bool_decide (e1 = ErrSkip)).
  2: { intros [= <- <-]. exists [e1]. split; [done|]. intros e [= ->]. by apply list_elem_of_here. }
  destruct (d_Prepare c (labelQuery en l query) s1) as [s2 [st|e2]]; cbn.
  2: { intros [= <- <-]. exists [e1; e2]. split; [done|]. intros e [= ->]. set_solver. }
  rewrite Hstmt. cbn. destruct (st_Query st args s2) as [s3 [r3|e3]]; cbn; intros [= <- <-].
  - exists [e1]. split; [|done]. unfold newLabelRows, newLabelStmt. rewrite Hrows, Hstmt.
    assert (Hl : match note h (Some e1) with Some _ => true | None => false end = is_label h) by exact (noted_label h [e1]).
    rewrite !note_nothing. cbn [andb snd]. by rewrite Hl.
  - exists [e1; e3]. split; [by rewrite note_nothing|]. intros e [= ->]. set_solver.
Qed.

Lemma read_rows_label n r s h s' rows err :
  read_rows n r s = (s', (rows, err)) ->
  exists errs, read_rows (D := W) n (r, is_label h) (s, h) = ((s', noted h errs), (rows, err)) /\
    forall e, err = Some e -> h = None \/ e ∈ errs.
Proof.
  revert s h s' rows err. induction n as [|n IH]; intros s h s' rows err; cbn.
  { intros [= <- <- <-]. by exists []. }
  unfold noting, passing. destruct h as [hit|]; cbn.
  - destruct (r_Next r s) as [s1 [row|e]]; cbn.
    + destruct (read_rows n r s1) as [s2 [rows2 err2]] eqn:Hrest. intros [= <- <- <-].
      destruct (IH s1 (Some hit) s2 rows2 err2 Hrest) as (errs & Hr & Hin). cbn in Hr. rewrite Hr. by exists errs.
    + intros [= <- <- <-]. exists [e]. split; [done|]. intros e'. case_bool_decide; [done|]. intros [= ->]. right. apply list_elem_of_here.
  - destruct (r_Next r s) as [s1 [row|e]]; cbn.
    + destruct (read_rows n r s1) as [s2 [rows2 err2]] eqn:Hrest. intros [= <- <- <-].
      destruct (IH s1 None s2 rows2 err2 Hrest) as (errs & Hr & Hin). cbn in Hr. rewrite Hr. by exists errs.
    + intros [= <- <- <-]. exists []. split; [done|]. by left.
Qed.

Lemma close_rows_label r st s h s' err :
  close_rows r st s = (s', err) ->
  exists errs, close_rows (D := W) (r, is_label h) ((fun st => (st, true)) <$> st) (s, h) = ((s', noted h errs), err) /\
    forall e, err = Some e -> h = None \/ e ∈ errs.
Proof.
  unfold close_rows. cbn. unfold noting_error, passing, same. destruct h as [hit|]; cbn; destruct (r_Close r s) as [s1 e1]; intros [= <- <-].
  - exists (option_list e1). split; [by destruct e1, st|]. intros e ->. right. apply list_elem_of_here.
  - exists []. split; [by destruct st|]. by left.
Qed.

Lemma sql_Exec_label c query args s h s' r :
  sql_Exec c (labelQuery en l query) args s = (s', r) ->
  exists errs, sql_Exec (D := W) (c, true) query args (s, h) = ((s', noted h errs), r) /\ forall e, r = Err e -> e ∈ errs.
Proof.
  unfold sql_Exec. cbn. unfold noting. destruct (d_Exec c (labelQuery en l query) args s) as [s1 [r1|e1]]; cbn.
  { intros [= <- <-]. exists []. by rewrite note_nothing. }
  destruct (bool_decide (e1 = ErrSkip)).
  2: { intros [= <- <-]. exists [e1]. split; [done|]. intros e [= ->]. apply list_elem_of_here. }
  destruct (d_Prepare c (labelQuery en l query) s1) as [s2 [st|e2]]; cbn.
  2: { intros [= <- <-]. exists [e1; e2]. split; [done|]. intros e [= ->]. set_solver. }
  rewrite Hstmt, note_nothing. cbn. destruct (st_Exec st args s2) as [s3 [r3|e3]]; cbn; intros [= <- <-].
  - exists [e1]. by rewrite note_nothing.
  - exists [e1; e3]. split; [done|]. intros e [= ->]. set_solver.
Qed.

(** The errors a query reports. *)
Definition reported (r : result goerr (list (list value) * option goerr * option goerr)) : list goerr :=
  match r with Err e => [e] | Ok (_, err, cerr) => option_list err ++ option_list cerr end.

Lemma sql_rows_label n c query args s h s' r :
  sql_rows n c (labelQuery en l query) args s = (s', r) ->
  exists errs, sql_rows (D := W) n (c, true) query args (s, h) = ((s', noted h errs), r) /\
    forall e, e ∈ reported r -> h = None \/ e ∈ errs.
Proof.
  unfold sql_rows. destruct (sql_Query c (labelQuery en l query) args s) as [s1 [[rs st]|e]] eqn:Hq.
  - destruct (sql_Query_label _ _ _ _ h _ _ Hq) as (errs1 & -> & _). cbn [map_ok fst snd].
    destruct (read_rows n rs s1) as [s2 [rows err]] eqn:Hr. destruct (read_rows_label _ _ _ (noted h errs1) _ _ _ Hr) as (errs2 & Hr' & Hin2).
    destruct (close_rows rs st s2) as [s3 cerr] eqn:Hc.
    destruct (close_rows_label _ _ _ (noted (noted h errs1) errs2) _ _ Hc) as (errs3 & Hc' & Hin3). intros [= <- <-].
    assert (Hl : is_label (noted h errs1) = is_label h) by exact (noted_label h errs1).
    assert (Hl' : is_label (noted (noted h errs1) errs2) = is_label h) by (etrans; [exact (noted_label (noted h errs1) errs2) | exact Hl]).
    rewrite Hl in Hr'. rewrite Hl' in Hc'. rewrite Hr', Hc', !noted_app.
    exists (errs1 ++ errs2 ++ errs3). split; [done|]. cbn. intros e. rewrite elem_of_app.
    destruct h as [hit|]; [|by left]. intros [He|He]; right; rewrite !elem_of_app.
    + apply elem_of_option_list in He as ->. destruct (Hin2 e eq_refl) as [Hn|?]; [|tauto]. by rewrite Hn in Hl.
    + apply elem_of_option_list in He as ->. destruct (Hin3 e eq_refl) as [Hn|?]; [|tauto]. by rewrite Hn in Hl'.
  - destruct (sql_Query_label _ _ _ _ h _ _ Hq) as (errs1 & -> & Hin). intros [= <- <-]. exists errs1. split; [done|].
    cbn. intros e' ->%list_elem_of_singleton. right. by apply Hin.
Qed.
End Transparent.

(** C18: every statement of a tool call reaches the server labelled exactly once, and the
    wrapper changes nothing else.  Whatever the driver answers (a direct query, one it skips
    so that database/sql prepares it, an error, rows that end with an error), database/sql on
    the wrapped connection sees the rows, errors and effects it would see on the driver's own
    connection with the labelled text; and in a tool call every error it reports, also one
    that arrives with the rows or when they are closed, was noted for the guard. *)
Theorem labels_are_transparent {S : Type} (D : Driver S) en l
    (Hconn : forall c : dconn, full_conn c = true) (Hstmt : forall st : dstmt, full_stmt st = true)
    (Hrows : forall r : drows, full_rows r = true) :
  let W := label_driver D en l in
  forall (c : dconn) query args s h,
    let text := labelQuery en l query in
    (exists errs,
       sql_Exec (D := W) (newLabelConn D c) query args (s, h) =
         ((fst (sql_Exec c text args s), noted h errs), snd (sql_Exec c text args s)) /\
       forall e, snd (sql_Exec c text args s) = Err e -> e ∈ errs) /\
    forall n, exists errs,
       sql_rows (D := W) n (newLabelConn D c) query args (s, h) =
         ((fst (sql_rows n c text args s), noted h errs), snd (sql_rows n c text args s)) /\
       forall e, e ∈ reported (snd (sql_rows n c text args s)) -> h = None \/ e ∈ errs.
Proof.
  intros W c query args s h text. unfold newLabelConn. rewrite Hconn. split.
  - destruct (sql_Exec c text args s) as [s' r] eqn:Hx. by apply (sql_Exec_label D en l Hstmt).
  - intros n. destruct (sql_rows n c text args s) as [s' r] eqn:Hx. by apply (sql_rows_label D en l Hstmt Hrows).
Qed.

(** A driver that skips every direct query, logs what it prepares, and ends its one row with
    a refusal of the guard. *)
Definition refusal : goerr :=
  MySQLError 1290 "The MySQL server is running with the mcp.read_only option so it cannot execute this statement".
Definition skipping_driver : Driver (list gostr) := {|
  dconn := unit; dstmt := unit; drows := unit;
  d_Connect s := (s, Ok tt);
  d_Query _ _ _ s := (s, Err ErrSkip); d_Exec _ _ _ s := (s, Err ErrSkip);
  d_Prepare _ q s := (s ++ [q], Ok tt);
  st_Query _ _ s := (s, Ok tt); st_Exec _ _ s := (s, Ok tt); st_Close _ s := s;
  r_Next _ s := (s, Err refusal); r_NextResultSet _ s := (s, None); r_Close _ s := (s, None);
  full_conn _ := true; full_stmt _ := true; full_rows _ := true |}.

Lemma labels_are_transparent_witness :
  let l := Some (withCallLabel "3f9a2c11" 17 "run_query") in
  fst (@sql_rows _ skipping_driver 9 tt (labelQuery true l "SELECT 1") [] []) =
    ["/* mcp:tool=run_query req=3f9a2c11-17 */ SELECT 1" : gostr] /\
  exists errs,
    fst (sql_rows (D := label_driver skipping_driver true l) 9 (newLabelConn skipping_driver tt) "SELECT 1" [] ([], Some ∅)) =
      (["/* mcp:tool=run_query req=3f9a2c11-17 */ SELECT 1" : gostr], noted (Some ∅) errs) /\
    saw (noted (Some ∅) errs) "mcp.read_only" = true.
Proof.
  intros l. split; [by vm_compute|].
  destruct (proj2 (labels_are_transparent skipping_driver true l (fun _ => eq_refl) (fun _ => eq_refl) (fun _ => eq_refl)
    tt "SELECT 1" [] [] (Some ∅)) 9) as (errs & Heq & Hin).
  exists errs. split.
  - rewrite Heq. cbn [fst]. f_equal.
  - apply noted_saw; [done|]. left. exists refusal. split; [|eexists; split; [reflexivity | by vm_compute]].
    destruct (Hin refusal) as [Hn|?]; [vm_compute; apply list_elem_of_here | discriminate Hn | done].
Defined.
