(* ===== verification/Catalog.v ===== *)
(** cmd/mysql-mcp-server/tools_extended.go: the tools that list a schema's objects, sizes and
    the server's variables.

    All of them ask the tool pack first where it is in use (catalogRows), drop the rows that
    do not scan, and stop at the row cap. *)
From Stdlib Require Import SpecFloat.
From S2P Require Import Prelude Unicode GoStrings GoNum GoFmt Identifiers SqlParser Config Access Labels Retry Sql Connection Sessions QueryTools Tools.

(** ** Results (types.go) *)
Record IndexInfo := { ix_name : gostr; ix_columns : gostr; ix_non_unique : bool; ix_type : gostr }.
Record ViewInfo := { vw_name : gostr; vw_definer : gostr; vw_security : gostr; vw_updatable : gostr }.
Record TriggerInfo := { tr_name : gostr; tr_event : gostr; tr_table : gostr; tr_timing : gostr; tr_statement : gostr }.
Record ProcedureInfo := { pr_name : gostr; pr_definer : gostr; pr_created : gostr; pr_modified : gostr; pr_params : gostr }.
Record FunctionInfo := { fn_name : gostr; fn_definer : gostr; fn_returns : gostr; fn_created : gostr }.
Record PartitionInfo := {
  pt_name : gostr; pt_method : gostr; pt_expression : gostr; pt_description : gostr; pt_rows : Z; pt_length : Z
}.
Record DatabaseSizeInfo := { ds_name : gostr; ds_size : float; ds_data : float; ds_index : float; ds_tables : Z }.
Record TableSizeInfo := {
  ts_name : gostr; ts_rows : Z; ts_data : float; ts_index : float; ts_total : float; ts_engine : gostr
}.
Record ForeignKeyInfo := {
  fk_name : gostr; fk_table : gostr; fk_column : gostr; fk_ref_table : gostr; fk_ref_column : gostr;
  fk_on_update : gostr; fk_on_delete : gostr
}.
(** StatusVariable and ServerVariable *)
Record Variable_ := { var_name : gostr; var_value : gostr }.

(** ** The statements *)
Definition list_views_sql : gostr :=
  "SELECT TABLE_NAME, DEFINER, SECURITY_TYPE, IS_UPDATABLE 
		FROM information_schema.VIEWS WHERE TABLE_SCHEMA = ? ORDER BY TABLE_NAME, CAST(TABLE_NAME AS BINARY)".
Definition list_triggers_sql : gostr :=
  "SELECT TRIGGER_NAME, EVENT_MANIPULATION, EVENT_OBJECT_TABLE, ACTION_TIMING, 
		LEFT(ACTION_STATEMENT, 200) FROM information_schema.TRIGGERS WHERE TRIGGER_SCHEMA = ?
		ORDER BY TRIGGER_NAME".
Definition list_procedures_sql : gostr :=
  "SELECT ROUTINE_NAME, DEFINER, CREATED, LAST_ALTERED, 
		IFNULL(PARAMETER_STYLE, '') FROM information_schema.ROUTINES 
		WHERE ROUTINE_SCHEMA = ? AND ROUTINE_TYPE = 'PROCEDURE' ORDER BY ROUTINE_NAME".
Definition list_functions_sql : gostr :=
  "SELECT ROUTINE_NAME, DEFINER, DTD_IDENTIFIER, CREATED 
		FROM information_schema.ROUTINES 
		WHERE ROUTINE_SCHEMA = ? AND ROUTINE_TYPE = 'FUNCTION' ORDER BY ROUTINE_NAME".
Definition list_partitions_sql : gostr :=
  "SELECT PARTITION_NAME, PARTITION_METHOD, PARTITION_EXPRESSION, 
		PARTITION_DESCRIPTION, TABLE_ROWS, DATA_LENGTH 
		FROM information_schema.PARTITIONS 
		WHERE TABLE_SCHEMA = ? AND TABLE_NAME = ? AND PARTITION_NAME IS NOT NULL
		ORDER BY PARTITION_ORDINAL_POSITION, SUBPARTITION_ORDINAL_POSITION".
Definition database_size_sql : gostr :=
  "SELECT 
		TABLE_SCHEMA, 
		ROUND(SUM(DATA_LENGTH + INDEX_LENGTH) / 1024 / 1024, 2) as size_mb,
		ROUND(SUM(DATA_LENGTH) / 1024 / 1024, 2) as data_mb,
		ROUND(SUM(INDEX_LENGTH) / 1024 / 1024, 2) as index_mb,
		COUNT(*) as tables
		FROM information_schema.TABLES".
Definition table_size_sql : gostr :=
  "SELECT 
		TABLE_NAME,
		TABLE_ROWS,
		ROUND(DATA_LENGTH / 1024 / 1024, 2) as data_mb,
		ROUND(INDEX_LENGTH / 1024 / 1024, 2) as index_mb,
		ROUND((DATA_LENGTH + INDEX_LENGTH) / 1024 / 1024, 2) as total_mb,
		ENGINE
		FROM information_schema.TABLES 
		WHERE TABLE_SCHEMA = ?".
Definition foreign_keys_sql : gostr :=
  "SELECT 
		CONSTRAINT_NAME, TABLE_NAME, COLUMN_NAME, 
		REFERENCED_TABLE_NAME, REFERENCED_COLUMN_NAME,
		(SELECT UPDATE_RULE FROM information_schema.REFERENTIAL_CONSTRAINTS rc 
		 WHERE rc.CONSTRAINT_SCHEMA = kcu.CONSTRAINT_SCHEMA 
		 AND rc.CONSTRAINT_NAME = kcu.CONSTRAINT_NAME) as on_update,
		(SELECT DELETE_RULE FROM information_schema.REFERENTIAL_CONSTRAINTS rc 
		 WHERE rc.CONSTRAINT_SCHEMA = kcu.CONSTRAINT_SCHEMA 
		 AND rc.CONSTRAINT_NAME = kcu.CONSTRAINT_NAME) as on_delete
		FROM information_schema.KEY_COLUMN_USAGE kcu
		WHERE CONSTRAINT_SCHEMA = ? AND REFERENCED_TABLE_NAME IS NOT NULL".

(** nullIfEmpty *)
Definition nullIfEmpty (s : gostr) : value := if is_empty s then VNil else VString s.

(** [continue] on a row that does not scan. *)
Definition skip_bad {A} (scan : list value -> result goerr A) (row : list value) : result goerr (option A) :=
  match scan row with Ok a => Ok (Some a) | Err _ => Ok None end.

(** ** Rows *)
Section Rows.
Context `{SqlServer}.

Definition scan_view (row : list value) : result goerr ViewInfo :=
  match row with
  | [a; b; c; d] =>
      let? a := scan_string a in let? b := scan_string b in let? c := scan_string c in let? d := scan_string d in
      Ok {| vw_name := a; vw_definer := b; vw_security := c; vw_updatable := d |}
  | _ => Err scan_arity
  end.
Definition scan_trigger (row : list value) : result goerr TriggerInfo :=
  match row with
  | [a; b; c; d; e] =>
      let? a := scan_string a in let? b := scan_string b in let? c := scan_string c in let? d := scan_string d in
      let? e := scan_string e in
      Ok {| tr_name := a; tr_event := b; tr_table := c; tr_timing := d; tr_statement := e |}
  | _ => Err scan_arity
  end.
Definition scan_procedure (row : list value) : result goerr ProcedureInfo :=
  match row with
  | [a; b; c; d; e] =>
      let? a := scan_string a in let? b := scan_string b in let? c := scan_string c in let? d := scan_string d in
      let? e := scan_string e in
      Ok {| pr_name := a; pr_definer := b; pr_created := c; pr_modified := d; pr_params := e |}
  | _ => Err scan_arity
  end.
Definition scan_function (row : list value) : result goerr FunctionInfo :=
  match row with
  | [a; b; c; d] =>
      let? a := scan_string a in let? b := scan_string b in let? c := scan_string c in let? d := scan_string d in
      Ok {| fn_name := a; fn_definer := b; fn_returns := c; fn_created := d |}
  | _ => Err scan_arity
  end.
Definition scan_partition (row : list value) : result goerr PartitionInfo :=
  match row with
  | [a; b; c; d; e; f] =>
      let? a := scan_null_string a in let? b := scan_null_string b in let? c := scan_null_string c in
      let? d := scan_null_string d in let? e := scan_int64 e in let? f := scan_int64 f in
      Ok {| pt_name := null_str a; pt_method := null_str b; pt_expression := null_str c;
            pt_description := null_str d; pt_rows := e; pt_length := f |}
  | _ => Err scan_arity
  end.
Definition scan_database_size (row : list value) : result goerr DatabaseSizeInfo :=
  match row with
  | [a; b; c; d; e] =>
      let? a := scan_string a in let? b := scan_float64 b in let? c := scan_float64 c in
      let? d := scan_float64 d in let? e := scan_int64 e in
      Ok {| ds_name := a; ds_size := b; ds_data := c; ds_index := d; ds_tables := e |}
  | _ => Err scan_arity
  end.
Definition scan_table_size (row : list value) : result goerr TableSizeInfo :=
  match row with
  | [a; b; c; d; e; f] =>
      let? a := scan_string a in let? b := scan_null_int64 b in let? c := scan_null_float64 c in
      let? d := scan_null_float64 d in let? e := scan_null_float64 e in let? f := scan_null_string f in
      Ok {| ts_name := a; ts_rows := default 0%Z b; ts_data := c; ts_index := d; ts_total := e; ts_engine := null_str f |}
  | _ => Err scan_arity
  end.
Definition scan_foreign_key (row : list value) : result goerr ForeignKeyInfo :=
  match row with
  | [a; b; c; d; e; f; h] =>
      let? a := scan_string a in let? b := scan_string b in let? c := scan_string c in let? d := scan_string d in
      let? e := scan_string e in let? f := scan_null_string f in let? h := scan_null_string h in
      Ok {| fk_name := a; fk_table := b; fk_column := c; fk_ref_table := d; fk_ref_column := e;
            fk_on_update := null_str f; fk_on_delete := null_str h |}
  | _ => Err scan_arity
  end.
Definition scan_variable (row : list value) : result goerr Variable_ :=
  match row with
  | [a; b] =>
      let? a := scan_string a in let? b := scan_string b in Ok {| var_name := a; var_value := b |}
  | _ => Err scan_arity
  end.
End Rows.

(** ** The tools *)
Section Tools.
Context `{SqlServer} `{GoPrint}.
Variable g : globals.

(** The answer of a handler: the manager (which may forget a tool pack), the server, and the
    result. *)
Definition answer (A : Type) : Type := ConnectionManager * server * result tool_error A.

(** A non-empty database on the allowlist. *)
Definition require_database (what : gostr) (db : gostr) (more : list gostr) : option tool_error :=
  if existsb is_empty (db :: more) then Some (Required what)
  else match requireAllowedDatabase (g_allowed g) db with Some e => Some (AccessDenied e) | None => None end.

(** Run a catalog statement and list its rows. *)
Definition list_catalog {A} (failed : goerr -> goerr) (scan : list value -> result goerr (option A)) (ctx : callctx)
    (proc : gostr) (procArgs : list value) (query : gostr) (args : list value)
    (m : ConnectionManager) (s : server) : answer (list A) :=
  match catalogRows ctx proc procArgs query args m s with
  | (m, s, Err e) => (m, s, Err (Failed (failed e)))
  | (m, s, Ok rs) =>
      (m, s, match list_rows (fun e => e) scan (g_maxRows g) rs with Ok out => Ok out | Err e => Err (Failed e) end)
  end.

(** [return err] *)
Definition refuse {A} (m : ConnectionManager) (s : server) (e : tool_error) : answer A := (m, s, Err e).

(** *** Indexes: grouped by name, in the order of their first row *)
Definition index_group : Type := list gostr * gmap gostr (list gostr) * gmap gostr IndexInfo.
Definition add_index_row (st : index_group) (values : list value) : index_group :=
  let '(order, cols, info) := st in
  let cell i := sprint_value (NormalizeValue (nth i values VNil)) in
  let keyName := cell 2 in
  let order := match info !! keyName with Some _ => order | None => order ++ [keyName] end in
  (order, <[keyName := default [] (cols !! keyName) ++ [cell 4]]> cols,
   <[keyName := {| ix_name := keyName; ix_columns := []; ix_non_unique := cell 1 =?s "1"; ix_type := cell 10 |}]> info).
Definition group_indexes (ncols : nat) (rows : list (list value)) : index_group :=
  fold_left (fun st row => match scan_any ncols row with Ok values => add_index_row st values | Err _ => st end)
    rows ([], ∅, ∅).
Definition indexes_of (st : index_group) : list IndexInfo :=
  let '(order, cols, info) := st in
  map (fun name =>
    let i := default {| ix_name := []; ix_columns := []; ix_non_unique := false; ix_type := [] |} (info !! name) in
    {| ix_name := ix_name i; ix_columns := Join (default [] (cols !! name)) ", ";
       ix_non_unique := ix_non_unique i; ix_type := ix_type i |}) order.

Definition toolListIndexes (ctx : callctx) (database table : gostr) (m : ConnectionManager) (s : server)
    : answer (list IndexInfo) :=
  match require_database "database and table" database [table] with
  | Some e => refuse m s e
  | None =>
      match QuoteIdent database, QuoteIdent table with
      | Err e, _ => refuse m s (InvalidName "database" e)
      | _, Err e => refuse m s (InvalidName "table" e)
      | Ok dbName, Ok tableName =>
          match catalogRows ctx "list_indexes" [VString database; VString table]
                  ("SHOW INDEX FROM " ++ dbName ++ "." ++ tableName) [] m s with
          | (m, s, Err e) => refuse m s (Failed (Wrap "SHOW INDEX failed" e))
          | (m, s, Ok rs) =>
              let colCount := length (rs_columns rs) in
              if colCount <? 11 then refuse m s (UnexpectedColumns colCount)
              else (m, s, Ok (indexes_of (group_indexes colCount (rs_rows rs))))
          end
      end
  end.

Definition toolShowCreateTable (ctx : callctx) (database table : gostr) (m : ConnectionManager) (s : server)
    : answer gostr :=
  match require_database "database and table" database [table] with
  | Some e => refuse m s e
  | None =>
      match QuoteIdent database, QuoteIdent table with
      | Err e, _ => refuse m s (InvalidName "database" e)
      | _, Err e => refuse m s (InvalidName "table" e)
      | Ok dbName, Ok tableName =>
          let failed e := Failed (Wrap "SHOW CREATE TABLE failed" e) in
          match catalogRows ctx "show_create_table" [VString database; VString table]
                  ("SHOW CREATE TABLE " ++ dbName ++ "." ++ tableName) [] m s with
          | (m, s, Err e) => refuse m s (failed e)
          | (m, s, Ok rs) =>
              let ncols := length (rs_columns rs) in
              if ncols <? 2 then refuse m s (UnexpectedColumns ncols)
              else match rs_rows rs with
              | [] => refuse m s (failed (match rs_err rs with Some e => e | None => ErrNoRows end))
              | row :: _ =>
                  match scan_null_strings ncols row with
                  | Err e => refuse m s (failed e)
                  | Ok vals => (m, s, Ok (null_str (default None (vals !! 1))))
                  end
              end
          end
      end
  end.

(** *** Lists *)
Definition query_failed : goerr -> goerr := Wrap "query failed".

Definition list_of_database {A} (scan : list value -> result goerr A) (proc query : gostr)
    (ctx : callctx) (database : gostr) (m : ConnectionManager) (s : server) : answer (list A) :=
  match require_database "database" database [] with
  | Some e => refuse m s e
  | None => list_catalog query_failed (skip_bad scan) ctx proc [VString database] query [VString database] m s
  end.
Definition toolListViews := list_of_database scan_view "list_views" list_views_sql.
Definition toolListTriggers := list_of_database scan_trigger "list_triggers" list_triggers_sql.
Definition toolListProcedures := list_of_database scan_procedure "list_procedures" list_procedures_sql.
Definition toolListFunctions := list_of_database scan_function "list_functions" list_functions_sql.

Definition toolListPartitions (ctx : callctx) (database table : gostr) (m : ConnectionManager) (s : server)
    : answer (list PartitionInfo) :=
  match require_database "database and table" database [table] with
  | Some e => refuse m s e
  | None => list_catalog query_failed (skip_bad scan_partition) ctx "list_partitions" [VString database; VString table]
              list_partitions_sql [VString database; VString table] m s
  end.

Definition size_query (database : gostr) : gostr :=
  database_size_sql ++
  (if negb (is_empty database) then " WHERE TABLE_SCHEMA = ?"
   else " WHERE TABLE_SCHEMA NOT IN ('information_schema', 'performance_schema', 'mysql', 'sys')") ++
  " GROUP BY TABLE_SCHEMA ORDER BY size_mb DESC, TABLE_SCHEMA, CAST(TABLE_SCHEMA AS BINARY)".
Definition keep_allowed (row : list value) : result goerr (option DatabaseSizeInfo) :=
  match scan_database_size row with
  | Ok d => if accessControlEnabled (g_allowed g) && negb (databaseAllowed (g_allowed g) (ds_name d)) then Ok None
            else Ok (Some d)
  | Err _ => Ok None
  end.
Definition toolDatabaseSize (ctx : callctx) (input : gostr) (m : ConnectionManager) (s : server)
    : answer (list DatabaseSizeInfo) :=
  let database := TrimSpace input in
  match (if negb (is_empty database) then requireAllowedDatabase (g_allowed g) database else None) with
  | Some e => refuse m s (AccessDenied e)
  | None => list_catalog query_failed keep_allowed ctx "database_size" [nullIfEmpty database] (size_query database)
              (if negb (is_empty database) then [VString database] else []) m s
  end.

(** Tools with an optional table. *)
Definition of_table (query order table : gostr) : gostr :=
  query ++ (if negb (is_empty table) then " AND TABLE_NAME = ?" else []) ++ order.
Definition table_args (database table : gostr) : list value :=
  VString database :: (if negb (is_empty table) then [VString table] else []).
Definition list_of_table {A} (scan : list value -> result goerr A) (proc query order : gostr)
    (ctx : callctx) (database table : gostr) (m : ConnectionManager) (s : server) : answer (list A) :=
  match require_database "database" database [] with
  | Some e => refuse m s e
  | None => list_catalog query_failed (skip_bad scan) ctx proc [VString database; nullIfEmpty table]
              (of_table query order table) (table_args database table) m s
  end.
Definition toolTableSize := list_of_table scan_table_size "table_size" table_size_sql " ORDER BY total_mb DESC, TABLE_NAME".
Definition toolForeignKeys :=
  list_of_table scan_foreign_key "foreign_keys" foreign_keys_sql " ORDER BY TABLE_NAME, CONSTRAINT_NAME, ORDINAL_POSITION".

(** *** Server variables: a second statement when the first fails *)
Definition list_variables_with (failed proc : gostr) (first_like first_all second_like second_all : gostr)
    (ctx : callctx) (pattern : gostr) (m : ConnectionManager) (s : server) : answer (list Variable_) :=
  let args := if negb (is_empty pattern) then [VString pattern] else [] in
  let '(m, s, r) := catalogRows ctx proc [nullIfEmpty pattern]
                      (if negb (is_empty pattern) then first_like else first_all) args m s in
  let '(s, r) :=
    match r with
    | Ok rs => (s, Ok rs)
    | Err _ => db_Query (getDB m ctx) (if negb (is_empty pattern) then second_like else second_all) args s
    end in
  match r with
  | Err e => refuse m s (Failed (Wrap failed e))
  | Ok rs =>
      (m, s, match list_rows (fun e => e) (skip_bad scan_variable) (g_maxRows g) rs with
             | Ok out => Ok out | Err e => Err (Failed e) end)
  end.
Definition toolListStatus :=
  list_variables_with "query status failed" "list_status"
    "SELECT VARIABLE_NAME, VARIABLE_VALUE FROM performance_schema.global_status WHERE VARIABLE_NAME LIKE ? ORDER BY VARIABLE_NAME"
    "SELECT VARIABLE_NAME, VARIABLE_VALUE FROM performance_schema.global_status ORDER BY VARIABLE_NAME"
    "SHOW GLOBAL STATUS WHERE Variable_name LIKE ?" "SHOW GLOBAL STATUS".
Definition toolListVariables :=
  list_variables_with "query variables failed" "list_variables"
    "SHOW GLOBAL VARIABLES WHERE Variable_name LIKE ?" "SHOW GLOBAL VARIABLES"
    "SELECT VARIABLE_NAME, VARIABLE_VALUE FROM performance_schema.global_variables WHERE VARIABLE_NAME LIKE ? ORDER BY VARIABLE_NAME"
    "SELECT VARIABLE_NAME, VARIABLE_VALUE FROM performance_schema.global_variables ORDER BY VARIABLE_NAME".
End Tools.

(** ** Tool calls (registerExtendedTools of main.go) *)
Inductive catalog_call :=
| ListIndexes (database table : gostr)
| ShowCreateTable (database table : gostr)
| ListViews (database : gostr)
| ListTriggers (database : gostr)
| ListProcedures (database : gostr)
| ListFunctions (database : gostr)
| ListPartitions (database table : gostr)
| DatabaseSize (database : gostr)
| TableSize (database table : gostr)
| ForeignKeys (database table : gostr)
| ListStatus (pattern : gostr)
| ListVariables (pattern : gostr).
Inductive catalog_reply :=
| Indexes (l : list IndexInfo) | CreateStatement (stmt : gostr) | Views (l : list ViewInfo) | Triggers (l : list TriggerInfo)
| Procedures (l : list ProcedureInfo) | Functions (l : list FunctionInfo) | Partitions (l : list PartitionInfo)
| DatabaseSizes (l : list DatabaseSizeInfo) | TableSizes (l : list TableSizeInfo)
| ForeignKeyList (l : list ForeignKeyInfo) | Variables (l : list Variable_).

Section Calls.
Context `{SqlServer} `{GoPrint}.
Variable g : globals.

Definition answer_map {A B} (f : A -> B) (a : answer A) : answer B :=
  let '(m, s, r) := a in (m, s, match r with Ok x => Ok (f x) | Err e => Err e end).

Definition run_catalog (c : catalog_call) (ctx : callctx) (m : ConnectionManager) (s : server) : answer catalog_reply :=
  match c with
  | ListIndexes d t => answer_map Indexes (toolListIndexes g ctx d t m s)
  | ShowCreateTable d t => answer_map CreateStatement (toolShowCreateTable g ctx d t m s)
  | ListViews d => answer_map Views (toolListViews g ctx d m s)
  | ListTriggers d => answer_map Triggers (toolListTriggers g ctx d m s)
  | ListProcedures d => answer_map Procedures (toolListProcedures g ctx d m s)
  | ListFunctions d => answer_map Functions (toolListFunctions g ctx d m s)
  | ListPartitions d t => answer_map Partitions (toolListPartitions g ctx d t m s)
  | DatabaseSize d => answer_map DatabaseSizes (toolDatabaseSize g ctx d m s)
  | TableSize d t => answer_map TableSizes (toolTableSize g ctx d t m s)
  | ForeignKeys d t => answer_map ForeignKeyList (toolForeignKeys g ctx d t m s)
  | ListStatus p => answer_map Variables (toolListStatus g ctx p m s)
  | ListVariables p => answer_map Variables (toolListVariables g ctx p m s)
  end.
End Calls.

(** ** The texts a call may send *)
Definition pack_procedures : list gostr :=
  ["list_indexes"; "show_create_table"; "list_views"; "list_triggers"; "list_procedures"; "list_functions";
   "list_partitions"; "database_size"; "table_size"; "foreign_keys"; "list_status"; "list_variables"].
Definition catalog_texts : list gostr :=
  [list_views_sql; list_triggers_sql; list_procedures_sql; list_functions_sql; list_partitions_sql;
   size_query []; size_query "d";
   of_table table_size_sql " ORDER BY total_mb DESC, TABLE_NAME" [];
   of_table table_size_sql " ORDER BY total_mb DESC, TABLE_NAME" "t";
   of_table foreign_keys_sql " ORDER BY TABLE_NAME, CONSTRAINT_NAME, ORDINAL_POSITION" [];
   of_table foreign_keys_sql " ORDER BY TABLE_NAME, CONSTRAINT_NAME, ORDINAL_POSITION" "t";
   "SELECT VARIABLE_NAME, VARIABLE_VALUE FROM performance_schema.global_status WHERE VARIABLE_NAME LIKE ? ORDER BY VARIABLE_NAME";
   "SELECT VARIABLE_NAME, VARIABLE_VALUE FROM performance_schema.global_status ORDER BY VARIABLE_NAME";
   "SHOW GLOBAL STATUS WHERE Variable_name LIKE ?"; "SHOW GLOBAL STATUS";
   "SHOW GLOBAL VARIABLES WHERE Variable_name LIKE ?"; "SHOW GLOBAL VARIABLES";
   "SELECT VARIABLE_NAME, VARIABLE_VALUE FROM performance_schema.global_variables WHERE VARIABLE_NAME LIKE ? ORDER BY VARIABLE_NAME";
   "SELECT VARIABLE_NAME, VARIABLE_VALUE FROM performance_schema.global_variables ORDER BY VARIABLE_NAME"].

(** One argument per placeholder. *)
Definition placeholders (q : gostr) (args : list value) : Prop := CountByte q "?" = length args.

(** Fixed texts and calls of the pack with an argument for each placeholder, and two SHOW
    statements on a quoted table: the caller's strings reach the text only through
    QuoteIdent. *)
Inductive catalog_text : gostr -> list value -> Prop :=
| ct_fixed q args : q ∈ catalog_texts -> placeholders q args -> catalog_text q args
| ct_pack proc args : proc ∈ pack_procedures -> placeholders (packCall proc (length args)) args ->
    catalog_text (packCall proc (length args)) args
| ct_index d t qd qt : QuoteIdent d = Ok qd -> QuoteIdent t = Ok qt -> catalog_text ("SHOW INDEX FROM " ++ qd ++ "." ++ qt) []
| ct_create d t qd qt : QuoteIdent d = Ok qd -> QuoteIdent t = Ok qt -> catalog_text ("SHOW CREATE TABLE " ++ qd ++ "." ++ qt) [].

(** A property of the server that the given statements preserve. *)
Definition kept_by `{SqlServer} (text : gostr -> list value -> Prop) (P : server -> Prop) : Prop :=
  forall p q args s, text q args -> P s -> P (fst (pool_Query p q args s)).

(** A call of the pack has a placeholder for each argument. *)
Lemma packCall_placeholders (proc : gostr) (n : nat) :
  CountByte (packCall proc n) "?" = CountByte proc "?" + n.
Proof.
  unfold packCall. rewrite !CountByte_app, CountByte_TrimSuffix by done.
  change (CountByte "CALL mysql_mcp." "?") with 0. change (CountByte "(" "?") with 0. change (CountByte ")" "?") with 0.
  enough (CountByte (Repeat "?, " n) "?" = n) by lia. induction n as [|n IH]; [done|].
  cbn [Repeat]. rewrite CountByte_app, IH. done.
Qed.

Lemma pack_text proc args : proc ∈ pack_procedures -> catalog_text (packCall proc (length args)) args.
Proof.
  intros Hp. apply ct_pack; [done|]. unfold placeholders. rewrite packCall_placeholders.
  enough (CountByte proc "?" = 0) as -> by done. revert proc Hp. apply list.Forall_forall. decide_true.
Qed.


Section Kept.
Context `{SqlServer} (text : gostr -> list value -> Prop) (P : server -> Prop).
Hypothesis Hkept : kept_by text P.

Lemma db_Query_kept (db : dbh) q args s : text q args -> P s -> P (fst (db_Query db q args s)).
Proof. intros Hq Hs. destruct db; [by apply Hkept | done]. Qed.

Lemma catalogRows_kept ctx proc procArgs q args m s :
  text (packCall proc (length procArgs)) procArgs -> text q args -> P s -> P (snd (fst (catalogRows ctx proc procArgs q args m s))).
Proof.
  intros Hpack Hq Hs. unfold catalogRows.
  assert (Hemb : forall m' s', P s' -> P (snd (fst (let '(s, r) := db_Query (getDB m' ctx) q args s' in (m', s, r))))).
  { intros m' s' Hs'. pose proof (db_Query_kept (getDB m' ctx) q args s' Hq Hs').
    by destruct (db_Query (getDB m' ctx) q args s'). }
  destruct (usesToolPack m ctx); [|by apply Hemb].
  pose proof (db_Query_kept (getDB m ctx) _ procArgs s Hpack Hs) as Hp.
  destruct (db_Query (getDB m ctx) (packCall proc (length procArgs)) procArgs s) as [s1 r].
  destruct (negb (packUnavailable _)); [done|]. by apply Hemb.
Qed.

Lemma list_catalog_kept {A} g failed (scan : list value -> result goerr (option A)) ctx proc procArgs q args m s :
  text (packCall proc (length procArgs)) procArgs -> text q args -> P s ->
  P (snd (fst (list_catalog g failed scan ctx proc procArgs q args m s))).
Proof.
  intros Hpack Hq Hs. unfold list_catalog. pose proof (catalogRows_kept ctx proc procArgs q args m s Hpack Hq Hs).
  by destruct (catalogRows ctx proc procArgs q args m s) as [[m1 s1] []].
Qed.
End Kept.

(** The text with an optional condition is one of two. *)
Lemma size_query_text (db : gostr) :
  catalog_text (size_query db) (if negb (is_empty db) then [VString db] else []).
Proof.
  destruct db as [|c db]; [apply ct_fixed; [decide_true | done]|].
  change (size_query (c :: db)) with (size_query "d"). apply ct_fixed; [decide_true | done].
Qed.

Definition one_question (q : gostr) : Prop := q ∈ catalog_texts /\ CountByte q "?" = 1.
Definition no_question (q : gostr) : Prop := q ∈ catalog_texts /\ CountByte q "?" = 0.
Lemma optional_text (like all pattern : gostr) : one_question like -> no_question all ->
  catalog_text (if negb (is_empty pattern) then like else all) (if negb (is_empty pattern) then [VString pattern] else []).
Proof. intros [H1 C1] [H2 C2]. by destruct (is_empty pattern); apply ct_fixed. Qed.

Lemma of_table_text (query order database table : gostr) :
  of_table query order [] ∈ catalog_texts -> of_table query order "t" ∈ catalog_texts ->
  CountByte query "?" = 1 -> CountByte order "?" = 0 ->
  catalog_text (of_table query order table) (table_args database table).
Proof.
  intros H1 H2 C1 C2. apply ct_fixed; [by destruct table|]. unfold placeholders, of_table, table_args.
  rewrite !CountByte_app, C1, C2. by destruct table.
Qed.

Section CallsKept.
Context `{SqlServer} `{GoPrint} (P : server -> Prop).
Hypothesis Hkept : kept_by catalog_text P.

Lemma list_of_database_kept {A} g (scan : list value -> result goerr A) proc query ctx d m s :
  proc ∈ pack_procedures -> one_question query -> P s ->
  P (snd (fst (list_of_database g scan proc query ctx d m s))).
Proof.
  intros Hp [Hq Hc] Hs. unfold list_of_database. destruct (require_database g _ d []); [done|].
  apply (list_catalog_kept catalog_text P Hkept); [by apply pack_text | by apply ct_fixed | done].
Qed.

Lemma list_of_table_kept {A} g (scan : list value -> result goerr A) proc query order ctx d t m s :
  proc ∈ pack_procedures -> of_table query order [] ∈ catalog_texts -> of_table query order "t" ∈ catalog_texts ->
  CountByte query "?" = 1 -> CountByte order "?" = 0 -> P s ->
  P (snd (fst (list_of_table g scan proc query order ctx d t m s))).
Proof.
  intros Hp Hq1 Hq2 C1 C2 Hs. unfold list_of_table. destruct (require_database g _ d []); [done|].
  apply (list_catalog_kept catalog_text P Hkept); [by apply pack_text | by apply of_table_text | done].
Qed.

Lemma list_variables_kept g failed proc fl fa sl sa ctx pattern m s :
  proc ∈ pack_procedures -> one_question fl -> no_question fa -> one_question sl -> no_question sa -> P s ->
  P (snd (fst (list_variables_with g failed proc fl fa sl sa ctx pattern m s))).
Proof.
  intros Hp H1 H2 H3 H4 Hs. unfold list_variables_with.
  pose proof (catalogRows_kept catalog_text P Hkept ctx proc [nullIfEmpty pattern]
    (if negb (is_empty pattern) then fl else fa) (if negb (is_empty pattern) then [VString pattern] else []) m s
    (pack_text _ _ Hp) (optional_text _ _ pattern H1 H2) Hs) as Hrows.
  destruct (catalogRows ctx proc _ _ _ m s) as [[m1 s1] [rs|e]]; [done|]. cbn in Hrows.
  pose proof (db_Query_kept catalog_text P Hkept (getDB m1 ctx) (if negb (is_empty pattern) then sl else sa)
    (if negb (is_empty pattern) then [VString pattern] else []) s1 (optional_text _ _ pattern H3 H4) Hrows) as Hq2.
  by destruct (db_Query (getDB m1 ctx) _ _ s1) as [s2 []].
Qed.

(** Two SHOW statements on a quoted table. *)
Lemma show_kept ctx proc (d t : gostr) q m s :
  proc ∈ pack_procedures -> catalog_text q [] -> P s ->
  P (snd (fst (catalogRows ctx proc [VString d; VString t] q [] m s))).
Proof. intros Hp Hq Hs. apply (catalogRows_kept catalog_text P Hkept); [by apply pack_text | done | done]. Qed.

Lemma run_catalog_kept g c ctx m s : P s -> P (snd (fst (run_catalog g c ctx m s))).
Proof.
  intros Hs. unfold run_catalog.
  assert (Hmap : forall {A B} (f : A -> B) a, P (snd (fst a)) -> P (snd (fst (answer_map f a))))
    by (by intros A B f [[? ?] ?]).
  destruct c as [d t|d t|d|d|d|d|d t|d|d t|d t|p|p]; apply Hmap.
  - unfold toolListIndexes. destruct (require_database g _ d [t]); [done|].
    destruct (QuoteIdent d) as [qd|] eqn:Hd; [|done]. destruct (QuoteIdent t) as [qt|] eqn:Ht; [|done].
    pose proof (show_kept ctx "list_indexes" d t ("SHOW INDEX FROM " ++ qd ++ "." ++ qt) m s ltac:(decide_true) (ct_index _ _ _ _ Hd Ht) Hs) as Hrows.
    destruct (catalogRows ctx _ _ _ _ m s) as [[m1 s1] [rs|e]]; [|done]. by destruct (_ <? 11).
  - unfold toolShowCreateTable. destruct (require_database g _ d [t]); [done|].
    destruct (QuoteIdent d) as [qd|] eqn:Hd; [|done]. destruct (QuoteIdent t) as [qt|] eqn:Ht; [|done].
    pose proof (show_kept ctx "show_create_table" d t ("SHOW CREATE TABLE " ++ qd ++ "." ++ qt) m s ltac:(decide_true) (ct_create _ _ _ _ Hd Ht) Hs) as Hrows.
    destruct (catalogRows ctx _ _ _ _ m s) as [[m1 s1] [rs|e]]; [|done]. destruct (_ <? 2); [done|].
    destruct (rs_rows rs) as [|row rows]; [done|]. by destruct (scan_null_strings _ row).
  - apply list_of_database_kept; [decide_true | split; [decide_true | done] | done].
  - apply list_of_database_kept; [decide_true | split; [decide_true | done] | done].
  - apply list_of_database_kept; [decide_true | split; [decide_true | done] | done].
  - apply list_of_database_kept; [decide_true | split; [decide_true | done] | done].
  - unfold toolListPartitions. destruct (require_database g _ d [t]); [done|].
    apply (list_catalog_kept catalog_text P Hkept); [apply pack_text; decide_true | apply ct_fixed; [decide_true | done] | done].
  - unfold toolDatabaseSize. destruct (if negb (is_empty (TrimSpace d)) then _ else _); [done|].
    apply (list_catalog_kept catalog_text P Hkept); [apply pack_text; decide_true | apply size_query_text | done].
  - apply list_of_table_kept; [decide_true | decide_true | decide_true | done | done | done].
  - apply list_of_table_kept; [decide_true | decide_true | decide_true | done | done | done].
  - apply list_variables_kept; [decide_true | split; [decide_true | done].. | done].
  - apply list_variables_kept; [decide_true | split; [decide_true | done].. | done].
Qed.
End CallsKept.

(** The database a call names. *)
Definition call_database (c : catalog_call) : option gostr :=
  match c with
  | ListIndexes d _ | ShowCreateTable d _ | ListPartitions d _ | TableSize d _ | ForeignKeys d _
  | ListViews d | ListTriggers d | ListProcedures d | ListFunctions d => Some d
  | DatabaseSize d => if is_empty (TrimSpace d) then None else Some (TrimSpace d)
  | ListStatus _ | ListVariables _ => None
  end.

Lemma require_database_refuses g what d more :
  requireAllowedDatabase (g_allowed g) d <> None -> exists e, require_database g what d more = Some e.
Proof.
  intros Hd. unfold require_database. destruct (existsb is_empty (d :: more)); [by eexists|].
  destruct (requireAllowedDatabase (g_allowed g) d); [by eexists | done].
Qed.

Lemma run_catalog_refuses `{SqlServer} `{GoPrint} g c d ctx m s :
  call_database c = Some d -> requireAllowedDatabase (g_allowed g) d <> None ->
  exists e, run_catalog g c ctx m s = (m, s, Err e).
Proof.
  intros Hc Hd. pose proof (require_database_refuses g) as Hreq.
  destruct c as [d' t|d' t|d'|d'|d'|d'|d' t|d'|d' t|d' t|p|p]; cbn [call_database] in Hc; try done.
  all: try (injection Hc as ->; cbn [run_catalog]; unfold toolListIndexes, toolShowCreateTable, toolListViews, toolListTriggers,
    toolListProcedures, toolListFunctions, toolListPartitions, toolTableSize, toolForeignKeys, list_of_database, list_of_table;
    match goal with |- context [require_database _ ?w ?x ?more] => destruct (Hreq w x more Hd) as [e ->] end; by exists e).
  cbn [run_catalog]. unfold toolDatabaseSize. destruct (is_empty (TrimSpace d')) eqn:E; [done|]. injection Hc as <-. cbn [negb].
  destruct (requireAllowedDatabase (g_allowed g) (TrimSpace d')) as [e|]; [by eexists | done].
Qed.

(** C24: A catalog tool cannot be made to send SQL of the caller's.  A call that names a
    database outside the allowlist touches nothing; any other call sends fixed texts and tool
    pack calls, with exactly one argument per placeholder, or SHOW INDEX / SHOW CREATE TABLE
    on two backtick-quoted names: what those preserve holds afterwards, whatever strings the
    caller gave. *)
Theorem catalog_sends_only_fixed_texts `{SqlServer} `{GoPrint} (g : globals) (c : catalog_call) (ctx : callctx)
    (m : ConnectionManager) (s : server) (P : server -> Prop) (Hkept : kept_by catalog_text P) (Hs : P s) :
  P (snd (fst (run_catalog g c ctx m s))) /\
  forall d, call_database c = Some d -> requireAllowedDatabase (g_allowed g) d <> None ->
    exists e, run_catalog g c ctx m s = (m, s, Err e).
Proof. split; [by apply run_catalog_kept | intros d; apply run_catalog_refuses]. Qed.

(** A log of statements, with one text per statement. *)
Lemma log_server_kept (text : gostr -> list value -> Prop) :
  @kept_by log_server text (Forall (fun q => exists args, text q args)).
Proof. intros p q args s Hq Hs. apply list.Forall_app. split; [done|]. constructor; [by exists args | constructor]. Qed.
Definition print_none : GoPrint := {| sprint_float _ := []; sprint_time _ := [] |}.
Definition main_ctx : callctx := {| ctx_session := None; ctx_pin := Some "main" |}.

Lemma catalog_sends_only_fixed_texts_witness :
  let after := @run_catalog log_server print_none app_only (ListIndexes "app" "users") main_ctx (cm example_world_main) [] in
  snd (fst after) = [concat ["SHOW INDEX FROM "; [ch_backtick]; "app"; [ch_backtick]; "."; [ch_backtick]; "users"; [ch_backtick]]] /\
  Forall (fun q => exists args, catalog_text q args) (snd (fst after)).
Proof.
  split; [vm_compute; reflexivity|].
  exact (proj1 (@catalog_sends_only_fixed_texts log_server print_none app_only (ListIndexes "app" "users") main_ctx
    (cm example_world_main) [] (Forall (fun q => exists args, catalog_text q args)) (log_server_kept catalog_text) (List.Forall_nil _))).
Defined.

(** ** What the lists hold *)

(** The rows that scan, as entries. *)
Definition scanned {A} (scan : list value -> result goerr A) (rows : list (list value)) : list A :=
  omap (fun row => match scan row with Ok a => Some a | Err _ => None end) rows.

Lemma list_loop_skip {A} (scan : list value -> result goerr A) maxRows rows out :
  (Z.of_nat (length out) < maxRows)%Z ->
  list_loop (skip_bad scan) maxRows rows out =
    let es := out ++ scanned scan rows in
    Ok (if (maxRows <=? Z.of_nat (length es))%Z then (take (Z.to_nat maxRows) es, true) else (es, false)).
Proof.
  revert out. induction rows as [|row rows IH]; intros out Hlen; cbn -[Z.leb].
  - rewrite app_nil_r. by destruct (Z.leb_spec maxRows (Z.of_nat (length out))); [lia|].
  - unfold scanned, skip_bad. cbn -[Z.leb]. destruct (scan row) as [a|e] eqn:E; [|by apply IH].
    fold (scanned scan rows). rewrite length_app. cbn [length].
    destruct (Z.leb_spec maxRows (Z.of_nat (length out + 1))) as [Hfull|Hfull].
    + rewrite length_app. cbn [length].
      destruct (Z.leb_spec maxRows (Z.of_nat (length out + S (length (scanned scan rows))))); [|lia].
      f_equal. f_equal. replace (Z.to_nat maxRows) with (length (out ++ [a])) by (rewrite length_app; cbn; lia).
      replace (out ++ a :: scanned scan rows) with ((out ++ [a]) ++ scanned scan rows) by (by rewrite <- app_assoc).
      by rewrite take_app_length.
    + rewrite IH by (rewrite length_app; cbn; lia). cbn zeta. by rewrite <- app_assoc.
Qed.

(** The list tools return the first rows that scan, in the server's order: all of them
    when they are fewer than the row cap and the iteration ended well, the first cap of them
    when there are enough, and otherwise the error that ended the iteration. *)
Theorem row_lists_are_exact {A} (scan : list value -> result goerr A) (maxRows : Z) (rs : rowset) (Hmax : (0 < maxRows)%Z) :
  let es := scanned scan (rs_rows rs) in
  list_rows (fun e => e) (skip_bad scan) maxRows rs =
    if (maxRows <=? Z.of_nat (length es))%Z then Ok (take (Z.to_nat maxRows) es)
    else match rs_err rs with Some e => Err e | None => Ok es end.
Proof.
  cbn zeta. unfold list_rows. rewrite list_loop_skip by done. cbn -[Z.leb]. by destruct (maxRows <=? _)%Z.
Qed.

Definition example_rows : rowset :=
  {| rs_columns := ["Variable_name"; "Value"]; rs_err := None; rs_close := None;
     rs_rows := [[VBytes "a"; VBytes "1"]; [VBytes "b"; VNil]; [VBytes "c"; VInt64 3]; [VBytes "d"; VBytes "4"]] |}.
Lemma row_lists_are_exact_witness :
  list_rows (fun e => e) (skip_bad (@scan_variable log_server)) 2 example_rows =
    Ok [{| var_name := "a"; var_value := "1" |}; {| var_name := "c"; var_value := "3" |}].
Proof. rewrite (row_lists_are_exact (@scan_variable log_server) 2 example_rows); [vm_compute; reflexivity | lia]. Defined.

(** *** Indexes *)
Section Indexes.
Context `{GoPrint}.

Definition cell (i : nat) (row : list value) : gostr := sprint_value (NormalizeValue (nth i row VNil)).
Definition rows_of_index (name : gostr) (rows : list (list value)) : list (list value) :=
  filter (fun row => cell 2 row = name) rows.
Definition index_state (rows : list (list value)) : index_group := fold_left add_index_row rows ([], ∅, ∅).

Lemma index_state_spec (rows : list (list value)) :
  let '(order, cols, info) := index_state rows in
  NoDup order /\
  (forall name, name ∈ order <-> rows_of_index name rows <> []) /\
  (forall name, default [] (cols !! name) = map (cell 4) (rows_of_index name rows)) /\
  (forall name, info !! name =
     match rev (rows_of_index name rows) with
     | row :: _ => Some {| ix_name := name; ix_columns := []; ix_non_unique := cell 1 row =?s "1"; ix_type := cell 10 row |}
     | [] => None
     end).
Proof.
  unfold index_state, rows_of_index. induction rows as [|row rows IH] using rev_ind.
  { cbn. split; [constructor|]. split; [intros name; split; [by intros ?%not_elem_of_nil | done]|].
    split; intros name; by rewrite lookup_empty. }
  rewrite fold_left_app. cbn [fold_left]. destruct (fold_left add_index_row rows ([], ∅, ∅)) as [[order cols] info].
  destruct IH as (Hnd & Hord & Hcols & Hinfo). cbn [add_index_row].
  change (sprint_value (NormalizeValue (nth 2 row VNil))) with (cell 2 row).
  change (sprint_value (NormalizeValue (nth 4 row VNil))) with (cell 4 row).
  change (sprint_value (NormalizeValue (nth 1 row VNil))) with (cell 1 row).
  change (sprint_value (NormalizeValue (nth 10 row VNil))) with (cell 10 row).
  set (key := cell 2 row).
  assert (Hf : forall name, filter (fun r => cell 2 r = name) (rows ++ [row]) =
    filter (fun r => cell 2 r = name) rows ++ (if decide (key = name) then [row] else [])).
  { intros name. rewrite filter_app. f_equal. }
  assert (Hknown : is_Some (info !! key) <-> key ∈ order).
  { rewrite Hord, Hinfo. destruct (filter _ rows) as [|r l] eqn:E using rev_ind; cbn; [split; [by intros [] | done]|].
    rewrite rev_app_distr. cbn. split; [intros _ Hnil; by apply app_nil in Hnil as [_ ?] | by eexists]. }
  split; [|split; [|split]].
  - destruct (info !! key) as [i|] eqn:E; [done|]. apply NoDup_app. split; [done|]. split; [|apply NoDup_singleton].
    intros x Hx Hin. apply list_elem_of_singleton in Hin as ->. apply Hknown in Hx as [? ?]. congruence.
  - intros name. rewrite Hf. destruct (decide (key = name)) as [<-|Hne].
    + split; [intros _ Hnil; by apply app_nil in Hnil as [_ ?]|]. intros _.
      destruct (info !! key) as [i|] eqn:E; [apply Hknown; by eexists | apply elem_of_app; right; left].
    + rewrite app_nil_r, <- Hord. destruct (info !! key); [done|]. rewrite elem_of_app, list_elem_of_singleton.
      split; [intros [?|?]; congruence | by left].
  - intros name. rewrite Hf, map_app. destruct (decide (key = name)) as [<-|Hne].
    + rewrite lookup_insert_eq. cbn. by rewrite Hcols.
    + rewrite lookup_insert_ne by done. cbn. by rewrite app_nil_r, Hcols.
  - intros name. rewrite Hf. destruct (decide (key = name)) as [<-|Hne].
    + rewrite lookup_insert_eq, rev_app_distr. done.
    + rewrite lookup_insert_ne, app_nil_r by done. apply Hinfo.
Qed.
End Indexes.

Lemma group_indexes_state `{GoPrint} (ncols : nat) (rows : list (list value)) :
  group_indexes ncols rows = index_state (filter (fun row => length row = ncols) rows).
Proof.
  unfold group_indexes, index_state. generalize (([], ∅, ∅) : index_group) as st.
  induction rows as [|row rows IH]; intros st; [done|]. cbn [fold_left]. rewrite filter_cons. unfold scan_any at 2.
  destruct (Nat.eqb_spec (length row) ncols); [rewrite decide_True by done | rewrite decide_False by done]; apply IH.
Qed.

(** List_indexes has one entry per index name, in the order of the first rows; its
    columns are those of the name's rows, in row order, and the rest comes from the last of
    them.  The rows are all the server delivered: an error that cut the iteration short is
    not reported. *)
Theorem list_indexes_groups_rows `{SqlServer} `{GoPrint} (g : globals) ctx database table m s m' s' out
    (Hrun : toolListIndexes g ctx database table m s = (m', s', Ok out)) :
  exists query rs,
    catalogRows ctx "list_indexes" [VString database; VString table] query [] m s = (m', s', Ok rs) /\
    let rows := filter (fun row => length row = length (rs_columns rs)) (rs_rows rs) in
    NoDup (map ix_name out) /\
    (forall name, name ∈ map ix_name out <-> rows_of_index name rows <> []) /\
    forall i, i ∈ out ->
      ix_columns i = Join (map (cell 4) (rows_of_index (ix_name i) rows)) ", " /\
      exists row, last (rows_of_index (ix_name i) rows) = Some row /\
        ix_non_unique i = (cell 1 row =?s "1") /\ ix_type i = cell 10 row.
Proof.
  revert Hrun. unfold toolListIndexes. destruct (require_database g _ database [table]); [done|].
  destruct (QuoteIdent database) as [qd|]; [|done]. destruct (QuoteIdent table) as [qt|]; [|done].
  destruct (catalogRows ctx _ _ _ _ m s) as [[m1 s1] [rs|e]] eqn:Hrows; [|done].
  destruct (length (rs_columns rs) <? 11); [done|]. intros [= <- <- <-]. eexists _, rs. split; [exact Hrows|].
  cbn zeta. rewrite group_indexes_state.
  pose proof (index_state_spec (filter (fun row => length row = length (rs_columns rs)) (rs_rows rs))) as Hspec.
  destruct (index_state _) as [[order cols] info]. destruct Hspec as (Hnd & Hord & Hcols & Hinfo).
  assert (Hname : forall name, name ∈ order ->
    ix_name (default {| ix_name := []; ix_columns := []; ix_non_unique := false; ix_type := [] |} (info !! name)) = name).
  { intros name Hin. rewrite Hinfo. apply Hord in Hin.
    destruct (rows_of_index name _) as [|r l] using rev_ind; [done|]. by rewrite rev_app_distr. }
  assert (Hnames : map ix_name (indexes_of (order, cols, info)) = order).
  { unfold indexes_of. rewrite map_map. cbn. clear -Hname. induction order as [|n order IH]; [done|]. cbn. f_equal.
    - apply Hname. left.
    - apply IH. intros name Hin. apply Hname. by right. }
  rewrite Hnames. split; [done|]. split; [done|]. intros i Hi. apply list_elem_of_fmap in Hi as (name & -> & Hin).
  cbn. rewrite Hname by done. split; [by rewrite Hcols|]. rewrite Hinfo. apply Hord in Hin.
  destruct (rows_of_index name _) as [|r l] using rev_ind; [done|]. rewrite rev_app_distr, last_snoc. cbn. by exists r.
Qed.

Definition index_server : SqlServer :=
  {| server := unit; conn := unit;
     pool_Conn _ s := (s, Ok tt); pool_Ping _ s := (s, None);
     pool_Query _ _ _ s := (s, Ok {| rs_columns := replicate 11 "c"; rs_err := Some ErrBadConn; rs_close := None;
       rs_rows := map (fun r => [VNil; VInt64 0; VBytes (fst r); VNil; VBytes (snd r); VNil; VNil; VNil; VNil; VNil; VBytes "BTREE"])
         [("PRIMARY", "id"); ("by_name", "last"); ("by_name", "first")] |});
     pool_Exec _ _ s := (s, None); conn_Exec _ _ s := (s, None); conn_Query _ _ s := (s, Err ErrNoRows);
     conn_Close _ s := s; format_float _ := []; format_time _ := [] |}.
Lemma list_indexes_groups_rows_witness :
  NoDup (map ix_name [{| ix_name := "PRIMARY"; ix_columns := "id"; ix_non_unique := false; ix_type := "BTREE" |};
                      {| ix_name := "by_name"; ix_columns := "last, first"; ix_non_unique := false; ix_type := "BTREE" |}]).
Proof.
  destruct (@list_indexes_groups_rows index_server print_none app_only main_ctx "app" "users" (cm example_world_main) tt
    (cm example_world_main) tt
    [{| ix_name := "PRIMARY"; ix_columns := "id"; ix_non_unique := false; ix_type := "BTREE" |};
     {| ix_name := "by_name"; ix_columns := "last, first"; ix_non_unique := false; ix_type := "BTREE" |}])
    as (query & rs & _ & Hnd & _); [vm_compute; reflexivity | exact Hnd].
Defined.
