(* ===== verification/SchemaTools.v ===== *)
(** cmd/mysql-mcp-server/tools_extended.go: search_schema and schema_diff. *)
From S2P Require Import Prelude Unicode GoStrings GoNum Identifiers SqlParser Config Access Labels Retry Sql Connection Sessions QueryTools Tools Catalog.

(** ** search_schema *)
Record SchemaMatch := { sm_database : gostr; sm_table : gostr; sm_column : gostr; sm_type : gostr }.

Definition search_tables_sql : gostr :=
  "SELECT TABLE_SCHEMA, TABLE_NAME
		FROM information_schema.TABLES
		WHERE TABLE_NAME LIKE ?".
Definition search_columns_sql : gostr :=
  "SELECT TABLE_SCHEMA, TABLE_NAME, COLUMN_NAME
		FROM information_schema.COLUMNS
		WHERE COLUMN_NAME LIKE ?".
Definition compare_columns_sql : gostr :=
  "SELECT COLUMN_NAME, COLUMN_TYPE, IS_NULLABLE, COLUMN_DEFAULT 
		FROM information_schema.COLUMNS WHERE TABLE_SCHEMA = ? AND TABLE_NAME = ? 
		ORDER BY COLUMN_NAME".

Definition tables_order : gostr :=
  " ORDER BY TABLE_SCHEMA, CAST(TABLE_SCHEMA AS BINARY), TABLE_NAME, CAST(TABLE_NAME AS BINARY) LIMIT ?".
Definition columns_order : gostr :=
  " ORDER BY TABLE_SCHEMA, CAST(TABLE_SCHEMA AS BINARY), TABLE_NAME, CAST(TABLE_NAME AS BINARY), ORDINAL_POSITION LIMIT ?".

(** [strings.Repeat("?,", n)] without its last byte. *)
Definition question_marks (n : nat) : gostr := let ph := Repeat "?," n in take (length ph - 1) ph.

Section Search.
Context `{SqlServer}.
Variable g : globals.

(** The condition on the schema, and its arguments. *)
Definition schema_condition (database : gostr) : result tool_error (gostr * list value) :=
  if negb (is_empty database) then Ok (" AND TABLE_SCHEMA = ?" : gostr, [VString database])
  else if accessControlEnabled (g_allowed g) then
    match allowedDatabasesLower (g_allowed g) with
    | [] => Err (Invalid "MYSQL_MCP_ALLOWED_DATABASES is set but empty; cannot run search_schema without a database filter")
    | allowed => Ok (" AND LOWER(TABLE_SCHEMA) IN (" ++ question_marks (length allowed) ++ ")", map VString allowed)
    end
  else Ok (" AND TABLE_SCHEMA NOT IN ('information_schema', 'performance_schema', 'mysql', 'sys')" : gostr, []).

Definition scan_table_match (row : list value) : result goerr SchemaMatch :=
  match row with
  | [a; b] => let? a := scan_string a in let? b := scan_string b in
      Ok {| sm_database := a; sm_table := b; sm_column := []; sm_type := "TABLE" |}
  | _ => Err scan_arity
  end.
Definition scan_column_match (row : list value) : result goerr SchemaMatch :=
  match row with
  | [a; b; c] => let? a := scan_string a in let? b := scan_string b in let? c := scan_string c in
      Ok {| sm_database := a; sm_table := b; sm_column := c; sm_type := "COLUMN" |}
  | _ => Err scan_arity
  end.

(** All the rows; the first that does not scan ends the loop. *)
Fixpoint scan_matches (failed : gostr) (scan : list value -> result goerr SchemaMatch) (rows : list (list value))
    (out : list SchemaMatch) : result goerr (list SchemaMatch) :=
  match rows with
  | [] => Ok out
  | row :: rows => match scan row with Err e => Err (Wrap failed e) | Ok a => scan_matches failed scan rows (out ++ [a]) end
  end.
Definition read_matches (failed : gostr) (scan : list value -> result goerr SchemaMatch) (rs : rowset)
    (out : list SchemaMatch) : result goerr (list SchemaMatch) :=
  let? out := scan_matches failed scan (rs_rows rs) out in
  match rs_err rs with Some e => Err e | None => Ok out end.

(** One of the two searches. *)
Definition search_rows (usePack : bool) (ctx : callctx) (proc : gostr) (procArgs : list value) (query : gostr)
    (args : list value) (m : ConnectionManager) (s : server) : ConnectionManager * server * result goerr rowset :=
  if usePack then catalogRows ctx proc procArgs query args m s
  else let '(s, r) := db_Query (getDB m ctx) query args s in (m, s, r).

Definition toolSearchSchema (ctx : callctx) (pattern database : gostr) (m : ConnectionManager) (s : server)
    : answer (list SchemaMatch) :=
  if is_empty pattern then refuse m s (Required "pattern")
  else match (if negb (is_empty database) then requireAllowedDatabase (g_allowed g) database else None) with
  | Some e => refuse m s (AccessDenied e)
  | None =>
      match schema_condition database with
      | Err e => refuse m s e
      | Ok (cond, condArgs) =>
          let usePack := usesToolPack m ctx && (negb (is_empty database) || negb (accessControlEnabled (g_allowed g))) in
          match search_rows usePack ctx "search_tables" [VString pattern; nullIfEmpty database; VInt64 (g_maxRows g)]
                  (search_tables_sql ++ cond ++ tables_order) (VString pattern :: condArgs ++ [VInt64 (g_maxRows g)]) m s with
          | (m, s, Err e) => refuse m s (Failed (Wrap "table search failed" e))
          | (m, s, Ok rs) =>
              match read_matches "scan table row" scan_table_match rs [] with
              | Err e => refuse m s (Failed e)
              | Ok matches =>
                  let left := (g_maxRows g - Z.of_nat (length matches))%Z in
                  if negb (0 <? left)%Z then (m, s, Ok matches)
                  else
                    match search_rows usePack ctx "search_columns" [VString pattern; nullIfEmpty database; VInt64 left]
                            (search_columns_sql ++ cond ++ columns_order) (VString pattern :: condArgs ++ [VInt64 left]) m s with
                    | (m, s, Err e) => refuse m s (Failed (Wrap "column search failed" e))
                    | (m, s, Ok rs) =>
                        match read_matches "scan column row" scan_column_match rs matches with
                        | Err e => refuse m s (Failed e)
                        | Ok matches => (m, s, Ok matches)
                        end
                    end
              end
          end
      end
  end.
End Search.

(** ** schema_diff *)
Record DiffResult := { df_table : gostr; df_status : gostr; df_details : gostr }.
Record SchemaDiffOutput := { SourceDatabase : gostr; TargetDatabase : gostr; Diffs : list DiffResult }.

Section Diff.
Context `{SqlServer}.
Variable g : globals.

Definition diff_tables_sql : gostr := "SELECT TABLE_NAME FROM information_schema.TABLES WHERE TABLE_SCHEMA = ?".

Definition scan_name (row : list value) : result goerr gostr :=
  match row with [v] => scan_string v | _ => Err scan_arity end.
(** A set of names: a map to [true]. *)
Fixpoint scan_names (failed : gostr) (rows : list (list value)) (acc : gset gostr) : result goerr (gset gostr) :=
  match rows with
  | [] => Ok acc
  | row :: rows =>
      match scan_name row with Err e => Err (Wrap failed e) | Ok name => scan_names failed rows ({[name]} ∪ acc) end
  end.
(** [which] is "source" or "target". *)
Definition list_names (which : gostr) (db : dbh) (database : gostr) (s : server) : server * result goerr (gset gostr) :=
  match db_Query db diff_tables_sql [VString database] s with
  | (s, Err e) => (s, Err (Wrap ("failed to list " ++ which ++ " tables") e))
  | (s, Ok rs) =>
      (s, let? names := scan_names ("scan " ++ which ++ " table name") (rs_rows rs) ∅ in
          match rs_err rs with Some e => Err (Wrap (which ++ " tables iteration failed") e) | None => Ok names end)
  end.

Definition column_def (ctype nullable def : option gostr) : gostr :=
  null_str ctype ++ ", Null:" ++ null_str nullable ++ ", Def:" ++ default "<NULL>" def.
Fixpoint scan_defs (rows : list (list value)) (acc : gmap gostr gostr) : result goerr (gmap gostr gostr) :=
  match rows with
  | [] => Ok acc
  | row :: rows =>
      match scan_null_strings 4 row with
      | Ok [name; ctype; nullable; def] => scan_defs rows (<[null_str name := column_def ctype nullable def]> acc)
      | Ok _ => Err (Wrap "scan column metadata" scan_arity)
      | Err e => Err (Wrap "scan column metadata" e)
      end
  end.
Definition table_columns (db : dbh) (database table : gostr) (s : server) : server * result goerr (gmap gostr gostr) :=
  match db_Query db compare_columns_sql [VString database; VString table] s with
  | (s, Err e) => (s, Err e)
  | (s, Ok rs) =>
      (s, let? cols := scan_defs (rs_rows rs) ∅ in match rs_err rs with Some e => Err e | None => Ok cols end)
  end.

(** The differences of two column maps, which Go iterates in an unspecified order: here, that
    of [map_to_list]. *)
Definition column_diffs (targetDB : gostr) (sCols tCols : gmap gostr gostr) : list gostr :=
  omap (fun nd =>
    let '(name, sDef) := nd in
    match tCols !! name with
    | None => Some ("Column " ++ name ++ " missing in " ++ targetDB)
    | Some tDef =>
        if negb (sDef =?s tDef)
        then Some ("Column " ++ name ++ " differs: " ++ sDef ++ " (src) vs " ++ tDef ++ " (tgt)") else None
    end) (map_to_list sCols) ++
  omap (fun nd =>
    match sCols !! fst nd with None => Some ("Column " ++ fst nd ++ " extra in " ++ targetDB) | Some _ => None end)
    (map_to_list tCols).

Definition compareTableSchema (db : dbh) (sourceDB targetDB table : gostr) (s : server) : server * result goerr gostr :=
  match table_columns db sourceDB table s with
  | (s, Err e) => (s, Err e)
  | (s, Ok sCols) =>
      match table_columns db targetDB table s with
      | (s, Err e) => (s, Err e)
      | (s, Ok tCols) => (s, Ok (Join (column_diffs targetDB sCols tCols) "; "))
      end
  end.

(** The tables only the source has. *)
Definition missing_tables (sourceDB targetDB : gostr) (source target : gset gostr) : list DiffResult :=
  omap (fun name =>
    if negb (bool_decide (name ∈ target))
    then Some {| df_table := name; df_status := "MISSING";
                 df_details := "Table exists in " ++ sourceDB ++ " but missing in " ++ targetDB |}
    else None) (elements source).

(** The tables of the target: extra ones, and the common ones that differ. *)
Fixpoint compare_tables (db : dbh) (sourceDB targetDB : gostr) (source : gset gostr) (names : list gostr)
    (out : list DiffResult) (s : server) : server * result goerr (list DiffResult) :=
  match names with
  | [] => (s, Ok out)
  | name :: names =>
      if negb (bool_decide (name ∈ source)) then
        compare_tables db sourceDB targetDB source names
          (out ++ [{| df_table := name; df_status := "EXTRA";
                      df_details := "Table exists in " ++ targetDB ++ " but missing in " ++ sourceDB |}]) s
      else match compareTableSchema db sourceDB targetDB name s with
      | (s, Err e) => (s, Err e)
      | (s, Ok diff) =>
          compare_tables db sourceDB targetDB source names
            (if negb (is_empty diff) then out ++ [{| df_table := name; df_status := "CHANGED"; df_details := diff |}] else out) s
      end
  end.

Definition toolSchemaDiff (ctx : callctx) (sourceDB targetDB : gostr) (m : ConnectionManager) (s : server)
    : server * result tool_error SchemaDiffOutput :=
  if is_empty sourceDB || is_empty targetDB then (s, Err (Required "source_database and target_database"))
  else match requireAllowedDatabase (g_allowed g) sourceDB ;;? requireAllowedDatabase (g_allowed g) targetDB with
  | Some e => (s, Err (AccessDenied e))
  | None =>
      let db := getDB m ctx in
      match list_names "source" db sourceDB s with
      | (s, Err e) => (s, Err (Failed e))
      | (s, Ok source) =>
          match list_names "target" db targetDB s with
          | (s, Err e) => (s, Err (Failed e))
          | (s, Ok target) =>
              match compare_tables db sourceDB targetDB source (elements target)
                      (missing_tables sourceDB targetDB source target) s with
              | (s, Err e) => (s, Err (Failed e))
              | (s, Ok diffs) => (s, Ok {| SourceDatabase := sourceDB; TargetDatabase := targetDB; Diffs := diffs |})
              end
          end
      end
  end.
End Diff.

(** ** What schema_diff reports *)

Lemma omap_nil {A B} (f : A -> option B) (l : list A) : omap f l = [] <-> forall x, x ∈ l -> f x = None.
Proof.
  induction l as [|x l IH]; cbn; [split; [by intros _ ? ?%not_elem_of_nil | done]|].
  destruct (f x) as [y|] eqn:E.
  - split; [done|]. intros H. rewrite H in E by left. done.
  - rewrite IH. split; [intros H z [->|Hz]%elem_of_cons; auto | intros H z Hz; apply H; by right].
Qed.

Lemma column_diffs_nil (targetDB : gostr) (sCols tCols : gmap gostr gostr) :
  column_diffs targetDB sCols tCols = [] <-> sCols = tCols.
Proof.
  unfold column_diffs. split.
  - intros [H1 H2]%app_nil. rewrite omap_nil in H1, H2. apply map_eq. intros name.
    destruct (sCols !! name) as [sDef|] eqn:Es.
    + specialize (H1 (name, sDef) (proj2 (elem_of_map_to_list sCols name sDef) Es)). cbn in H1.
      destruct (tCols !! name) as [tDef|]; [|done]. destruct (sDef =?s tDef) eqn:E; [|done]. apply str_eqb_eq in E. congruence.
    + destruct (tCols !! name) as [tDef|] eqn:Et; [|done].
      specialize (H2 (name, tDef) (proj2 (elem_of_map_to_list tCols name tDef) Et)). cbn in H2. by rewrite Es in H2.
  - intros ->. apply app_nil. rewrite !omap_nil. split; intros [name def] Hin; apply elem_of_map_to_list in Hin; cbn; rewrite Hin; [|done].
    by rewrite str_eqb_refl.
Qed.

Lemma Join_is_empty (l : list gostr) (sep : gostr) : Forall (fun x => x <> []) l -> is_empty (Join l sep) = true <-> l = [].
Proof.
  intros HF. split; [|by intros ->]. destruct l as [|x l]; [done|]. apply list.Forall_cons in HF as [Hx _].
  destruct l; cbn; destruct x; done.
Qed.

Lemma column_diffs_nonempty (targetDB : gostr) (sCols tCols : gmap gostr gostr) :
  Forall (fun x => x <> []) (column_diffs targetDB sCols tCols).
Proof.
  apply list.Forall_app. split; apply list.Forall_forall; intros x Hx; apply list_elem_of_omap in Hx as ([name def] & _ & Hf); cbn in Hf.
  - destruct (tCols !! name) as [tDef|]; [destruct (negb (def =?s tDef)); [|done]|]; by injection Hf as <-.
  - destruct (sCols !! name); [done|]. by injection Hf as <-.
Qed.

(** What a table of the target contributes, when the columns are those of two functions. *)
Definition table_diff (sourceDB targetDB : gostr) (source : gset gostr) (sCols tCols : gostr -> gmap gostr gostr)
    (name : gostr) : option DiffResult :=
  if bool_decide (name ∈ source) then
    if bool_decide (sCols name = tCols name) then None
    else Some {| df_table := name; df_status := "CHANGED"; df_details := Join (column_diffs targetDB (sCols name) (tCols name)) "; " |}
  else Some {| df_table := name; df_status := "EXTRA"; df_details := "Table exists in " ++ targetDB ++ " but missing in " ++ sourceDB |}.

Definition missing_of (sourceDB targetDB name : gostr) : DiffResult :=
  {| df_table := name; df_status := "MISSING"; df_details := "Table exists in " ++ sourceDB ++ " but missing in " ++ targetDB |}.
Lemma elem_of_missing (sourceDB targetDB : gostr) (source target : gset gostr) (d : DiffResult) :
  d ∈ missing_tables sourceDB targetDB source target <->
  exists t, missing_of sourceDB targetDB t = d /\ t ∈ source /\ t ∉ target.
Proof.
  unfold missing_tables. rewrite list_elem_of_omap. setoid_rewrite elem_of_elements. split.
  - intros (t & Hin & Hf). exists t. destruct (bool_decide_reflect (t ∈ target)); [done|]. by injection Hf as <-.
  - intros (t & <- & Hin & Hout). exists t. split; [done|]. by rewrite bool_decide_eq_false_2.
Qed.

Lemma missing_nil (sourceDB targetDB : gostr) (source target : gset gostr) :
  missing_tables sourceDB targetDB source target = [] <-> source ⊆ target.
Proof.
  unfold missing_tables. rewrite omap_nil. setoid_rewrite elem_of_elements. split; intros H t Ht.
  - specialize (H t Ht). by destruct (bool_decide_reflect (t ∈ target)).
  - by rewrite bool_decide_eq_true_2 by auto.
Qed.

Lemma missing_key (sourceDB targetDB : gostr) (target : gset gostr) (t : gostr) (d : DiffResult) :
  (if negb (bool_decide (t ∈ target)) then Some (missing_of sourceDB targetDB t) else None) = Some d -> df_table d = t.
Proof. destruct (negb _); [|done]. by intros [= <-]. Qed.
Lemma table_diff_key sourceDB targetDB source sCols tCols (t : gostr) (d : DiffResult) :
  table_diff sourceDB targetDB source sCols tCols t = Some d -> df_table d = t.
Proof. unfold table_diff. destruct (bool_decide _); [destruct (bool_decide _); [done|]|]; by intros [= <-]. Qed.

Lemma NoDup_keys {A B} (f : A -> option B) (key : B -> A) (l : list A) :
  (forall x y, f x = Some y -> key y = x) -> NoDup l -> NoDup (map key (omap f l)).
Proof.
  intros Hkey. induction 1 as [|x l Hx Hnd IH]; cbn; [constructor|].
  destruct (f x) as [y|] eqn:E; [|done]. cbn. constructor; [|done].
  rewrite (Hkey _ _ E). intros (y' & -> & (x' & Hin & Hf)%list_elem_of_omap)%list_elem_of_fmap.
  by rewrite (Hkey _ _ Hf) in Hx.
Qed.

Section DiffSpec.
Context `{SqlServer}.

(** A server in a state [s] that lists the tables and columns of the two databases. *)
Record describes (db : dbh) (s : server) (sourceDB targetDB : gostr) (source target : gset gostr)
    (sCols tCols : gostr -> gmap gostr gostr) : Prop := {
  describes_source : list_names "source" db sourceDB s = (s, Ok source);
  describes_target : list_names "target" db targetDB s = (s, Ok target);
  describes_source_columns : forall t, t ∈ source -> table_columns db sourceDB t s = (s, Ok (sCols t));
  describes_target_columns : forall t, t ∈ target -> table_columns db targetDB t s = (s, Ok (tCols t))
}.

Lemma compare_tables_spec db s sourceDB targetDB source target sCols tCols names out :
  describes db s sourceDB targetDB source target sCols tCols -> (forall t, t ∈ names -> t ∈ target) ->
  compare_tables db sourceDB targetDB source names out s =
    (s, Ok (out ++ omap (table_diff sourceDB targetDB source sCols tCols) names)).
Proof.
  intros [_ _ Hs Ht]. revert out. induction names as [|name names IH]; intros out Hsub; cbn [compare_tables omap list_omap].
  { by rewrite app_nil_r. }
  assert (IH' : forall out, compare_tables db sourceDB targetDB source names out s =
    (s, Ok (out ++ omap (table_diff sourceDB targetDB source sCols tCols) names))).
  { intros out'. apply IH. intros t Hin. apply Hsub. by right. }
  unfold table_diff at 1. destruct (bool_decide_reflect (name ∈ source)) as [Hin|Hout]; cbn [negb].
  - unfold compareTableSchema. rewrite Hs by done. rewrite Ht by (apply Hsub; left).
    pose proof (column_diffs_nonempty targetDB (sCols name) (tCols name)) as Hne.
    destruct (bool_decide_reflect (sCols name = tCols name)) as [Heq|Hneq].
    + apply column_diffs_nil with (targetDB := targetDB) in Heq. rewrite Heq. cbn. apply IH'.
    + destruct (is_empty (Join (column_diffs targetDB (sCols name) (tCols name)) "; ")) eqn:E.
      { apply Join_is_empty, column_diffs_nil in E; done. }
      cbn [negb]. rewrite IH', <- app_assoc. done.
  - rewrite IH', <- app_assoc. done.
Qed.

(** C25: schema_diff reports exactly the differences.  Against a server that lists the tables
    and columns of the two databases, each table is reported at most once: MISSING when only
    the source has it, EXTRA when only the target has it, CHANGED when both have it and some
    column differs, and not at all otherwise.  In particular the list is empty exactly when
    the two databases have the same tables with the same columns. *)
Theorem schema_diff_is_exact (g : globals) (ctx : callctx) (m : ConnectionManager) (s : server)
    (sourceDB targetDB : gostr) (source target : gset gostr) (sCols tCols : gostr -> gmap gostr gostr)
    (Hnames : sourceDB <> [] /\ targetDB <> [])
    (Hallowed : requireAllowedDatabase (g_allowed g) sourceDB = None /\ requireAllowedDatabase (g_allowed g) targetDB = None)
    (Hserver : describes (getDB m ctx) s sourceDB targetDB source target sCols tCols) :
  exists diffs,
    toolSchemaDiff g ctx sourceDB targetDB m s = (s, Ok {| SourceDatabase := sourceDB; TargetDatabase := targetDB; Diffs := diffs |}) /\
    NoDup (map df_table diffs) /\
    (forall t status, (exists d, d ∈ diffs /\ df_table d = t /\ df_status d = status) <->
       (status = "MISSING" /\ t ∈ source /\ t ∉ target) \/
       (status = "EXTRA" /\ t ∈ target /\ t ∉ source) \/
       (status = "CHANGED" /\ t ∈ source /\ t ∈ target /\ sCols t <> tCols t)) /\
    (diffs = [] <-> source = target /\ forall t, t ∈ source -> sCols t = tCols t).
Proof.
  destruct Hnames as [Hn1 Hn2], Hallowed as [Ha1 Ha2]. unfold toolSchemaDiff.
  apply is_empty_false in Hn1, Hn2. rewrite Hn1, Hn2. cbn [orb]. rewrite Ha1, Ha2.
  rewrite (describes_source _ _ _ _ _ _ _ _ Hserver), (describes_target _ _ _ _ _ _ _ _ Hserver).
  rewrite (compare_tables_spec _ _ _ _ source target sCols tCols) by (done || intros t; by rewrite elem_of_elements).
  eexists. split; [done|]. split; [|split].
  - rewrite map_app. apply NoDup_app. split; [apply NoDup_keys; [apply missing_key | apply NoDup_elements]|].
    split; [|apply NoDup_keys; [apply table_diff_key | apply NoDup_elements]].
    intros t Hm Ht. apply list_elem_of_fmap in Hm as (d & -> & (t1 & <- & _ & Hout)%elem_of_missing).
    apply list_elem_of_fmap in Ht as (d' & Hd' & (t2 & Ht2 & Hf)%list_elem_of_omap).
    apply table_diff_key in Hf. apply elem_of_elements in Ht2. cbn in Hd'. congruence.
  - intros t status. setoid_rewrite elem_of_app. split.
    + intros (d & [(t1 & <- & Hin & Hout)%elem_of_missing|(t1 & Hin & Hf)%list_elem_of_omap] & <- & <-); [by left|].
      apply elem_of_elements in Hin. right. revert Hf. unfold table_diff.
      destruct (bool_decide_reflect (t1 ∈ source)); [destruct (bool_decide_reflect (sCols t1 = tCols t1)); [done|]|];
        intros [= <-]; cbn; auto.
    + intros [(-> & Hin & Hout)|[(-> & Hin & Hout)|(-> & Hs & Ht & Hne)]].
      * exists (missing_of sourceDB targetDB t). split; [left; apply elem_of_missing; by exists t | done].
      * eexists {| df_table := t |}. split; [|split; reflexivity]. right. apply list_elem_of_omap. exists t.
        rewrite elem_of_elements. split; [done|]. unfold table_diff. by rewrite bool_decide_eq_false_2.
      * eexists {| df_table := t |}. split; [|split; reflexivity]. right. apply list_elem_of_omap. exists t.
        rewrite elem_of_elements. split; [done|]. unfold table_diff. by rewrite bool_decide_eq_true_2, bool_decide_eq_false_2.
  - rewrite app_nil, missing_nil, omap_nil. setoid_rewrite elem_of_elements. split.
    + intros [Hsub Hdiff]. assert (Hback : target ⊆ source).
      { intros t Ht. specialize (Hdiff t Ht). unfold table_diff in Hdiff. by destruct (bool_decide_reflect (t ∈ source)). }
      split; [set_solver|]. intros t Ht. specialize (Hdiff t (Hsub t Ht)). unfold table_diff in Hdiff.
      rewrite bool_decide_eq_true_2 in Hdiff by done. by destruct (bool_decide_reflect (sCols t = tCols t)).
    + intros [-> Hcols]. split; [done|]. intros t Ht. unfold table_diff.
      by rewrite bool_decide_eq_true_2, bool_decide_eq_true_2 by auto.
Qed.
End DiffSpec.

(** *** An example: two databases that share one table *)
Definition diff_server : SqlServer :=
  {| server := unit; conn := unit;
     pool_Conn _ s := (s, Ok tt); pool_Ping _ s := (s, None);
     pool_Query _ q args s :=
       (s, Ok {| rs_columns := []; rs_err := None; rs_close := None;
                 rs_rows :=
                   match args with
                   | [VString d] => if d =?s "a" then [[VBytes "t"]; [VBytes "u"]] else [[VBytes "t"]; [VBytes "v"]]
                   | VString d :: _ => [[VBytes "id"; VBytes (if d =?s "a" then "int" else "bigint"); VBytes "NO"; VNil]]
                   | _ => []
                   end |});
     pool_Exec _ _ s := (s, None); conn_Exec _ _ s := (s, None); conn_Query _ _ s := (s, Err ErrNoRows);
     conn_Close _ s := s; format_float _ := []; format_time _ := [] |}.
Definition one_column (ctype : gostr) (_ : gostr) : gmap gostr gostr := {[("id" : gostr) := ctype ++ ", Null:NO, Def:<NULL>"]}.

Lemma schema_diff_is_exact_witness :
  exists diffs : list DiffResult,
    @toolSchemaDiff diff_server example_globals main_ctx "a" "b" (cm example_world_main) tt =
      (tt, Ok {| SourceDatabase := "a"; TargetDatabase := "b"; Diffs := diffs |}) /\
    exists d, d ∈ diffs /\ df_table d = "u" /\ df_status d = "MISSING".
Proof.
  destruct (@schema_diff_is_exact diff_server example_globals main_ctx (cm example_world_main) tt "a" "b"
    {["t"; "u"]} {["t"; "v"]} (one_column "int") (one_column "bigint")) as (diffs & Hrun & _ & Hstatus & _).
  - split; discriminate.
  - split; vm_compute; reflexivity.
  - split.
    + vm_compute. reflexivity.
    + vm_compute. reflexivity.
    + intros t Ht. vm_compute. reflexivity.
    + intros t Ht. vm_compute. reflexivity.
  - exists diffs. split; [exact Hrun|]. apply Hstatus. left. split; [reflexivity|]. split; decide_true.
Defined.

(** ** What search_schema asks for *)

Lemma question_marks_count (n : nat) : 0 < n -> CountByte (question_marks n) "?" = n.
Proof.
  intros Hn. unfold question_marks.
  assert (Hr : forall k, Repeat "?," (S k) = (Repeat "?," k ++ "?") ++ ",").
  { induction k as [|k IH]; [done|]. cbn [Repeat] in *. rewrite IH at 1. by rewrite !app_assoc. }
  assert (Hc : forall k, CountByte (Repeat "?," k) "?" = k).
  { induction k as [|k IH]; [done|]. cbn [Repeat]. rewrite CountByte_app, IH. done. }
  destruct n as [|n]; [lia|]. cbn zeta. rewrite Hr. set (a := Repeat "?," n ++ "?").
  replace (take (length (a ++ ",") - 1) (a ++ ",")) with a.
  - unfold a. rewrite CountByte_app, Hc. change (CountByte "?" "?") with 1. lia.
  - rewrite length_app. cbn [length]. replace (length a + 1 - 1) with (length a) by lia. by rewrite take_app_length.
Qed.

Section SearchSpec.
Context `{SqlServer}.
Variable g : globals.

(** The statements of a search: the schema condition's arguments between the pattern and the
    number of rows still wanted; the pack only when no allowlist has to be applied. *)
Definition search_text (pattern database : gostr) (q : gostr) (args : list value) : Prop :=
  placeholders q args /\ exists n, (0 <= n <= g_maxRows g)%Z /\
  ((exists cond condArgs, schema_condition g database = Ok (cond, condArgs) /\
      (q = search_tables_sql ++ cond ++ tables_order \/ q = search_columns_sql ++ cond ++ columns_order) /\
      args = VString pattern :: condArgs ++ [VInt64 n]) \/
   ((database <> [] \/ accessControlEnabled (g_allowed g) = false) /\
      (exists proc, proc ∈ (["search_tables"; "search_columns"] : list gostr) /\ q = packCall proc 3) /\
      args = [VString pattern; nullIfEmpty database; VInt64 n])).

Lemma condition_placeholders database cond condArgs :
  schema_condition g database = Ok (cond, condArgs) -> CountByte cond "?" = length condArgs.
Proof.
  unfold schema_condition. destruct (negb (is_empty database)); [by intros [= <- <-]|].
  destruct (accessControlEnabled (g_allowed g)); [|by intros [= <- <-]].
  destruct (allowedDatabasesLower (g_allowed g)) as [|x l]; [done|]. intros [<- <-]%Ok_pair_inj.
  rewrite !CountByte_app. rewrite question_marks_count by (cbn; lia). cbn [length map]. rewrite length_map.
  change (CountByte " AND LOWER(TABLE_SCHEMA) IN (" "?") with 0. change (CountByte ")" "?") with 0. lia.
Qed.

Lemma search_rows_kept P pattern database usePack ctx proc sql order cond condArgs n m s :
  kept_by (search_text pattern database) P -> (0 <= n <= g_maxRows g)%Z ->
  (usePack = true -> database <> [] \/ accessControlEnabled (g_allowed g) = false) ->
  schema_condition g database = Ok (cond, condArgs) ->
  (proc = "search_tables" /\ sql = search_tables_sql /\ order = tables_order \/
   proc = "search_columns" /\ sql = search_columns_sql /\ order = columns_order) -> P s ->
  P (snd (fst (search_rows usePack ctx proc [VString pattern; nullIfEmpty database; VInt64 n] (sql ++ cond ++ order)
    (VString pattern :: condArgs ++ [VInt64 n]) m s))).
Proof.
  intros Hkept Hn Hpack Hcond Hwhich Hs.
  assert (Hq : search_text pattern database (sql ++ cond ++ order) (VString pattern :: condArgs ++ [VInt64 n])).
  { split.
    - unfold placeholders. rewrite !CountByte_app, (condition_placeholders _ _ _ Hcond). cbn [length]. rewrite length_app. cbn [length].
      destruct Hwhich as [(-> & -> & ->)|(-> & -> & ->)].
      + change (CountByte search_tables_sql "?") with 1. change (CountByte tables_order "?") with 1. lia.
      + change (CountByte search_columns_sql "?") with 1. change (CountByte columns_order "?") with 1. lia.
    - exists n. split; [done|]. left. exists cond, condArgs. split; [done|]. split; [|done].
      destruct Hwhich as [(-> & -> & ->)|(-> & -> & ->)]; [by left | by right]. }
  unfold search_rows. destruct usePack.
  - apply (catalogRows_kept (search_text pattern database) P Hkept); [|done|done]. split.
    + unfold placeholders. rewrite packCall_placeholders. by destruct Hwhich as [(-> & _)|(-> & _)].
    + exists n. split; [done|]. right. split; [by apply Hpack|]. split; [|done]. exists proc. split; [|done].
      destruct Hwhich as [(-> & _)|(-> & _)]; [left | right; left].
  - pose proof (db_Query_kept (search_text pattern database) P Hkept (getDB m ctx) _ _ s Hq Hs) as Hd.
    by destruct (db_Query (getDB m ctx) _ _ s).
Qed.

Lemma scan_matches_length failed scan rows out res :
  scan_matches failed scan rows out = Ok res -> length res = length out + length rows.
Proof.
  revert out. induction rows as [|row rows IH]; intros out; cbn; [intros [= ->]; lia|].
  destruct (scan row); [|done]. intros Hs. rewrite (IH _ Hs), length_app. cbn. lia.
Qed.

Lemma read_matches_length failed scan rs out res :
  read_matches failed scan rs out = Ok res -> length res = length out + length (rs_rows rs).
Proof.
  unfold read_matches. intros (res' & Hs & Hr)%result_bind_Ok. destruct (rs_err rs); [done|]. injection Hr as <-.
  by apply scan_matches_length in Hs.
Qed.

(** The server honours a LIMIT: its last argument, when it is a number. *)
Definition honours_limit : Prop :=
  forall p q args s s' rs n, pool_Query p q args s = (s', Ok rs) -> last args = Some (VInt64 n) -> (0 <= n)%Z ->
    (Z.of_nat (length (rs_rows rs)) <= n)%Z.

Lemma catalogRows_limit ctx proc pa q args m s m' s' rs n :
  honours_limit -> catalogRows ctx proc pa q args m s = (m', s', Ok rs) ->
  last pa = Some (VInt64 n) -> last args = Some (VInt64 n) -> (0 <= n)%Z -> (Z.of_nat (length (rs_rows rs)) <= n)%Z.
Proof.
  intros Hlim Hrun Hpa Hargs Hn. revert Hrun. unfold catalogRows.
  assert (Hdb : forall db q args s s' rs, db_Query db q args s = (s', Ok rs) -> last args = Some (VInt64 n) ->
    (Z.of_nat (length (rs_rows rs)) <= n)%Z).
  { intros [p|msg] q' args' s1 s2 rs' Heq Hl; [by eapply Hlim | done]. }
  assert (Hemb : forall m1 s1, (let '(s, r) := db_Query (getDB m1 ctx) q args s1 in (m1, s, r)) = (m', s', Ok rs) ->
    (Z.of_nat (length (rs_rows rs)) <= n)%Z).
  { intros m1 s1. destruct (db_Query (getDB m1 ctx) q args s1) as [s2 r] eqn:E. intros [= -> -> ->]. by eapply Hdb. }
  destruct (usesToolPack m ctx); [|by apply Hemb].
  destruct (db_Query (getDB m ctx) (packCall proc (length pa)) pa s) as [s1 r] eqn:E.
  destruct (negb (packUnavailable _)); [intros [= <- <- ->]; by eapply Hdb | by apply Hemb].
Qed.

Lemma search_rows_limit usePack ctx proc pa q args m s m' s' rs n :
  honours_limit -> search_rows usePack ctx proc pa q args m s = (m', s', Ok rs) ->
  last pa = Some (VInt64 n) -> last args = Some (VInt64 n) -> (0 <= n)%Z -> (Z.of_nat (length (rs_rows rs)) <= n)%Z.
Proof.
  intros Hlim Hrun Hpa Hargs Hn. unfold search_rows in Hrun. destruct usePack; [by eapply catalogRows_limit|].
  destruct (getDB m ctx) as [p|msg]; cbn in Hrun; [|done].
  destruct (pool_Query p q args s) as [s1 r] eqn:E. injection Hrun as _ -> ->. by eapply Hlim.
Qed.

Lemma last_args (x : value) (l : list value) (y : value) : last (x :: l ++ [y]) = Some y.
Proof. rewrite app_comm_cons. by rewrite last_snoc. Qed.

(** Search_schema asks for no more than it may show.  Its statements have one argument per
    placeholder, restrict the schema to the given database or to the allowlist (or leave out
    the system schemas when there is none), use the tool pack only when no allowlist has to
    be applied, and ask for at most the row cap, the second search for what the first left;
    from a server that honours the LIMIT, the answer has at most that many matches. *)
Theorem search_schema_is_bounded (ctx : callctx) (pattern database : gostr) (m : ConnectionManager) (s : server)
    (P : server -> Prop) (Hmax : (0 <= g_maxRows g)%Z) (Hkept : kept_by (search_text pattern database) P) (Hs : P s) :
  P (snd (fst (toolSearchSchema g ctx pattern database m s))) /\
  (honours_limit -> forall m' s' out, toolSearchSchema g ctx pattern database m s = (m', s', Ok out) ->
     (Z.of_nat (length out) <= g_maxRows g)%Z).
Proof.
  unfold toolSearchSchema. destruct (is_empty pattern); [done|].
  destruct (if negb (is_empty database) then _ else _); [done|].
  destruct (schema_condition g database) as [[cond condArgs]|e] eqn:Hcond; [|done].
  set (usePack := usesToolPack m ctx && _).
  assert (Hpack : usePack = true -> database <> [] \/ accessControlEnabled (g_allowed g) = false).
  { unfold usePack. intros [_ Hp]%andb_true_iff. apply orb_true_iff in Hp as [Hp|Hp].
    - left. apply is_empty_false. by destruct (is_empty database).
    - right. by destruct (accessControlEnabled _). }
  assert (Hn : (0 <= g_maxRows g <= g_maxRows g)%Z) by lia.
  pose proof (search_rows_kept P pattern database usePack ctx "search_tables" search_tables_sql tables_order cond condArgs
    (g_maxRows g) m s Hkept Hn Hpack Hcond (or_introl (conj eq_refl (conj eq_refl eq_refl))) Hs) as Hk1.
  pose proof (search_rows_limit usePack ctx "search_tables" [VString pattern; nullIfEmpty database; VInt64 (g_maxRows g)]
    (search_tables_sql ++ cond ++ tables_order) (VString pattern :: condArgs ++ [VInt64 (g_maxRows g)]) m s) as Hl1.
  destruct (search_rows usePack ctx "search_tables" _ _ _ m s) as [[m1 s1] [rs|e]]; [|done]. cbn [fst snd] in Hk1.
  specialize (fun H => Hl1 m1 s1 rs (g_maxRows g) H eq_refl eq_refl (last_args _ _ _) Hmax).
  destruct (read_matches _ scan_table_match rs []) as [matches|e] eqn:Hread; [|done].
  apply read_matches_length in Hread. cbn [length] in Hread.
  destruct (Z.ltb_spec 0 (g_maxRows g - Z.of_nat (length matches))) as [Hleft|Hleft]; cbn [negb].
  2: { split; [done|]. intros Hlim m' s' out [= <- <- <-]. specialize (Hl1 Hlim). lia. }
  set (left := (g_maxRows g - Z.of_nat (length matches))%Z) in *.
  assert (Hn2 : (0 <= left <= g_maxRows g)%Z) by lia.
  pose proof (search_rows_kept P pattern database usePack ctx "search_columns" search_columns_sql columns_order cond condArgs
    left m1 s1 Hkept Hn2 Hpack Hcond (or_intror (conj eq_refl (conj eq_refl eq_refl))) Hk1) as Hk2.
  pose proof (search_rows_limit usePack ctx "search_columns" [VString pattern; nullIfEmpty database; VInt64 left]
    (search_columns_sql ++ cond ++ columns_order) (VString pattern :: condArgs ++ [VInt64 left]) m1 s1) as Hl2.
  destruct (search_rows usePack ctx "search_columns" _ _ _ m1 s1) as [[m2 s2] [rs2|e]]; [|done]. cbn [fst snd] in Hk2.
  specialize (fun H => Hl2 m2 s2 rs2 left H eq_refl eq_refl (last_args _ _ _) ltac:(lia)).
  destruct (read_matches _ scan_column_match rs2 matches) as [out|e] eqn:Hread2; [|done].
  apply read_matches_length in Hread2. split; [done|]. intros Hlim m' s' out' [= <- <- <-]. specialize (Hl2 Hlim). lia.
Qed.
End SearchSpec.

Definition limit_server : SqlServer :=
  {| server := list gostr; conn := unit;
     pool_Conn _ s := (s, Ok tt); pool_Ping _ s := (s, None);
     pool_Query _ q args s :=
       (s ++ [q], Ok {| rs_columns := []; rs_err := None; rs_close := None;
          rs_rows := match last args with
            | Some (VInt64 n) => take (Z.to_nat n) [[VBytes "app"; VBytes "users"]; [VBytes "app"; VBytes "user_roles"]; [VBytes "hr"; VBytes "users"]]
            | _ => []
            end |});
     pool_Exec _ _ s := (s, None); conn_Exec _ _ s := (s, None); conn_Query _ _ s := (s, Err ErrNoRows);
     conn_Close _ s := s; format_float _ := []; format_time _ := [] |}.
Definition two_rows : globals :=
  {| g_maxRows := 2; g_retry := DefaultConfig; g_pingTimeout := 1; g_mask := []; g_allowed := {["app"]};
     g_allowSystemSchemas := false |}.

Lemma search_schema_is_bounded_witness :
  (Z.of_nat (length [{| sm_database := "app"; sm_table := "users"; sm_column := []; sm_type := "TABLE" |};
                     {| sm_database := "app"; sm_table := "user_roles"; sm_column := []; sm_type := "TABLE" |}]) <= 2)%Z.
Proof.
  refine (proj2 (@search_schema_is_bounded limit_server two_rows main_ctx "%user%" [] (cm example_world_main) []
    (Forall (fun q => exists args, @search_text two_rows "%user%" [] q args)) _ _ _) _ (cm example_world_main)
    [search_tables_sql ++ " AND LOWER(TABLE_SCHEMA) IN (?)" ++ tables_order] _ _).
  - vm_compute. discriminate.
  - intros p q args s Hq Hs. apply list.Forall_app. split; [done|]. constructor; [by exists args | constructor].
  - constructor.
  - intros p q args s s' rs n Hq Hl Hn. cbn in Hq. rewrite Hl in Hq. injection Hq as _ <-. cbn [rs_rows].
    rewrite length_take. lia.
  - vm_compute. reflexivity.
Defined.
