(* ===== verification/Explain.v ===== *)
(** cmd/mysql-mcp-server/tools_extended.go: explain_query, the advice on a tabular plan, and
    the normal form of EXPLAIN FORMAT=JSON. *)
From Stdlib Require Import SpecFloat.
From S2P Require Import Prelude Unicode GoStrings GoNum GoFmt Identifiers SqlValidator SqlParser Config Access Labels Retry Sql Connection QueryTools Tools.

(** ** JSON values, as encoding/json decodes them into an [interface{}]

    An object is the list of its members; a later member of the same name replaces an
    earlier one.  [json_Unmarshal] decodes a text into a [map[string]interface{}]. *)
Inductive json :=
| JNull
| JBool (b : bool)
| JNumber (f : float)
| JString (s : gostr)
| JArray (l : list json)
| JObject (members : list (gostr * json)).
Definition jobject : Type := list (gostr * json).

Class JsonDecode := { json_Unmarshal : gostr -> option jobject }.

Fixpoint get (o : jobject) (key : gostr) : option json :=
  match o with
  | [] => None
  | (k, v) :: o => match get o key with Some w => Some w | None => if k =?s key then Some v else None end
  end.
(** The type assertions [v.(map[string]interface{})], [v.([]interface{})], [v.(string)],
    [v.(float64)]. *)
Definition get_object (o : jobject) (key : gostr) : option jobject :=
  match get o key with Some (JObject m) => Some m | _ => None end.
Definition get_array (o : jobject) (key : gostr) : option (list json) :=
  match get o key with Some (JArray l) => Some l | _ => None end.
Definition get_string (o : jobject) (key : gostr) : option gostr :=
  match get o key with Some (JString s) => Some s | _ => None end.
Definition get_number (o : jobject) (key : gostr) : option float :=
  match get o key with Some (JNumber f) => Some f | _ => None end.

(** ** The normal form *)
Record OpCostInfo := { ReadCost : float; EvalCost : float; PrefixCost : float; DataReadPerJoin : gostr }.
Record UnifiedOp := {
  TableName : gostr; AccessType : gostr; Key : gostr; KeyLength : gostr; RowsExamined : Z; Filtered : float;
  op_Message : gostr; AttachedCondition : gostr; PossibleKeys : list gostr; CostInfo : OpCostInfo
}.
Record UnifiedExplainPlan := { QueryCost : float; Operations : list UnifiedOp }.

Definition fzero : float := S754_zero false.

Definition float64FromExplainJSONNumber (v : option json) : option float :=
  match v with Some (JNumber f) => Some f | _ => None end.

(** Errors that wrap errExplainFilteredValue. *)
Inductive filtered_error := FilteredType | FilteredEmpty | FilteredSyntax (s : gostr).

Definition parseExplainFilteredField (v : json) : result filtered_error float :=
  match v with
  | JNull => Ok fzero
  | JNumber f => Ok f
  | JString s =>
      let s := TrimSpace s in
      if is_empty s then Err FilteredEmpty
      else match ParseFloat s with Some f => Ok f | None => Err (FilteredSyntax s) end
  | _ => Err FilteredType
  end.

Definition parsed_cost (ci : jobject) (key : gostr) : float :=
  match get_string ci key with Some s => default fzero (ParseFloat s) | None => fzero end.

Definition extractUnifiedOp (table : jobject) : result filtered_error UnifiedOp :=
  let text key := default [] (get_string table key) in
  let rowsExamined :=
    match get_number table "rows_examined_per_scan" with
    | Some rows => int_of_float rows
    | None => match get_number table "rows" with Some rows => int_of_float rows | None => 0%Z end
    end in
  let? filtered := match get table "filtered" with Some v => parseExplainFilteredField v | None => Ok fzero end in
  Ok {| TableName := text "table_name"; AccessType := text "access_type"; Key := text "key"; KeyLength := text "key_length";
        RowsExamined := rowsExamined; Filtered := filtered;
        op_Message := match get_string table "Extra" with Some extra => extra | None => text "message" end;
        AttachedCondition := text "attached_condition";
        PossibleKeys := match get_array table "possible_keys" with
          | Some l => omap (fun v => match v with JString s => Some s | _ => None end) l | None => [] end;
        CostInfo := match get_object table "cost_info" with
          | Some ci => {| ReadCost := parsed_cost ci "read_cost"; EvalCost := parsed_cost ci "eval_cost";
                          PrefixCost := parsed_cost ci "prefix_cost";
                          DataReadPerJoin := default [] (get_string ci "data_read_per_join") |}
          | None => {| ReadCost := fzero; EvalCost := fzero; PrefixCost := fzero; DataReadPerJoin := [] |}
          end |}.

Definition tableMapFromNestedLoopStep (nlMap : jobject) : option jobject :=
  match get_object nlMap "table" with
  | Some tMap => Some tMap
  | None =>
      match get_object nlMap "block-nl-join" with
      | None => None
      | Some bnl =>
          match get_object bnl "table" with
          | None => None
          | Some tMap =>
              match get tMap "attached_condition" with
              | Some _ => Some tMap
              | None =>
                  match get_string bnl "attached_condition" with
                  | None | Some [] => Some tMap
                  | Some wrapCond => Some (tMap ++ [("attached_condition" : gostr, JString wrapCond)])
                  end
              end
          end
      end
  end.

(** The tables of a list, in order; the first error ends the walk. *)
Fixpoint extract_all (tables : list jobject) : result filtered_error (list UnifiedOp) :=
  match tables with
  | [] => Ok []
  | t :: tables => let? op := extractUnifiedOp t in let? ops := extract_all tables in Ok (op :: ops)
  end.
Definition objects_of (l : list json) : list jobject :=
  omap (fun v => match v with JObject m => Some m | _ => None end) l.

Definition query_cost (qb : jobject) : float :=
  let from_info :=
    match get_object qb "cost_info" with
    | Some ci => match get_string ci "query_cost" with Some s => ParseFloat s | None => None end
    | None => None
    end in
  match from_info with
  | Some v => v
  | None => default fzero (float64FromExplainJSONNumber (get qb "cost"))
  end.

Inductive plan_error := BadJSON | BadFiltered (err : filtered_error).

Definition block_tables (qb : jobject) : list jobject :=
  match get_object qb "table" with
  | Some table => [table]
  | None =>
      match get_array qb "table" with
      | Some l => objects_of l
      | None =>
          match get_array qb "nested_loop" with
          | Some l => omap tableMapFromNestedLoopStep (objects_of l)
          | None => []
          end
      end
  end.

Definition mapRawExplainToUnified `{JsonDecode} (rawJSON : gostr) : result plan_error UnifiedExplainPlan :=
  match json_Unmarshal rawJSON with
  | None => Err BadJSON
  | Some raw =>
      match get_object raw "query_block" with
      | None => Ok {| QueryCost := fzero; Operations := [] |}
      | Some qb =>
          match extract_all (block_tables qb) with
          | Err e => Err (BadFiltered e)
          | Ok ops => Ok {| QueryCost := query_cost qb; Operations := ops |}
          end
      end
  end.

(** ** analyzeExplainPlan *)
Definition plan_row : Type := gmap gostr value.

Definition isNullLike (s : gostr) : bool := is_empty s || (s =?s "<nil>") || EqualFold s "null".

Section Analyze.
Context `{GoPrint}.

Definition row_warnings (row : plan_row) : list gostr :=
  let field name := sprint_value (default VNil (row !! (name : gostr))) in
  let table := field "table" in
  let accessType := ToUpper (field "type") in
  let accessTypeKnown := negb (is_empty accessType) && negb (EqualFold accessType "<nil>") in
  let key := field "key" in
  let possibleKeys := field "possible_keys" in
  let extra := ToLower (field "Extra") in
  (if accessType =?s "ALL" then
     if isNullLike possibleKeys then
       ["Table '" ++ table ++ "': full table scan with no candidate indexes — consider adding an index on the columns used in WHERE/JOIN conditions."]
     else ["Table '" ++ table ++ "': full table scan despite candidate indexes (" ++ possibleKeys ++ ") — verify the WHERE clause matches the index prefix and that column types align."]
   else []) ++
  (if isNullLike key && negb (isNullLike possibleKeys) && negb (accessType =?s "ALL") && accessTypeKnown then
     ["Table '" ++ table ++ "': indexes (" ++ possibleKeys ++ ") are available but none were chosen — check for type mismatches or functions wrapping indexed columns."]
   else []) ++
  (if Contains extra "using filesort" then
     ["Table '" ++ table ++ "': filesort required — consider a composite index whose column order matches your ORDER BY clause."]
   else []) ++
  (if Contains extra "using temporary" then
     ["Table '" ++ table ++ "': temporary table created — consider an index covering the columns used in GROUP BY or DISTINCT."]
   else []).
Definition analyzeExplainPlan (plan : list plan_row) : list gostr := concat (map row_warnings plan).
End Analyze.

(** ** explain_query *)
Record ExplainQueryInput := { ex_SQL : gostr; ex_Database : gostr; ex_Format : gostr }.
Inductive explain_plan := UnifiedPlan (p : UnifiedExplainPlan) | RawPlan (s : gostr) | TabularPlan (rows : list plan_row).
Record ExplainQueryOutput := { ex_Plan : explain_plan; ex_Warnings : list gostr }.

Definition explain_prefix (format : gostr) : gostr :=
  if format =?s "json" then "EXPLAIN FORMAT=JSON "
  else if format =?s "tree" then "EXPLAIN FORMAT=TREE "
  else "EXPLAIN ".
Definition explain_format (input : gostr) : gostr :=
  let format := ToLower (TrimSpace input) in if is_empty format then "json" else format.

(** [row[col] = util.NormalizeValue(values[i])]: a later column of the same name wins. *)
Definition plan_row_of (cols : list gostr) (values : list value) : plan_row :=
  fold_left (fun row cv => <[fst cv := NormalizeValue (snd cv)]> row) (zip cols values) ∅.
Fixpoint plan_rows (cols : list gostr) (rows : list (list value)) : result goerr (list plan_row) :=
  match rows with
  | [] => Ok []
  | row :: rows =>
      match scan_any (length cols) row with
      | Err e => Err (Wrap "failed to scan EXPLAIN row" e)
      | Ok values => let? rest := plan_rows cols rows in Ok (plan_row_of cols values :: rest)
      end
  end.

Section ExplainQuery.
Context `{JsonDecode} `{GoPrint} `{Sqlparser} `{SqlServer}.
Variable g : globals.

(** Everything toolExplainQuery checks before it asks for the database. *)
Definition check_explain (input : ExplainQueryInput) : result tool_error (gostr * gostr) :=
  let sqlText := TrimSpace (ex_SQL input) in
  if is_empty sqlText then Err (Required "sql")
  else if negb (HasPrefix (ToUpper sqlText) "SELECT") then Err (Invalid "only SELECT statements can be explained")
  else
    let database := TrimSpace (ex_Database input) in
    if accessControlEnabled (g_allowed g) && is_empty database then Err (Required "database")
    else match (if negb (is_empty database) then requireAllowedDatabase (g_allowed g) database else None) with
    | Some e => Err (AccessDenied e)
    | None =>
        match ValidateSQLCombined (g_allowSystemSchemas g) sqlText with
        | Some e => Err (Rejected e)
        | None =>
            match requireReferencedSchemasInQuery (g_allowed g) sqlText with
            | Some e => Err (AccessDenied e)
            | None => Ok (sqlText, database)
            end
        end
    end.

(** The rows of FORMAT=JSON: one text. *)
Definition json_plan (rs : rowset) : result tool_error explain_plan :=
  let failed e := Failed (Wrap "EXPLAIN FORMAT=JSON" e) in
  match rs_rows rs with
  | [] => Err (match rs_err rs with Some e => failed e | None => Invalid "EXPLAIN FORMAT=JSON returned no rows" end)
  | row :: more =>
      match (match row with [v] => scan_string v | _ => Err scan_arity end) with
      | Err e => Err (Failed (Wrap "failed to scan json explain" e))
      | Ok jsonPlan =>
          match more, rs_err rs with
          | _ :: _, _ => Err (Invalid "EXPLAIN FORMAT=JSON returned multiple rows")
          | [], Some e => Err (failed e)
          | [], None =>
              match mapRawExplainToUnified jsonPlan with
              | Ok plan => Ok (UnifiedPlan plan)
              | Err (BadFiltered _) => Err (Invalid "failed to normalize EXPLAIN JSON")
              | Err BadJSON => Ok (RawPlan jsonPlan)
              end
          end
      end
  end.
Definition tabular_plan (rs : rowset) : result tool_error explain_plan :=
  match plan_rows (rs_columns rs) (rs_rows rs), rs_err rs with
  | Err e, _ => Err (Failed e)
  | Ok _, Some e => Err (Failed (Wrap "EXPLAIN rows" e))
  | Ok rows, None => Ok (TabularPlan rows)
  end.
Definition explain_output (format : gostr) (rs : rowset) : result tool_error ExplainQueryOutput :=
  let? plan := if format =?s "json" then json_plan rs else tabular_plan rs in
  Ok {| ex_Plan := plan;
        ex_Warnings := match plan with
          | TabularPlan rows => if format =?s "traditional" then analyzeExplainPlan rows else []
          | _ => [] end |}.

Definition explain_rows (format : gostr) (st : server * result goerr rowset) : server * result tool_error ExplainQueryOutput :=
  match st with
  | (s, Err e) => (s, Err (Failed (Wrap "EXPLAIN failed" e)))
  | (s, Ok rs) => (s, explain_output format rs)
  end.

Definition toolExplainQuery (db : dbh) (input : ExplainQueryInput) (s : server)
    : server * result tool_error ExplainQueryOutput :=
  match check_explain input with
  | Err e => (s, Err e)
  | Ok (sqlText, database) =>
      let format := explain_format (ex_Format input) in
      let explainSQL := explain_prefix format ++ sqlText in
      if is_empty database then explain_rows format (db_Query db explainSQL [] s)
      else match QuoteIdent database with
      | Err e => (s, Err (InvalidName "database" e))
      | Ok dbName =>
          match db_Conn db s with
          | (s, Err e) => (s, Err (Failed (Wrap "failed to get connection" e)))
          | (s, Ok conn) =>
              let '(s, r) :=
                match conn_Exec conn ("USE " ++ dbName) s with
                | (s, Some e) => (s, Err (Failed (Wrap "failed to switch database" e)))
                | (s, None) => explain_rows format (conn_Query conn explainSQL s)
                end in
              (conn_Close conn s, r)
          end
      end
  end.
End ExplainQuery.

(** ** What explain_query sends *)
Section ExplainSpec.
Context `{JsonDecode} `{GoPrint} `{Sqlparser} `{SqlServer}.
Variable g : globals.

Lemma explain_rows_server format st : fst (explain_rows format st) = fst st.
Proof. by destruct st as [s []]. Qed.

Lemma toolExplainQuery_preserves (P : server -> Prop) db input sqlText database s :
  check_explain g input = Ok (sqlText, database) ->
  let explainSQL := explain_prefix (explain_format (ex_Format input)) ++ sqlText in
  only_statements P db database explainSQL ->
  (database = [] -> forall s, P s -> P (fst (db_Query db explainSQL [] s))) ->
  P s -> P (fst (toolExplainQuery g db input s)).
Proof.
  intros Hcheck explainSQL [_ Hconn Hclose Huse Hquery] Hpool Hs. unfold toolExplainQuery. rewrite Hcheck.
  fold explainSQL. destruct (is_empty database) eqn:Hdb.
  - rewrite explain_rows_server. apply Hpool; [by apply is_empty_true | done].
  - destruct (QuoteIdent database) as [q|] eqn:Hq; [|done].
    specialize (Hconn s Hs). destruct (db_Conn db s) as [s1 [c|e]]; [|done]. cbn [fst] in Hconn.
    specialize (Huse c q s1 eq_refl Hconn). destruct (conn_Exec c ("USE " ++ q) s1) as [s2 [e|]]; [by apply Hclose|].
    specialize (Hquery c s2 Huse). rewrite <- (explain_rows_server (explain_format (ex_Format input))) in Hquery.
    destruct (explain_rows _ (conn_Query c explainSQL s2)) as [s3 r]. by apply Hclose.
Qed.

Definition sent_prefixes : list gostr := ["EXPLAIN "; "EXPLAIN FORMAT=JSON "; "EXPLAIN FORMAT=TREE "].
Lemma explain_prefix_cases format : explain_prefix (explain_format format) ∈ sent_prefixes.
Proof. unfold explain_prefix. repeat case_match; decide_true. Qed.

Lemma check_explain_sound input sqlText database :
  check_explain g input = Ok (sqlText, database) ->
  sqlText = TrimSpace (ex_SQL input) /\ HasPrefix (ToUpper sqlText) "SELECT" = true /\
  ValidateSQLCombined (g_allowSystemSchemas g) sqlText = None /\
  requireReferencedSchemasInQuery (g_allowed g) sqlText = None /\
  requireAllowedDatabase (g_allowed g) database = None.
Proof.
  unfold check_explain. destruct (is_empty (TrimSpace (ex_SQL input))); [done|].
  destruct (HasPrefix _ _) eqn:Hselect; [|done]. cbn [negb].
  destruct (accessControlEnabled (g_allowed g) && is_empty (TrimSpace (ex_Database input))) eqn:Hacc; [done|].
  destruct (if negb (is_empty (TrimSpace (ex_Database input))) then _ else _) eqn:Hdb; [done|].
  destruct (ValidateSQLCombined _ _) eqn:Hval; [done|]. destruct (requireReferencedSchemasInQuery _ _) eqn:Href; [done|].
  intros [= <- <-]. repeat (split; [done|]).
  destruct (is_empty (TrimSpace (ex_Database input))); [|done]. rewrite andb_true_r in Hacc.
  unfold requireAllowedDatabase. by rewrite Hacc.
Qed.

(** C23: explain_query sends nothing that run_query's checks did not pass.  When a check
    fails the server is not touched; otherwise the only statements are USE of the quoted
    database and EXPLAIN, in one of three formats, followed by a text that starts with
    SELECT, that both validators accept and whose references the allowlist permits. *)
Theorem explain_sends_only_checked_selects (db : dbh) (input : ExplainQueryInput) (s : server) :
  match check_explain g input with
  | Err e => toolExplainQuery g db input s = (s, Err e)
  | Ok (sqlText, database) =>
      sqlText = TrimSpace (ex_SQL input) /\ HasPrefix (ToUpper sqlText) "SELECT" = true /\
      ValidateSQLCombined (g_allowSystemSchemas g) sqlText = None /\
      requireReferencedSchemasInQuery (g_allowed g) sqlText = None /\
      requireAllowedDatabase (g_allowed g) database = None /\
      exists format, format ∈ ["EXPLAIN " : gostr; "EXPLAIN FORMAT=JSON " : gostr; "EXPLAIN FORMAT=TREE " : gostr] /\
      forall P : server -> Prop, only_statements P db database (format ++ sqlText) ->
        (database = [] -> forall s, P s -> P (fst (db_Query db (format ++ sqlText) [] s))) ->
        P s -> P (fst (toolExplainQuery g db input s))
  end.
Proof.
  destruct (check_explain g input) as [[sqlText database]|e] eqn:Hcheck; [|unfold toolExplainQuery; by rewrite Hcheck].
  destruct (check_explain_sound _ _ _ Hcheck) as (-> & Hselect & Hval & Href & Hdb). repeat (split; [done|]).
  exists (explain_prefix (explain_format (ex_Format input))). split; [apply explain_prefix_cases|].
  intros P Honly Hpool Hs. by eapply toolExplainQuery_preserves.
Qed.
End ExplainSpec.

(** ** The plan of a join *)

(** A step of a nested loop: a table, or MariaDB's wrapper of a table with a condition. *)
Inductive join_step := Direct (table : jobject) | BlockNestedLoop (table : jobject) (cond : gostr).
Definition step_table (st : join_step) : jobject := match st with Direct t | BlockNestedLoop t _ => t end.
Definition step_json (st : join_step) : jobject :=
  match st with
  | Direct t => [("table" : gostr, JObject t)]
  | BlockNestedLoop t cond =>
      [("block-nl-join" : gostr, JObject [("table" : gostr, JObject t); ("attached_condition" : gostr, JString cond)])]
  end.
Definition with_condition (op : UnifiedOp) (cond : gostr) : UnifiedOp :=
  {| TableName := TableName op; AccessType := AccessType op; Key := Key op; KeyLength := KeyLength op;
     RowsExamined := RowsExamined op; Filtered := Filtered op; op_Message := op_Message op;
     AttachedCondition := cond; PossibleKeys := PossibleKeys op; CostInfo := CostInfo op |}.
(** The wrapper's condition applies where the table has none of its own. *)
Definition merge_condition (st : join_step) (op : UnifiedOp) : UnifiedOp :=
  match st with
  | Direct _ => op
  | BlockNestedLoop t cond =>
      match get t "attached_condition" with Some _ => op | None => with_condition op cond end
  end.

Lemma get_app (o o' : jobject) (key : gostr) :
  get (o ++ o') key = match get o' key with Some v => Some v | None => get o key end.
Proof.
  induction o as [|[k v] o IH]; cbn; [by destruct (get o' key)|]. rewrite IH. by destruct (get o' key), (get o key).
Qed.

Lemma extractUnifiedOp_condition (t : jobject) (cond : gostr) :
  extractUnifiedOp (t ++ [("attached_condition" : gostr, JString cond)]) =
    let? op := extractUnifiedOp t in Ok (with_condition op cond).
Proof.
  unfold extractUnifiedOp, get_string, get_number, get_array, get_object. rewrite !get_app.
  cbn [get]. repeat match goal with |- context [if (?a =?s ?b) then _ else _] =>
    let v := eval vm_compute in (a =?s b) in change (a =?s b) with v end. cbn iota.
  destruct (match get t "filtered" with Some v => _ | None => _ end); [|done]. done.
Qed.

Lemma with_condition_id (t : jobject) (op : UnifiedOp) :
  extractUnifiedOp t = Ok op -> get t "attached_condition" = None -> with_condition op [] = op.
Proof.
  unfold extractUnifiedOp, get_string, get_number, get_array, get_object.
  destruct (match get t "filtered" with Some v => _ | None => _ end); [|done]. cbn [result_bind].
  intros [= <-] Hnone. unfold with_condition. cbn. by rewrite Hnone.
Qed.

Lemma step_op (st : join_step) :
  exists t, tableMapFromNestedLoopStep (step_json st) = Some t /\
    extractUnifiedOp t = let? op := extractUnifiedOp (step_table st) in Ok (merge_condition st op).
Proof.
  destruct st as [t|t cond]; [exists t; split; [done|]; cbn; by destruct (extractUnifiedOp t)|].
  unfold tableMapFromNestedLoopStep, step_json, merge_condition, step_table.
  change (get_object _ "table") with (@None jobject) at 1.
  change (get_object _ "block-nl-join") with
    (Some [("table" : gostr, JObject t); ("attached_condition" : gostr, JString cond)]).
  cbn iota. change (get_object [("table" : gostr, JObject t); ("attached_condition" : gostr, JString cond)] "table") with (Some t).
  change (get_string _ "attached_condition") with (Some cond). cbn iota.
  destruct (get t "attached_condition") eqn:Hown; [exists t; split; [done|]; by destruct (extractUnifiedOp t)|].
  destruct cond as [|c cond]; [|eexists; split; [done | apply extractUnifiedOp_condition]].
  exists t. split; [done|]. destruct (extractUnifiedOp t) eqn:Hop; [|done]. cbn.
  by rewrite (with_condition_id _ _ Hop Hown).
Qed.

Lemma extract_all_steps (steps : list join_step) :
  extract_all (omap tableMapFromNestedLoopStep (map step_json steps)) =
    let? ops := extract_all (map step_table steps) in Ok (zip_with merge_condition steps ops).
Proof.
  induction steps as [|st steps IH]; [done|]. cbn [map]. destruct (step_op st) as (t & Ht & Hop).
  cbn [omap list_omap]. rewrite Ht. cbn [extract_all]. rewrite Hop.
  destruct (extractUnifiedOp (step_table st)) as [op|]; [|done]. cbn [result_bind]. rewrite IH.
  by destruct (extract_all (map step_table steps)).
Qed.

(** The normal form of a join has one operation per step, in order, whichever server
    wrote the plan: MySQL's tables and MariaDB's block-nl-join wrappers give the same
    operations, except that the wrapper's condition stands where the table has none.  The
    first filtered value that is not a number makes the whole plan an error. *)
Theorem join_plan_is_uniform `{JsonDecode} (rawJSON : gostr) (raw qb : jobject) (steps : list join_step)
    (Hraw : json_Unmarshal rawJSON = Some raw) (Hqb : get_object raw "query_block" = Some qb)
    (Htable : get qb "table" = None)
    (Hsteps : get_array qb "nested_loop" = Some (map (fun st => JObject (step_json st)) steps)) :
  mapRawExplainToUnified rawJSON =
    match extract_all (map step_table steps) with
    | Err e => Err (BadFiltered e)
    | Ok ops => Ok {| QueryCost := query_cost qb; Operations := zip_with merge_condition steps ops |}
    end.
Proof.
  unfold mapRawExplainToUnified. rewrite Hraw, Hqb.
  assert (Hobj : get_object qb "table" = None) by (unfold get_object; by rewrite Htable).
  assert (Harr : get_array qb "table" = None) by (unfold get_array; by rewrite Htable).
  unfold block_tables. rewrite Hobj, Harr, Hsteps.
  replace (objects_of (map (fun st => JObject (step_json st)) steps)) with (map step_json steps).
  - rewrite extract_all_steps. by destruct (extract_all (map step_table steps)).
  - unfold objects_of. clear. induction steps as [|st steps IH]; [done|]. cbn in *. by rewrite <- IH.
Qed.

Definition example_table (name : gostr) : jobject :=
  [("table_name" : gostr, JString name); ("rows" : gostr, JNumber (float_of_Z 3)); ("filtered" : gostr, JString " 50 ")].
Definition example_steps : list join_step := [Direct (example_table "t1"); BlockNestedLoop (example_table "t2") "t2.a = t1.a"].
Definition example_decode : JsonDecode :=
  {| json_Unmarshal _ := Some [("query_block" : gostr, JObject
       [("cost" : gostr, JNumber (float_of_Z 7)); ("nested_loop" : gostr, JArray (map (fun st => JObject (step_json st)) example_steps))])] |}.

Lemma join_plan_is_uniform_witness :
  exists plan, @mapRawExplainToUnified example_decode "{}" = Ok plan /\
    map TableName (Operations plan) = ["t1" : gostr; "t2" : gostr] /\
    map AttachedCondition (Operations plan) = ["" : gostr; "t2.a = t1.a" : gostr] /\
    map RowsExamined (Operations plan) = [3%Z; 3%Z] /\ QueryCost plan = float_of_Z 7.
Proof.
  pose proof (@join_plan_is_uniform example_decode "{}"
    [("query_block" : gostr, JObject [("cost" : gostr, JNumber (float_of_Z 7));
       ("nested_loop" : gostr, JArray (map (fun st => JObject (step_json st)) example_steps))])]
    [("cost" : gostr, JNumber (float_of_Z 7));
     ("nested_loop" : gostr, JArray (map (fun st => JObject (step_json st)) example_steps))]
    example_steps eq_refl eq_refl eq_refl eq_refl) as Hplan.
  eexists. split; [exact Hplan|]. vm_compute. repeat split; reflexivity.
Defined.

Lemma explain_sends_only_checked_selects_witness :
  let input := {| ex_SQL := " SELECT id FROM users "; ex_Database := "app"; ex_Format := "JSON" |} in
  let parser := {| SplitStatementToPieces s := Ok [s]; Parse _ := Ok StOtherRead |} in
  let print := {| sprint_float _ := []; sprint_time _ := [] |} in
  Forall (fun q => q = "USE `app`" \/ exists format : gostr, q = format ++ "SELECT id FROM users")
    (fst (@toolExplainQuery example_decode print parser log_server example_globals (Pool 0) input [])).
Proof.
  intros input parser print.
  pose proof (@explain_sends_only_checked_selects example_decode print parser log_server example_globals (Pool 0) input []) as Hthm.
  assert (Hc : @check_explain parser example_globals input = Ok ("SELECT id FROM users" : gostr, "app" : gostr))
    by (vm_compute; reflexivity).
  rewrite Hc in Hthm. destruct Hthm as (_ & _ & _ & _ & _ & format & Hin & Hall).
  apply Hall; [|done|constructor]. split.
  - done.
  - done.
  - done.
  - intros c q s Hq Hs. assert (q = "`app`") as -> by (vm_compute in Hq; congruence).
    apply list.Forall_app. split; [done|]. constructor; [by left | constructor].
  - intros c s Hs. apply list.Forall_app. split; [done|]. constructor; [by right; eexists | constructor].
Defined.
