(* ===== verification/Http.v ===== *)
(** net/http as the handlers use it, internal/api (response.go, middleware.go), and the
    request checks of cmd/mysql-mcp-server/mcp_http.go. *)
From S2P Require Import Prelude Unicode GoStrings GoNum GoNet Config.

(** ** Requests, responses and handlers

    A handler acts on the response being written; [None] status: no header written yet. *)
Record request := {
  Method : gostr; Path : gostr; ReqHost : gostr; RemoteAddr : gostr; LocalAddr : option gostr;
  Header : gmap gostr (list gostr); Query : gmap gostr (list gostr)
}.
Record response := {
  headers : gmap gostr (list gostr); status : option Z; body : list gostr;
  codes : list Z     (* the arguments of the WriteHeader calls, last first *)
}.

Definition handler := request -> response -> response.

(** [h.Get] and [h.Values] with a canonical key. *)
Definition header_values (r : request) (key : gostr) : list gostr := default [] (Header r !! key).
Definition header_get (r : request) (key : gostr) : gostr := match header_values r key with v :: _ => v | [] => [] end.
Definition query_get (r : request) (key : gostr) : gostr :=
  match Query r !! key with Some (v :: _) => v | _ => [] end.

Definition set_header (key v : gostr) (w : response) : response :=
  {| headers := <[key := [v]]> (headers w); status := status w; body := body w; codes := codes w |}.
Definition add_header (key v : gostr) (w : response) : response :=
  {| headers := <[key := default [] (headers w !! key) ++ [v]]> (headers w); status := status w; body := body w; codes := codes w |}.
(** Only the first WriteHeader counts. *)
Definition write_header (code : Z) (w : response) : response :=
  {| headers := headers w; status := match status w with Some s => Some s | None => Some code end; body := body w;
     codes := code :: codes w |}.
Definition write_body (text : gostr) (w : response) : response :=
  {| headers := headers w; status := match status w with Some s => Some s | None => Some 200%Z end;
     body := body w ++ [text]; codes := codes w |}.
(** [http.Error] *)
Definition http_Error (message : gostr) (code : Z) (w : response) : response :=
  write_body (message ++ [ch_newline]) (write_header code
    (set_header "X-Content-Type-Options" "nosniff" (set_header "Content-Type" "text/plain; charset=utf-8"
      {| headers := delete ("Content-Length" : gostr) (headers w); status := status w; body := body w; codes := codes w |}))).

(** *** http.ServeMux

    The path a mux looks up; a request for another one is redirected there, unless its method
    is CONNECT.  The HTML note that goes with the redirect is left out. *)
Definition clean_path (p : gostr) : gostr :=
  match p with
  | [] => "/"
  | c :: _ =>
      let p := if bool_decide (c = "/"%char) then p else "/" ++ p in
      let np := Clean p in
      if HasSuffix p "/" && negb (np =?s "/") then np ++ "/" else np
  end.
Definition path_is_clean (r : request) : bool := (Method r =?s "CONNECT") || (clean_path (Path r) =?s Path r).
Definition redirect_to (location : gostr) (w : response) : response := write_header 301 (set_header "Location" location w).
Definition clean_first (mux : handler) : handler := fun r w =>
  if path_is_clean r then mux r w else redirect_to (clean_path (Path r)) w.

Example clean_path_ex :
  clean_path "/api/" = "/api/" /\ clean_path "/api//query" = "/api/query" /\ clean_path "/mcp/../status" = "/status" /\ clean_path "/" = "/".
Proof. vm_compute. repeat split. Qed.

(** ** response.go: [encode] is the JSON encoder on the payload. *)
Inductive payload := NilPayload | SuccessPayload (data : gostr) | ErrorPayload (message : gostr).

Section Api.
Variable encode : payload -> gostr.

Definition WriteJSONNoCORS (code : Z) (data : payload) (w : response) : response :=
  write_body (encode data) (write_header code (set_header "Content-Type" "application/json" w)).
Definition WriteJSON (code : Z) (data : payload) (w : response) : response :=
  WriteJSONNoCORS code data
    (set_header "Access-Control-Allow-Headers" "Content-Type"
      (set_header "Access-Control-Allow-Methods" "GET, POST, OPTIONS"
        (set_header "Access-Control-Allow-Origin" "*" w))).
Definition WriteSuccess (data : gostr) : response -> response := WriteJSON 200 (SuccessPayload data).
Definition WriteError (code : Z) (message : gostr) : response -> response := WriteJSON code (ErrorPayload message).
Definition WriteBadRequest : gostr -> response -> response := WriteError 400.
Definition WriteInternalError : gostr -> response -> response := WriteError 500.
Definition WriteNotFound : gostr -> response -> response := WriteError 404.
Definition WriteMethodNotAllowed : gostr -> response -> response := WriteError 405.

(** ** middleware.go *)
Definition is_options (r : request) : bool := Method r =?s "OPTIONS".

Definition WithCORS (next : handler) : handler := fun r w =>
  let w := set_header "Access-Control-Allow-Headers" "Content-Type"
             (set_header "Access-Control-Allow-Methods" "GET, POST, OPTIONS"
               (set_header "Access-Control-Allow-Origin" "*" w)) in
  if is_options r then WriteJSON 200 NilPayload w else next r w.
Definition RequireMethod (method : gostr) (next : handler) : handler := fun r w =>
  if is_options r then WriteJSON 200 NilPayload w
  else if negb (Method r =?s method) then WriteMethodNotAllowed (method ++ " method required") w
  else next r w.
Definition RequireGET (next : handler) : handler := fun r w =>
  if is_options r then WriteJSON 200 NilPayload w
  else if negb (Method r =?s "GET") && negb (Method r =?s "HEAD") then WriteMethodNotAllowed "GET method required" w
  else next r w.
Definition RequirePOST (next : handler) : handler := RequireMethod "POST" next.
Definition RequireFeature (enabled : bool) (featureName : gostr) (next : handler) : handler := fun r w =>
  if is_options r then WriteJSON 200 NilPayload w
  else if negb enabled then WriteNotFound (featureName ++ " not enabled") w
  else next r w.
Definition RequireQueryParam (paramName : gostr) (next : handler) : handler := fun r w =>
  if is_options r then WriteJSON 200 NilPayload w
  else if is_empty (query_get r paramName) then WriteBadRequest (paramName ++ " parameter is required") w
  else next r w.
Definition RequireQueryParams (paramNames : list gostr) (next : handler) : handler := fun r w =>
  if is_options r then WriteJSON 200 NilPayload w
  else match first_err (fun name => if is_empty (query_get r name) then Some name else None) paramNames with
  | Some name => WriteBadRequest (name ++ " parameter is required") w
  | None => next r w
  end.
(** The first middleware is the outermost. *)
Definition Chain (h : handler) (middlewares : list (handler -> handler)) : handler :=
  fold_right (fun middleware h => middleware h) h middlewares.

(** WithLogging: the response, and the line of the log (the duration apart); the wrapper
    records the code of every WriteHeader that passes through it, starting at 200. *)
Definition WithLogging (next : handler) (r : request) (w : response) : response * option (gostr * gostr * Z) :=
  let wrapped := next r {| headers := headers w; status := status w; body := body w; codes := [] |} in
  ({| headers := headers wrapped; status := status wrapped; body := body wrapped; codes := codes wrapped ++ codes w |},
   if negb (is_options r) then Some (Method r, Path r, hd 200%Z (codes wrapped)) else None).
End Api.

(** ** mcp_http.go *)
Definition constant_time_eq (a b : gostr) : bool := a =?s b.

Definition unauthorized (w : response) : response :=
  http_Error "unauthorized" 401 (set_header "Www-Authenticate" ("Bearer realm=" ++ [ch_dquote] ++ "mysql-mcp-server" ++ [ch_dquote]) w).

Definition token_ok (token : gostr) (r : request) : bool :=
  match Fields (header_get r "Authorization") with
  | [scheme; given] => EqualFold scheme "bearer" && constant_time_eq given token
  | _ => false
  end.
Definition requireBearerToken (token : gostr) (next : handler) : handler :=
  if is_empty token then next
  else fun r w => if negb (token_ok token r) then unauthorized w else next r w.

Definition mcpCORSAllowHeaders : gostr :=
  "Authorization, Content-Type, Accept, Mcp-Session-Id, Mcp-Protocol-Version, Mcp-Method, Mcp-Name, Last-Event-ID".

Definition cors_origins (allowed : list gostr) : list gostr := map (fun o => TrimRight (ToLower o) "/") allowed.
Definition withMCPCORS (allowed : list gostr) (next : handler) : handler :=
  match allowed with
  | [] => next
  | _ => fun r w =>
      let origin := header_get r "Origin" in
      if negb (one_of origin (cors_origins allowed)) || is_empty origin then next r w
      else
        let w := set_header "Access-Control-Expose-Headers" "Mcp-Session-Id"
                   (set_header "Access-Control-Allow-Origin" origin (add_header "Vary" "Origin" w)) in
        if is_options r && negb (is_empty (header_get r "Access-Control-Request-Method")) then
          write_header 204 (set_header "Access-Control-Max-Age" "600"
            (set_header "Access-Control-Allow-Headers" mcpCORSAllowHeaders
              (set_header "Access-Control-Allow-Methods" "GET, POST, DELETE, OPTIONS" w)))
        else next r w
  end.

Definition isLoopbackHostPort (addr : gostr) : bool :=
  IsLoopbackBind match SplitHostPort addr with Some (host, _) => host | None => addr end.

Definition host_of (r : request) : gostr :=
  let host := ToLower (ReqHost r) in
  match SplitHostPort host with Some (h, _) => h | None => host end.
Definition host_ok (allowed : list gostr) (r : request) : bool :=
  match LocalAddr r with
  | Some local =>
      if isLoopbackHostPort local then
        one_of (host_of r) (map (fun h => ToLower (TrimSpace h)) allowed) || IsLoopbackBind (host_of r)
      else true
  | None => true
  end.
(** [quoted] is the Host as %q writes it. *)
Definition withAllowedHosts (quoted : gostr -> gostr) (allowed : list gostr) (next : handler) : handler := fun r w =>
  if host_ok allowed r then next r w
  else http_Error ("Forbidden: invalid Host header " ++ quoted (ReqHost r)) 403 w.

(** [CrossOriginProtection.AddTrustedOrigin] *)
Inductive origin_error := OriginUnparsable | OriginNoScheme | OriginNoHost | OriginHasPath.
Definition AddTrustedOrigin `{UrlParse} (origin : gostr) : option origin_error :=
  match url_parse origin with
  | None => Some OriginUnparsable
  | Some u =>
      if is_empty (Scheme u) then Some OriginNoScheme
      else if is_empty (Host u) then Some OriginNoHost
      else if negb (is_empty (GoNet.Path u)) || negb (is_empty (RawQuery u)) || negb (is_empty (Fragment u)) then Some OriginHasPath
      else None
  end.
(** [http.CrossOriginProtection] with its trusted origins. *)
Definition cross_origin_ok `{UrlParse} (trusted : list gostr) (r : request) : bool :=
  let exempt := negb (is_empty (header_get r "Origin")) && one_of (header_get r "Origin") trusted in
  if one_of (Method r) (["GET"; "HEAD"; "OPTIONS"] : list gostr) then true
  else
    let site := header_get r "Sec-Fetch-Site" in
    if is_empty site then
      let origin := header_get r "Origin" in
      if is_empty origin then true
      else match url_parse origin with
      | Some o => (Host o =?s ReqHost r) || exempt
      | None => exempt
      end
    else if one_of site (["same-origin"; "none"] : list gostr) then true else exempt.
Definition cop_Handler `{UrlParse} (trusted : list gostr) (next : handler) : handler := fun r w =>
  if cross_origin_ok trusted r then next r w
  else http_Error "cross-origin request detected, and/or browser is out of date" 403 w.

(** ** Examples and cases *)
Example bearer_ex :
  token_ok "s3cret" {| Method := "POST"; Path := "/mcp"; ReqHost := "localhost:9306"; RemoteAddr := "10.0.0.9:5"; LocalAddr := None;
                       Header := {[("Authorization" : gostr) := ["BEARER  s3cret" : gostr]]}; Query := ∅ |} = true.
Proof. vm_compute. reflexivity. Qed.

(** A valid origin that does not end in a slash is trusted. *)
Lemma valid_origin_trusted `{UrlLaws} (o : gostr) :
  validateOrigin o = None -> HasSuffix o "/" = false -> AddTrustedOrigin o = None.
Proof.
  unfold validateOrigin, AddTrustedOrigin. destruct (ContainsAny o "?#") eqn:Hq; [done|]. destruct (url_parse o) as [u|] eqn:Hu; [|done].
  destruct (url_plain o u Hu Hq) as (-> & -> & Hpath).
  destruct ((negb (Scheme u =?s "http") && _ || _) || _ || _) eqn:Hbad; [done|]. intros _ Hend.
  apply orb_false_iff in Hbad as [Hbad _]. apply orb_false_iff in Hbad as [Hbad Hp]. apply orb_false_iff in Hbad as [Hscheme Hhost].
  assert (Hs : is_empty (Scheme u) = false) by (apply is_empty_false; intros Hs; by rewrite Hs in Hscheme).
  assert (Hh : is_empty (Host u) = false).
  { apply is_empty_false. intros Hh. unfold Hostname in Hhost. by rewrite Hh in Hhost. }
  rewrite Hs, Hh. destruct (is_empty (GoNet.Path u)) eqn:He; [done|]. cbn in Hp. apply negb_false_iff, str_eqb_eq in Hp.
  apply is_empty_false in Hh. by rewrite Hpath in Hend.
Qed.

Lemma withMCPCORS_cases (allowed : list gostr) (r : request) (w : response) :
  (exists w', status w' = status w /\ body w' = body w /\ forall next, withMCPCORS allowed next r w = next r w') \/
  (Method r = "OPTIONS" /\ exists w', forall next, withMCPCORS allowed next r w = w').
Proof.
  unfold withMCPCORS. destruct allowed as [|o allowed]; [left; by exists w|].
  destruct (negb (one_of (header_get r "Origin") (cors_origins (o :: allowed))) || is_empty (header_get r "Origin"));
    [left; by exists w|].
  unfold is_options. destruct (Method r =?s "OPTIONS") eqn:Hm; cbn [andb]; [|left; eexists; split; [|split; [|intros next; reflexivity]]; reflexivity].
  destruct (negb (is_empty (header_get r "Access-Control-Request-Method"))); [|left; eexists; split; [|split; [|intros next; reflexivity]]; reflexivity].
  apply str_eqb_eq in Hm. right. split; [done | by eexists].
Qed.
