(* ===== verification/RateLimit.v ===== *)
(** internal/api/ratelimit.go: the token buckets of the HTTP listeners. *)
From Stdlib Require Import SpecFloat.
From S2P Require Import Prelude Unicode GoStrings GoNum GoNet Http.

(** Times are nanoseconds of a clock; [rate] is in tokens per second. *)
Record bucket := { tokens : float; lastUpdate : Z }.
Record RateLimiter := { buckets : gmap gostr bucket; rate : float; burst : Z }.

Definition cleanup : Z := duration 5 Minute.
Definition NewRateLimiter (r : float) (b : Z) : RateLimiter := {| buckets := ∅; rate := r; burst := b |}.
Definition put_bucket (ip : gostr) (b : bucket) (rl : RateLimiter) : RateLimiter :=
  {| buckets := <[ip := b]> (buckets rl); rate := rate rl; burst := burst rl |}.

Definition one : float := float_of_Z 1.

(** Allow at the time [now]. *)
Definition Allow (now : Z) (ip : gostr) (rl : RateLimiter) : RateLimiter * bool :=
  match buckets rl !! ip with
  | None => (put_bucket ip {| tokens := fsub (float_of_Z (burst rl)) one; lastUpdate := now |} rl, true)
  | Some b =>
      let elapsed := Seconds (time_sub now (lastUpdate b)) in
      let t := fadd (tokens b) (fmul elapsed (rate rl)) in
      let t := if fltb (float_of_Z (burst rl)) t then float_of_Z (burst rl) else t in
      if fleb one t then (put_bucket ip {| tokens := fsub t one; lastUpdate := now |} rl, true)
      else (put_bucket ip {| tokens := t; lastUpdate := now |} rl, false)
  end.

Definition cleanup_stale (now : Z) (rl : RateLimiter) : RateLimiter :=
  {| buckets := filter (fun ib => (now - cleanup <= lastUpdate (snd ib))%Z) (buckets rl); rate := rate rl; burst := burst rl |}.

Definition active_clients (rl : RateLimiter) : nat := size (buckets rl).

(** The client the X-Forwarded-For lines name: their last entry, when it is an address. *)
Definition last_entry (xff : gostr) : gostr :=
  TrimSpace match LastIndex xff "," with Some idx => drop (idx + 1) xff | None => xff end.
Definition xff_client (xff : gostr) : option gostr :=
  if negb (is_empty (TrimSpace xff)) then
    match ParseIP (last_entry xff) with Some _ => Some (last_entry xff) | None => None end
  else None.

(** [header_values] joins the lines of a repeated header in order. *)
Definition getClientIP (r : request) : gostr :=
  let remoteIPStr := TrimSpace (RemoteAddr r) in
  let remoteIP := match ParseIP remoteIPStr with
    | Some a => Some a
    | None => match SplitHostPort remoteIPStr with Some (host, _) => ParseIP host | None => None end
    end in
  let forwarded :=
    match remoteIP with
    | Some a =>
        if IsLoopback a then
          match xff_client (Join (header_values r "X-Forwarded-For") ",") with
          | Some last => Some last
          | None =>
              let xri := TrimSpace (header_get r "X-Real-Ip") in
              if negb (is_empty xri) then match ParseIP xri with Some _ => Some xri | None => None end else None
          end
        else None
    | None => None
    end in
  match forwarded with
  | Some s => s
  | None =>
      match remoteIP with
      | Some a => IP_String a
      | None => match SplitHostPort remoteIPStr with Some (host, _) => host | None => remoteIPStr end
      end
  end.

(** WithRateLimit: a limiter (none: no limit) and the wrapped handler. *)
Definition WithRateLimit (encode : payload -> gostr) (now : Z) (rl : option RateLimiter) (next : handler)
    (r : request) (w : response) : option RateLimiter * response :=
  match rl with
  | None => (None, next r w)
  | Some limiter =>
      if Method r =?s "OPTIONS" then (rl, next r w)
      else match Allow now (getClientIP r) limiter with
      | (limiter, true) => (Some limiter, next r w)
      | (limiter, false) => (Some limiter, WriteError encode 429 "rate limit exceeded" (set_header "Retry-After" "1" w))
      end
  end.

(** ** The client a request is charged to *)

(** The peer of a connection, when its address parses. *)
Definition peer (remote : gostr) : option ip :=
  match ParseIP (TrimSpace remote) with
  | Some a => Some a
  | None => match SplitHostPort (TrimSpace remote) with Some (host, _) => ParseIP host | None => None end
  end.

(** A client cannot choose its bucket.  Unless the direct peer is on the loopback
    interface, the request is charged to the peer's address, whatever X-Forwarded-For and
    X-Real-IP say; behind a local proxy, what precedes the last comma of X-Forwarded-For
    has no effect. *)
Theorem forwarded_headers_need_a_local_proxy (r r' : request)
    (Hremote : RemoteAddr r = RemoteAddr r')
    (Hheaders : match peer (RemoteAddr r) with
      | Some a => if IsLoopback a then
          exists spoofed spoofed' last, (","%char ∉ last) /\ ParseIP (TrimSpace last) <> None /\
            Join (header_values r "X-Forwarded-For") "," = spoofed ++ "," ++ last /\
            Join (header_values r' "X-Forwarded-For") "," = spoofed' ++ "," ++ last
          else True
      | None => True
      end) :
  getClientIP r = getClientIP r'.
Proof.
  unfold getClientIP. rewrite <- Hremote. fold (peer (RemoteAddr r)).
  destruct (peer (RemoteAddr r)) as [a|]; [|done]. destruct (IsLoopback a); [|done].
  destruct Hheaders as (s1 & s2 & last & Hcomma & Hlast & -> & ->).
  assert (Hsp : forall s, TrimSpace (s ++ "," ++ last) <> []).
  { intros s He. apply (not_elem_of_nil (","%char : ascii)). rewrite <- He.
    apply TrimSpace_keeps; [done | done |]. apply elem_of_app. right. left. }
  assert (Hcase : forall s, xff_client (s ++ "," ++ last) = Some (TrimSpace last)).
  { intros s. unfold xff_client, last_entry. change ("," : gostr) with [","%char]. rewrite LastIndex_byte by done.
    replace (drop (length s + 1) (s ++ [","%char] ++ last)) with last
      by (rewrite drop_app_ge by lia; by replace (length s + 1 - length s) with 1 by lia).
    destruct (ParseIP (TrimSpace last)); [|done].
    destruct (is_empty (TrimSpace (s ++ [","%char] ++ last))) eqn:He; [|done].
    apply is_empty_true in He. by apply (Hsp s) in He. }
  by rewrite !Hcase.
Qed.

Definition example_request (remote : gostr) (xff : list gostr) : request :=
  {| Method := "GET"; Path := "/api/ping"; ReqHost := "localhost"; RemoteAddr := remote; LocalAddr := None;
     Header := {[("X-Forwarded-For" : gostr) := xff]}; Query := ∅ |}.

Lemma forwarded_headers_need_a_local_proxy_witness :
  getClientIP (example_request "127.0.0.1:4000" ["6.6.6.6"; "10.1.2.3"]) = "10.1.2.3" /\
  getClientIP (example_request "127.0.0.1:4000" ["6.6.6.6"; "10.1.2.3"]) =
    getClientIP (example_request "127.0.0.1:4000" ["7.7.7.7, 8.8.8.8,10.1.2.3"]).
Proof.
  split; [vm_compute; reflexivity|].
  apply (forwarded_headers_need_a_local_proxy (example_request "127.0.0.1:4000" ["6.6.6.6"; "10.1.2.3"])
           (example_request "127.0.0.1:4000" ["7.7.7.7, 8.8.8.8,10.1.2.3"]) eq_refl).
  change (exists spoofed spoofed' last : gostr, (","%char ∉ last) /\ ParseIP (TrimSpace last) <> None /\
    ("6.6.6.6,10.1.2.3" : gostr) = spoofed ++ "," ++ last /\
    ("7.7.7.7, 8.8.8.8,10.1.2.3" : gostr) = spoofed' ++ "," ++ last).
  exists "6.6.6.6", "7.7.7.7, 8.8.8.8", "10.1.2.3".
  split; [apply (bool_decide_unpack _); vm_compute; exact I|].
  split; [vm_compute; discriminate | split; vm_compute; reflexivity].
Defined.

(** ** What a client is granted *)

(** Requests of the clients [ips], all at the time [now]; the answers, in order. *)
Fixpoint serve (now : Z) (ips : list gostr) (rl : RateLimiter) : RateLimiter * list (gostr * bool) :=
  match ips with
  | [] => (rl, [])
  | ip :: ips =>
      let '(rl1, ok) := Allow now ip rl in
      let '(rl2, answers) := serve now ips rl1 in (rl2, (ip, ok) :: answers)
  end.

Definition granted (ip : gostr) (answers : list (gostr * bool)) : nat := length (filter (fun a => a = (ip, true)) answers).
Definition requested (ip : gostr) (ips : list gostr) : nat := length (filter (fun i => i = ip) ips).

Definition is_number (f : float) : bool := match f with S754_zero _ | S754_finite _ _ _ => true | _ => false end.

(** The tokens [ip] has left at [now]: a client without a bucket has all of them. *)
Definition credit (rl : RateLimiter) (now : Z) (ip : gostr) (k : Z) : Prop :=
  match buckets rl !! ip with
  | None => k = burst rl
  | Some b => b = {| tokens := float_of_Z k; lastUpdate := now |}
  end.

(** No time, no refill. *)
Lemma refill_now (k : Z) (now : Z) (r : float) :
  (0 <= k < 2 ^ 53)%Z -> is_number r = true ->
  fadd (float_of_Z k) (fmul (Seconds (time_sub now now)) r) = float_of_Z k.
Proof.
  intros Hk Hr. unfold time_sub. rewrite Z.sub_diag. change (Seconds (- maxInt64 - 1 `max` (maxInt64 `min` 0))) with (S754_zero false).
  destruct r as [s| | |s m e]; try done.
  all: destruct k as [|p|p]; [by destruct s | | lia].
  all: destruct (float_of_pos_log p ltac:(lia)) as (_ & n & -> & _); done.
Qed.

Lemma Allow_now (now : Z) (ip : gostr) (rl : RateLimiter) (k : Z) :
  (1 <= burst rl < 2 ^ 53)%Z -> is_number (rate rl) = true -> (0 <= k <= burst rl)%Z -> credit rl now ip k ->
  credit (Allow now ip rl).1 now ip (if (1 <=? k)%Z then k - 1 else k) /\ (Allow now ip rl).2 = (1 <=? k)%Z.
Proof.
  intros Hb Hr Hk. unfold credit, Allow. destruct (buckets rl !! ip) as [b|] eqn:E.
  - intros ->. simpl tokens. simpl lastUpdate. rewrite refill_now by (lia || done).
    rewrite fltb_of_Z by lia. destruct (Z.ltb_spec (burst rl) k); [lia|].
    unfold one. rewrite fleb_of_Z by lia. destruct (Z.leb_spec 1 k); simpl; rewrite lookup_insert_eq; [|done].
    by rewrite fsub_one by lia.
  - intros ->. destruct (Z.leb_spec 1 (burst rl)); [|lia]. simpl. rewrite lookup_insert_eq.
    unfold one. by rewrite fsub_one by lia.
Qed.

Lemma Allow_other (now : Z) (ip other : gostr) (rl : RateLimiter) :
  ip <> other -> buckets (Allow now other rl).1 !! ip = buckets rl !! ip.
Proof.
  intros Hne. unfold Allow. repeat case_match; simpl; by rewrite lookup_insert_ne.
Qed.

Lemma Allow_config (now : Z) (ip : gostr) (rl : RateLimiter) :
  rate (Allow now ip rl).1 = rate rl /\ burst (Allow now ip rl).1 = burst rl.
Proof. unfold Allow. by repeat case_match. Qed.

Lemma serve_credit (now : Z) (ip : gostr) (ips : list gostr) (rl : RateLimiter) (k : Z) :
  (1 <= burst rl < 2 ^ 53)%Z -> is_number (rate rl) = true -> (0 <= k <= burst rl)%Z -> credit rl now ip k ->
  granted ip (serve now ips rl).2 = Nat.min (Z.to_nat k) (requested ip ips).
Proof.
  revert rl k. induction ips as [|i ips IH]; intros rl k Hb Hr Hk Hc; [simpl; unfold granted, requested; simpl; lia|].
  simpl. destruct (Allow now i rl) as [rl1 ok] eqn:E. destruct (serve now ips rl1) as [rl2 answers] eqn:E2.
  destruct (Allow_config now i rl) as [Hrate Hburst]. rewrite E in Hrate, Hburst. simpl in Hrate, Hburst.
  simpl. unfold granted, requested in *. rewrite !filter_cons. destruct (decide (i = ip)) as [->|Hne].
  - destruct (Allow_now now ip rl k Hb Hr Hk Hc) as [Hc' Hok]. rewrite E in Hc', Hok. simpl in Hc', Hok. subst ok.
    destruct (Z.leb_spec 1 k) as [Hle|Hle].
    + rewrite decide_True by done. specialize (IH rl1 (k - 1)%Z). rewrite E2, Hrate, Hburst in IH. simpl in IH.
      simpl. rewrite IH by (lia || done). lia.
    + rewrite decide_False by congruence. specialize (IH rl1 k). rewrite E2, Hrate, Hburst in IH. simpl in IH.
      rewrite IH by (lia || done). lia.
  - rewrite decide_False by congruence. specialize (IH rl1 k). rewrite E2, Hrate, Hburst in IH. simpl in IH.
    apply IH; [done | done | done |]. unfold credit in *.
    pose proof (Allow_other now ip i rl ltac:(congruence)) as Ho. rewrite E in Ho. simpl in Ho. by rewrite Ho, Hburst.
Qed.

(** C40: The burst is exact, and each client has its own.  Of any sequence of requests that
    arrive at a fresh limiter in one instant, the client [ip] gets the first [burst] of its
    own granted and the rest refused, whatever the other clients send; the tokens are
    float64s, and exact. *)
Theorem burst_is_exact_per_client (r : float) (b now : Z) (ips : list gostr) (ip : gostr)
    (Hburst : (1 <= b < 2 ^ 53)%Z) (Hrate : is_number r = true) :
  granted ip (serve now ips (NewRateLimiter r b)).2 = Nat.min (Z.to_nat b) (requested ip ips).
Proof. by apply serve_credit; simpl; [| | lia |]. Qed.

Lemma burst_is_exact_per_client_witness :
  granted "10.0.0.9" (serve 7 ["10.0.0.9"; "10.0.0.1"; "10.0.0.9"; "10.0.0.9"] (NewRateLimiter (float_of_Z 10) 2)).2 = 2.
Proof. apply (burst_is_exact_per_client (float_of_Z 10) 2 7); [lia | reflexivity]. Defined.
