(* ===== verification/Listener.v ===== *)
(** cmd/mysql-mcp-server/mcp_http.go and serve.go: the listener of the MCP HTTP transport,
    its routes, the deadline on request bodies, and how an HTTP server is shut down; and the
    addresses and timeouts of the three servers (with those of http.go). *)
From S2P Require Import Prelude Unicode GoStrings GoNum GoNet Config Http RateLimit.

(** A mux of literal patterns without a trailing slash: they are matched whole. *)
Definition mux_ServeHTTP (routes : list (gostr * handler)) : handler := clean_first (fun r w =>
  match List.find (fun ph => fst ph =?s Path r) routes with
  | Some (_, h) => h r w
  | None => http_Error "404 page not found" 404 w
  end).

(** ** The listener of the MCP transport *)
Section Listener.
Context `{UrlParse}.
Variable encode : payload -> gostr.
(** The Host as %q writes it. *)
Variable quoted : gostr -> gostr.
Variables (healthStatus snapshot : gostr) (httpStatusPage : handler).

Definition mcpHTTPHealth : handler := fun _ => WriteJSONNoCORS encode 200 (SuccessPayload healthStatus).
Definition mcpHTTPMetricsTokens : handler := fun _ => WriteJSONNoCORS encode 200 (SuccessPayload snapshot).

Definition mcp_endpoint (c : Config) (mcpHandler : handler) : handler :=
  withMCPCORS (MCPHTTPAllowedOrigins c) (requireBearerToken (MCPHTTPToken c) (cop_Handler (MCPHTTPAllowedOrigins c) mcpHandler)).
Definition mcp_routes (c : Config) (tokenCardEnabled : bool) (mcpHandler : handler) : list (gostr * handler) :=
  [(MCPHTTPPath c, mcp_endpoint c mcpHandler);
   ("/health" : gostr, withMCPCORS (MCPHTTPAllowedOrigins c) mcpHTTPHealth);
   ("/api/metrics/tokens" : gostr,
      withMCPCORS (MCPHTTPAllowedOrigins c) (requireBearerToken (MCPHTTPToken c) mcpHTTPMetricsTokens))] ++
  (if tokenCardEnabled && is_empty (MCPHTTPToken c) then [("/status" : gostr, httpStatusPage)] else []).

Fixpoint trusted_origins_error (origins : list gostr) : option (gostr * origin_error) :=
  match origins with
  | [] => None
  | o :: origins => match AddTrustedOrigin o with Some e => Some (o, e) | None => trusted_origins_error origins end
  end.

(** The handler, from the rate limit inwards; withBodyReadDeadline, outside of it, only acts
    on the connection (see below).  [mcpHandler] is the SDK's handler of the server. *)
Definition newMCPHTTPHandler (c : Config) (tokenCardEnabled : bool) (mcpHandler : handler)
    : result (gostr * origin_error) (Z -> option RateLimiter -> request -> response -> option RateLimiter * response) :=
  match trusted_origins_error (MCPHTTPAllowedOrigins c) with
  | Some e => Err e
  | None =>
      let mux := mux_ServeHTTP (mcp_routes c tokenCardEnabled mcpHandler) in
      let handler r w := fst (WithLogging (withAllowedHosts quoted (MCPHTTPAllowedHosts c) mux) r w) in
      Ok (fun now rl r w => WithRateLimit encode now rl handler r w)
  end.
End Listener.

(** *** Registration

    A pattern that starts with a slash and has no braces, blanks or percent signs is taken as
    it is; [mux.Handle] panics when the same one is registered again, and two different ones
    never conflict. *)
Definition literal_pattern (p : gostr) : bool := HasPrefix p "/" && negb (ContainsAny p ("{}% " ++ [ch_tab])).
Definition registrable (routes : list (gostr * handler)) : Prop :=
  Forall (fun ph => literal_pattern (fst ph) = true) routes /\ NoDup (map fst routes).

(** *** The servers: the address, the timeouts (0 is none), and the limiter *)
Record http_server := {
  srv_Addr : gostr; srv_ReadHeaderTimeout : Z; srv_ReadTimeout : Z; srv_WriteTimeout : Z; srv_IdleTimeout : Z
}.
(** newMCPHTTPServer *)
Definition mcp_server (c : Config) : http_server :=
  {| srv_Addr := JoinHostPort (MCPHTTPBind c) (Itoa (HTTPPort c)); srv_ReadHeaderTimeout := duration 10 Second;
     srv_ReadTimeout := 0; srv_WriteTimeout := 0; srv_IdleTimeout := duration 120 Second |}.
(** startHTTPServer *)
Definition rest_server (c : Config) (port : Z) : http_server :=
  {| srv_Addr := ":" ++ Itoa port; srv_ReadHeaderTimeout := 0; srv_ReadTimeout := duration 30 Second;
     srv_WriteTimeout := wrap64 (HTTPRequestTimeout c + duration 5 Second); srv_IdleTimeout := duration 120 Second |}.
(** startTokenMetricsHTTPServer *)
Definition metrics_server (port : Z) : http_server :=
  {| srv_Addr := ":" ++ Itoa port; srv_ReadHeaderTimeout := 0; srv_ReadTimeout := duration 15 Second;
     srv_WriteTimeout := duration 15 Second; srv_IdleTimeout := 0 |}.
Definition new_limiter (c : Config) : option RateLimiter :=
  if RateLimitEnabled c then Some (NewRateLimiter (RateLimitRPS c) (RateLimitBurst c)) else None.

(** ** The deadline on request bodies

    What a client does next: the next bytes arrive at a time, with the end of the body or
    not; or the connection breaks; or nothing arrives any more. *)
Inductive chunk := Arrives (at_ : Z) (eof : bool) | Breaks (at_ : Z).
Inductive read_outcome := ReadMore | ReadEOF | ReadError | ReadTimeout.

(** A blocking read at a time, under the connection's read deadline: when it returns and
    with what; [None]: it blocks forever. *)
Definition conn_Read (deadline : option Z) (now : Z) (next : option chunk) : option (Z * read_outcome) :=
  let arrival := match next with Some (Arrives t _) | Some (Breaks t) => Some (Z.max now t) | None => None end in
  let outcome := match next with Some (Arrives _ true) => ReadEOF | Some (Breaks _) => ReadError | _ => ReadMore end in
  match deadline, arrival with
  | None, None => None
  | None, Some t => Some (t, outcome)
  | Some d, None => Some (Z.max now d, ReadTimeout)
  | Some d, Some t => if (t <? d)%Z then Some (t, outcome) else Some (Z.max now d, ReadTimeout)
  end.

(** deadlineBody: the connection's read deadline and the [sync.Once] of [clear]. *)
Record deadlineBody := { read_deadline : option Z; cleared : bool }.
Definition clear (b : deadlineBody) : deadlineBody :=
  if cleared b then b else {| read_deadline := None; cleared := true |}.
Definition deadlineBody_Read (now : Z) (next : option chunk) (b : deadlineBody) : option (Z * read_outcome * deadlineBody) :=
  match conn_Read (read_deadline b) now next with
  | None => None
  | Some (t, ReadEOF) => Some (t, ReadEOF, clear b)
  | Some (t, r) => Some (t, r, b)
  end.

Definition mcpHTTPBodyReadTimeout : Z := duration 30 Second.
(** A request of which the body is read: with the deadline set, or left alone when the
    request has none or the writer does not support deadlines. *)
Definition withBodyReadDeadline (timeout now : Z) (has_body supported : bool) : option deadlineBody :=
  if negb has_body then None
  else if negb supported then None
  else Some {| read_deadline := Some (wrap64 (now + timeout)); cleared := false |}.

(** A handler that reads the body to its end, or net/http that discards the rest of it:
    reads until one is not [ReadMore]. *)
Fixpoint read_all (now : Z) (chunks : list chunk) (b : deadlineBody) : option (Z * read_outcome * deadlineBody) :=
  match chunks with
  | [] => deadlineBody_Read now None b
  | c :: chunks =>
      match deadlineBody_Read now (Some c) b with
      | Some (t, ReadMore, b) => read_all t chunks b
      | r => r
      end
  end.

(** ** Shutting a server down

    A connection that is open when the shutdown starts: when its handler returns by itself,
    and how long after the cancellation of the request's context it returns; [None]: never. *)
Record live_conn := { finishes : option Z; after_cancel : option Z }.

Definition earliest (a b : option Z) : option Z :=
  match a, b with Some x, Some y => Some (Z.min x y) | Some x, None => Some x | None, _ => b end.
(** When a connection ends, with the times at which the base context is cancelled and at
    which every connection is closed. *)
Definition conn_end (cancel_at close_at : option Z) (c : live_conn) : option Z :=
  let cancelled :=
    match cancel_at, after_cancel c with Some t, Some d => Some (t + d)%Z | _, _ => None end in
  earliest (finishes c) (earliest cancelled close_at).

Definition mcpHTTPShutdownGrace : Z := duration 5 Second.
Definition mcpHTTPShutdownForce : Z := duration 1 Second.
Definition httpShutdownTimeout : Z := duration 30 Second.

(** The functions that newMCPHTTPServer registers for the shutdown: the times they act at.
    The REST server registers none. *)
Record shutdown_timers := { cancel_base : option Z; close_server : option Z }.
Definition mcp_timers (stop : Z) : shutdown_timers :=
  {| cancel_base := Some (stop + mcpHTTPShutdownGrace)%Z;
     close_server := Some (stop + mcpHTTPShutdownGrace + mcpHTTPShutdownForce)%Z |}.
Definition rest_timers : shutdown_timers := {| cancel_base := None; close_server := None |}.

(** [srv.Shutdown]: it polls until no connection is left, noticing it [poll] later, or gives
    up when its context ends; the time it returns at, and whether without an error. *)
Fixpoint last_end (stop : Z) (ends : list (option Z)) : option Z :=
  match ends with
  | [] => Some stop
  | None :: _ => None
  | Some t :: ends => match last_end stop ends with Some u => Some (Z.max t u) | None => None end
  end.
Definition Shutdown (stop timeout poll : Z) (timers : shutdown_timers) (conns : list live_conn) : Z * bool :=
  match last_end stop (map (conn_end (cancel_base timers) (close_server timers)) conns) with
  | Some t => if (t + poll <? stop + timeout)%Z then (t + poll, true)%Z else (stop + timeout, false)%Z
  | None => (stop + timeout, false)%Z
  end.

(** serveUntil: what the select sees first, and what is returned and when. *)
Inductive serve_event := ServeReturned (closed : bool) (err : gostr) | StopSignal (at_ : Z).
Definition serveUntil (timers : Z -> shutdown_timers) (poll : Z) (conns : list live_conn) (ev : serve_event)
    : option gostr * option (Z * bool) :=
  match ev with
  | ServeReturned true _ => (None, None)
  | ServeReturned false err => (Some ("HTTP server error: " ++ err), None)
  | StopSignal stop => (None, Some (Shutdown stop httpShutdownTimeout poll (timers stop) conns))
  end.

(** ** The body deadline bounds every read *)
Definition armed (d : Z) (b : deadlineBody) : Prop := b = {| read_deadline := Some d; cleared := false |}.

Lemma read_all_armed d chunks now b : armed d b ->
  exists t r b', read_all now chunks b = Some (t, r, b') /\ (now <= t <= Z.max now d)%Z /\
    ((r = ReadEOF /\ read_deadline b' = None /\ (t < d)%Z) \/ (r <> ReadEOF /\ armed d b')).
Proof.
  intros ->. revert now. induction chunks as [|c chunks IH]; intros now; cbn [read_all]; unfold deadlineBody_Read, conn_Read; cbn.
  - eexists _, _, _. split; [done|]. split; [lia|]. by right.
  - destruct c as [t [|]|t]; cbn; destruct (Z.ltb_spec (Z.max now t) d).
    + eexists _, _, _. split; [done|]. split; [lia|]. left. split; [done|]. split; [done | lia].
    + eexists _, _, _. split; [done|]. split; [lia|]. by right.
    + destruct (IH (Z.max now t)) as (t' & r & b' & Hr & Ht & Hcase). rewrite Hr. exists t', r, b'. split; [done|]. split; [lia | done].
    + eexists _, _, _. split; [done|]. split; [lia|]. by right.
    + eexists _, _, _. split; [done|]. split; [lia|]. by right.
    + eexists _, _, _. split; [done|]. split; [lia|]. by right.
Qed.

(** ** Every connection of the MCP server ends *)
Lemma mcp_conn_end stop c : exists t, conn_end (cancel_base (mcp_timers stop)) (close_server (mcp_timers stop)) c = Some t /\
  (t <= stop + mcpHTTPShutdownGrace + mcpHTTPShutdownForce)%Z /\
  forall u, finishes c = Some u -> (u <= stop + mcpHTTPShutdownGrace)%Z -> (forall d, after_cancel c = Some d -> 0 <= d)%Z -> t = u.
Proof.
  unfold conn_end, mcp_timers. cbn [cancel_base close_server].
  assert (Hf : (0 <= mcpHTTPShutdownForce)%Z) by (vm_compute; done).
  destruct (after_cancel c) as [d|], (finishes c) as [f|]; cbn [earliest]; (eexists; split; [done|]; split; [lia|]);
    intros u [= <-] Hu Hd; try specialize (Hd d eq_refl); lia.
Qed.

Lemma last_end_le stop bound ends : (stop <= bound)%Z -> (forall e, e ∈ ends -> exists t, e = Some t /\ (t <= bound)%Z) ->
  exists t, last_end stop ends = Some t /\ (stop <= t <= bound)%Z.
Proof.
  intros Hs. induction ends as [|e ends IH]; intros He; cbn; [exists stop; split; [done | lia]|].
  destruct (He e (list_elem_of_here _ _)) as (t & -> & Ht). destruct IH as (u & -> & Hu).
  { intros e Hin. apply He. by apply list_elem_of_further. }
  eexists. split; [done | lia].
Qed.

(** C36: clients cannot hold the server.  A request body is read within the read timeout, or
    at once when that has passed, whatever the client sends and when: at its end the
    connection's deadline is taken away, so that a long answer is not cut off, and on any
    other outcome it stays, so that what net/http then discards of the body ends by the same
    time.  After a stop signal, the MCP server is down within the grace and the force period
    (and the poll that notices it), without an error, although event streams never end by
    themselves; a request that finishes within the grace period is not cut off.  The REST
    server gives up after its shutdown timeout at the latest. *)
Theorem clients_cannot_hold_the_server timeout now b (Hb : withBodyReadDeadline timeout now true true = Some b) :
  (forall start chunks, exists t r b',
     read_all start chunks b = Some (t, r, b') /\ (start <= t <= Z.max start (wrap64 (now + timeout)))%Z /\
     (r = ReadEOF -> read_deadline b' = None) /\
     (r <> ReadEOF -> forall start' rest, exists t' r' b'',
        read_all start' rest b' = Some (t', r', b'') /\ (t' <= Z.max start' (wrap64 (now + timeout)))%Z)) /\
  forall stop poll conns, (0 <= poll <= duration 1 Second)%Z ->
    (exists t, serveUntil mcp_timers poll conns (StopSignal stop) = (None, Some (t, true)) /\
       (t <= stop + mcpHTTPShutdownGrace + mcpHTTPShutdownForce + poll)%Z) /\
    (forall c, c ∈ conns -> exists t,
       conn_end (cancel_base (mcp_timers stop)) (close_server (mcp_timers stop)) c = Some t /\
       (t <= stop + mcpHTTPShutdownGrace + mcpHTTPShutdownForce)%Z /\
       forall u, finishes c = Some u -> (u <= stop + mcpHTTPShutdownGrace)%Z ->
         (forall d, after_cancel c = Some d -> 0 <= d)%Z -> t = u) /\
    exists t graceful, serveUntil (fun _ => rest_timers) poll conns (StopSignal stop) = (None, Some (t, graceful)) /\
      (t <= stop + httpShutdownTimeout)%Z.
Proof.
  split.
  - intros start chunks. injection Hb as <-. destruct (read_all_armed (wrap64 (now + timeout)) chunks start _ eq_refl) as (t & r & b' & Hr & Ht & Hcase).
    exists t, r, b'. split; [done|]. split; [done|]. split; [intros ->; by destruct Hcase as [(_ & ? & _)|[? _]]|].
    intros Hne start' rest. destruct Hcase as [[? _]|[_ Harmed]]; [done|].
    destruct (read_all_armed _ rest start' _ Harmed) as (t' & r' & b'' & Hr' & Ht' & _). exists t', r', b''. split; [done | lia].
  - intros stop poll conns Hpoll. assert (Hk : (mcpHTTPShutdownGrace + mcpHTTPShutdownForce + duration 1 Second < httpShutdownTimeout)%Z)
      by (vm_compute; done).
    assert (H0 : (0 <= mcpHTTPShutdownGrace /\ 0 <= mcpHTTPShutdownForce)%Z) by (vm_compute; done).
    split; [|split; [intros c _; apply mcp_conn_end|]].
    + cbn. unfold Shutdown.
      destruct (last_end_le stop (stop + mcpHTTPShutdownGrace + mcpHTTPShutdownForce)
        (map (conn_end (cancel_base (mcp_timers stop)) (close_server (mcp_timers stop))) conns)) as (t & -> & Ht); [lia| |].
      { intros e (c & -> & _)%list_elem_of_fmap. destruct (mcp_conn_end stop c) as (t & Ht & Hle & _). by exists t. }
      destruct (Z.ltb_spec (t + poll) (stop + httpShutdownTimeout)); [|lia]. eexists. split; [done | lia].
    + cbn. unfold Shutdown. destruct (last_end _ _) as [t|]; [|exists (stop + httpShutdownTimeout)%Z, false; split; [done | lia]].
      destruct (Z.ltb_spec (t + poll) (stop + httpShutdownTimeout)); (eexists _, _; split; [done | lia]).
Qed.

(** A client that sends a part of the body and stalls, and one event stream that never ends. *)
Definition second : Z := duration 1 Second.
Lemma clients_cannot_hold_the_server_witness :
  let b := {| read_deadline := Some (30 * second)%Z; cleared := false |} in
  read_all 0 [Arrives second false] b = Some (30 * second, ReadTimeout, b)%Z /\
  (exists t r b', read_all 0 [Arrives second false; Arrives (2 * second) true] b = Some (t, r, b') /\ (t <= 30 * second)%Z) /\
  exists t, serveUntil mcp_timers 0 [{| finishes := None; after_cancel := None |}] (StopSignal 0) = (None, Some (t, true)) /\
    (t <= 6 * second)%Z.
Proof.
  intros b. assert (Hb : withBodyReadDeadline mcpHTTPBodyReadTimeout 0 true true = Some b) by (vm_compute; reflexivity).
  split; [vm_compute; reflexivity|].
  destruct (clients_cannot_hold_the_server mcpHTTPBodyReadTimeout 0 b Hb) as [Hbody Hstop]. split.
  - destruct (Hbody 0%Z [Arrives second false; Arrives (2 * second) true]) as (t & r & b' & Hr & Ht & _). exists t, r, b'.
    split; [exact Hr|]. apply Ht.
  - destruct (Hstop 0%Z 0%Z [{| finishes := None; after_cancel := None |}]) as [(t & Ht & Hle) _]; [vm_compute; done|].
    exists t. split; [exact Ht | exact Hle].
Defined.

(** ** What a request reaches *)
Section Guarded.
Context `{UrlParse}.
Variable encode : payload -> gostr.
Variable quoted : gostr -> gostr.
Variables (c : Config) (r : request).

(** The answer seen through the logger's writer. *)
Definition logged (w answer : response) : response :=
  {| headers := headers answer; status := status answer; body := body answer; codes := codes answer ++ codes w |}.
Definition token_accepted : Prop := MCPHTTPToken c = [] \/ token_ok (MCPHTTPToken c) r = true.
(** Only headers were written. *)
Definition untouched (w w' : response) : Prop := status w' = status w /\ body w' = body w.

Lemma bearer_cases (w : response) :
  (token_accepted /\ forall next, requireBearerToken (MCPHTTPToken c) next r w = next r w) \/
  (exists w', forall next, requireBearerToken (MCPHTTPToken c) next r w = w').
Proof.
  unfold requireBearerToken, token_accepted. destruct (is_empty (MCPHTTPToken c)) eqn:He; [apply is_empty_true in He; left; auto|].
  destruct (token_ok (MCPHTTPToken c) r); cbn [negb]; [left; auto | right; by eexists].
Qed.

(** CORS and the token check in front of a handler. *)
Lemma cors_bearer_cases (w : response) :
  (exists w', untouched w w' /\ token_accepted /\
     forall next, withMCPCORS (MCPHTTPAllowedOrigins c) (requireBearerToken (MCPHTTPToken c) next) r w = next r w') \/
  (exists w', forall next, withMCPCORS (MCPHTTPAllowedOrigins c) (requireBearerToken (MCPHTTPToken c) next) r w = w').
Proof.
  destruct (withMCPCORS_cases (MCPHTTPAllowedOrigins c) r w) as [(w1 & Hs & Hb & Hcors)|(_ & w1 & Hcors)];
    [|right; exists w1; intros next; apply Hcors].
  destruct (bearer_cases w1) as [[Htok Hnext]|[w2 Hw2]].
  - left. exists w1. split; [by split|]. split; [done|]. intros next. by rewrite Hcors, Hnext.
  - right. exists w2. intros next. by rewrite Hcors, Hw2.
Qed.
Lemma endpoint_cases (w : response) :
  (exists w', untouched w w' /\ token_accepted /\ cross_origin_ok (MCPHTTPAllowedOrigins c) r = true /\
     forall h, mcp_endpoint c h r w = h r w') \/
  (exists w', forall h, mcp_endpoint c h r w = w').
Proof.
  unfold mcp_endpoint. destruct (cors_bearer_cases w) as [(w1 & Hw & Htok & Hnext)|(w1 & Hnext)];
    [|right; exists w1; intros h; apply Hnext].
  unfold cop_Handler in *. destruct (cross_origin_ok (MCPHTTPAllowedOrigins c) r) eqn:Hcop.
  - left. exists w1. repeat split; try done; try apply Hw. intros h. by rewrite Hnext, Hcop.
  - right. eexists. intros h. by rewrite Hnext, Hcop.
Qed.

(** The routes: what may decide the answer to the request. *)
Inductive reached (w : response) (serve : handler -> gostr -> handler -> response) (card : bool) : Prop :=
| reached_mcp w' : Path r = MCPHTTPPath c -> untouched w w' -> token_accepted ->
    cross_origin_ok (MCPHTTPAllowedOrigins c) r = true -> (forall h snap page, serve h snap page = h r w') -> reached w serve card
| reached_metrics w' : Path r = "/api/metrics/tokens" -> untouched w w' -> token_accepted ->
    (forall h snap page, serve h snap page = WriteJSONNoCORS encode 200 (SuccessPayload snap) w') -> reached w serve card
| reached_status : Path r = "/status" -> MCPHTTPToken c = [] -> card = true ->
    (forall h snap page, serve h snap page = page r w) -> reached w serve card
| reached_nothing w' : (forall h snap page, serve h snap page = w') -> reached w serve card.

Lemma mux_cases health card w :
  MCPHTTPPath c ∉ reservedMCPHTTPPaths ->
  reached w (fun h snap page => mux_ServeHTTP (mcp_routes encode health snap page c card h) r w) card.
Proof.
  intros Hres. unfold mux_ServeHTTP, clean_first. destruct (path_is_clean r); [|by eapply reached_nothing].
  unfold mcp_routes. cbn [app List.find fst].
  destruct (MCPHTTPPath c =?s Path r) eqn:Hm.
  { apply str_eqb_eq in Hm. destruct (endpoint_cases w) as [(w' & Hw & Ht & Hc & Hh)|(w' & Hh)].
    - by eapply reached_mcp.
    - apply (reached_nothing _ _ _ w'). intros h snap page. apply Hh. }
  destruct (("/health" : gostr) =?s Path r); [by eapply reached_nothing|].
  destruct (("/api/metrics/tokens" : gostr) =?s Path r) eqn:Ht.
  { apply str_eqb_eq in Ht. destruct (cors_bearer_cases w) as [(w' & Hw & Htok & Hnext)|(w' & Hnext)].
    - by eapply reached_metrics.
    - apply (reached_nothing _ _ _ w'). intros h snap page. apply Hnext. }
  destruct (card && is_empty (MCPHTTPToken c)) eqn:Hs; cbn [List.find fst]; [|by eapply reached_nothing].
  apply andb_true_iff in Hs as [-> He%is_empty_true].
  destruct (("/status" : gostr) =?s Path r) eqn:Hp; [|by eapply reached_nothing].
  apply str_eqb_eq in Hp. by apply reached_status.
Qed.
End Guarded.

(** The routes of a validated configuration can be registered. *)
Lemma mcp_routes_registrable `{UrlParse} encode health snap page (c : Config) card h :
  mcp_path_ok (MCPHTTPPath c) -> registrable (mcp_routes encode health snap page c card h).
Proof.
  intros (Hslash & _ & _ & Hany & Hres). unfold registrable, mcp_routes. rewrite fmap_app.
  assert (Hlit : literal_pattern (MCPHTTPPath c) = true).
  { unfold literal_pattern. rewrite Hslash. apply negb_true_iff, ContainsAny_false. intros a Ha Hin.
    apply (proj1 (ContainsAny_false _ _) Hany a Ha). revert Hin. rewrite !elem_of_app, !elem_of_cons. tauto. }
  split.
  - repeat constructor; [done|]. destruct (_ && _); by repeat constructor.
  - cbn [map fst]. unfold reservedMCPHTTPPaths in Hres. rewrite !not_elem_of_cons in Hres. destruct Hres as (H1 & H2 & H3 & _).
    destruct (_ && _); cbn; repeat (apply NoDup_cons; split); try apply NoDup_nil_2; rewrite ?not_elem_of_cons; repeat split; try done;
      by apply not_elem_of_nil.
Qed.

(** C38: the MCP listener is guarded as a whole.  With a validated configuration and the
    origins accepted, whatever the request is and whatever the state of the limiter: the MCP
    handler is reached, with nothing but headers written, only on its path, within the rate
    limit, with an acceptable Host, with the bearer token (or none configured) and past the
    cross-origin check; the token metrics are shown only with the token; the status page only
    when no token is configured and the Token Card is enabled; every other answer (rate limit,
    Host, preflight, unauthorized, cross-origin, redirect, health, not found) depends on none
    of the three. *)
Theorem mcp_listener_is_guarded `{UrlParse} encode quoted health (c : Config) (card : bool)
    (Hc : mcp_http_ok c) (Hadd : forall o, o ∈ MCPHTTPAllowedOrigins c -> AddTrustedOrigin o = None) :
  exists serve : handler -> gostr -> handler -> Z -> option RateLimiter -> request -> response -> option RateLimiter * response,
    (forall h snap page, newMCPHTTPHandler encode quoted health snap page c card h = Ok (serve h snap page)) /\
    forall now rl r w,
      (exists answer : handler -> gostr -> handler -> response,
         (forall h snap page, snd (serve h snap page now rl r w) = logged w (answer h snap page)) /\
         host_ok (MCPHTTPAllowedHosts c) r = true /\
         (forall l, rl = Some l -> Method r = "OPTIONS" \/ snd (Allow now (getClientIP r) l) = true) /\
         reached encode c r {| headers := headers w; status := status w; body := body w; codes := [] |} answer card) \/
      exists w', forall h snap page, snd (serve h snap page now rl r w) = w'.
Proof.
  assert (Herr : trusted_origins_error (MCPHTTPAllowedOrigins c) = None).
  { revert Hadd. clear. induction (MCPHTTPAllowedOrigins c) as [|o os IH]; intros Hadd; cbn; [done|].
    rewrite (Hadd o) by apply list_elem_of_here. apply IH. intros o' Ho. apply Hadd. by apply list_elem_of_further. }
  exists (fun h snap page now rl r w => WithRateLimit encode now rl (fun r w => fst (WithLogging
    (withAllowedHosts quoted (MCPHTTPAllowedHosts c) (mux_ServeHTTP (mcp_routes encode health snap page c card h))) r w)) r w).
  split; [intros h snap page; unfold newMCPHTTPHandler; by rewrite Herr|]. intros now rl r w.
  assert (Hinner : (exists answer : handler -> gostr -> handler -> response,
       (forall h snap page, fst (WithLogging (withAllowedHosts quoted (MCPHTTPAllowedHosts c)
          (mux_ServeHTTP (mcp_routes encode health snap page c card h))) r w) = logged w (answer h snap page)) /\
       host_ok (MCPHTTPAllowedHosts c) r = true /\
       reached encode c r {| headers := headers w; status := status w; body := body w; codes := [] |} answer card) \/
     exists w', forall h snap page, fst (WithLogging (withAllowedHosts quoted (MCPHTTPAllowedHosts c)
          (mux_ServeHTTP (mcp_routes encode health snap page c card h))) r w) = w').
  { unfold WithLogging, withAllowedHosts. destruct (host_ok (MCPHTTPAllowedHosts c) r); [|right; by eexists]. left.
    exists (fun h snap page => mux_ServeHTTP (mcp_routes encode health snap page c card h) r
      {| headers := headers w; status := status w; body := body w; codes := [] |}).
    split; [done|]. split; [done|]. apply mux_cases. apply Hc. }
  unfold WithRateLimit. destruct rl as [l|].
  - destruct (Method r =?s "OPTIONS") eqn:Ho.
    + apply str_eqb_eq in Ho. destruct Hinner as [(answer & Ha & Hh & Hr)|Hn]; [left|right; exact Hn].
      exists answer. split; [exact Ha|]. split; [done|]. split; [by left | done].
    + destruct (Allow now (getClientIP r) l) as [l' []] eqn:Hl; cbn [snd]; [|right; by eexists].
      destruct Hinner as [(answer & Ha & Hh & Hr)|Hn]; [left|right; exact Hn].
      exists answer. split; [exact Ha|]. split; [done|]. split; [|done]. intros l0 [= <-]. right. by rewrite Hl.
  - destruct Hinner as [(answer & Ha & Hh & Hr)|Hn]; [left|right; exact Hn].
    exists answer. split; [exact Ha|]. by split.
Qed.

(** A listener with a token, and a request for the status page: 404, whatever the page. *)
Definition listener_cfg : Config :=
  config_with [] TransportHTTP "127.0.0.1" "/mcp" "s3cret" 0 ["https://app.example.com" : gostr] default_config.
Definition status_request : request :=
  {| Method := "GET"; Path := "/status"; ReqHost := "localhost:9306"; RemoteAddr := "127.0.0.1:5000"; LocalAddr := Some ("127.0.0.1:9306" : gostr);
     Header := ∅; Query := ∅ |}.
Definition no_response : response := {| headers := ∅; status := None; body := []; codes := [] |}.
Definition write_payload (p : payload) : gostr := match p with NilPayload => "null" | SuccessPayload d => d | ErrorPayload m => m end.

Lemma mcp_listener_is_guarded_witness :
  mcp_http_ok (H := plain_url) listener_cfg /\
  exists serve : handler -> gostr -> handler -> Z -> option RateLimiter -> request -> response -> option RateLimiter * response,
    (forall h snap page, newMCPHTTPHandler (H := plain_url) write_payload (fun s => s) "ok" snap page listener_cfg true h =
       Ok (serve h snap page)) /\
    forall h snap page, status (snd (serve h snap page 0%Z None status_request no_response)) = Some 404%Z.
Proof.
  assert (Hc : mcp_http_ok (H := plain_url) listener_cfg).
  { assert (Hv : ValidateTransport (H := plain_url) listener_cfg = None) by (vm_compute; reflexivity).
    apply ValidateTransport_None in Hv as [Hv|Hv]; [discriminate Hv | exact Hv]. }
  split; [exact Hc|].
  destruct (@mcp_listener_is_guarded plain_url write_payload (fun s => s) "ok" listener_cfg true Hc)
    as (serve & Hserve & _).
  { intros o Ho. apply elem_of_cons in Ho as [->|Ho]; [vm_compute; reflexivity | destruct (not_elem_of_nil _ Ho)]. }
  exists serve. split; [exact Hserve|]. intros h snap page. specialize (Hserve h snap page).
  unfold newMCPHTTPHandler in Hserve. change (trusted_origins_error (MCPHTTPAllowedOrigins listener_cfg)) with (@None (gostr * origin_error)) in Hserve.
  injection Hserve as <-. vm_compute. reflexivity.
Defined.
