(* ===== verification/Vector.v ===== *)
(** cmd/mysql-mcp-server/tools_extended.go: vector_search and vector_info. *)
From Stdlib Require Import SpecFloat.
From S2P Require Import Prelude Unicode GoStrings GoNum GoFmt Regex Identifiers SqlValidator SqlParser Config Access Labels Retry Sql Connection QueryTools Tools Catalog.

(** ** vector_search *)
Record VectorSearchInput := {
  vs_Database : gostr; vs_Table : gostr; vs_Column : gostr; vs_Query : list float; vs_Limit : Z;
  vs_Select : gostr; vs_Where : gostr; vs_DistanceFunc : gostr
}.
Record VectorSearchResult := { Distance : float; Data : gmap gostr value }.

Definition buildVectorString (vec : list float) : gostr := "[" ++ Join (map sprint_f vec) "," ++ "]".

Definition distance_function (name : gostr) : gostr :=
  let name := ToLower name in
  if one_of name (["euclidean"; "l2"] : list gostr) then "EUCLIDEAN"
  else if one_of name (["dot"; "inner_product"] : list gostr) then "DOT"
  else "COSINE".

Definition vector_statement (selectCols colName vectorStr distFunc dbName tableName : gostr) : gostr :=
  "
		SELECT " ++ selectCols ++ ", 
			DISTANCE(" ++ colName ++ ", STRING_TO_VECTOR('" ++ vectorStr ++ "'), '" ++ distFunc ++ "') AS _distance
		FROM " ++ dbName ++ "." ++ tableName ++ "
	".

(** A cell goes to the distance or to the data. *)
Definition add_cell (r : VectorSearchResult) (cv : gostr * value) : VectorSearchResult :=
  let '(col, v) := cv in
  if col =?s "_distance" then
    {| Distance := match v with VFloat64 dist => dist | _ => Distance r end; Data := Data r |}
  else {| Distance := Distance r; Data := <[col := NormalizeValue v]> (Data r) |}.
Definition vector_row (cols : list gostr) (values : list value) : VectorSearchResult :=
  fold_left add_cell (zip cols values) {| Distance := S754_zero false; Data := ∅ |}.
(** A row that does not scan is skipped; the error that ends the iteration is not asked for. *)
Definition vector_rows (rs : rowset) : list VectorSearchResult :=
  omap (fun row => match scan_any (length (rs_columns rs)) row with
                   | Ok values => Some (vector_row (rs_columns rs) values) | Err _ => None end) (rs_rows rs).

Section Vector.
Context `{SqlServer}.
Variable g : globals.

Definition vector_limit (limit : Z) : Z :=
  let limit := if (limit <=? 0)%Z then 10%Z else limit in
  if (g_maxRows g <? limit)%Z then g_maxRows g else limit.

(** Everything toolVectorSearch does before it asks for the database; the text of a failed
    validation of the SELECT list or of the WHERE clause is left out. *)
Definition vector_query (input : VectorSearchInput) : result tool_error gostr :=
  if is_empty (vs_Database input) || is_empty (vs_Table input) || is_empty (vs_Column input) then
    Err (Required "database, table, and column")
  else match requireAllowedDatabase (g_allowed g) (vs_Database input) with
  | Some e => Err (AccessDenied e)
  | None =>
      if length (vs_Query input) =? 0 then Err (Required "query vector")
      else match QuoteIdent (vs_Database input), QuoteIdent (vs_Table input), QuoteIdent (vs_Column input) with
      | Err e, _, _ => Err (InvalidName "database" e)
      | _, Err e, _ => Err (InvalidName "table" e)
      | _, _, Err e => Err (InvalidName "column" e)
      | Ok dbName, Ok tableName, Ok colName =>
          match (if negb (is_empty (vs_Select input)) then ValidateSelectColumns (vs_Select input) else Ok ("*" : gostr)) with
          | Err _ => Err (Invalid "invalid select columns")
          | Ok selectCols =>
              let query := vector_statement selectCols colName (buildVectorString (vs_Query input))
                             (distance_function (vs_DistanceFunc input)) dbName tableName in
              let order := " ORDER BY _distance ASC LIMIT " ++ Itoa (vector_limit (vs_Limit input)) in
              if negb (is_empty (vs_Where input)) then
                match ValidateWhereClause (vs_Where input) with
                | Some _ => Err (Invalid "invalid where clause")
                | None => Ok ((query ++ " WHERE " ++ vs_Where input) ++ order)
                end
              else Ok (query ++ order)
          end
      end
  end.

(** The hint in the error text about the MySQL version is left out. *)
Definition toolVectorSearch (db : dbh) (input : VectorSearchInput) (s : server)
    : server * result tool_error (list VectorSearchResult) :=
  match vector_query input with
  | Err e => (s, Err e)
  | Ok query =>
      match db_Query db query [] s with
      | (s, Err e) => (s, Err (Failed (Wrap "vector search failed" e)))
      | (s, Ok rs) => (s, Ok (vector_rows rs))
      end
  end.

(** ** vector_info *)
Record VectorColumnInfo := {
  vc_Table : gostr; vc_Column : gostr; vc_Dimensions : Z; vc_IndexName : gostr; vc_IndexType : gostr
}.
Record VectorInfoOutput := { vi_Columns : list VectorColumnInfo; VectorSupport : bool; MySQLVersion : gostr }.

Definition isVectorSupported (serverType : ServerType) (version : gostr) : bool :=
  match serverType with
  | ServerTypeMariaDB | ServerTypeUnknown => false
  | ServerTypeMySQL =>
      match Split version "."%char with
      | [] => false
      | part :: _ => match Atoi (TrimLeft part "0") with Some major => (9 <=? major)%Z | None => false end
      end
  end.

Definition vectorDimensionsRegex : re := MustCompile "vector\((\d+)\)".
(** Group 1 lies between two literals. *)
Definition vector_dimensions (colType : gostr) : Z :=
  match FindStringIndex vectorDimensionsRegex colType with
  | Some (i, j) => ParseInt_value (take (j - 1 - (i + 7)) (drop (i + 7) colType))
  | None => 0%Z
  end.

Definition vector_columns_sql : gostr :=
  "
		SELECT TABLE_NAME, COLUMN_NAME, COLUMN_TYPE
		FROM information_schema.COLUMNS 
		WHERE TABLE_SCHEMA = ? 
		AND COLUMN_TYPE LIKE 'vector%'
	".
Definition vector_index_sql : gostr :=
  "
			SELECT INDEX_NAME, INDEX_TYPE 
			FROM information_schema.STATISTICS 
			WHERE TABLE_SCHEMA = ? AND TABLE_NAME = ? AND COLUMN_NAME = ?
			ORDER BY INDEX_NAME LIMIT 1
		".

Definition index_of_column (ctx : callctx) (database tableName colName : gostr) (m : ConnectionManager) (s : server)
    : ConnectionManager * server * (gostr * gostr) :=
  let args := [VString database; VString tableName; VString colName] in
  match catalogRows ctx "vector_column_index" args vector_index_sql args m s with
  | (m, s, Ok rs) =>
      (m, s, match rs_rows rs with
             | [a; b] :: _ =>
                 match scan_null_string a, scan_null_string b with
                 | Ok a, Ok b => (null_str a, null_str b)
                 | Ok a, Err _ => (null_str a, [])
                 | Err _, _ => ([], [])
                 end
             | _ => ([], [])
             end)
  | (m, s, Err _) => (m, s, ([], []))
  end.
Definition scan_vector_column (row : list value) : result goerr (gostr * gostr * gostr) :=
  match row with
  | [a; b; c] => let? a := scan_string a in let? b := scan_string b in let? c := scan_string c in Ok (a, b, c)
  | _ => Err scan_arity
  end.
Fixpoint vector_columns (ctx : callctx) (database : gostr) (rows : list (list value)) (m : ConnectionManager) (s : server)
    : ConnectionManager * server * list VectorColumnInfo :=
  match rows with
  | [] => (m, s, [])
  | row :: rows =>
      match scan_vector_column row with
      | Err _ => vector_columns ctx database rows m s
      | Ok (tableName, colName, colType) =>
          let '(m, s, (indexName, indexType)) := index_of_column ctx database tableName colName m s in
          let '(m, s, rest) := vector_columns ctx database rows m s in
          (m, s, {| vc_Table := tableName; vc_Column := colName; vc_Dimensions := vector_dimensions colType;
                    vc_IndexName := indexName; vc_IndexType := indexType |} :: rest)
      end
  end.

Definition toolVectorInfo (ctx : callctx) (database table : gostr) (m : ConnectionManager) (s : server)
    : answer VectorInfoOutput :=
  if is_empty database then refuse m s (Required "database")
  else match requireAllowedDatabase (g_allowed g) database with
  | Some e => refuse m s (AccessDenied e)
  | None =>
      match QueryRow scan_string (getDB m ctx) "SELECT VERSION()" [] s with
      | (s, Err e) => refuse m s (Failed (Wrap "failed to get version" e))
      | (s, Ok version) =>
          let support := isVectorSupported (ServerTypeFor m ctx) version in
          if negb support then (m, s, Ok {| vi_Columns := []; VectorSupport := support; MySQLVersion := version |})
          else
            match catalogRows ctx "vector_columns" [VString database; nullIfEmpty table]
                    (of_table vector_columns_sql " ORDER BY TABLE_NAME, ORDINAL_POSITION" table)
                    (table_args database table) m s with
            | (m, s, Err e) => refuse m s (Failed (Wrap "failed to query vector columns" e))
            | (m, s, Ok rs) =>
                let '(m, s, cols) := vector_columns ctx database (rs_rows rs) m s in
                (m, s, Ok {| vi_Columns := cols; VectorSupport := support; MySQLVersion := version |})
            end
      end
  end.
End Vector.

Example vector_string_ex :
  buildVectorString [float_of_Z 1; fdiv (float_of_Z (-1)) (float_of_Z 4)] = "[1.000000,-0.250000]".
Proof. vm_compute. reflexivity. Qed.
Example vector_dimensions_ex : vector_dimensions "vector(768)" = 768%Z /\ vector_dimensions "vectors" = 0%Z.
Proof. vm_compute. done. Qed.
Example isVectorSupported_ex :
  isVectorSupported ServerTypeMySQL "9.1.0" = true /\ isVectorSupported ServerTypeMySQL "8.4.0" = false /\
  isVectorSupported ServerTypeMariaDB "11.4.2-MariaDB" = false.
Proof. vm_compute. done. Qed.

(** ** What vector_search sends *)

(** The bytes of a vector literal: no quote, no backslash, no space. *)
Definition vector_byte (c : ascii) : bool := f_byte c || in_set "[,]" c.

Lemma buildVectorString_bytes (vec : list float) : Forall (fun c => vector_byte c = true) (buildVectorString vec).
Proof.
  unfold buildVectorString. rewrite !list.Forall_app. split; [by repeat constructor|]. split; [|by repeat constructor].
  induction vec as [|f [|f' vec] IH]; [constructor| |].
  - cbn. eapply list.Forall_impl; [apply sprint_f_bytes|]. intros c Hc. unfold vector_byte. by rewrite Hc.
  - change (Join (map sprint_f (f :: f' :: vec)) ",") with (sprint_f f ++ "," ++ Join (map sprint_f (f' :: vec)) ",").
    rewrite !list.Forall_app. split; [|split; [by repeat constructor | done]].
    eapply list.Forall_impl; [apply sprint_f_bytes|]. intros c Hc. unfold vector_byte. by rewrite Hc.
Qed.

(** The SELECT list in use. *)
Lemma select_list_shape (sel out : gostr) :
  (if negb (is_empty sel) then ValidateSelectColumns sel else Ok ("*" : gostr)) = Ok out ->
  exists items, items <> [] /\ Forall column_item items /\ out = Join items ", ".
Proof.
  destruct (negb (is_empty sel)); [apply ValidateSelectColumns_shape|]. intros [= <-].
  exists ["*" : gostr]. split; [done|]. split; [repeat constructor | done].
Qed.

Lemma distance_function_cases (name : gostr) :
  distance_function name ∈ ["EUCLIDEAN" : gostr; "DOT" : gostr; "COSINE" : gostr].
Proof. unfold distance_function. repeat case_match; decide_true. Qed.

Lemma vector_limit_bounds (g : globals) (limit : Z) : (1 <= g_maxRows g)%Z ->
  (1 <= vector_limit g limit <= g_maxRows g)%Z.
Proof.
  intros Hmax. unfold vector_limit. destruct (Z.leb_spec limit 0);
    match goal with |- context [(?a <? ?b)%Z] => destruct (Z.ltb_spec a b) end; lia.
Qed.

(** The parts of the statement that depend on the caller. *)
Record vector_parts (g : globals) (input : VectorSearchInput) (q : gostr) (items : list gostr) (qd qt qc vec where_ : gostr)
    (n : Z) : Prop := {
  vp_text : q = vector_statement (Join items ", ") qc vec (distance_function (vs_DistanceFunc input)) qd qt ++ where_ ++
                  " ORDER BY _distance ASC LIMIT " ++ Itoa n;
  vp_allowed : requireAllowedDatabase (g_allowed g) (vs_Database input) = None;
  vp_names : QuoteIdent (vs_Database input) = Ok qd /\ QuoteIdent (vs_Table input) = Ok qt /\ QuoteIdent (vs_Column input) = Ok qc;
  vp_items : items <> [] /\ Forall column_item items;
  vp_vector : Forall (fun c => vector_byte c = true) vec;
  vp_where : where_ = [] \/ exists w, where_ = " WHERE " ++ w /\ ValidateWhereClause w = None;
  vp_limit : (1 <= n <= g_maxRows g)%Z
}.

Lemma vector_query_parts (g : globals) (input : VectorSearchInput) (q : gostr) :
  (1 <= g_maxRows g)%Z -> vector_query g input = Ok q ->
  exists items qd qt qc vec where_ n, vector_parts g input q items qd qt qc vec where_ n.
Proof.
  intros Hmax. unfold vector_query.
  destruct (is_empty (vs_Database input) || _ || _); [done|].
  destruct (requireAllowedDatabase _ _) eqn:Hdb; [done|]. destruct (length (vs_Query input) =? 0); [done|].
  destruct (QuoteIdent (vs_Database input)) as [qd|] eqn:Hqd; [|done].
  destruct (QuoteIdent (vs_Table input)) as [qt|] eqn:Hqt; [|done].
  destruct (QuoteIdent (vs_Column input)) as [qc|] eqn:Hqc; [|done].
  destruct (if negb (is_empty (vs_Select input)) then _ else _) as [sel|] eqn:Hsel; [|done].
  apply select_list_shape in Hsel as (items & Hitems & HF & ->).
  destruct (negb (is_empty (vs_Where input))).
  - destruct (ValidateWhereClause (vs_Where input)) eqn:Hw; [done|]. intros Hq.
    exists items, qd, qt, qc, (buildVectorString (vs_Query input)), (" WHERE " ++ vs_Where input), (vector_limit g (vs_Limit input)).
    constructor; try done.
    + apply Ok_inj in Hq. rewrite <- Hq. by rewrite <- !app_assoc.
    + apply buildVectorString_bytes.
    + right. by eexists.
    + by apply vector_limit_bounds.
  - intros Hq.
    exists items, qd, qt, qc, (buildVectorString (vs_Query input)), [], (vector_limit g (vs_Limit input)).
    constructor; try done.
    + apply Ok_inj in Hq. by rewrite <- Hq.
    + apply buildVectorString_bytes.
    + by left.
    + by apply vector_limit_bounds.
Qed.

(** vector_search sends at most one statement, and the caller shapes it only where it
    was checked: quoted names on an allowed database, a SELECT list of quoted column
    references, a vector literal without a quote, one of three distance names, a WHERE
    clause that passed the validator, and a limit between one and the row cap. *)
Theorem vector_search_statement_is_checked `{SqlServer} (g : globals) (db : dbh) (input : VectorSearchInput) (s : server)
    (Hmax : (1 <= g_maxRows g)%Z) :
  match vector_query g input with
  | Err e => toolVectorSearch g db input s = (s, Err e)
  | Ok q => fst (toolVectorSearch g db input s) = fst (db_Query db q [] s) /\
            distance_function (vs_DistanceFunc input) ∈ ["EUCLIDEAN" : gostr; "DOT" : gostr; "COSINE" : gostr] /\
            exists items qd qt qc vec where_ n, vector_parts g input q items qd qt qc vec where_ n
  end.
Proof.
  unfold toolVectorSearch. destruct (vector_query g input) as [q|e] eqn:Hq; [|done].
  split; [by destruct (db_Query db q [] s) as [? []]|]. split; [apply distance_function_cases | by apply vector_query_parts].
Qed.

Lemma vector_search_statement_is_checked_witness :
  let input := {| vs_Database := "shop"; vs_Table := "items"; vs_Column := "emb"; vs_Query := [float_of_Z 1]; vs_Limit := 99;
                  vs_Select := "id, name AS n"; vs_Where := "price < 10"; vs_DistanceFunc := "L2" |} in
  exists q, vector_query example_globals input = Ok q /\
    exists items qd qt qc vec where_ n, vector_parts example_globals input q items qd qt qc vec where_ n /\ (n <= 2)%Z.
Proof.
  intros input.
  pose proof (@vector_search_statement_is_checked log_server example_globals (Pool 0) input [] ltac:(vm_compute; discriminate)) as Hthm.
  destruct (vector_query example_globals input) as [q|e] eqn:Hq; [|by vm_compute in Hq].
  exists q. split; [done|]. destruct Hthm as (_ & _ & items & qd & qt & qc & vec & where_ & n & Hparts).
  exists items, qd, qt, qc, vec, where_, n. split; [done|]. exact (proj2 (vp_limit _ _ _ _ _ _ _ _ _ _ Hparts)).
Defined.
