(* ===== verification/Diagnostics.v ===== *)
(** cmd/mysql-mcp-server/tools_diagnostics.go: process_list, kill_query and slow_query_log. *)
From S2P Require Import Prelude Unicode GoStrings GoNum Identifiers SqlParser Config Access Labels Retry Sql Connection QueryTools Tools Catalog SchemaTools.

Definition maxProcessList : nat := 200.
Definition maxInfoRunes : Z := 4000.

Definition ellipsis : rune := 8230%Z.
Definition truncateRunes (s : gostr) (maxRunes : Z) : gostr :=
  if (maxRunes <=? 0)%Z then s
  else
    let rs := runes s in
    if (Z.of_nat (length rs) <=? maxRunes)%Z then s
    else concat (map encode_rune (take (Z.to_nat maxRunes) rs)) ++ "…".

(** ** process_list *)
Record ProcessRow := {
  p_id : Z; p_user : gostr; p_host : gostr; p_db : gostr; p_command : gostr; p_time : Z; p_state : gostr; p_info : gostr
}.
(** The note, when the statement failed, is the error behind its text. *)
Record ProcessListOutput := { Processes : list ProcessRow; Note : option goerr }.

(** The cell of the last column with that lower-case name. *)
Definition column_cell {A} (cols : list gostr) (row : list A) (name : gostr) : option A :=
  fold_left (fun acc cv => if ToLower (fst cv) =?s name then Some (snd cv) else acc) (zip cols row) None.

Definition process_row (cols : list gostr) (raw : list (option gostr)) : ProcessRow :=
  let field name := null_str (default None (column_cell cols raw name)) in
  {| p_id := ParseInt_value (field "id"); p_user := field "user"; p_host := field "host"; p_db := field "db";
     p_command := field "command"; p_time := ParseInt_value (field "time"); p_state := field "state";
     p_info := truncateRunes (field "info") maxInfoRunes |}.

(** The loop over the rows: whether it stopped at the cap. *)
Fixpoint process_rows `{SqlServer} (cols : list gostr) (rows : list (list value)) (out : list ProcessRow)
    : list ProcessRow * bool :=
  match rows with
  | [] => (out, false)
  | row :: rows =>
      match scan_null_strings (length cols) row with
      | Err _ => process_rows cols rows out
      | Ok raw =>
          let out := out ++ [process_row cols raw] in
          if maxProcessList <=? length out then (out, true) else process_rows cols rows out
      end
  end.

(** ** kill_query *)
Inductive kill_outcome := KillInvalidID | KillFailed (err : goerr) | KillIssued (id : Z).

(** ** slow_query_log *)
Record SlowQueryLogRow := {
  sl_start_time : gostr; sl_user_host : gostr; sl_query_time : gostr; sl_lock_time : gostr; sl_rows_sent : Z;
  sl_rows_examined : Z; sl_db : gostr; sl_last_insert_id : Z; sl_insert_id : Z; sl_query : gostr
}.
(** [sl_cause] is the error a message ends with. *)
Record SlowQueryLogOutput := {
  Mode : gostr; Message : gostr; sl_cause : option goerr; sl_Settings : gmap gostr gostr;
  sl_Rows : list SlowQueryLogRow; SlowQueries : Z
}.

Definition slow_limit (limit : Z) : Z :=
  let limit := if (limit <=? 0)%Z then 20%Z else limit in
  if (200 <? limit)%Z then 200%Z else limit.

Section Slow.
Context `{GoPrint}.
Definition slow_cell (v : value) : gostr := match v with VNil => [] | _ => sprint_value (NormalizeValue v) end.
Definition slow_row (cols : list gostr) (raw : list value) : SlowQueryLogRow :=
  let field name := default [] (column_cell cols (map slow_cell raw) name) in
  {| sl_start_time := field "start_time"; sl_user_host := field "user_host"; sl_query_time := field "query_time";
     sl_lock_time := field "lock_time"; sl_rows_sent := ParseInt_value (field "rows_sent");
     sl_rows_examined := ParseInt_value (field "rows_examined"); sl_db := field "db";
     sl_last_insert_id := ParseInt_value (field "last_insert_id"); sl_insert_id := ParseInt_value (field "insert_id");
     sl_query := truncateRunes (field "sql_text") maxInfoRunes |}.
Definition slow_rows (rs : rowset) : list SlowQueryLogRow :=
  omap (fun row => match scan_any (length (rs_columns rs)) row with
                   | Ok raw => Some (slow_row (rs_columns rs) raw) | Err _ => None end) (rs_rows rs).
End Slow.

Definition slow_log_sql (cond : gostr) : gostr := "SELECT * FROM mysql.slow_log" ++ cond ++ " ORDER BY start_time DESC LIMIT ?".
Definition slow_log_allowed_sql (n : nat) : gostr := slow_log_sql (" WHERE LOWER(IFNULL(db, '')) IN (" ++ question_marks n ++ ")").

Section Diagnostics.
Context `{SqlServer} `{GoPrint}.
Variable g : globals.

Definition toolProcessList (ctx : callctx) (m : ConnectionManager) (s : server) : answer ProcessListOutput :=
  match catalogRows ctx "process_list" [] "SHOW FULL PROCESSLIST" [] m s with
  | (m, s, Err e) => (m, s, Ok {| Processes := []; Note := Some e |})
  | (m, s, Ok rs) =>
      let '(out, stopped) := process_rows (rs_columns rs) (rs_rows rs) [] in
      match (if stopped then None else rs_err rs) with
      | Some e => refuse m s (Failed e)
      | None => (m, s, Ok {| Processes := out; Note := None |})
      end
  end.

Definition toolKillQuery (db : dbh) (id : Z) (s : server) : server * kill_outcome :=
  if (id <=? 0)%Z then (s, KillInvalidID)
  else match db_Exec db ("KILL QUERY " ++ Itoa id) s with
  | (s, Some e) => (s, KillFailed e)
  | (s, None) => (s, KillIssued id)
  end.

(** The statement on the log table, and its arguments; none when the allowlist names nothing. *)
Definition slow_statement (limit : Z) : option (gostr * list value) :=
  if accessControlEnabled (g_allowed g) then
    match allowedDatabasesLower (g_allowed g) with
    | [] => None
    | allowed => Some (slow_log_allowed_sql (length allowed), map VString allowed ++ [VInt64 limit])
    end
  else Some (slow_log_sql [], [VInt64 limit]).

(** [_ = row.Scan(&path)]: what the scan left, whatever error followed. *)
Definition scanned_path (r : result goerr rowset) : option gostr :=
  match r with
  | Ok rs => match rs_rows rs with
             | [v] :: _ => match scan_null_string v with Ok path => path | Err _ => None end
             | _ => None
             end
  | Err _ => None
  end.

Definition toolSlowQueryLog (db : dbh) (in_limit : Z) (s : server) : server * result tool_error SlowQueryLogOutput :=
  let limit := slow_limit in_limit in
  let output mode msg cause settings rows n : SlowQueryLogOutput :=
    {| Mode := mode; Message := msg; sl_cause := cause; sl_Settings := settings; sl_Rows := rows; SlowQueries := n |} in
  match QueryRowScan scan_two_strings db "SELECT @@slow_query_log, @@log_output" [] s with
  | (s, Err e) => (s, Ok (output "error" "could not read slow query log settings: " (Some e) ∅ [] 0%Z))
  | (s, Ok (slowOn, logOutput)) =>
      let settings : gmap gostr gostr := <[("log_output" : gostr) := logOutput]> {[("slow_query_log" : gostr) := slowOn]} in
      let '(s, status) := QueryRowScan scan_two_strings db "SHOW GLOBAL STATUS LIKE 'Slow_queries'" [] s in
      let n := match status with Ok (_, slowVal) => ParseInt_value (TrimSpace slowVal) | Err _ => 0%Z end in
      if EqualFold slowOn "OFF" || (slowOn =?s "0") then
        (s, Ok (output "disabled" "slow_query_log is off; enable on server to collect slow queries" None settings [] n))
      else if negb (Contains (ToUpper logOutput) "TABLE") then
        let '(s, r) := db_Query db "SELECT @@slow_query_log_file" [] s in
        let settings := match scanned_path r with Some p => <[("slow_query_log_file" : gostr) := p]> settings | None => settings end in
        (s, Ok (output "file" "slow log is FILE-based; read the file on the server or set log_output=TABLE" None settings [] n))
      else match slow_statement limit with
      | None => (s, Ok (output "error" "database allowlist is empty; cannot query mysql.slow_log" None settings [] n))
      | Some (query, args) =>
          match db_Query db query args s with
          | (s, Err e) => (s, Ok (output "error" "could not read mysql.slow_log: " (Some e) settings [] n))
          | (s, Ok rs) =>
              match rs_err rs with
              | Some e => (s, Err (Failed e))
              | None => (s, Ok (output "table_rows" [] None settings (slow_rows rs) n))
              end
          end
      end
  end.
End Diagnostics.

(** ** Truncated texts *)
Lemma truncateRunes_runes (s : gostr) (n : Z) : (0 < n)%Z ->
  runes (truncateRunes s n) =
    if (Z.of_nat (length (runes s)) <=? n)%Z then runes s else take (Z.to_nat n) (runes s) ++ [ellipsis].
Proof.
  intros Hn. unfold truncateRunes. destruct (Z.leb_spec n 0); [lia|].
  destruct (Z.of_nat (length (runes s)) <=? n)%Z; [done|]. apply runes_encode_all, list.Forall_take, runes_scalar.
Qed.

(** The rows that scan. *)
Definition scanned_processes `{SqlServer} (cols : list gostr) (rows : list (list value)) : list ProcessRow :=
  omap (fun row => match scan_null_strings (length cols) row with
                   | Ok raw => Some (process_row cols raw) | Err _ => None end) rows.

Lemma process_rows_spec `{SqlServer} cols rows out : length out < maxProcessList ->
  process_rows cols rows out =
    (take maxProcessList (out ++ scanned_processes cols rows), maxProcessList <=? length (out ++ scanned_processes cols rows)).
Proof.
  revert out. induction rows as [|row rows IH]; intros out Hlen.
  { cbn [process_rows scanned_processes omap list_omap]. rewrite app_nil_r, take_ge by lia.
    by destruct (Nat.leb_spec maxProcessList (length out)); [lia|]. }
  cbn [process_rows]. change (scanned_processes cols (row :: rows)) with
    (match match scan_null_strings (length cols) row with Ok raw => Some (process_row cols raw) | Err _ => None end with
     | Some p => p :: scanned_processes cols rows | None => scanned_processes cols rows end).
  destruct (scan_null_strings (length cols) row) as [raw|]; [|by apply IH].
  rewrite (cons_middle (process_row cols raw) out (scanned_processes cols rows)).
  destruct (Nat.leb_spec maxProcessList (length (out ++ [process_row cols raw]))) as [Hge|Hlt].
  - rewrite app_assoc. assert (Hl : length (out ++ [process_row cols raw]) = maxProcessList)
      by (rewrite length_app in *; cbn in *; lia).
    rewrite take_app_le by lia. rewrite take_ge by lia.
    rewrite length_app, Hl. by destruct (Nat.leb_spec maxProcessList (maxProcessList + length (scanned_processes cols rows))); [|lia].
  - rewrite IH by done. by rewrite <- !app_assoc.
Qed.

(** Process_list is the head of the server's list.  It shows the first two hundred rows
    that scan, in order, fewer only when the iteration ended without an error; the statement
    of each is the server's text, or its first four thousand code points and an ellipsis.  A
    server that refuses the statement is reported in the note. *)
Theorem process_list_is_exact `{SqlServer} (ctx : callctx) (m m' : ConnectionManager) (s s' : server)
    (out : ProcessListOutput) (Hrun : toolProcessList ctx m s = (m', s', Ok out)) :
  match Note out with
  | Some e => Processes out = [] /\ catalogRows ctx "process_list" [] "SHOW FULL PROCESSLIST" [] m s = (m', s', Err e)
  | None => exists rs, catalogRows ctx "process_list" [] "SHOW FULL PROCESSLIST" [] m s = (m', s', Ok rs) /\
      let all := scanned_processes (rs_columns rs) (rs_rows rs) in
      Processes out = take 200 all /\ (length all < 200 -> rs_err rs = None) /\
      forall p, p ∈ Processes out -> exists text,
        runes (p_info p) = if (Z.of_nat (length (runes text)) <=? 4000)%Z then runes text else take 4000 (runes text) ++ [ellipsis]
  end.
Proof.
  revert Hrun. unfold toolProcessList.
  destruct (catalogRows ctx "process_list" [] _ [] m s) as [[m1 s1] [rs|e]]; [|by intros [= <- <- <-]].
  rewrite process_rows_spec by (unfold maxProcessList; cbn; lia). cbn [app].
  set (all := scanned_processes (rs_columns rs) (rs_rows rs)).
  intros Hrun. assert (Herr : length all < 200 -> rs_err rs = None).
  { intros Hlen. destruct (Nat.leb_spec maxProcessList (length all)); [unfold maxProcessList in *; lia|].
    by destruct (rs_err rs). }
  destruct (if maxProcessList <=? length all then None else rs_err rs); [done|].
  injection Hrun as <- <- <-. cbn [Note Processes]. exists rs. split; [done|]. cbv zeta. fold all.
  split; [done|]. split; [done|]. intros p Hp. apply elem_of_take in Hp as (i & Hp & _).
  apply list_elem_of_lookup_2, list_elem_of_omap in Hp as (row & _ & Hf).
  destruct (scan_null_strings _ row) as [raw|]; [|done]. injection Hf as <-.
  exists (null_str (default None (column_cell (rs_columns rs) raw "info"))).
  change (4000)%Z with maxInfoRunes. apply truncateRunes_runes. done.
Qed.

Definition process_server : SqlServer :=
  {| server := unit; conn := unit;
     pool_Conn _ s := (s, Ok tt); pool_Ping _ s := (s, None);
     pool_Query _ _ _ s := (s, Ok {| rs_columns := ["Id"; "User"; "Info"]; rs_err := None; rs_close := None;
                                     rs_rows := [[VBytes "7"; VBytes "app"; VNil]; [VBytes "8"]; [VInt64 9; VBytes "app"; VBytes "SELECT 1"]] |});
     pool_Exec _ _ s := (s, None); conn_Exec _ _ s := (s, None); conn_Query _ _ s := (s, Err ErrNoRows);
     conn_Close _ s := s; format_float _ := []; format_time _ := [] |}.

Lemma process_list_is_exact_witness :
  exists m' s' out, @toolProcessList process_server main_ctx (cm example_world_main) tt = (m', s', Ok out) /\ Note out = None /\
    map p_id (Processes out) = [7%Z; 9%Z] /\ map p_info (Processes out) = ["" : gostr; "SELECT 1" : gostr].
Proof.
  assert (Hnote : match snd (@toolProcessList process_server main_ctx (cm example_world_main) tt) with
    | Ok out => Note out = None | Err _ => False end) by (vm_compute; reflexivity).
  destruct (@toolProcessList process_server main_ctx (cm example_world_main) tt) as [[m' s'] r] eqn:Hrun. cbn [snd] in Hnote.
  destruct r as [out|e]; [|destruct Hnote]. exists m', s', out. split; [reflexivity|]. split; [exact Hnote|].
  pose proof (@process_list_is_exact process_server main_ctx (cm example_world_main) m' tt s' out Hrun) as Hthm.
  rewrite Hnote in Hthm. destruct Hthm as (rs & Hrs & Hout & _). rewrite Hout.
  assert (Hr : match snd (@catalogRows process_server main_ctx "process_list" [] "SHOW FULL PROCESSLIST" [] (cm example_world_main) tt) with
    | Ok rs => map p_id (take 200 (@scanned_processes process_server (rs_columns rs) (rs_rows rs))) = [7%Z; 9%Z] /\
               map p_info (take 200 (@scanned_processes process_server (rs_columns rs) (rs_rows rs))) = ["" : gostr; "SELECT 1" : gostr]
    | Err _ => False end) by (vm_compute; split; reflexivity).
  rewrite Hrs in Hr. cbn [snd] in Hr. exact Hr.
Defined.

(** ** What the diagnostic tools send *)
Inductive diagnostic_call := ProcessList | KillQuery (id : Z) | SlowQueryLog (limit : Z).

Section Sent.
Context `{SqlServer} `{GoPrint}.
Variable g : globals.

Definition run_diagnostic (c : diagnostic_call) (ctx : callctx) (m : ConnectionManager) (s : server) : server :=
  match c with
  | ProcessList => snd (fst (toolProcessList ctx m s))
  | KillQuery id => fst (toolKillQuery (getDB m ctx) id s)
  | SlowQueryLog limit => fst (toolSlowQueryLog g (getDB m ctx) limit s)
  end.

Definition process_text (q : gostr) (args : list value) : Prop :=
  q ∈ (["SHOW FULL PROCESSLIST"; packCall "process_list" 0] : list gostr) /\ args = [].
Definition slow_texts : list gostr :=
  ["SELECT @@slow_query_log, @@log_output"; "SHOW GLOBAL STATUS LIKE 'Slow_queries'"; "SELECT @@slow_query_log_file"].
Inductive slow_text : gostr -> list value -> Prop :=
| dt_fixed q : q ∈ slow_texts -> slow_text q []
| dt_slow limit : accessControlEnabled (g_allowed g) = false -> (1 <= limit <= 200)%Z ->
    slow_text "SELECT * FROM mysql.slow_log ORDER BY start_time DESC LIMIT ?" [VInt64 limit]
| dt_slow_allowed names limit : accessControlEnabled (g_allowed g) = true ->
    (forall d, d ∈ names <-> d ∈ g_allowed g) -> (1 <= limit <= 200)%Z ->
    CountByte (slow_log_allowed_sql (length names)) "?" = S (length names) ->
    slow_text (slow_log_allowed_sql (length names)) (map VString names ++ [VInt64 limit]).
Definition diagnostic_text (q : gostr) (args : list value) : Prop := process_text q args \/ slow_text q args.
End Sent.

Lemma slow_allowed_placeholders (n : nat) : 0 < n -> CountByte (slow_log_allowed_sql n) "?" = S n.
Proof.
  intros Hn. unfold slow_log_allowed_sql, slow_log_sql. rewrite !CountByte_app, question_marks_count by done.
  change (CountByte "SELECT * FROM mysql.slow_log" "?") with 0. change (CountByte " WHERE LOWER(IFNULL(db, '')) IN (" "?") with 0.
  change (CountByte ")" "?") with 0. change (CountByte " ORDER BY start_time DESC LIMIT ?" "?") with 1. lia.
Qed.

Lemma slow_limit_bounds (n : Z) : (1 <= slow_limit n <= 200)%Z.
Proof.
  unfold slow_limit. destruct (Z.leb_spec n 0);
    match goal with |- context [(?a <? ?b)%Z] => destruct (Z.ltb_spec a b) end; lia.
Qed.

Lemma slow_statement_text (g : globals) (limit : Z) q args : (1 <= limit <= 200)%Z ->
  slow_statement g limit = Some (q, args) -> slow_text g q args.
Proof.
  intros Hlimit. unfold slow_statement. destruct (accessControlEnabled (g_allowed g)) eqn:Hacc.
  - destruct (allowedDatabasesLower (g_allowed g)) as [|x l] eqn:Hl; [done|].
    remember (x :: l) as names eqn:Hn. intros Heq.
    assert (q = slow_log_allowed_sql (length names) /\ args = map VString names ++ [VInt64 limit]) as [-> ->]
      by (split; congruence).
    apply dt_slow_allowed; [done | | done |].
    + intros d. rewrite <- Hl. unfold allowedDatabasesLower. rewrite Hacc. cbn [negb].
      by rewrite sort_strings_perm, elem_of_elements.
    + apply slow_allowed_placeholders. subst. cbn. lia.
  - intros Heq. assert (q = slow_log_sql [] /\ args = [VInt64 limit]) as [-> ->] by (split; congruence).
    change (slow_log_sql []) with ("SELECT * FROM mysql.slow_log ORDER BY start_time DESC LIMIT ?" : gostr).
    by apply dt_slow.
Qed.

Section SentKept.
Context `{SqlServer} `{GoPrint} (g : globals) (P : server -> Prop).
Hypothesis Hkept : kept_by (slow_text g) P.

Lemma QueryRowScan_kept {A} (scan : list value -> result goerr A) db q s :
  slow_text g q [] -> P s -> P (fst (QueryRowScan scan db q [] s)).
Proof.
  intros Hq Hs. unfold QueryRowScan. pose proof (db_Query_kept (slow_text g) P Hkept db q [] s Hq Hs).
  by destruct (db_Query db q [] s) as [s1 []].
Qed.

Lemma toolSlowQueryLog_kept db limit s : P s -> P (fst (toolSlowQueryLog g db limit s)).
Proof.
  intros Hs. unfold toolSlowQueryLog.
  pose proof (QueryRowScan_kept scan_two_strings db "SELECT @@slow_query_log, @@log_output" s (dt_fixed g "SELECT @@slow_query_log, @@log_output" ltac:(decide_true)) Hs) as H1.
  destruct (QueryRowScan scan_two_strings db "SELECT @@slow_query_log, @@log_output" [] s) as [s1 [[slowOn logOutput]|]]; [|done]. cbn [fst] in H1.
  pose proof (QueryRowScan_kept scan_two_strings db "SHOW GLOBAL STATUS LIKE 'Slow_queries'" s1 (dt_fixed g "SHOW GLOBAL STATUS LIKE 'Slow_queries'" ltac:(decide_true)) H1) as H2.
  destruct (QueryRowScan scan_two_strings db "SHOW GLOBAL STATUS LIKE 'Slow_queries'" [] s1) as [s2 status]. cbn [fst] in H2.
  destruct (EqualFold slowOn "OFF" || _); [done|]. destruct (negb _).
  - pose proof (db_Query_kept (slow_text g) P Hkept db "SELECT @@slow_query_log_file" [] s2 (dt_fixed g "SELECT @@slow_query_log_file" ltac:(decide_true)) H2).
    by destruct (db_Query db "SELECT @@slow_query_log_file" [] s2) as [s3 r].
  - destruct (slow_statement g (slow_limit limit)) as [[q args]|] eqn:Hst; [|done].
    apply slow_statement_text in Hst; [|apply slow_limit_bounds].
    pose proof (db_Query_kept (slow_text g) P Hkept db q args s2 Hst H2).
    destruct (db_Query db q args s2) as [s3 [rs|]]; [|done]. by destruct (rs_err rs).
Qed.
End SentKept.

Section ProcessKept.
Context `{SqlServer} (P : server -> Prop).
Lemma toolProcessList_kept ctx m s : kept_by process_text P -> P s -> P (snd (fst (toolProcessList ctx m s))).
Proof.
  intros Hkept Hs. unfold toolProcessList.
  pose proof (catalogRows_kept process_text P Hkept ctx "process_list" [] "SHOW FULL PROCESSLIST" [] m s
    ltac:(by split; [decide_true|]) ltac:(by split; [decide_true|]) Hs) as Hrows.
  destruct (catalogRows ctx "process_list" [] _ [] m s) as [[m1 s1] [rs|]]; [|done].
  destruct (process_rows _ _ []) as [out []]; [done|]. by destruct (rs_err rs).
Qed.
Lemma toolKillQuery_kept db id s :
  (forall p s, (0 < id)%Z -> P s -> P (fst (pool_Exec p ("KILL QUERY " ++ Itoa id) s))) -> P s -> P (fst (toolKillQuery db id s)).
Proof.
  intros Hkill Hs. unfold toolKillQuery. destruct (Z.leb_spec id 0); [done|].
  destruct db as [p|]; cbn [db_Exec]; [|done]. specialize (Hkill p s ltac:(lia) Hs).
  by destruct (pool_Exec p ("KILL QUERY " ++ Itoa id) s) as [s1 []].
Qed.
End ProcessKept.

(** The diagnostic tools cannot be made to send SQL of the caller's, nor to read the
    slow log of a database outside the allowlist.  Their statements are fixed texts, KILL
    QUERY with a positive number, and the slow log with one to two hundred rows, restricted
    to exactly the allowed databases when there is an allowlist; KILL QUERY of a number that
    is not positive sends nothing. *)
Theorem diagnostics_send_only_fixed_texts `{SqlServer} `{GoPrint} (g : globals) (c : diagnostic_call) (ctx : callctx)
    (m : ConnectionManager) (s : server) (P : server -> Prop)
    (Hkept : kept_by (diagnostic_text g) P)
    (Hkill : forall p id s, (0 < id)%Z -> P s -> P (fst (pool_Exec p ("KILL QUERY " ++ Itoa id) s))) (Hs : P s) :
  P (run_diagnostic g c ctx m s) /\
  match c with
  | KillQuery id => (id <= 0)%Z -> toolKillQuery (getDB m ctx) id s = (s, KillInvalidID)
  | _ => True
  end.
Proof.
  destruct c as [|id|limit]; cbn [run_diagnostic].
  - split; [|done]. apply toolProcessList_kept; [|done]. intros p q args s1 Hq. apply Hkept. by left.
  - split; [apply toolKillQuery_kept; auto|]. unfold toolKillQuery. intros Hid. by destruct (Z.leb_spec id 0); [|lia].
  - split; [|done]. apply (toolSlowQueryLog_kept g P); [|done]. intros p q args s1 Hq. apply Hkept. by right.
Qed.

Lemma diagnostics_send_only_fixed_texts_witness :
  Forall (fun q => (exists args, diagnostic_text example_globals q args) \/ exists id, (0 < id)%Z /\ q = "KILL QUERY " ++ Itoa id)
    (@run_diagnostic log_server print_none example_globals (KillQuery 7) main_ctx (cm example_world_main) []).
Proof.
  refine (proj1 (@diagnostics_send_only_fixed_texts log_server print_none example_globals (KillQuery 7) main_ctx
    (cm example_world_main) [] _ _ _ _)).
  - intros p q args s Hq Hs. apply list.Forall_app. split; [exact Hs|]. constructor; [|constructor]. left. by exists args.
  - intros p id s Hid Hs. apply list.Forall_app. split; [exact Hs|]. constructor; [|constructor]. right. by exists id.
  - constructor.
Defined.
