(* ===== verification/AuditLog.v ===== *)
(** cmd/mysql-mcp-server/logging.go and tools_diagnostics.go: the audit log and its
    reading back. *)
From Stdlib Require Import SpecFloat.
From S2P Require Import Prelude Unicode GoStrings GoNum GoFloat Identifiers Config Retry.

(** ** Writing *)
Record AuditEntry := {
  Timestamp : gostr; ae_Tool : gostr; ae_Database : gostr; ae_Query : gostr; DurationMs : Z; RowCount : Z;
  InputTokens : Z; OutputTokens : Z; Success : bool; ae_Error : gostr;
  TokensPerRow : float; IOEfficiency : float; CostEstimateUSD : float
}.
Definition with_timestamp (now : gostr) (e : AuditEntry) : AuditEntry :=
  {| Timestamp := now; ae_Tool := ae_Tool e; ae_Database := ae_Database e; ae_Query := ae_Query e; DurationMs := DurationMs e;
     RowCount := RowCount e; InputTokens := InputTokens e; OutputTokens := OutputTokens e; Success := Success e;
     ae_Error := ae_Error e; TokensPerRow := TokensPerRow e; IOEfficiency := IOEfficiency e; CostEstimateUSD := CostEstimateUSD e |}.

Record AuditLogger := { log_path : gostr; enabled : bool }.

(** [clean] is [filepath.Clean], [open] the answer of the file system. *)
Definition NewAuditLogger (clean : gostr -> gostr) (open : gostr -> option goerr) (path : gostr) : result goerr AuditLogger :=
  if is_empty path then Ok {| log_path := []; enabled := false |}
  else match open (clean path) with
  | Some e => Err (Wrap "failed to open audit log" e)
  | None => Ok {| log_path := clean path; enabled := true |}
  end.

Section Log.
(** [json.Marshal], whose error is dropped: the text of an entry that JSON cannot write, one with
    an infinite number or NaN, is empty. *)
Variable encode : AuditEntry -> gostr.

(** Log appends a line to the file; [written] bytes of it reach the file, and a failed write
    is not reported. *)
Definition Log (a : AuditLogger) (now : gostr) (written : nat) (e : AuditEntry) (file : gostr) : gostr :=
  if negb (enabled a) then file
  else file ++ take written (encode (with_timestamp now e) ++ [ch_newline]).
End Log.

(** ** Reading back *)
Definition auditReadTailMaxBytes : nat := 512 * 1024.

(** What the file system answers while the log is read. *)
Record audit_file := {
  af_stat : result goerr nat; af_open : option goerr; af_seek : option goerr; af_read : option goerr; af_content : gostr
}.

Definition clamp_lines (maxLines : Z) : nat :=
  let maxLines := if (maxLines <? 1)%Z then 50%Z else maxLines in
  Z.to_nat (if (500 <? maxLines)%Z then 500%Z else maxLines).

(** [bytes.IndexByte] and the cut after it. *)
Fixpoint after_newline (s : gostr) : option gostr :=
  match s with
  | [] => None
  | c :: s => if bool_decide (c = ch_newline) then Some s else after_newline s
  end.

(** The loop over the lines from the last one: the non-blank ones, until there are [n]. *)
Fixpoint recent_go (n : nat) (lines : list gostr) : list gostr :=
  match n, lines with
  | S n', l :: lines =>
      let line := TrimSpace l in
      if is_empty line then recent_go n lines else line :: recent_go n' lines
  | _, _ => []
  end.

Definition ReadRecentLines (a : AuditLogger) (f : audit_file) (maxLines : Z) : result goerr (list gostr * bool) :=
  if negb (enabled a) || is_empty (log_path a) then Err (OtherError "audit log is not enabled")
  else
    let maxLines := clamp_lines maxLines in
    match af_stat f with
    | Err e => Err (Wrap "audit log stat" e)
    | Ok size =>
        let start := if auditReadTailMaxBytes <? size then size - auditReadTailMaxBytes else 0 in
        match af_open f with
        | Some e => Err (Wrap "audit log open for read" e)
        | None =>
            match (if 0 <? start then af_seek f else None) with
            | Some e => Err (Wrap "audit log seek" e)
            | None =>
                match af_read f with
                | Some e => Err (Wrap "audit log read" e)
                | None =>
                    let data := drop start (af_content f) in
                    let data := if 0 <? start then default data (after_newline data) else data in
                    Ok (rev (recent_go maxLines (rev (Split data ch_newline))), 0 <? start)
                end
            end
        end
    end.

(** toolReadAuditLog: the logger is absent when none was made. *)
Definition toolReadAuditLog (logger : option AuditLogger) (f : audit_file) (lines : Z)
    : result goerr (gostr * list gostr * bool) :=
  match logger with
  | Some a =>
      if negb (enabled a) then Err (OtherError "audit log is not configured (set MYSQL_MCP_AUDIT_LOG)")
      else let? out := ReadRecentLines a f lines in Ok (log_path a, fst out, snd out)
  | None => Err (OtherError "audit log is not configured (set MYSQL_MCP_AUDIT_LOG)")
  end.

(** ** The log comes back *)

(** A line a log entry may be: not blank, no outer space, no line break. *)
Record log_line (l : gostr) : Prop := { ll_trim : TrimSpace l = l; ll_nonempty : l <> []; ll_newline : ch_newline ∉ l }.

(** The entries that JSON can write. *)
Definition finite_entry (e : AuditEntry) : bool := finite (TokensPerRow e) && finite (IOEfficiency e) && finite (CostEstimateUSD e).

(** The text of some lines. *)
Definition text_of (lines : list gostr) : gostr := concat (map (fun l => l ++ [ch_newline]) lines).

Lemma Split_line (l s : gostr) : ch_newline ∉ l -> Split (l ++ ch_newline :: s) ch_newline = l :: Split s ch_newline.
Proof.
  induction l as [|c l IH]; intros Hl; cbn [app Split]; [by rewrite bool_decide_eq_true_2|].
  rewrite bool_decide_eq_false_2 by (intros ->; apply Hl; by left). rewrite IH; [done|]. intros Hin. apply Hl. by right.
Qed.

Lemma Split_text (lines : list gostr) : Forall log_line lines -> Split (text_of lines) ch_newline = lines ++ [[]].
Proof.
  induction 1 as [|l lines Hl HF IH]; [done|]. unfold text_of. cbn [map concat]. rewrite <- app_assoc. cbn [app].
  rewrite Split_line by apply Hl. by f_equal.
Qed.

Lemma recent_go_lines (n : nat) (lines : list gostr) : Forall log_line lines -> recent_go n lines = take n lines.
Proof.
  intros HF. revert n. induction HF as [|l lines Hl HF IH]; intros [|n]; try done. cbn [recent_go take].
  rewrite (ll_trim _ Hl). destruct (is_empty l) eqn:He; [by apply is_empty_true, (ll_nonempty l Hl) in He|]. by rewrite IH.
Qed.

Lemma after_newline_line (l s : gostr) : ch_newline ∉ l -> after_newline (l ++ ch_newline :: s) = Some s.
Proof.
  induction l as [|c l IH]; intros Hl; cbn [app after_newline]; [by rewrite bool_decide_eq_true_2|].
  rewrite bool_decide_eq_false_2 by (intros ->; apply Hl; by left). apply IH. intros Hin. apply Hl. by right.
Qed.

(** Cutting the text inside it leaves whole lines; the first cut line starts at or before the
    cut. *)
Lemma cut_text (lines : list gostr) (start : nat) : Forall log_line lines -> start < length (text_of lines) ->
  exists k, after_newline (drop start (text_of lines)) = Some (text_of (drop (S k) lines)) /\
    k < length lines /\ length (text_of lines) <= start + length (text_of (drop k lines)).
Proof.
  intros HF. revert start. induction HF as [|l lines Hl HF IH]; intros start Hlt; [cbn in Hlt; lia|].
  change (text_of (l :: lines)) with ((l ++ [ch_newline]) ++ text_of lines) in *.
  rewrite !length_app in Hlt. cbn [length] in Hlt.
  destruct (decide (start <= length l)) as [Hin|Hout].
  - exists 0. rewrite <- app_assoc. rewrite drop_app_le by lia. cbn [app]. rewrite after_newline_line.
    + split; [done|]. cbn [drop length]. change (text_of (l :: lines)) with ((l ++ [ch_newline]) ++ text_of lines).
      rewrite <- app_assoc. cbn [app]. split; lia.
    + intros Hc. apply (ll_newline l Hl). apply list_elem_of_lookup in Hc as [i Hi]. rewrite lookup_drop in Hi. by eapply list_elem_of_lookup_2.
  - destruct (IH (start - S (length l))) as (k & Hk & Hlen & Hsz); [lia|]. exists (S k).
    rewrite drop_app_ge by (rewrite length_app; cbn; lia). rewrite length_app. cbn [length].
    replace (start - (length l + 1)) with (start - S (length l)) by lia. split; [exact Hk|]. cbn [length drop].
    split; [lia|]. rewrite !length_app. cbn [length]. lia.
Qed.

(** The last [n] lines of a text. *)
Lemma recent_text (n : nat) (lines : list gostr) : 0 < n -> Forall log_line lines ->
  rev (recent_go n (rev (Split (text_of lines) ch_newline))) = drop (length lines - n) lines.
Proof.
  intros Hn HF. rewrite Split_text, rev_app_distr by done. cbn [rev app]. destruct n as [|n]; [lia|]. cbn [recent_go].
  change (is_empty (TrimSpace [])) with true. cbn iota. rewrite recent_go_lines by (by apply List.Forall_rev).
  by rewrite firstn_rev, rev_involutive.
Qed.

Lemma clamp_lines_bounds (n : Z) : 1 <= clamp_lines n <= 500.
Proof.
  unfold clamp_lines. destruct (Z.ltb_spec n 1);
    match goal with |- context [(?a <? ?b)%Z] => destruct (Z.ltb_spec a b) end; lia.
Qed.

(** The file after some entries were written in full. *)
Definition log_all (encode : AuditEntry -> gostr) (a : AuditLogger) (es : list (gostr * AuditEntry)) (file : gostr) : gostr :=
  fold_left (fun file te =>
    Log encode a (fst te) (S (length (encode (with_timestamp (fst te) (snd te))))) (snd te) file) es file.
Definition line_of (encode : AuditEntry -> gostr) (te : gostr * AuditEntry) : gostr := encode (with_timestamp (fst te) (snd te)).

Lemma log_all_text (encode : AuditEntry -> gostr) (a : AuditLogger) es file : enabled a = true ->
  log_all encode a es file = file ++ text_of (map (line_of encode) es).
Proof.
  intros Ha. unfold log_all. revert file. induction es as [|[t e] es IH]; intros file; cbn [fold_left map]; [by rewrite app_nil_r|].
  rewrite IH. unfold Log. rewrite Ha. cbn [negb fst snd].
  rewrite take_ge by (rewrite length_app; cbn; lia). unfold text_of, line_of. cbn [map concat fst snd]. by rewrite <- !app_assoc.
Qed.

(** What was logged can be read back.  When the numbers of the entries are finite, and such
    an entry encodes to one line, reading the
    log returns the last entries, whole and in the order they were logged: as many as were
    asked for (one to five hundred), or all of them, or all but those before the last half
    mebibyte of the file; the answer says that it is truncated exactly when the file is
    larger than that. *)
Theorem audit_log_roundtrip (encode : AuditEntry -> gostr) (a : AuditLogger) (es : list (gostr * AuditEntry))
    (file : audit_file) (maxLines : Z)
    (Hencode : forall e, finite_entry e = true -> log_line (encode e)) (Hfinite : forall te, te ∈ es -> finite_entry (snd te) = true)
    (Ha : enabled a = true) (Hpath : log_path a <> [])
    (Hfile : file = let content := log_all encode a es [] in
       {| af_stat := Ok (length content); af_open := None; af_seek := None; af_read := None; af_content := content |}) :
  let lines := map (line_of encode) es in
  exists k truncated, ReadRecentLines a file maxLines = Ok (drop k lines, truncated) /\
    length (drop k lines) <= clamp_lines maxLines /\
    (truncated = true <-> auditReadTailMaxBytes < length (text_of lines)) /\
    (k = 0 \/ length (drop k lines) = clamp_lines maxLines \/ auditReadTailMaxBytes <= length (text_of (drop (pred k) lines))).
Proof.
  intros lines. rewrite Hfile. rewrite log_all_text by done. cbn [app]. fold lines.
  assert (HF : forall k, Forall log_line (drop k lines)).
  { intros k. apply list.Forall_drop. apply list.Forall_forall. intros l Hl.
    apply list_elem_of_fmap in Hl as (te & -> & Hte). apply Hencode. exact (Hfinite te Hte). }
  pose proof (clamp_lines_bounds maxLines) as Hn.
  unfold ReadRecentLines. rewrite Ha. cbn [negb orb]. apply is_empty_false in Hpath as ->.
  cbn [af_stat af_open af_seek af_read af_content]. set (size := length (text_of lines)).
  destruct (Nat.ltb_spec auditReadTailMaxBytes size) as [Hbig|Hsmall].
  - destruct (Nat.ltb_spec 0 (size - auditReadTailMaxBytes)); [|lia].
    assert (0 < auditReadTailMaxBytes) by (unfold auditReadTailMaxBytes; lia).
    destruct (cut_text lines (size - auditReadTailMaxBytes)) as (k & Hk & Hlen & Hsz); [exact (HF 0) | unfold size in *; lia |].
    rewrite Hk. cbn [from_option]. unfold id. rewrite recent_text by (lia || apply HF). rewrite drop_drop.
    exists (S k + (length (drop (S k) lines) - clamp_lines maxLines)), true. split; [done|].
    rewrite !length_drop. split; [lia|]. split; [done|].
    destruct (decide (length lines - S k <= clamp_lines maxLines)) as [Hfew|Hmany].
    + right; right. replace (length lines - S k - clamp_lines maxLines) with 0 by lia. rewrite Nat.add_0_r.
      cbn [pred]. unfold size in *. lia.
    + right; left. lia.
  - destruct (Nat.ltb_spec 0 0); [lia|]. rewrite drop_0, recent_text by (lia || apply (HF 0)).
    exists (length lines - clamp_lines maxLines), false. split; [done|]. rewrite length_drop. split; [lia|].
    split; [split; [done | lia]|]. destruct (decide (length lines <= clamp_lines maxLines)); [left; lia | right; left; lia].
Qed.

Definition example_entry (tool : gostr) : AuditEntry :=
  {| Timestamp := []; ae_Tool := tool; ae_Database := []; ae_Query := []; DurationMs := 1; RowCount := 0; InputTokens := 0;
     OutputTokens := 0; Success := true; ae_Error := []; TokensPerRow := S754_zero false; IOEfficiency := S754_zero false;
     CostEstimateUSD := S754_zero false |}.
Definition example_encode (e : AuditEntry) : gostr :=
  if negb (finite_entry e) then [] else if Success e then "{ok}" else "{failed}".
Lemma example_encode_line e : finite_entry e = true -> log_line (example_encode e).
Proof.
  unfold example_encode. intros ->. destruct (Success e); (split; [vm_compute; reflexivity | discriminate | decide_true]).
Qed.

Lemma example_line t e :
  finite_entry e = true -> line_of example_encode (t, e) = if Success e then "{ok}" else "{failed}".
Proof.
  intros He. unfold line_of, example_encode. cbn [fst snd]. change (finite_entry (with_timestamp t e)) with (finite_entry e).
  by rewrite He.
Qed.
Lemma audit_log_roundtrip_witness :
  let a := {| log_path := "/var/log/mcp.log"; enabled := true |} in
  let es := [("t1" : gostr, example_entry "run_query"); ("t2" : gostr, example_entry "run_query")] in
  let content := log_all example_encode a es [] in
  exists k truncated,
    ReadRecentLines a {| af_stat := Ok (length content); af_open := None; af_seek := None; af_read := None; af_content := content |} 1 =
      Ok (drop k (map (line_of example_encode) es), truncated) /\
    length (drop k (map (line_of example_encode) es)) <= 1.
Proof.
  intros a es content.
  assert (Hfin : forall te, te ∈ es -> finite_entry (snd te) = true)
    by (intros te Hte; apply list_elem_of_In in Hte as [<-|[<-|[]]]; reflexivity).
  destruct (audit_log_roundtrip example_encode a es _ 1 example_encode_line Hfin eq_refl ltac:(discriminate) eq_refl) as (k & t & H1 & H2 & _).
  exists k, t. split; [exact H1 | exact H2].
Defined.
