(* ===== verification/Metrics.v ===== *)
(** cmd/mysql-mcp-server/token_metrics.go, token_estimator.go and tool_wrappers.go: the
    token counts of the tool calls and the wrapper that records them. *)
From Stdlib Require Import SpecFloat.
From S2P Require Import Prelude Unicode GoStrings GoNum GoFloat Identifiers Config Retry.

(** ** Costs *)
Definition million : float := float_of_Z 1000000.
Definition costPerMillionInputTokens : float := fdiv (float_of_Z 5) (float_of_Z 2).
Definition costPerMillionOutputTokens : float := float_of_Z 10.
Definition calculateCostUSD (inputTokens outputTokens : Z) : float :=
  let inputCost := fmul (fdiv (float_of_Z inputTokens) million) costPerMillionInputTokens in
  let outputCost := fmul (fdiv (float_of_Z outputTokens) million) costPerMillionOutputTokens in
  fadd inputCost outputCost.

Definition half : float := fdiv (float_of_Z 1) (float_of_Z 2).
Fixpoint power_of_ten (decimals : nat) : float :=
  match decimals with 0 => float_of_Z 1 | S n => fmul (power_of_ten n) (float_of_Z 10) end.
Definition roundFloat (f : float) (decimals : nat) : float :=
  let p := power_of_ten decimals in
  if fleb (S754_zero false) f then fdiv (float_of_Z (int_of_float (fadd (fmul f p) half))) p
  else fdiv (float_of_Z (int_of_float (fsub (fmul f p) half))) p.

(** [math.Round]: the nearest integer, halves away from zero. *)
Definition math_Round (f : float) : float :=
  match f with
  | S754_finite s m e =>
      if (0 <=? e)%Z then f
      else
        let q := ((2 * Zpos m + 2 ^ (- e)) / (2 * 2 ^ (- e)))%Z in
        if (q =? 0)%Z then S754_zero s else float_of_Z (if s then (- q)%Z else q)
  | _ => f
  end.

(** ** TokenMetrics *)
Record QueryTokenRecord := {
  rec_Tool : gostr; rec_Input : Z; rec_Output : Z; rec_Total : Z; rec_CostUSD : float; rec_Timestamp : Z
}.
Record TokenMetrics := {
  TotalInputTokens : Z; TotalOutputTokens : Z; TotalTokens : Z; TotalCostUSD : float; QueryCount : Z;
  recentQueries : list QueryTokenRecord; maxRecent : nat; StartTime : Z
}.
Definition newTokenMetrics (maxRecent : nat) (now : Z) : TokenMetrics :=
  {| TotalInputTokens := 0; TotalOutputTokens := 0; TotalTokens := 0; TotalCostUSD := S754_zero false; QueryCount := 0;
     recentQueries := []; maxRecent := maxRecent; StartTime := now |}.

(** The last [n] of a list. *)
Definition keep_last {A} (n : nat) (l : list A) : list A := if n <? length l then drop (length l - n) l else l.

Definition token_record (tool : gostr) (inputTokens outputTokens now : Z) : QueryTokenRecord :=
  {| rec_Tool := tool; rec_Input := inputTokens; rec_Output := outputTokens; rec_Total := wrap64 (inputTokens + outputTokens);
     rec_CostUSD := calculateCostUSD inputTokens outputTokens; rec_Timestamp := now |}.
Definition Record_ (tool : gostr) (inputTokens outputTokens now : Z) (m : TokenMetrics) : TokenMetrics :=
  let r := token_record tool inputTokens outputTokens now in
  {| TotalInputTokens := wrap64 (TotalInputTokens m + inputTokens);
     TotalOutputTokens := wrap64 (TotalOutputTokens m + outputTokens);
     TotalTokens := wrap64 (TotalTokens m + wrap64 (inputTokens + outputTokens));
     TotalCostUSD := fadd (TotalCostUSD m) (rec_CostUSD r);
     QueryCount := wrap64 (QueryCount m + 1);
     recentQueries := keep_last (maxRecent m) (recentQueries m ++ [r]);
     maxRecent := maxRecent m; StartTime := StartTime m |}.

Record TokenMetricsSnapshot := {
  sn_TotalInputTokens : Z; sn_TotalOutputTokens : Z; sn_TotalTokens : Z; sn_TotalCostUSD : float; sn_QueryCount : Z;
  sn_IOEfficiency : float; UptimeSeconds : Z; RecentQueries : list QueryTokenRecord; TokenTrackingOn : bool
}.
Definition Snapshot (tokenTracking : bool) (now : Z) (m : TokenMetrics) : TokenMetricsSnapshot :=
  {| sn_TotalInputTokens := TotalInputTokens m; sn_TotalOutputTokens := TotalOutputTokens m; sn_TotalTokens := TotalTokens m;
     sn_TotalCostUSD := roundFloat (TotalCostUSD m) 6; sn_QueryCount := QueryCount m;
     sn_IOEfficiency :=
       if (0 <? TotalInputTokens m)%Z
       then roundFloat (fdiv (float_of_Z (TotalOutputTokens m)) (float_of_Z (TotalInputTokens m))) 4 else S754_zero false;
     UptimeSeconds := int_of_float (Seconds (time_sub now (StartTime m)));
     RecentQueries := recentQueries m; TokenTrackingOn := tokenTracking |}.

(** ** CalculateEfficiency *)
Record TokenEfficiency := { te_TokensPerRow : float; te_IOEfficiency : float; te_CostEstimateUSD : float }.
Definition rounded (f unit : float) : float := fdiv (math_Round (fmul f unit)) unit.
Definition CalculateEfficiency (tokenTracking : bool) (inputTokens outputTokens rowCount : Z) : option TokenEfficiency :=
  if negb tokenTracking then None
  else Some {|
    te_TokensPerRow := if (0 <? rowCount)%Z then rounded (fdiv (float_of_Z outputTokens) (float_of_Z rowCount)) (float_of_Z 100)
                       else S754_zero false;
    te_IOEfficiency := if (0 <? inputTokens)%Z then rounded (fdiv (float_of_Z outputTokens) (float_of_Z inputTokens)) (float_of_Z 100)
                       else S754_zero false;
    te_CostEstimateUSD := rounded (calculateCostUSD inputTokens outputTokens) million |}.

(** *** The efficiency of a call is a number

    Whatever two counts of type int are, and however many rows there are, none of its fields is
    infinite or NaN, so that JSON can write them. *)
Lemma math_Round_below (k : Z) (f : float) : (0 <= k <= 800)%Z -> below k f -> below (k + 2) (math_Round f).
Proof.
  intros Hk. destruct f as [s| | |s m e]; try done. intros Hf. unfold math_Round. cbn [below] in Hf.
  destruct (Z.leb_spec 0 e); [cbn [below]; lia|]. set (q := (_ / _)%Z). destruct (Z.eqb_spec q 0); [done|].
  assert (Hpow : (0 < 2 ^ (- e))%Z) by (apply Z.pow_pos_nonneg; lia).
  assert (Hm : (Zpos m < 2 ^ (k + - e))%Z).
  { eapply Z.lt_le_trans; [apply (digits_bound (Zpos m)); lia | apply Z.pow_le_mono_r; lia]. }
  rewrite Z.pow_add_r in Hm by lia.
  assert (Hq : (0 <= q < 2 ^ (k + 1))%Z).
  { split; [apply Z.div_pos; lia|]. rewrite Z.pow_add_r by lia. change (2 ^ 1)%Z with 2%Z.
    assert (0 < 2 ^ k)%Z by (apply Z.pow_pos_nonneg; lia). apply Z.div_lt_upper_bound; nia. }
  apply digits_below in Hq; [|lia].
  replace (k + 2)%Z with (k + 1 + 1)%Z by lia. unfold float_of_Z. apply normalize_below; [|lia]. rewrite Z.add_0_r.
  destruct s; [|done]. replace (Zdigits2 (- q)) with (Zdigits2 q) by by destruct q. done.
Qed.
Lemma rounded_below (k : Z) (f : float) (unit : Z) :
  (0 <= k <= 600)%Z -> below k f -> (0 < unit)%Z -> in_int64 unit -> finite (rounded f (float_of_Z unit)) = true.
Proof.
  intros Hk Hf Hpos Hunit. eapply below_finite. unfold rounded.
  apply (fdiv_below (k + 65 + 1 + 2)); [lia | | by apply float_of_pos_divisor].
  apply math_Round_below; [lia|]. apply fmul_below; [lia | done | by apply float_of_int64].
Qed.
Lemma cost_below (inputTokens outputTokens : Z) :
  in_int64 inputTokens -> in_int64 outputTokens -> below 200 (calculateCostUSD inputTokens outputTokens).
Proof.
  intros Hi Ho. unfold calculateCostUSD, million. apply (fadd_below 198); [lia| |].
  - apply (below_le (65 + 53 + 4 + 1)); [lia|]. apply fmul_below; [lia| | by vm_compute].
    apply fdiv_below; [lia | by apply float_of_int64 | by apply float_of_pos_divisor].
  - apply (below_le (65 + 53 + 5 + 1)); [lia|]. apply fmul_below; [lia| | by vm_compute].
    apply fdiv_below; [lia | by apply float_of_int64 | by apply float_of_pos_divisor].
Qed.
Definition finite_efficiency (e : TokenEfficiency) : bool :=
  finite (te_TokensPerRow e) && finite (te_IOEfficiency e) && finite (te_CostEstimateUSD e).
Lemma efficiency_is_finite tokenTracking inputTokens outputTokens rowCount e :
  in_int64 inputTokens -> in_int64 outputTokens ->
  CalculateEfficiency tokenTracking inputTokens outputTokens rowCount = Some e -> finite_efficiency e = true.
Proof.
  intros Hi Ho. unfold CalculateEfficiency. destruct tokenTracking; [|done]. intros [= <-]. unfold finite_efficiency. cbn [te_TokensPerRow te_IOEfficiency te_CostEstimateUSD].
  assert (Hratio : forall d, finite (if (0 <? d)%Z then rounded (fdiv (float_of_Z outputTokens) (float_of_Z d)) (float_of_Z 100) else S754_zero false) = true).
  { intros d. destruct (Z.ltb_spec 0 d); [|done]. apply (rounded_below (65 + 53)); [lia| |done|decide_true].
    apply fdiv_below; [lia | by apply float_of_int64 | by apply float_of_pos_divisor]. }
  rewrite !Hratio, !andb_true_l. apply (rounded_below 200 _ 1000000); [lia | by apply cost_below | done | decide_true].
Qed.

(** ** Estimates *)
Definition maxTokenEstimationBytes : Z := 1048576.

(** limitedWriter: the buffer and whether the limit was exceeded. *)
Definition limited_Write (limit : Z) (buf p : gostr) : gostr * bool :=
  let len := Z.of_nat (length buf) in
  if (limit <? len + Z.of_nat (length p))%Z then
    let remaining := (limit - len)%Z in
    (if (0 <? remaining)%Z then buf ++ take (Z.to_nat remaining) p else buf, true)
  else (buf ++ p, false).

Section Estimate.
(** The estimator, when there is one: the tokens of a text, by an encoder of a third-party
    package; [marshal] is the JSON encoder, which writes a value's line in one Write. *)
Context {V : Type} (marshal : V -> result goerr gostr) (Count : option (gostr -> result goerr Z)) (tokenTracking : bool).

Definition estimateTokensForValue (v : V) : Z * option goerr :=
  match Count with
  | Some Count =>
      if negb tokenTracking then (0%Z, None)
      else match marshal v with
      | Err e => (0%Z, Some e)
      | Ok text =>
          match limited_Write maxTokenEstimationBytes [] (text ++ [ch_newline]) with
          | (_, true) => (Z.quot maxTokenEstimationBytes 4, None)
          | (buf, false) => match Count buf with Ok n => (n, None) | Err e => (0%Z, Some e) end
          end
      end
  | None => (0%Z, None)
  end.

(** An estimate is an int when the encoder counts with ints. *)
Lemma estimate_in_int64 (v : V) :
  (forall count text n, Count = Some count -> count text = Ok n -> in_int64 n) -> in_int64 (fst (estimateTokensForValue v)).
Proof.
  intros Hcount. unfold estimateTokensForValue. destruct Count as [count|]; [|decide_true]. destruct (negb tokenTracking); [decide_true|].
  destruct (marshal v) as [text|]; [|decide_true]. destruct (limited_Write _ _ _) as [buf []]; [decide_true|].
  destruct (count buf) as [n|] eqn:Hn; [by eapply Hcount | decide_true].
Qed.
End Estimate.

(** ** wrapTool *)
Definition toolSkipsOutputTokenEstimate (name : gostr) : bool :=
  one_of name (["list_variables"; "list_status"; "show_create_table"] : list gostr).

Section Wrap.
(** A handler acts on the server's state [W]; [estI] and [estO] estimate its input and its
    output. *)
Context {W I O : Type} (tokenTracking : bool) (estI : I -> Z) (estO : O -> Z).

Definition wrapTool (toolName : gostr) (h : I -> W -> W * result goerr O) (now : Z) (input : I) (m : TokenMetrics) (w : W)
    : TokenMetrics * W * result goerr O :=
  let '(w, out) := h input w in
  if tokenTracking && negb (toolName =?s "run_query") then
    let inputTokens := estI input in
    let outputTokens :=
      match out with
      | Ok o => if negb (toolSkipsOutputTokenEstimate toolName) then estO o else 0%Z
      | Err _ => 0%Z
      end in
    (Record_ toolName inputTokens outputTokens now m, w, out)
  else (m, w, out).
End Wrap.

Example roundFloat_ex : roundFloat (fdiv (float_of_Z 22) (float_of_Z 7)) 4 = fdiv (float_of_Z 31429) (float_of_Z 10000).
Proof. vm_compute. reflexivity. Qed.
Example math_Round_ex :
  math_Round (fdiv (float_of_Z 5) (float_of_Z 2)) = float_of_Z 3 /\ math_Round (fdiv (float_of_Z (-5)) (float_of_Z 2)) = float_of_Z (-3) /\
  math_Round (fdiv (float_of_Z (-1)) (float_of_Z 3)) = S754_zero true.
Proof. vm_compute. auto. Qed.

(** ** The totals *)
Definition sum (l : list Z) : Z := fold_right Z.add 0%Z l.
Lemma sum_app (l l' : list Z) : sum (l ++ l') = (sum l + sum l')%Z.
Proof. unfold sum. induction l as [|z l IH]; cbn; [done|]. rewrite IH. lia. Qed.
Lemma sum_plus {A} (f g : A -> Z) (l : list A) : sum (map (fun x => (f x + g x)%Z) l) = (sum (map f l) + sum (map g l))%Z.
Proof. unfold sum. induction l as [|x l IH]; cbn; [done|]. lia. Qed.

Lemma wrap64_add_l (a b : Z) : wrap64 (wrap64 a + b) = wrap64 (a + b).
Proof.
  unfold wrap64. f_equal. replace ((a + 2 ^ 63) mod 2 ^ 64 - 2 ^ 63 + b + 2 ^ 63)%Z with ((a + 2 ^ 63) mod 2 ^ 64 + b)%Z by lia.
  rewrite Zplus_mod_idemp_l. f_equal. lia.
Qed.
Lemma wrap64_add_r (a b : Z) : wrap64 (a + wrap64 b) = wrap64 (a + b).
Proof. rewrite Z.add_comm, wrap64_add_l. f_equal. lia. Qed.

Lemma keep_last_app {A} (n : nat) (l l' : list A) : keep_last n (keep_last n l ++ l') = keep_last n (l ++ l').
Proof.
  unfold keep_last at 2. destruct (Nat.ltb_spec n (length l)) as [Hlt|]; [|done]. unfold keep_last.
  rewrite !length_app, length_drop. destruct (Nat.ltb_spec n (length l - (length l - n) + length l')).
  - destruct (Nat.ltb_spec n (length l + length l')); [|lia].
    rewrite <- (drop_app_le l l' (length l - n)) by lia. rewrite drop_drop. f_equal. lia.
  - destruct (Nat.ltb_spec n (length l + length l')); [|lia]. rewrite (drop_app_le l l') by lia.
    f_equal. f_equal. lia.
Qed.

(** The calls of a run: tool, input and output tokens, time. *)
Definition token_call : Type := gostr * Z * Z * Z.
Definition record_call (m : TokenMetrics) (c : token_call) : TokenMetrics :=
  let '(tool, i, o, now) := c in Record_ tool i o now m.
Definition call_in (c : token_call) : Z := let '(_, i, _, _) := c in i.
Definition call_out (c : token_call) : Z := let '(_, _, o, _) := c in o.
Definition call_record (c : token_call) : QueryTokenRecord := let '(tool, i, o, now) := c in token_record tool i o now.

(** The token metrics account for every call.  After any run the counters are the sums
    over all calls (modulo the 64-bit width), the total is that of input and output, the
    recent records are exactly the last ones in order, and a snapshot shows them. *)
Theorem metrics_account_for_every_call (n : nat) (start now : Z) (tracking : bool) (run : list token_call) :
  let m := fold_left record_call run (newTokenMetrics n start) in
  let snap := Snapshot tracking now m in
  sn_TotalInputTokens snap = wrap64 (sum (map call_in run)) /\
  sn_TotalOutputTokens snap = wrap64 (sum (map call_out run)) /\
  sn_TotalTokens snap = wrap64 (sn_TotalInputTokens snap + sn_TotalOutputTokens snap) /\
  sn_QueryCount snap = wrap64 (Z.of_nat (length run)) /\
  RecentQueries snap = drop (length run - n) (map call_record run) /\
  length (RecentQueries snap) <= n.
Proof.
  assert (Hinv : let m := fold_left record_call run (newTokenMetrics n start) in
    TotalInputTokens m = wrap64 (sum (map call_in run)) /\ TotalOutputTokens m = wrap64 (sum (map call_out run)) /\
    TotalTokens m = wrap64 (sum (map call_in run) + sum (map call_out run)) /\
    QueryCount m = wrap64 (Z.of_nat (length run)) /\ maxRecent m = n /\ recentQueries m = keep_last n (map call_record run)).
  { induction run as [|[[[tool i] o] t] run IH] using rev_ind; [done|]. rewrite fold_left_app. cbn [fold_left record_call].
    destruct IH as (Hi & Ho & Ht & Hq & Hmax & Hrec). unfold Record_.
    cbn [TotalInputTokens TotalOutputTokens TotalTokens QueryCount maxRecent recentQueries].
    rewrite Hi, Ho, Ht, Hq, Hmax, Hrec, !map_app, !sum_app, !wrap64_add_l, wrap64_add_r, length_app, keep_last_app.
    cbn [map call_in call_out call_record sum fold_right length]. rewrite !Z.add_0_r.
    repeat split; f_equal; lia. }
  cbv zeta in *. destruct Hinv as (Hi & Ho & Ht & Hq & _ & Hrec).
  cbn [Snapshot sn_TotalInputTokens sn_TotalOutputTokens sn_TotalTokens sn_QueryCount RecentQueries].
  rewrite Hi, Ho, Ht, Hq, Hrec, wrap64_add_l, wrap64_add_r. do 4 (split; [done|]).
  assert (Hkeep : keep_last n (map call_record run) = drop (length run - n) (map call_record run)).
  { unfold keep_last. rewrite length_map. destruct (Nat.ltb_spec n (length run)); [done|].
    by replace (length run - n) with 0 by lia. }
  rewrite Hkeep. split; [done|]. rewrite length_drop, length_map. lia.
Qed.

(** The estimation buffer never outgrows its limit, and holds the beginning of what was
    written. *)
Lemma limited_Write_bounded (limit : Z) (buf p : gostr) :
  (Z.of_nat (length buf) <= limit)%Z ->
  (Z.of_nat (length (fst (limited_Write limit buf p))) <= limit)%Z /\
  exists n, fst (limited_Write limit buf p) = buf ++ take n p /\ (snd (limited_Write limit buf p) = false -> take n p = p).
Proof.
  intros Hbuf. unfold limited_Write. destruct (Z.ltb_spec limit (Z.of_nat (length buf) + Z.of_nat (length p))).
  - destruct (Z.ltb_spec 0 (limit - Z.of_nat (length buf))); cbn [fst snd].
    + rewrite length_app, length_take. split; [lia|]. by eexists.
    + split; [lia|]. exists 0. by rewrite app_nil_r.
  - cbn [fst snd]. rewrite length_app. split; [lia|]. exists (length p). rewrite take_ge by lia. done.
Qed.

(** The wrapper of a handler is transparent. *)
Lemma wrapTool_transparent {W I O} tracking (estI : I -> Z) (estO : O -> Z) name (h : I -> W -> W * result goerr O) now input m w :
  snd (wrapTool tracking estI estO name h now input m w) = snd (h input w) /\
  snd (fst (wrapTool tracking estI estO name h now input m w)) = fst (h input w).
Proof. unfold wrapTool. destruct (h input w) as [w' out]. by destruct (tracking && _). Qed.
