(* ===== verification/QueryLog.v ===== *)
(** cmd/mysql-mcp-server/logging.go, and the observations of tools.go and tool_wrappers.go:
    what run_query and the wrapped tools leave in the operational log, the audit log and the
    token metrics. *)
From Stdlib Require Import SpecFloat.
From S2P Require Import Prelude Unicode GoStrings GoNum Identifiers SqlValidator SqlParser Config Access Retry.
From S2P Require Import Sql Connection QueryTools AuditLog Metrics.

(** ** Structured logging *)
#[warnings="-register-all"]
Inductive log_value := LText (t : gostr) | LNumber (n : Z) | LFloat (f : float) | LFields (fields : list (gostr * log_value)).
Record LogEntry := { le_Timestamp : gostr; Level : gostr; Message : gostr; Fields : list (gostr * log_value) }.

(** The flags of the process, and how the library prints. *)
Record log_mode := {
  silentMode : bool; jsonLogging : bool;
  json_Marshal : LogEntry -> gostr;                         (* one line *)
  print_fields : list (gostr * log_value) -> gostr;         (* %v of the map *)
  log_prefix : gostr -> gostr                               (* the date that package log puts first *)
}.

(** The lines on stderr. *)
Definition logJSON (lm : log_mode) (now level message : gostr) (fields : list (gostr * log_value)) (err : list gostr) : list gostr :=
  if silentMode lm && ((level =?s "INFO") || (level =?s "WARN")) then err
  else
    let entry := {| le_Timestamp := now; Level := level; Message := message; Fields := fields |} in
    err ++ [if jsonLogging lm then json_Marshal lm entry
            else log_prefix lm now ++ "[" ++ level ++ "] " ++ message ++
                 (if 0 <? length fields then " " ++ print_fields lm fields else [])].
Definition logInfo (lm : log_mode) (now : gostr) := logJSON lm now "INFO".
Definition logWarn (lm : log_mode) (now : gostr) := logJSON lm now "WARN".
Definition logError (lm : log_mode) (now : gostr) := logJSON lm now "ERROR".

(** ** QueryTimer *)
Record TokenUsage := { InputEstimated : Z; OutputEstimated : Z; TotalEstimated : Z; tu_Model : gostr }.
Record QueryTimer := { timer_start : Z; timer_tool : gostr }.
Definition Elapsed (t : QueryTimer) (now : Z) : Z := time_sub now (timer_start t).
Definition ElapsedMs (t : QueryTimer) (now : Z) : Z := Milliseconds (Elapsed t now).

Definition usage_fields (u : TokenUsage) : list (gostr * log_value) :=
  [("input_estimated", LNumber (InputEstimated u)); ("output_estimated", LNumber (OutputEstimated u));
   ("total_estimated", LNumber (TotalEstimated u)); ("model", LText (tu_Model u))].
Definition token_fields (tokenTracking : bool) (tokens : option TokenUsage) (efficiency : option TokenEfficiency) : list (gostr * log_value) :=
  match tokens with
  | Some u =>
      if tokenTracking then
        [("tokens" : gostr, LFields (usage_fields u ++
           match efficiency with
           | Some e => [("tokens_per_row", LFloat (te_TokensPerRow e)); ("io_efficiency", LFloat (te_IOEfficiency e));
                        ("cost_estimate_usd", LFloat (te_CostEstimateUSD e))]
           | None => []
           end))]
      else []
  | None => []
  end.
(** Only a short text is logged. *)
Definition query_fields (query : gostr) : list (gostr * log_value) :=
  if negb (is_empty query) && (length query <=? 200) then [("query" : gostr, LText query)] else [].

(** ** The error texts of the two validators *)
Definition ParserValidationError_Error (e : ParserValidationError) : gostr :=
  if negb (is_empty (PStatement e)) then PReason e ++ ": " ++ PStatement e else PReason e.
Definition SQLValidationError_Error (e : SQLValidationError) : gostr :=
  if negb (is_empty (Pattern e)) then Reason e ++ ": " ++ Pattern e else Reason e.
Definition rejection_text (e : ParserValidationError + SQLValidationError) : gostr :=
  match e with inl e => ParserValidationError_Error e | inr e => SQLValidationError_Error e end.

(** ** What a call leaves behind *)
Record trail := { t_metrics : TokenMetrics; t_audit : gostr; t_stderr : list gostr }.

(** The clock during a call, and how much of a line reaches the audit file. *)
Record moment := { at_start : Z; at_end : Z; stamp : gostr; written : gostr -> nat }.

Section Observed.
Context `{Sqlparser} `{SqlServer} `{Backoff}.
Variable g : globals.
Variable lm : log_mode.
(** auditLogger ([None] is nil) and the JSON of an entry; [err.Error()]. *)
Variable logger : option AuditLogger.
Variable encode : AuditEntry -> gostr.
Variable Error : goerr -> gostr.
(** tokenTracking, tokenModel, the estimator and the JSON of what it counts. *)
Variable tokenTracking : bool.
Variable tokenModel : gostr.
Variable Count : option (gostr -> result goerr Z).
Variable marshal_input : RunQueryInput -> result goerr gostr.
Variable marshal_output : QueryResult -> result goerr gostr.

Definition on_stderr (f : list gostr -> list gostr) (tr : trail) : trail :=
  {| t_metrics := t_metrics tr; t_audit := t_audit tr; t_stderr := f (t_stderr tr) |}.
Definition audit (mo : moment) (e : AuditEntry) (tr : trail) : trail :=
  match logger with
  | None => tr
  | Some a => {| t_metrics := t_metrics tr;
                 t_audit := Log encode a (stamp mo) (written mo (encode (with_timestamp (stamp mo) e) ++ [ch_newline])) e (t_audit tr);
                 t_stderr := t_stderr tr |}
  end.

Definition LogSuccess (t : QueryTimer) (mo : moment) (rowCount : Z) (query : gostr) (tokens : option TokenUsage)
    (efficiency : option TokenEfficiency) : list gostr -> list gostr :=
  logInfo lm (stamp mo) "query executed"
    ([("tool", LText (timer_tool t)); ("duration_ms", LNumber (ElapsedMs t (at_end mo))); ("row_count", LNumber rowCount)] ++
     query_fields query ++ token_fields tokenTracking tokens efficiency).
Definition LogError (t : QueryTimer) (mo : moment) (err query : gostr) (tokens : option TokenUsage)
    (efficiency : option TokenEfficiency) : list gostr -> list gostr :=
  logError lm (stamp mo) "query failed"
    ([("tool", LText (timer_tool t)); ("duration_ms", LNumber (ElapsedMs t (at_end mo))); ("error", LText err)] ++
     query_fields query ++ token_fields tokenTracking tokens efficiency).

(** An entry of run_query; [efficiency] only with a successful one. *)
Definition query_entry (database query : gostr) (duration rows input output : Z) (success : bool) (err : gostr)
    (efficiency : option TokenEfficiency) : AuditEntry :=
  let float_of (f : TokenEfficiency -> float) := match efficiency with Some e => f e | None => S754_zero false end in
  {| Timestamp := []; ae_Tool := "run_query"; ae_Database := database; ae_Query := query; DurationMs := duration; RowCount := rows;
     InputTokens := input; OutputTokens := output; AuditLog.Success := success; ae_Error := err;
     TokensPerRow := float_of te_TokensPerRow; IOEfficiency := float_of te_IOEfficiency; CostEstimateUSD := float_of te_CostEstimateUSD |}.

(** The checks of toolRunQuery before it estimates the input, and those after the validator. *)
Definition check_database (sqlText database : gostr) : option tool_error :=
  if is_empty sqlText then Some (Required "sql")
  else if accessControlEnabled (g_allowed g) then
    if is_empty database then Some (Required "database")
    else match requireAllowedDatabase (g_allowed g) database with Some e => Some (AccessDenied e) | None => None end
  else None.
Definition final_statement (input : RunQueryInput) (sqlText : gostr) : result tool_error (gostr * Z) :=
  match requireReferencedSchemasInQuery (g_allowed g) sqlText with
  | Some e => Err (AccessDenied e)
  | None =>
      let limit := effective_limit g (in_MaxRows input) in
      match Offset input with
      | Some pageOffset =>
          if (pageOffset <? 0)%Z then Err OffsetNegative
          else if (limit <=? 0)%Z then Err (LimitNotPositive limit)
          else match InjectLimitWithOffset sqlText (wrap64 (limit + 1)) pageOffset with
          | Err e => Err (Pagination e)
          | Ok finalSQL => Ok (finalSQL, limit)
          end
      | None => Ok (InjectLimit sqlText limit, limit)
      end
  end.

(** toolRunQuery with everything it writes, in the order of the source. *)
Definition observed_run_query (ctx : context) (db : dbh) (mo : moment) (input : RunQueryInput) (s : server) (tr : trail)
    : server * trail * result tool_error QueryResult :=
  let timer := {| timer_start := at_start mo; timer_tool := "run_query" |} in
  let sqlText := TrimSpace (SQL input) in
  let database := TrimSpace (Database input) in
  match check_database sqlText database with
  | Some e => (s, tr, Err e)
  | None =>
      let inputTokens := fst (estimateTokensForValue marshal_input Count tokenTracking input) in
      let tokens out := {| InputEstimated := inputTokens; OutputEstimated := out; TotalEstimated := wrap64 (inputTokens + out);
                           tu_Model := tokenModel |} in
      match ValidateSQLCombined (g_allowSystemSchemas g) sqlText with
      | Some e =>
          let tr := on_stderr (logWarn lm (stamp mo) "query rejected by validator"
                      [("error", LText (rejection_text e)); ("query", LText (TruncateQuery sqlText 200))]) tr in
          (s, audit mo (query_entry database (TruncateQuery sqlText 500) 0 0 inputTokens 0 false (rejection_text e) None) tr,
           Err (Rejected e))
      | None =>
          match final_statement input sqlText with
          | Err e => (s, tr, Err e)
          | Ok (finalSQL, limit) =>
              let usePagination := match Offset input with Some _ => true | None => false end in
              match run_with_retry g ctx db finalSQL database limit usePagination (default 0%Z (Offset input)) s with
              | (s, Err e) =>
                  let tr := on_stderr (LogError timer mo (Error e) finalSQL (Some (tokens 0%Z)) None) tr in
                  (s, audit mo (query_entry database (TruncateQuery finalSQL 500) (ElapsedMs timer (at_end mo)) 0 inputTokens 0 false
                                  (Error e) None) tr, Err (Failed e))
              | (s, Ok out) =>
                  let out := finish_result g (HasSelectStar sqlText) out in
                  let rows := Z.of_nat (length (Rows out)) in
                  let outputTokens := fst (estimateTokensForValue marshal_output Count tokenTracking out) in
                  let tr := if tokenTracking
                            then {| t_metrics := Record_ "run_query" inputTokens outputTokens (at_end mo) (t_metrics tr);
                                    t_audit := t_audit tr; t_stderr := t_stderr tr |}
                            else tr in
                  let eff := CalculateEfficiency tokenTracking inputTokens outputTokens rows in
                  let tr := on_stderr (LogSuccess timer mo rows finalSQL (Some (tokens outputTokens)) eff) tr in
                  (s, audit mo (query_entry database (TruncateQuery finalSQL 500) (ElapsedMs timer (at_end mo)) rows inputTokens
                                  outputTokens true [] eff) tr, Ok out)
              end
          end
      end
  end.
End Observed.

(** ** wrapTool with its log *)
Section WrappedLog.
Context {W I O : Type} (lm : log_mode) (Error : goerr -> gostr) (tokenTracking : bool) (tokenModel : gostr) (estI : I -> Z) (estO : O -> Z).
Definition wrapTool_logged (toolName : gostr) (h : I -> W -> W * result goerr O) (mo : moment) (input : I) (m : TokenMetrics) (w : W)
    (err : list gostr) : TokenMetrics * W * result goerr O * list gostr :=
  let '(m, w, out) := wrapTool tokenTracking estI estO toolName h (at_end mo) input m w in
  if tokenTracking && negb (toolName =?s "run_query") then
    let outputTokens := match out with Ok o => if negb (toolSkipsOutputTokenEstimate toolName) then estO o else 0%Z | Err _ => 0%Z end in
    let tokens := {| InputEstimated := estI input; OutputEstimated := outputTokens; TotalEstimated := wrap64 (estI input + outputTokens);
                     tu_Model := tokenModel |} in
    let fields := [("tool" : gostr, LText toolName); ("duration_ms" : gostr, LNumber (Milliseconds (time_sub (at_end mo) (at_start mo))));
                   ("tokens" : gostr, LFields (usage_fields tokens))] in
    (m, w, out, match out with
                | Err e => logError lm (stamp mo) "tool failed" (fields ++ [("error" : gostr, LText (Error e))]) err
                | Ok _ => logInfo lm (stamp mo) "tool executed" fields err
                end)
  else (m, w, out, err).
End WrappedLog.

(** ** What the observations change *)
Definition entry_key (e : AuditEntry) : gostr * gostr * bool := (ae_Database e, ae_Query e, AuditLog.Success e).

Section Facts.
Context `{Sqlparser} `{SqlServer} `{Backoff}.
Variable g : globals.
Variable lm : log_mode.
Variable a : AuditLogger.
Variable encode : AuditEntry -> gostr.
Variable Error : goerr -> gostr.
Variable tokenTracking : bool.
Variable tokenModel : gostr.
Variable Count : option (gostr -> result goerr Z).
Variable marshal_input : RunQueryInput -> result goerr gostr.
Variable marshal_output : QueryResult -> result goerr gostr.
(** The encoder counts with ints. *)
Hypothesis Hcount : forall count text n, Count = Some count -> count text = Ok n -> in_int64 n.

Definition observe : context -> dbh -> moment -> RunQueryInput -> server -> trail -> server * trail * result tool_error QueryResult :=
  observed_run_query g lm (Some a) encode Error tokenTracking tokenModel Count marshal_input marshal_output.

(** What the audit log should say of a call: nothing when it was refused before or after the
    validator, and otherwise the database, the statement and the outcome. *)
Definition audited (input : RunQueryInput) (r : result tool_error QueryResult) : list (gostr * gostr * bool) :=
  match check_query g input with
  | Ok (_, finalSQL, database, _) => [(database, TruncateQuery finalSQL 500, is_ok r)]
  | Err (Rejected _) => [(TrimSpace (Database input), TruncateQuery (TrimSpace (SQL input)) 500, false)]
  | Err _ => []
  end.

(** The parts of [check_query]. *)
Lemma check_query_parts input :
  check_query g input =
    match check_database g (TrimSpace (SQL input)) (TrimSpace (Database input)) with
    | Some e => Err e
    | None =>
        match ValidateSQLCombined (g_allowSystemSchemas g) (TrimSpace (SQL input)) with
        | Some e => Err (Rejected e)
        | None =>
            match final_statement g input (TrimSpace (SQL input)) with
            | Err e => Err e
            | Ok (finalSQL, limit) => Ok (TrimSpace (SQL input), finalSQL, TrimSpace (Database input), limit)
            end
        end
    end.
Proof.
  unfold check_query, check_database, final_statement. destruct (is_empty (TrimSpace (SQL input))); [done|].
  destruct (if accessControlEnabled (g_allowed g) then _ else None); [done|].
  destruct (ValidateSQLCombined _ _); [done|]. destruct (requireReferencedSchemasInQuery _ _); [done|].
  destruct (Offset input) as [z|]; [|done]. destruct (z <? 0)%Z; [done|].
  destruct (effective_limit g (in_MaxRows input) <=? 0)%Z; [done|]. by destruct (InjectLimitWithOffset _ _ _).
Qed.
Lemma check_database_plain sqlText database e : check_database g sqlText database = Some e -> forall v, e <> Rejected v.
Proof. unfold check_database. repeat case_match; by intros [= <-]. Qed.
Lemma final_statement_plain input sqlText e : final_statement g input sqlText = Err e -> forall v, e <> Rejected v.
Proof. unfold final_statement. repeat case_match; by intros [= <-]. Qed.

(** The numbers of an entry are finite. *)
Lemma query_entry_finite database query duration rows input output success err eff :
  match eff with Some e => finite_efficiency e = true | None => True end ->
  finite_entry (query_entry database query duration rows input output success err eff) = true.
Proof. by destruct eff. Qed.

Lemma one_finite e : finite_entry e = true -> forall e', e' ∈ [e] -> finite_entry e' = true.
Proof. by intros He e' ->%list_elem_of_singleton. Qed.

(** One call: the server and the result are those of [toolRunQuery], the audit log gains the
    entries that [audited] asks for, all of which JSON can write, and the metrics a record when
    the call is_ok. *)
Lemma observe_spec ctx db mo input s tr :
  let '(s', tr', r) := observe ctx db mo input s tr in
  toolRunQuery g ctx db input s = (s', r) /\
  (exists es, map entry_key es = audited input r /\ (forall e, e ∈ es -> finite_entry e = true) /\
     t_audit tr' = fold_left (fun file e => Log encode a (stamp mo) (written mo (encode (with_timestamp (stamp mo) e) ++ [ch_newline])) e file)
                     es (t_audit tr)) /\
  (exists run, t_metrics tr' = fold_left record_call run (t_metrics tr) /\
     length run = if tokenTracking && is_ok r then 1 else 0).
Proof.
  unfold observe, observed_run_query, toolRunQuery, audited. rewrite check_query_parts.
  assert (Hno : forall b, exists run, t_metrics tr = fold_left record_call run (t_metrics tr) /\ length run = if b && false then 1 else 0)
    by (intros b; exists []; by rewrite andb_false_r).
  destruct (check_database _ _ _) as [e|] eqn:Hdb.
  { split; [done|]. split; [|apply Hno]. exists []. split; [|by split; [intros e0 ?%not_elem_of_nil|]]. pose proof (check_database_plain _ _ _ Hdb) as Hp.
    destruct e; try done. by destruct (Hp err). }
  destruct (ValidateSQLCombined _ _) as [e|].
  { split; [done|]. split; [|apply Hno]. eexists [_]. split; [|split; [|cbn; reflexivity]]; [done | by apply one_finite, query_entry_finite]. }
  destruct (final_statement _ _ _) as [[finalSQL limit]|e] eqn:Hf.
  2:{ split; [done|]. split; [|apply Hno]. exists []. split; [|by split; [intros e0 ?%not_elem_of_nil|]]. pose proof (final_statement_plain _ _ _ Hf) as Hp.
      destruct e; try done. by destruct (Hp err). }
  destruct (run_with_retry _ _ _ _ _ _ _ _ _) as [s1 [out|e]].
  - split; [done|]. split.
    + eexists [_]. split; [|split; [|cbn [fold_left audit on_stderr t_audit]; destruct tokenTracking; reflexivity]]; [done|].
      apply one_finite, query_entry_finite. destruct (CalculateEfficiency _ _ _ _) eqn:He; [|done].
      by eapply efficiency_is_finite; [| |exact He]; apply estimate_in_int64.
    + destruct tokenTracking; [eexists [(_, _, _, _)] | exists []]; by split.
  - split; [done|]. split; [|apply Hno]. eexists [_]. split; [|split; [|cbn; reflexivity]]; [done | by apply one_finite, query_entry_finite].
Qed.
End Facts.

(** ** A run of calls *)
Section Runs.
Context `{Sqlparser} `{SqlServer} `{Backoff}.
Record query_call := { qc_ctx : context; qc_db : dbh; qc_moment : moment; qc_input : RunQueryInput }.
Variable g : globals.
Variable lm : log_mode.
Variable a : AuditLogger.
Variable encode : AuditEntry -> gostr.
Variable Error : goerr -> gostr.
Variable tokenTracking : bool.
Variable tokenModel : gostr.
Variable Count : option (gostr -> result goerr Z).
Variable marshal_input : RunQueryInput -> result goerr gostr.
Variable marshal_output : QueryResult -> result goerr gostr.

Fixpoint plain_run (calls : list query_call) (s : server) : server * list (result tool_error QueryResult) :=
  match calls with
  | [] => (s, [])
  | c :: calls =>
      let '(s, r) := toolRunQuery g (qc_ctx c) (qc_db c) (qc_input c) s in
      let '(s, rs) := plain_run calls s in (s, r :: rs)
  end.
Fixpoint observed_run (calls : list query_call) (s : server) (tr : trail) : server * trail * list (result tool_error QueryResult) :=
  match calls with
  | [] => (s, tr, [])
  | c :: calls =>
      let '(s, tr, r) := observed_run_query g lm (Some a) encode Error tokenTracking tokenModel Count marshal_input marshal_output
                           (qc_ctx c) (qc_db c) (qc_moment c) (qc_input c) s tr in
      let '(s, tr, rs) := observed_run calls s tr in (s, tr, r :: rs)
  end.

(** The encoder counts with ints. *)
Hypothesis Hcount : forall count text n, Count = Some count -> count text = Ok n -> in_int64 n.

(** What the audit log should say of a run. *)
Definition audited_run (calls : list query_call) (rs : list (result tool_error QueryResult)) : list (gostr * gostr * bool) :=
  concat (zip_with (fun c r => audited g (qc_input c) r) calls rs).

(** A write that reaches the file in full. *)
Definition writes_all (c : query_call) : Prop := forall line, length line <= written (qc_moment c) line.

Lemma log_complete c es file : writes_all c ->
  fold_left (fun file e => Log encode a (stamp (qc_moment c))
      (written (qc_moment c) (encode (with_timestamp (stamp (qc_moment c)) e) ++ [ch_newline])) e file) es file =
  log_all encode a (map (fun e => (stamp (qc_moment c), e)) es) file.
Proof.
  intros Hw. unfold log_all. revert file. induction es as [|e es IH]; intros file; [done|]. cbn [map fold_left fst snd].
  rewrite <- IH. f_equal. unfold Log. destruct (negb (enabled a)); [done|]. f_equal.
  rewrite !take_ge; [done | rewrite length_app; cbn; lia | apply Hw].
Qed.

Lemma observed_run_spec calls s tr : (forall c, c ∈ calls -> writes_all c) ->
  let '(s', tr', rs) := observed_run calls s tr in
  plain_run calls s = (s', rs) /\
  (exists es, map (fun te => entry_key (snd te)) es = audited_run calls rs /\ (forall te, te ∈ es -> finite_entry (snd te) = true) /\
     t_audit tr' = log_all encode a es (t_audit tr)) /\
  (exists run, t_metrics tr' = fold_left record_call run (t_metrics tr) /\
     length run = if tokenTracking then length (filter (fun r => is_ok r = true) rs) else 0).
Proof.
  revert s tr. induction calls as [|c calls IH]; intros s tr Hw; cbn [observed_run plain_run].
  { split; [done|]. split; [exists []; split; [done|]; split; [intros te ?%not_elem_of_nil; done | done]|].
    exists []. split; [done|]. by destruct tokenTracking. }
  pose proof (observe_spec g lm a encode Error tokenTracking tokenModel Count marshal_input marshal_output Hcount
                (qc_ctx c) (qc_db c) (qc_moment c) (qc_input c) s tr) as Hone. unfold observe in Hone.
  destruct (observed_run_query _ _ _ _ _ _ _ _ _ _ _ _ _ _ _) as [[s1 tr1] r]. destruct Hone as (-> & (es1 & He1 & Hf1 & Ha1) & (run1 & Hm1 & Hl1)).
  specialize (IH s1 tr1 ltac:(intros c' Hc; apply Hw; by right)). destruct (observed_run calls s1 tr1) as [[s2 tr2] rs].
  destruct IH as (-> & (es2 & He2 & Hf2 & Ha2) & (run2 & Hm2 & Hl2)). split; [done|]. split.
  - exists (map (fun e => (stamp (qc_moment c), e)) es1 ++ es2). rewrite map_app, map_map. cbn [snd].
    split; [unfold audited_run in *; cbn [zip_with concat]; f_equal; [exact He1 | exact He2]|]. split.
    { intros te [(e & -> & Hin)%list_elem_of_fmap|Hin]%elem_of_app; [by apply Hf1 | by apply Hf2]. }
    rewrite Ha2, Ha1, log_complete by (apply Hw; by left). unfold log_all. by rewrite fold_left_app.
  - exists (run1 ++ run2). rewrite fold_left_app, <- Hm1. split; [done|]. rewrite length_app, Hl1, Hl2, filter_cons.
    destruct tokenTracking; [|done]. by destruct r.
Qed.
End Runs.

(** C35: the audit log tells what run_query ran.  For any sequence of calls, on any
    connections, whatever the server answers, with a log that starts empty and whose writes
    succeed: the logging, the audit log and the token counts change neither what reaches the
    server nor a result; the log holds one entry, in order, for every call that the validator
    refused and for every call whose statement was run, with the database, the statement (its
    first 500 bytes) and whether it succeeded, and none for the others: a call that is refused
    for an empty text, for its database or the schemas it names, or for its page leaves no
    entry.  Reading
    the log returns the last entries unchanged: as many as were asked for, or all, or all but
    those before the last half mebibyte; and the metrics gain one record for every success
    while token tracking is on.  JSON need only write the entries whose numbers are finite on
    a line: those of run_query are, since token counts are ints. *)
Theorem audit_log_tells_what_was_run `{Sqlparser} `{SqlServer} `{Backoff} g lm (a : AuditLogger) encode Error tracking model Count
    marshal_input marshal_output (calls : list query_call) (s : server) (tr : trail) (maxLines : Z)
    (Hencode : forall e, finite_entry e = true -> log_line (encode e))
    (Hcount : forall count text n, Count = Some count -> count text = Ok n -> in_int64 n)
    (Ha : enabled a = true) (Hpath : log_path a <> [])
    (Hempty : t_audit tr = []) (Hwrites : forall c, c ∈ calls -> writes_all c) :
  let '(s', tr', rs) := observed_run g lm a encode Error tracking model Count marshal_input marshal_output calls s tr in
  plain_run g calls s = (s', rs) /\
  (exists es k truncated,
     map (fun te => entry_key (snd te)) es = audited_run g calls rs /\ (forall te, te ∈ es -> finite_entry (snd te) = true) /\
     let lines := map (line_of encode) es in
     ReadRecentLines a {| af_stat := Ok (length (t_audit tr')); af_open := None; af_seek := None; af_read := None;
                          af_content := t_audit tr' |} maxLines = Ok (drop k lines, truncated) /\
     length (drop k lines) <= clamp_lines maxLines /\
     (k = 0 \/ length (drop k lines) = clamp_lines maxLines \/ auditReadTailMaxBytes <= length (text_of (drop (pred k) lines)))) /\
  (exists run, t_metrics tr' = fold_left record_call run (t_metrics tr) /\
     length run = if tracking then length (filter (fun r => is_ok r = true) rs) else 0).
Proof.
  pose proof (observed_run_spec g lm a encode Error tracking model Count marshal_input marshal_output Hcount calls s tr Hwrites) as Hspec.
  destruct (observed_run _ _ _ _ _ _ _ _ _ _ _ _ _) as [[s' tr'] rs]. destruct Hspec as (Hplain & (es & Hes & Hfinite & Haudit) & Hmetrics).
  split; [done|]. split; [|done]. rewrite Hempty in Haudit.
  destruct (audit_log_roundtrip encode a es _ maxLines Hencode Hfinite Ha Hpath eq_refl) as (k & truncated & Hread & Hlen & _ & Hall).
  rewrite Haudit. exists es, k, truncated. do 2 (split; [done|]). cbv zeta in *. done.
Qed.

(** In silent mode a call leaves a line on stderr exactly when the server or the network
    failed it; refusals and successes are not printed. *)
Theorem silent_mode_keeps_failures `{Sqlparser} `{SqlServer} `{Backoff} g lm a encode Error tracking model Count
    marshal_input marshal_output ctx db mo input s tr (Hsilent : silentMode lm = true) :
  let '(_, tr', r) := observed_run_query g lm a encode Error tracking model Count marshal_input marshal_output ctx db mo input s tr in
  match r with
  | Err (Failed _) => exists line, t_stderr tr' = t_stderr tr ++ [line]
  | _ => t_stderr tr' = t_stderr tr
  end.
Proof.
  unfold observed_run_query. destruct (check_database _ _ _) as [e|] eqn:Hdb.
  { unfold check_database in Hdb. by repeat case_match; simplify_eq/=. }
  assert (Haudit : forall e t, t_stderr (audit a encode mo e t) = t_stderr t) by (intros e t; by destruct a).
  destruct (ValidateSQLCombined _ _) as [e|]; [rewrite Haudit; cbn; unfold logWarn, logJSON; by rewrite Hsilent|].
  destruct (final_statement _ _ _) as [[finalSQL limit]|e] eqn:Hf; [|by unfold final_statement in Hf; repeat case_match; simplify_eq/=].
  destruct (run_with_retry _ _ _ _ _ _ _ _ _) as [s1 [out|e]]; rewrite Haudit; cbn.
  - unfold LogSuccess, logInfo, logJSON. rewrite Hsilent. by destruct tracking.
  - unfold LogError, logError, logJSON. rewrite Hsilent. cbn. by eexists.
Qed.

(** ** An example: a refused call, then one that runs *)
Definition plain_mode : log_mode :=
  {| silentMode := true; jsonLogging := false; json_Marshal _ := []; print_fields _ := "map[...]"; log_prefix now := now ++ " " |}.
Definition example_call (sqlText : gostr) : @query_call no_wait :=
  @Build_query_call no_wait tt (Pool 0) {| at_start := 0; at_end := 5; stamp := "t"; written := length |}
    {| SQL := sqlText; in_MaxRows := None; Offset := None; Database := "app" |}.
Definition empty_trail : trail := {| t_metrics := newTokenMetrics 10 0; t_audit := []; t_stderr := [] |}.
Definition example_log : AuditLogger := {| log_path := "/var/log/mcp.log"; enabled := true |}.

Lemma audit_log_tells_what_was_run_witness :
  let '(_, tr', rs) := @observed_run one_table_parser log_server no_wait example_globals plain_mode example_log example_encode (fun _ => [])
    false [] None (fun _ => Ok []) (fun _ => Ok []) [example_call "DROP TABLE users"; example_call "DESCRIBE users"] [] empty_trail in
  map is_ok rs = [false; true] /\
  exists k truncated, ReadRecentLines example_log
    {| af_stat := Ok (length (t_audit tr')); af_open := None; af_seek := None; af_read := None; af_content := t_audit tr' |} 50 =
      Ok (drop k ["{failed}" : gostr; "{ok}"], truncated).
Proof.
  pose proof (@audit_log_tells_what_was_run one_table_parser log_server no_wait example_globals plain_mode example_log example_encode (fun _ => [])
    false [] None (fun _ => Ok []) (fun _ => Ok []) [example_call "DROP TABLE users"; example_call "DESCRIBE users"] [] empty_trail 50
    example_encode_line ltac:(intros ? ? ?; discriminate) eq_refl ltac:(discriminate) eq_refl) as Hthm.
  assert (Hwrites : forall c, c ∈ [example_call "DROP TABLE users"; example_call "DESCRIBE users"] -> writes_all c).
  { intros c Hc line. apply elem_of_cons in Hc as [->|Hc]; [reflexivity|]. apply elem_of_cons in Hc as [->|Hc]; [reflexivity|].
    destruct (not_elem_of_nil _ Hc). }
  specialize (Hthm Hwrites). destruct (observed_run _ _ _ _ _ _ _ _ _ _ _ _ _) as [[s' tr'] rs] eqn:Hrun.
  assert (Hrs : map is_ok rs = [false; true]).
  { apply (f_equal (fun x => map is_ok (snd x))) in Hrun. vm_compute in Hrun. symmetry. exact Hrun. }
  split; [exact Hrs|]. destruct Hthm as (_ & (es & k & truncated & Hes & Hfinite & Hread & _) & _). exists k, truncated.
  assert (Hkeys : map (fun te => entry_key (snd te)) es = [("app", "DROP TABLE users", false); ("app", "DESCRIBE users", true)]).
  { rewrite Hes. destruct rs as [|r1 [|r2 [|]]]; try discriminate Hrs. destruct r1; [discriminate Hrs|]. destruct r2; [|discriminate Hrs].
    vm_compute. reflexivity. }
  assert (Hlines : map (line_of example_encode) es = ["{failed}" : gostr; "{ok}"]).
  { destruct es as [|[t1 e1] [|[t2 e2] [|]]]; try discriminate Hkeys. injection Hkeys as Hd1 Hq1 Hs1 Hd2 Hq2 Hs2.
    pose proof (Hfinite _ ltac:(left)) as Hf1. pose proof (Hfinite _ ltac:(right; left)) as Hf2. cbn [snd] in Hf1, Hf2.
    cbn [map]. rewrite !example_line, Hs1, Hs2 by assumption. reflexivity. }
  cbv zeta in Hread. rewrite Hlines in Hread. exact Hread.
Defined.
