(* ===== verification/ServerInfo.v ===== *)
(** cmd/mysql-mcp-server/tools.go: server_info, with the health snapshot. *)
From Stdlib Require Import SpecFloat.
From S2P Require Import Prelude Unicode GoStrings GoNum Identifiers SqlParser Config Access Labels Retry Sql Connection QueryTools Tools Guard Metrics Catalog.

Record ServerHealthSnapshot := {
  PingLatencyMs : Z; ThreadsRunning : Z; h_SlowQueries : Z; Questions : Z; BufferPoolHitPercent : option float;
  BufferPoolReadRequests : option Z; BufferPoolReads : option Z
}.
Record ServerTokenSnapshot := {
  ToolCalls : Z; st_TotalInputTokens : Z; st_TotalOutputTokens : Z; st_TotalTokens : Z; MetricsUptimeSec : Z
}.
Record ServerInfoOutput := {
  Version : gostr; ServerEngine : gostr; VersionComment : gostr; Uptime : Z; CurrentDatabase : gostr; CurrentUser : gostr;
  CharacterSet : gostr; si_Collation : gostr; MaxConnections : Z; ThreadsConnected : Z;
  Health : option ServerHealthSnapshot; si_TokenMetrics : option ServerTokenSnapshot; ToolPack : gostr;
  MCPGuard : option GuardInfo
}.

Definition token_snapshot (s : TokenMetricsSnapshot) : ServerTokenSnapshot :=
  {| ToolCalls := sn_QueryCount s; st_TotalInputTokens := sn_TotalInputTokens s; st_TotalOutputTokens := sn_TotalOutputTokens s;
     st_TotalTokens := sn_TotalTokens s; MetricsUptimeSec := UptimeSeconds s |}.

Definition engine_name (t : ServerType) : gostr :=
  match t with ServerTypeMySQL => "mysql" | ServerTypeMariaDB => "mariadb" | ServerTypeUnknown => "unknown" end.

Definition variables_sql : gostr :=
  "
		SELECT VARIABLE_NAME, VARIABLE_VALUE
		FROM performance_schema.global_variables
		WHERE VARIABLE_NAME IN (
			'version_comment',
			'character_set_server',
			'collation_server',
			'max_connections'
		)
	".
Definition show_variables_sql : gostr :=
  "
			SHOW VARIABLES WHERE Variable_name IN (
				'version_comment',
				'character_set_server',
				'collation_server',
				'max_connections'
			)
		".
Definition status_sql : gostr :=
  "
		SELECT VARIABLE_NAME, VARIABLE_VALUE
		FROM performance_schema.global_status
		WHERE VARIABLE_NAME IN ('Uptime', 'Threads_connected')
	".
Definition show_status_sql : gostr :=
  "
			SHOW GLOBAL STATUS WHERE Variable_name IN ('Uptime', 'Threads_connected')
		".
Definition health_keys : list gostr :=
  ["Threads_running"; "Slow_queries"; "Questions"; "Innodb_buffer_pool_read_requests"; "Innodb_buffer_pool_reads"].
Definition health_sql : gostr :=
  "SELECT VARIABLE_NAME, VARIABLE_VALUE FROM performance_schema.global_status WHERE VARIABLE_NAME IN (?,?,?,?,?)".
Definition show_health_sql : gostr :=
  "SHOW GLOBAL STATUS WHERE Variable_name IN ('Threads_running','Slow_queries','Questions','Innodb_buffer_pool_read_requests','Innodb_buffer_pool_reads')".

(** The hit rate, clamped. *)
Definition hundred : float := float_of_Z 100.
Definition hit_percent (reads reqs : Z) : float :=
  let hit := fmul hundred (fsub (float_of_Z 1) (fdiv (float_of_Z reads) (float_of_Z reqs))) in
  let hit := if fltb hit (S754_zero false) then S754_zero false else hit in
  if fltb hundred hit then hundred else hit.

Section ServerInfo.
Context `{SqlServer}.

(** The value of the last row whose name is [name] in lower case; rows that do not scan are
    skipped. *)
Definition variable (rows : list (list value)) (name : gostr) : option gostr :=
  fold_left (fun acc row =>
    match scan_two_strings row with
    | Ok (n, v) => if ToLower n =?s name then Some v else acc
    | Err _ => acc
    end) rows None.

(** A statement, and a second one when it fails. *)
Definition query_or (db : dbh) (query : gostr) (args : list value) (fallback : gostr) (s : server)
    : server * result goerr rowset :=
  match db_Query db query args s with
  | (s, Ok rs) => (s, Ok rs)
  | (s, Err _) => db_Query db fallback [] s
  end.

Definition no_health (ping : Z) : ServerHealthSnapshot :=
  {| PingLatencyMs := ping; ThreadsRunning := 0; h_SlowQueries := 0; Questions := 0; BufferPoolHitPercent := None;
     BufferPoolReadRequests := None; BufferPoolReads := None |}.
Definition health_of (ping : Z) (rows : list (list value)) : ServerHealthSnapshot :=
  let number name := ParseInt_value <$> variable rows name in
  let pool := match number "innodb_buffer_pool_reads", number "innodb_buffer_pool_read_requests" with
    | Some reads, Some reqs => Some (reads, reqs)
    | _, _ => None
    end in
  {| PingLatencyMs := ping; ThreadsRunning := default 0%Z (number "threads_running");
     h_SlowQueries := default 0%Z (number "slow_queries"); Questions := default 0%Z (number "questions");
     BufferPoolHitPercent := match pool with
       | Some (reads, reqs) => if (0 <? reqs)%Z then Some (hit_percent reads reqs) else None
       | None => None end;
     BufferPoolReadRequests := snd <$> pool; BufferPoolReads := fst <$> pool |}.

(** [ping] is the measured round trip; whether the ping failed is ignored. *)
Definition health_snapshot (db : dbh) (ping : Z) (s : server) : server * ServerHealthSnapshot :=
  let '(s, _) := db_Ping db s in
  match query_or db health_sql (map VString health_keys) show_health_sql s with
  | (s, Err _) => (s, no_health ping)
  | (s, Ok rs) => (s, health_of ping (rs_rows rs))
  end.

(** The variables of the first two statements. *)
Definition server_variables (db : dbh) (query fallback failed iteration : gostr) (s : server)
    : server * result tool_error (list (list value)) :=
  match query_or db query [] fallback s with
  | (s, Err e) => (s, Err (Failed (Wrap failed e)))
  | (s, Ok rs) =>
      (s, match rs_err rs with Some e => Err (Failed (Wrap iteration e)) | None => Ok (rs_rows rs) end)
  end.

(** [tokenMetrics] is the snapshot of the metrics when the tracking is on. *)
Definition toolServerInfo (tokenMetrics : option TokenMetricsSnapshot) (ctx : callctx) (detailed : bool) (ping : Z)
    (m : ConnectionManager) (s : server) : server * result tool_error ServerInfoOutput :=
  let db := getDB m ctx in
  match QueryRow scan_string db "SELECT VERSION()" [] s with
  | (s, Err e) => (s, Err (Failed (Wrap "failed to get version" e)))
  | (s, Ok version) =>
      match server_variables db variables_sql show_variables_sql "failed to get server variables" "server variables iteration failed" s with
      | (s, Err e) => (s, Err e)
      | (s, Ok vars) =>
          match server_variables db status_sql show_status_sql "failed to get server status" "server status iteration failed" s with
          | (s, Err e) => (s, Err e)
          | (s, Ok status) =>
              match QueryRowScan scan_two_strings db "SELECT CURRENT_USER(), IFNULL(DATABASE(), '')" [] s with
              | (s, Err e) => (s, Err (Failed (Wrap "failed to get current user/database" e)))
              | (s, Ok (user, database)) =>
                  let '(s, health) :=
                    if detailed then let '(s, h) := health_snapshot db ping s in (s, Some h) else (s, None) in
                  let '(s, guard) := guardInfo ctx m s in
                  let text rows name := default [] (variable rows name) in
                  let number rows name := default 0%Z (ParseInt_value <$> variable rows name) in
                  (s, Ok {| Version := version; ServerEngine := engine_name (ServerTypeFor m ctx);
                            VersionComment := text vars "version_comment"; Uptime := number status "uptime";
                            CurrentDatabase := database; CurrentUser := user;
                            CharacterSet := text vars "character_set_server"; si_Collation := text vars "collation_server";
                            MaxConnections := number vars "max_connections"; ThreadsConnected := number status "threads_connected";
                            Health := health; si_TokenMetrics := token_snapshot <$> tokenMetrics; ToolPack := ToolPackFor m ctx;
                            MCPGuard := if Installed guard || match gi_error guard with Some _ => true | None => false end
                                        then Some guard else None |})
              end
          end
      end
  end.

(** ** What server_info sends *)
Definition info_texts : list gostr :=
  ["SELECT VERSION()"; variables_sql; show_variables_sql; status_sql; show_status_sql;
   "SELECT CURRENT_USER(), IFNULL(DATABASE(), '')"; health_sql; show_health_sql; "SHOW GLOBAL VARIABLES LIKE 'mcp.%'"].
Definition info_text (q : gostr) (args : list value) : Prop :=
  q ∈ info_texts /\ placeholders q args.
End ServerInfo.

Lemma hit_percent_range (reads reqs : Z) :
  fltb (hit_percent reads reqs) (S754_zero false) = false /\ fltb hundred (hit_percent reads reqs) = false.
Proof.
  unfold hit_percent. set (hit := fmul hundred _). destruct (fltb hit (S754_zero false)) eqn:Hlow.
  - by vm_compute.
  - destruct (fltb hundred hit) eqn:Hhigh; [by vm_compute | done].
Qed.

Section InfoKept.
Context `{SqlServer} (P : server -> Prop).
Hypothesis Hkept : kept_by info_text P.
Hypothesis Hping : forall p s, P s -> P (fst (pool_Ping p s)).

Lemma info_query_kept db q args s : info_text q args -> P s -> P (fst (db_Query db q args s)).
Proof. apply (db_Query_kept info_text P Hkept). Qed.

Lemma info_row_kept {A} (scan : list value -> result goerr A) db q s :
  info_text q [] -> P s -> P (fst (QueryRowScan scan db q [] s)).
Proof.
  intros Hq Hs. unfold QueryRowScan. pose proof (info_query_kept db q [] s Hq Hs). by destruct (db_Query db q [] s) as [s1 []].
Qed.

Lemma query_or_kept db q args fallback s :
  info_text q args -> info_text fallback [] -> P s -> P (fst (query_or db q args fallback s)).
Proof.
  intros Hq Hf Hs. unfold query_or. pose proof (info_query_kept db q args s Hq Hs) as H1.
  destruct (db_Query db q args s) as [s1 [rs|e]]; [done|]. by apply info_query_kept.
Qed.

Lemma server_variables_kept db q fallback failed iteration s :
  info_text q [] -> info_text fallback [] -> P s -> P (fst (server_variables db q fallback failed iteration s)).
Proof.
  intros Hq Hf Hs. unfold server_variables. pose proof (query_or_kept db q [] fallback s Hq Hf Hs) as H1.
  by destruct (query_or db q [] fallback s) as [s1 []].
Qed.

Lemma health_snapshot_kept db ping s : P s -> P (fst (health_snapshot db ping s)).
Proof.
  intros Hs. unfold health_snapshot.
  assert (H1 : P (fst (db_Ping db s))) by (destruct db; cbn [db_Ping]; auto).
  destruct (db_Ping db s) as [s1 e]. cbn [fst] in H1.
  assert (H2 : P (fst (query_or db health_sql (map VString health_keys) show_health_sql s1)))
    by (apply query_or_kept; [split; [decide_true | done].. | done]).
  by destruct (query_or db health_sql _ show_health_sql s1) as [s2 []].
Qed.

Lemma guardInfo_kept ctx m s : P s -> P (fst (guardInfo ctx m s)).
Proof.
  intros Hs. unfold guardInfo.
  assert (H1 : P (fst (db_Query (getDB m ctx) "SHOW GLOBAL VARIABLES LIKE 'mcp.%'" [] s)))
    by (apply info_query_kept; [split; [decide_true | done] | done]).
  by destruct (db_Query (getDB m ctx) _ [] s) as [s1 []].
Qed.

Lemma toolServerInfo_kept tm ctx detailed ping m s : P s -> P (fst (toolServerInfo tm ctx detailed ping m s)).
Proof.
  intros Hs. unfold toolServerInfo, QueryRow.
  pose proof (info_row_kept (fun row => match row with [v] => scan_string v | _ => Err scan_arity end) (getDB m ctx)
    "SELECT VERSION()" s ltac:(split; [decide_true | done]) Hs) as H1.
  destruct (QueryRowScan _ (getDB m ctx) "SELECT VERSION()" [] s) as [s1 [version|]]; [|done].
  pose proof (server_variables_kept (getDB m ctx) variables_sql show_variables_sql "failed to get server variables"
    "server variables iteration failed" s1 ltac:(split; [decide_true | done]) ltac:(split; [decide_true | done]) H1) as H2.
  destruct (server_variables _ variables_sql _ _ _ s1) as [s2 [vars|]]; [|done].
  pose proof (server_variables_kept (getDB m ctx) status_sql show_status_sql "failed to get server status"
    "server status iteration failed" s2 ltac:(split; [decide_true | done]) ltac:(split; [decide_true | done]) H2) as H3.
  destruct (server_variables _ status_sql _ _ _ s2) as [s3 [status|]]; [|done].
  pose proof (info_row_kept scan_two_strings (getDB m ctx) "SELECT CURRENT_USER(), IFNULL(DATABASE(), '')" s3
    ltac:(split; [decide_true | done]) H3) as H4.
  destruct (QueryRowScan scan_two_strings _ _ [] s3) as [s4 [[user database]|]]; [|done]. cbn [fst] in H4.
  assert (H5 : P (fst (if detailed then let '(s, h) := health_snapshot (getDB m ctx) ping s4 in (s, Some h) else (s4, None)))).
  { destruct detailed; [|done]. pose proof (health_snapshot_kept (getDB m ctx) ping s4 H4).
    by destruct (health_snapshot (getDB m ctx) ping s4). }
  destruct (if detailed then _ else _) as [s5 health]. cbn [fst] in H5.
  pose proof (guardInfo_kept ctx m s5 H5). by destruct (guardInfo ctx m s5) as [s6 guard].
Qed.
End InfoKept.

(** Server_info reads and nothing else.  It sends fixed statements only (SELECT VERSION,
    the server's variables and status with the documented fallbacks, the guard's variables)
    and, for the health snapshot, a ping; the snapshot is there exactly when it was asked
    for, its buffer pool hit rate lies between 0 and 100, and the guard is left out only
    when the lookup succeeded and found none. *)
Theorem server_info_only_reads `{SqlServer} tm ctx detailed ping m s (P : server -> Prop)
    (Hkept : kept_by info_text P) (Hping : forall p s, P s -> P (fst (pool_Ping p s))) (Hs : P s) :
  P (fst (toolServerInfo tm ctx detailed ping m s)) /\
  forall s' out, toolServerInfo tm ctx detailed ping m s = (s', Ok out) ->
    (Health out <> None <-> detailed = true) /\
    (forall h hit, Health out = Some h -> BufferPoolHitPercent h = Some hit ->
       fltb hit (S754_zero false) = false /\ fltb hundred hit = false) /\
    (forall g, MCPGuard out = Some g -> Installed g = true \/ gi_error g <> None).
Proof.
  split; [by apply toolServerInfo_kept|]. intros s' out. unfold toolServerInfo.
  destruct (QueryRow scan_string _ _ [] s) as [s1 [version|]]; [|done].
  destruct (server_variables _ variables_sql _ _ _ s1) as [s2 [vars|]]; [|done].
  destruct (server_variables _ status_sql _ _ _ s2) as [s3 [status|]]; [|done].
  destruct (QueryRowScan scan_two_strings _ _ [] s3) as [s4 [[user database]|]]; [|done].
  assert (Hhealth : forall h hit, snd (health_snapshot (getDB m ctx) ping s4) = h -> BufferPoolHitPercent h = Some hit ->
            fltb hit (S754_zero false) = false /\ fltb hundred hit = false).
  { intros h hit <-. unfold health_snapshot. destruct (db_Ping _ s4) as [s5 e].
    destruct (query_or _ _ _ _ s5) as [s6 [rs|]]; [|done]. cbn [snd]. unfold health_of. cbn [BufferPoolHitPercent].
    destruct (ParseInt_value <$> variable (rs_rows rs) _) as [reads|]; [|done].
    destruct (ParseInt_value <$> variable (rs_rows rs) _) as [reqs|]; [|done].
    destruct (0 <? reqs)%Z; [|done]. intros [= <-]. apply hit_percent_range. }
  assert (Hguard : forall s g, (if Installed g || match gi_error g with Some _ => true | None => false end then Some g else None) = Some s ->
            Installed s = true \/ gi_error s <> None).
  { intros x g. destruct (Installed g) eqn:Hi; [intros [= <-]; by left|]. cbn [orb].
    destruct (gi_error g) eqn:He; [intros [= <-]; right; by rewrite He | done]. }
  destruct detailed.
  - destruct (health_snapshot (getDB m ctx) ping s4) as [s5 h] eqn:Hh. destruct (guardInfo ctx m s5) as [s6 g].
    intros [= _ <-]. cbn [Health MCPGuard]. split; [done|]. split; [intros h' hit [= <-]; by apply Hhealth | intros g'; apply Hguard].
  - destruct (guardInfo ctx m s4) as [s6 g]. intros [= _ <-]. cbn [Health MCPGuard]. split; [done|].
    split; [done | intros g'; apply Hguard].
Qed.

Lemma server_info_only_reads_witness :
  Forall (fun q => exists args, info_text q args)
    (fst (@toolServerInfo log_server None main_ctx true 3 (cm example_world_main) [])).
Proof.
  refine (proj1 (@server_info_only_reads log_server None main_ctx true 3 (cm example_world_main) [] _ _ _ _)).
  - intros p q args s Hq Hs. apply list.Forall_app. split; [exact Hs|]. constructor; [by exists args | constructor].
  - intros p s Hs. exact Hs.
  - constructor.
Defined.
