(* ===== verification/Rest.v ===== *)
(** cmd/mysql-mcp-server/http.go: the REST API, its request bodies, its routes and their
    gates. *)
From S2P Require Import Prelude Unicode GoStrings GoNum GoFmt GoNet Config Http RateLimit QueryTools Explain Vector.

(** ** The tool calls a route can make *)
Inductive tool_call :=
| CallListDatabases | CallListTables (database : gostr) | CallDescribeTable (database table : gostr)
| CallRunQuery (input : RunQueryInput) | CallPing | CallServerInfo (detailed : bool)
| CallListConnections | CallUseConnection (name : gostr)
| CallListIndexes (database table : gostr) | CallShowCreateTable (database table : gostr)
| CallExplainQuery (input : ExplainQueryInput)
| CallListViews (database : gostr) | CallListTriggers (database : gostr) | CallListProcedures (database : gostr)
| CallListFunctions (database : gostr) | CallListPartitions (database table : gostr)
| CallDatabaseSize (database : gostr) | CallTableSize (database : gostr) | CallForeignKeys (database table : gostr)
| CallListStatus (pattern : gostr) | CallListVariables (pattern : gostr)
| CallProcessList | CallKillQuery (id : Z) | CallReadAuditLog (lines : Z) | CallSlowQueryLog (limit : Z)
| CallVectorSearch (input : VectorSearchInput) | CallVectorInfo (database : gostr).

(** ** Bodies

    The JSON decoder reads a stream: the text that is left and how it ends.  It is a
    parameter, by the type of the value it decodes. *)
Definition maxJSONRequestBodyBytes : nat := 1024 * 1024.

Inductive body_kind := RunQueryBody | UseConnectionBody | ExplainBody | KillBody | VectorBody | EmptyBody.
Definition body_input (k : body_kind) : Type :=
  match k with
  | RunQueryBody => RunQueryInput | UseConnectionBody => gostr | ExplainBody => ExplainQueryInput | KillBody => Z
  | VectorBody => VectorSearchInput | EmptyBody => unit
  end.
Inductive stream_end := EndOfFile | LimitReached.
Inductive decoded (A : Type) := Decoded (a : A) (rest : gostr) | DecodeEOF | DecodeTooLarge | DecodeError (msg : gostr).
Arguments Decoded {A}. Arguments DecodeEOF {A}. Arguments DecodeTooLarge {A}. Arguments DecodeError {A}.
Inductive body_error := TooLarge | BadBody (msg : gostr).

Section Rest.
Variable encode : payload -> gostr.
Variable Decode : forall k : body_kind, gostr -> stream_end -> decoded (body_input k).
(** The wrapped tool handlers: the JSON text of the output, or the text of the error. *)
Variable run : tool_call -> result gostr gostr.

Definition decodeJSONBody (k : body_kind) (text : gostr) : result body_error (body_input k) :=
  let '(text, ending) :=
    if length text <=? maxJSONRequestBodyBytes then (text, EndOfFile)
    else (take maxJSONRequestBodyBytes text, LimitReached) in
  match Decode k text ending with
  | DecodeTooLarge => Err TooLarge
  | DecodeEOF => Err (BadBody "EOF")
  | DecodeError msg => Err (BadBody msg)
  | Decoded a rest =>
      match Decode EmptyBody rest ending with
      | DecodeEOF => Ok a
      | Decoded _ _ => Err (BadBody "request body must contain a single JSON object")
      | DecodeTooLarge => Err TooLarge
      | DecodeError msg => Err (BadBody msg)
      end
  end.

(** ** Handlers *)

(** The answer of a tool. *)
Definition answer_tool (c : tool_call) (w : response) : response :=
  match run c with
  | Err msg => WriteInternalError encode msg w
  | Ok data => WriteSuccess encode data w
  end.

Definition httpListDatabases : handler := fun r => answer_tool CallListDatabases.
Definition httpListTables : handler := fun r => answer_tool (CallListTables (query_get r "database")).
Definition httpDescribeTable : handler := fun r => answer_tool (CallDescribeTable (query_get r "database") (query_get r "table")).
Definition httpPing : handler := fun r => answer_tool CallPing.
Definition httpServerInfo : handler := fun r =>
  answer_tool (CallServerInfo ((query_get r "detailed" =?s "1") || EqualFold (query_get r "detailed") "true")).
Definition httpListConnections : handler := fun r => answer_tool CallListConnections.
Definition httpListIndexes : handler := fun r => answer_tool (CallListIndexes (query_get r "database") (query_get r "table")).
Definition httpShowCreateTable : handler := fun r => answer_tool (CallShowCreateTable (query_get r "database") (query_get r "table")).
Definition httpListViews : handler := fun r => answer_tool (CallListViews (query_get r "database")).
Definition httpListTriggers : handler := fun r => answer_tool (CallListTriggers (query_get r "database")).
Definition httpListProcedures : handler := fun r => answer_tool (CallListProcedures (query_get r "database")).
Definition httpListFunctions : handler := fun r => answer_tool (CallListFunctions (query_get r "database")).
Definition httpListPartitions : handler := fun r => answer_tool (CallListPartitions (query_get r "database") (query_get r "table")).
Definition httpDatabaseSize : handler := fun r => answer_tool (CallDatabaseSize (query_get r "database")).
Definition httpTableSize : handler := fun r => answer_tool (CallTableSize (query_get r "database")).
Definition httpForeignKeys : handler := fun r => answer_tool (CallForeignKeys (query_get r "database") (query_get r "table")).
Definition httpListStatus : handler := fun r => answer_tool (CallListStatus (query_get r "pattern")).
Definition httpListVariables : handler := fun r => answer_tool (CallListVariables (query_get r "pattern")).
Definition httpProcessList : handler := fun r => answer_tool CallProcessList.
Definition httpVectorInfo : handler := fun r => answer_tool (CallVectorInfo (query_get r "database")).

(** The handlers with a body: [check] is the handler's own check of the decoded value. *)
Definition with_body (k : body_kind) (text : gostr) (check : body_input k -> option gostr) (call : body_input k -> tool_call)
    (w : response) : response :=
  match decodeJSONBody k text with
  | Err TooLarge => WriteError encode 413 "request body too large" w
  | Err (BadBody msg) => WriteBadRequest encode ("invalid JSON body: " ++ msg) w
  | Ok input =>
      match check input with
      | Some msg => WriteBadRequest encode msg w
      | None => answer_tool (call input) w
      end
  end.
Definition httpRunQuery (body : gostr) : handler := fun _ =>
  with_body RunQueryBody body (fun i => if is_empty (SQL i) then Some ("sql field is required" : gostr) else None) CallRunQuery.
Definition httpUseConnection (body : gostr) : handler := fun _ =>
  with_body UseConnectionBody body (fun name => if is_empty name then Some ("name field is required" : gostr) else None) CallUseConnection.
Definition httpExplainQuery (body : gostr) : handler := fun _ =>
  with_body ExplainBody body (fun i => if is_empty (ex_SQL i) then Some ("sql field is required" : gostr) else None) CallExplainQuery.
Definition httpKillQuery (body : gostr) : handler := fun _ =>
  with_body KillBody body (fun id => if (id <=? 0)%Z then Some ("id must be a positive integer" : gostr) else None) CallKillQuery.
Definition httpVectorSearch (body : gostr) : handler := fun _ =>
  with_body VectorBody body (fun _ => None) CallVectorSearch.

(** An optional positive number in the query. *)
Definition with_number (name : gostr) (call : Z -> tool_call) : handler := fun r w =>
  let s := query_get r name in
  if is_empty s then answer_tool (call 0%Z) w
  else match Atoi s with
  | None => WriteBadRequest encode ("invalid " ++ name ++ " parameter") w
  | Some n => if (n <=? 0)%Z then WriteBadRequest encode (name ++ " must be a positive integer") w
              else answer_tool (call n) w
  end.
Definition httpReadAuditLog : handler := with_number "lines" CallReadAuditLog.
Definition httpSlowQueryLog : handler := with_number "limit" CallSlowQueryLog.

(** ** Routes *)
Variable c : Config.
(** [extendedMode] and the parameters of startHTTPServer; [auditEnabled]: the audit logger
    exists and is enabled. *)
Variables (extendedMode vectorMode tokenCardEnabled auditEnabled : bool).
(** The JSON texts of the health status, of the index and of the token snapshot. *)
Variables (healthStatus apiIndex snapshot : gostr).
(** httpStatusPage: a constant page. *)
Variable statusPage : response -> response.

Definition httpHealth : handler := fun _ => WriteSuccess encode healthStatus.
Definition httpAPIIndex : handler := fun _ => WriteSuccess encode apiIndex.
Definition httpMetricsTokens : handler := fun _ => WriteSuccess encode snapshot.
Definition httpStatusPage : handler := fun _ => statusPage.

Definition read_audit_ok : bool := ReadAuditTool c && auditEnabled && negb (is_empty (AuditLogPath c)).
Definition extendedFeature : handler -> handler := RequireFeature encode extendedMode "extended mode (set MYSQL_MCP_EXTENDED=1)".
Definition processAdminFeature : handler -> handler :=
  RequireFeature encode (ProcessAdmin c) "process admin tools (set MYSQL_MCP_PROCESS_ADMIN=1)".
Definition readAuditFeature : handler -> handler :=
  RequireFeature encode read_audit_ok "read_audit_log (MYSQL_MCP_READ_AUDIT_TOOL=1 and MYSQL_MCP_AUDIT_LOG)".
Definition slowQueryFeature : handler -> handler :=
  RequireFeature encode (SlowQueryTool c) "slow_query_log (set MYSQL_MCP_SLOW_QUERY_TOOL=1)".
Definition vectorFeature : handler -> handler := RequireFeature encode vectorMode "vector mode (set MYSQL_MCP_VECTOR=1)".

Definition routes (body : gostr) : list (gostr * handler) :=
  let cors := WithCORS encode in
  let post := RequirePOST encode in
  let db := RequireQueryParam encode "database" in
  let db_table := RequireQueryParams encode ["database"; "table"] in
  [("/health", cors httpHealth); ("/api", cors httpAPIIndex); ("/api/metrics/tokens", cors httpMetricsTokens)] ++
  (if tokenCardEnabled then [("/status" : gostr, httpStatusPage)] else []) ++
  [("/api/databases", cors httpListDatabases);
   ("/api/tables", Chain httpListTables [cors; db]);
   ("/api/describe", Chain httpDescribeTable [cors; db_table]);
   ("/api/query", Chain (httpRunQuery body) [cors; post]);
   ("/api/ping", cors httpPing);
   ("/api/server-info", cors httpServerInfo);
   ("/api/connections", cors httpListConnections);
   ("/api/connections/use", Chain (httpUseConnection body) [cors; post]);
   ("/api/indexes", Chain httpListIndexes [cors; extendedFeature; db_table]);
   ("/api/create-table", Chain httpShowCreateTable [cors; extendedFeature; db_table]);
   ("/api/explain", Chain (httpExplainQuery body) [cors; extendedFeature; post]);
   ("/api/views", Chain httpListViews [cors; extendedFeature; db]);
   ("/api/triggers", Chain httpListTriggers [cors; extendedFeature; db]);
   ("/api/procedures", Chain httpListProcedures [cors; extendedFeature; db]);
   ("/api/functions", Chain httpListFunctions [cors; extendedFeature; db]);
   ("/api/partitions", Chain httpListPartitions [cors; extendedFeature; db; RequireQueryParam encode "table"]);
   ("/api/size/database", Chain httpDatabaseSize [cors; extendedFeature]);
   ("/api/size/tables", Chain httpTableSize [cors; extendedFeature; db]);
   ("/api/foreign-keys", Chain httpForeignKeys [cors; extendedFeature; db]);
   ("/api/status", Chain httpListStatus [cors; extendedFeature]);
   ("/api/variables", Chain httpListVariables [cors; extendedFeature]);
   ("/api/processlist", Chain httpProcessList [cors; extendedFeature; processAdminFeature]);
   ("/api/kill", Chain (httpKillQuery body) [cors; extendedFeature; processAdminFeature; post]);
   ("/api/audit-log", Chain httpReadAuditLog [cors; extendedFeature; readAuditFeature]);
   ("/api/slow-log", Chain httpSlowQueryLog [cors; extendedFeature; slowQueryFeature]);
   ("/api/vector/search", Chain (httpVectorSearch body) [cors; vectorFeature; post]);
   ("/api/vector/info", Chain httpVectorInfo [cors; vectorFeature; db])].

(** The mux: an exact route, the subtree of /api/, or not found. *)
Definition serve_mux (body : gostr) : handler := clean_first (fun r w =>
  match List.find (fun ph => fst ph =?s Path r) (routes body) with
  | Some (_, h) => h r w
  | None => if HasPrefix (Path r) "/api/" then WithCORS encode httpAPIIndex r w
            else http_Error "404 page not found" 404 w
  end).

(** The handler of startHTTPServer: the rate limit, the log, the mux. *)
Definition rest_handler (now : Z) (rl : option RateLimiter) (body : gostr) (r : request) (w : response)
    : option RateLimiter * response :=
  WithRateLimit encode now rl (fun r w => fst (WithLogging (serve_mux body) r w)) r w.

(** startTokenMetricsHTTPServer: no route reaches a tool. *)
Definition metrics_mux (index : gostr) : handler := clean_first (fun r w =>
  let index_handler : handler := fun r w =>
    if negb (Path r =?s "/api") && negb (Path r =?s "/api/") then http_Error "404 page not found" 404 w
    else WriteSuccess encode index w in
  if Path r =?s "/health" then WithCORS encode httpHealth r w
  else if Path r =?s "/api/metrics/tokens" then WithCORS encode httpMetricsTokens r w
  else if tokenCardEnabled && (Path r =?s "/status") then httpStatusPage r w
  else if (Path r =?s "/api") || HasPrefix (Path r) "/api/" then WithCORS encode index_handler r w
  else http_Error "404 page not found" 404 w).
End Rest.

(** ** The tools by name, and the route of each *)
Definition tool_name (call : tool_call) : gostr :=
  match call with
  | CallListDatabases => "list_databases" | CallListTables _ => "list_tables" | CallDescribeTable _ _ => "describe_table"
  | CallRunQuery _ => "run_query" | CallPing => "ping" | CallServerInfo _ => "server_info"
  | CallListConnections => "list_connections" | CallUseConnection _ => "use_connection"
  | CallListIndexes _ _ => "list_indexes" | CallShowCreateTable _ _ => "show_create_table"
  | CallExplainQuery _ => "explain_query" | CallListViews _ => "list_views" | CallListTriggers _ => "list_triggers"
  | CallListProcedures _ => "list_procedures" | CallListFunctions _ => "list_functions"
  | CallListPartitions _ _ => "list_partitions" | CallDatabaseSize _ => "database_size" | CallTableSize _ => "table_size"
  | CallForeignKeys _ _ => "foreign_keys" | CallListStatus _ => "list_status" | CallListVariables _ => "list_variables"
  | CallProcessList => "process_list" | CallKillQuery _ => "kill_query" | CallReadAuditLog _ => "read_audit_log"
  | CallSlowQueryLog _ => "slow_query_log" | CallVectorSearch _ => "vector_search" | CallVectorInfo _ => "vector_info"
  end.
Definition rest_routes : list (gostr * (gostr * gostr)) :=
  let get (t p : gostr) := (t, ("GET" : gostr, p)) in
  let post (t p : gostr) := (t, ("POST" : gostr, p)) in
  [get "list_databases" "/api/databases"; get "list_tables" "/api/tables"; get "describe_table" "/api/describe";
   post "run_query" "/api/query"; get "ping" "/api/ping"; get "server_info" "/api/server-info";
   get "list_connections" "/api/connections"; post "use_connection" "/api/connections/use";
   get "list_indexes" "/api/indexes"; get "show_create_table" "/api/create-table"; post "explain_query" "/api/explain";
   get "list_views" "/api/views"; get "list_triggers" "/api/triggers"; get "list_procedures" "/api/procedures";
   get "list_functions" "/api/functions"; get "list_partitions" "/api/partitions"; get "database_size" "/api/size/database";
   get "table_size" "/api/size/tables"; get "foreign_keys" "/api/foreign-keys"; get "list_status" "/api/status";
   get "list_variables" "/api/variables"; get "process_list" "/api/processlist"; post "kill_query" "/api/kill";
   get "read_audit_log" "/api/audit-log"; get "slow_query_log" "/api/slow-log"; post "vector_search" "/api/vector/search";
   get "vector_info" "/api/vector/info"].
Definition rest_route (t : gostr) : gostr * gostr :=
  match List.find (fun tr => fst tr =?s t) rest_routes with Some (_, mp) => mp | None => ([], []) end.

(** ** The gates *)
Section Gates.
Variable encode : payload -> gostr.
Variable Decode : forall k : body_kind, gostr -> stream_end -> decoded (body_input k).
Variable c : Config.
Variables (extendedMode vectorMode tokenCardEnabled auditEnabled : bool).

(** What holds of a request that runs a tool. *)
Definition permitted (r : request) (call : tool_call) : Prop :=
  Method r <> "OPTIONS" /\ Path r = snd (rest_route (tool_name call)) /\
  match call with
  | CallListDatabases | CallPing | CallServerInfo _ | CallListConnections => True
  | CallListTables db => db <> []
  | CallDescribeTable db table => db <> [] /\ table <> []
  | CallRunQuery input => Method r = "POST" /\ SQL input <> []
  | CallUseConnection name => Method r = "POST" /\ name <> []
  | CallListIndexes db table | CallShowCreateTable db table | CallListPartitions db table =>
      extendedMode = true /\ db <> [] /\ table <> []
  | CallExplainQuery input => extendedMode = true /\ Method r = "POST" /\ ex_SQL input <> []
  | CallListViews db | CallListTriggers db | CallListProcedures db | CallListFunctions db | CallTableSize db
  | CallForeignKeys db _ => extendedMode = true /\ db <> []
  | CallDatabaseSize _ | CallListStatus _ | CallListVariables _ => extendedMode = true
  | CallProcessList => extendedMode = true /\ ProcessAdmin c = true
  | CallKillQuery id => extendedMode = true /\ ProcessAdmin c = true /\ Method r = "POST" /\ (0 < id)%Z
  | CallReadAuditLog n => extendedMode = true /\ read_audit_ok c auditEnabled = true /\ (0 <= n)%Z
  | CallSlowQueryLog n => extendedMode = true /\ SlowQueryTool c = true /\ (0 <= n)%Z
  | CallVectorSearch _ => vectorMode = true /\ Method r = "POST"
  | CallVectorInfo db => vectorMode = true /\ db <> []
  end.

(** A handler that runs at most one tool, and then a permitted one; otherwise its answer
    does not depend on the tools. *)
Definition gated (h : (tool_call -> result gostr gostr) -> handler) (r : request) : Prop :=
  forall w, (exists w', forall run, h run r w = w') \/
            (exists call w', permitted r call /\ forall run, h run r w = answer_tool encode run call w').

Lemma in_gated h r w : gated h r ->
  (exists w', forall run, h run r w = w') \/
  (exists call w', permitted r call /\ forall run, h run r w = answer_tool encode run call w').
Proof. intros Hh. apply Hh. Qed.
Lemma gated_const (h : handler) (r : request) : gated (fun _ => h) r.
Proof. intros w. left. by eexists. Qed.
Lemma gated_tool (call : request -> tool_call) (r : request) :
  permitted r (call r) -> gated (fun run r => answer_tool encode run (call r)) r.
Proof. intros Hp w. right. by exists (call r), w. Qed.

Lemma not_options (r : request) : is_options r = false -> Method r <> "OPTIONS".
Proof. unfold is_options. by intros ?%str_eqb_neq. Qed.

Lemma gated_cors h r : (Method r <> "OPTIONS" -> gated h r) -> gated (fun run => WithCORS encode (h run)) r.
Proof.
  intros Hh w. unfold WithCORS. destruct (is_options r) eqn:Ho; [left; by eexists|]. apply Hh. by apply not_options.
Qed.
Lemma gated_feature enabled name h r : (enabled = true -> gated h r) -> gated (fun run => RequireFeature encode enabled name (h run)) r.
Proof.
  intros Hh w. unfold RequireFeature. destruct (is_options r); [left; by eexists|].
  destruct enabled; cbn [negb]; [by apply Hh | left; by eexists].
Qed.
Lemma gated_post h r : (Method r = "POST" -> gated h r) -> gated (fun run => RequirePOST encode (h run)) r.
Proof.
  intros Hh w. unfold RequirePOST, RequireMethod. destruct (is_options r); [left; by eexists|].
  destruct (Method r =?s "POST") eqn:Hm; cbn [negb]; [apply str_eqb_eq in Hm; by apply Hh | left; by eexists].
Qed.
Lemma gated_param name h r : (query_get r name <> [] -> gated h r) -> gated (fun run => RequireQueryParam encode name (h run)) r.
Proof.
  intros Hh w. unfold RequireQueryParam. destruct (is_options r); [left; by eexists|].
  destruct (is_empty (query_get r name)) eqn:He; [left; by eexists|]. apply is_empty_false in He. by apply Hh.
Qed.
Lemma gated_params names h r :
  (Forall (fun name => query_get r name <> []) names -> gated h r) -> gated (fun run => RequireQueryParams encode names (h run)) r.
Proof.
  intros Hh w. unfold RequireQueryParams. destruct (is_options r); [left; by eexists|].
  destruct (first_err _ names) eqn:He; [left; by eexists|]. apply Hh. rewrite first_err_None in He.
  apply list.Forall_forall. intros name Hin. specialize (He name Hin). cbn in He.
  destruct (is_empty (query_get r name)) eqn:Hq; [done|]. by apply is_empty_false in Hq.
Qed.
Lemma gated_body k text check call r :
  (forall a, check a = None -> permitted r (call a)) -> gated (fun run _ => with_body encode Decode run k text check call) r.
Proof.
  intros Hcall w. unfold with_body. destruct (decodeJSONBody Decode k text) as [a|[|msg]]; [|left; by eexists..].
  destruct (check a) eqn:Hc; [left; by eexists|]. right. exists (call a), w. split; [by apply Hcall | done].
Qed.
Lemma gated_number name call r :
  (forall n, (0 <= n)%Z -> permitted r (call n)) -> gated (fun run => with_number encode run name call) r.
Proof.
  intros Hcall w. unfold with_number. destruct (is_empty (query_get r name)).
  { right. exists (call 0%Z), w. split; [by apply Hcall | done]. }
  destruct (Atoi (query_get r name)) as [n|]; [|left; by eexists]. destruct (Z.leb_spec n 0); [left; by eexists|].
  right. exists (call n), w. split; [apply Hcall; lia | done].
Qed.

(** Close the gates of one route. *)
Ltac through_gates :=
  repeat first
    [ apply gated_cors; intro | apply gated_feature; intro | apply gated_post; intro | apply gated_param; intro
    | apply gated_params; let H := fresh in intro H; apply list.Forall_cons in H as [? H];
      try apply list.Forall_cons in H as [? _] ].
(** The handler of a goal about its answers. *)
Ltac as_gated :=
  lazymatch goal with
  | |- (exists w', forall run : ?T, @?answer run = w') \/ _ =>
      let h := constr:(fun run : T => ltac:(let t := eval cbv beta in (answer run) in lazymatch t with ?f _ _ => exact f end)) in
      apply (in_gated h)
  end.
Ltac permit := unfold permitted; repeat (split; [done|]); try done.
Ltac at_tool :=
  first
    [ apply gated_const
    | apply gated_tool; permit
    | apply gated_body; intros a Ha; permit;
      try (destruct (is_empty _) eqn:He in Ha; [done | by apply is_empty_false in He]);
      try (destruct (Z.leb_spec a 0); [done | lia])
    | apply gated_number; intros; permit ].

Lemma serve_mux_gated healthStatus apiIndex snapshot statusPage (body : gostr) (r : request) :
  gated (fun run => serve_mux encode Decode run c extendedMode vectorMode tokenCardEnabled auditEnabled
                      healthStatus apiIndex snapshot statusPage body) r.
Proof.
  intros w. unfold serve_mux, clean_first. destruct (path_is_clean r); [|left; by eexists]. unfold routes, httpListDatabases, httpListTables, httpDescribeTable, httpRunQuery, httpPing, httpServerInfo,
    httpListConnections, httpUseConnection, httpListIndexes, httpShowCreateTable, httpExplainQuery, httpListViews, httpListTriggers,
    httpListProcedures, httpListFunctions, httpListPartitions, httpDatabaseSize, httpTableSize, httpForeignKeys, httpListStatus,
    httpListVariables, httpProcessList, httpKillQuery, httpReadAuditLog, httpSlowQueryLog, httpVectorSearch, httpVectorInfo,
    extendedFeature, processAdminFeature, readAuditFeature, slowQueryFeature, vectorFeature.
  destruct tokenCardEnabled; cbn [app List.find fst Chain fold_right].
  all: repeat match goal with
    | |- context [if (?s =?s Path ?rr) then _ else _] =>
        let Hpath := fresh "Hpath" in
        destruct (s =?s Path rr) eqn:Hpath;
        [apply str_eqb_eq in Hpath; cbv iota; as_gated; through_gates; at_tool|]
    end.
  all: match goal with |- context [HasPrefix ?p ?q] => destruct (HasPrefix p q) end; [cbv iota|left; by eexists];
    as_gated; apply gated_cors; intro; apply gated_const.
Qed.
End Gates.

(** C31: The REST API runs a tool only through its gates.  Whatever the request, its body and
    the answers of the tools, either the response does not depend on any tool, or it is the
    answer of exactly one call, the one of the path requested, made without OPTIONS, with its
    feature switched on (extended mode, process administration, audit reading, slow log,
    vector mode), by POST where the call acts on a body, and with its required parameters.  A request over the rate limit
    gets status 429 and reaches no tool. *)
Theorem rest_api_runs_only_permitted_tools encode Decode c extendedMode vectorMode tokenCardEnabled auditEnabled
    healthStatus apiIndex snapshot statusPage (body : gostr) (r : request) (w : response) :
  let serve run := serve_mux encode Decode run c extendedMode vectorMode tokenCardEnabled auditEnabled
                     healthStatus apiIndex snapshot statusPage body in
  let handler run := rest_handler encode Decode run c extendedMode vectorMode tokenCardEnabled auditEnabled
                     healthStatus apiIndex snapshot statusPage in
  ((exists w', forall run, serve run r w = w') \/
   (exists call w', permitted c extendedMode vectorMode auditEnabled r call /\
      forall run, serve run r w = answer_tool encode run call w')) /\
  forall run now limiter, Method r <> "OPTIONS" -> snd (Allow now (getClientIP r) limiter) = false ->
    snd (handler run now (Some limiter) body r w) =
      WriteError encode 429 "rate limit exceeded" (set_header "Retry-After" "1" w).
Proof.
  cbv zeta. split; [apply serve_mux_gated|]. intros run now limiter Hm Hallow. unfold rest_handler, WithRateLimit.
  destruct (Method r =?s "OPTIONS") eqn:E; [by apply str_eqb_eq in E|].
  destruct (Allow now (getClientIP r) limiter) as [l []]; [done | done].
Qed.

(** The gate of the extended mode: without it the route answers 404, with it 200. *)
Definition views_request : request :=
  {| Method := "GET"; Path := "/api/views"; ReqHost := "localhost:9306"; RemoteAddr := "127.0.0.1:5000"; LocalAddr := None;
     Header := ∅; Query := {[("database" : gostr) := ["app" : gostr]]} |}.
Definition fresh_response : response := {| headers := ∅; status := None; body := []; codes := [] |}.
Definition plain_encode (p : payload) : gostr := match p with NilPayload => "null" | SuccessPayload d => d | ErrorPayload m => m end.
Definition no_bodies (k : body_kind) (s : gostr) (e : stream_end) : decoded (body_input k) := DecodeEOF.
Definition name_the_call (call : tool_call) : result gostr gostr :=
  match call with CallListViews db => Ok ("views of " ++ db) | _ => Err "no" end.
Example views_route_ex :
  let serve extended := serve_mux plain_encode no_bodies name_the_call default_config extended false false false "" "" "" (fun w => w) ""
                          views_request fresh_response in
  (status (serve false), status (serve true), Http.body (serve true)) = (Some 404%Z, Some 200%Z, ["views of app" : gostr]).
Proof. vm_compute. reflexivity. Qed.
