(* ===== verification/Main.v ===== *)
(** cmd/mysql-mcp-server/main.go, daemon_unix.go, daemon_windows.go and the preflight of serve.go: the command line, the
    variables set from the configuration, the choice of the server, and the tools it
    registers. *)
From S2P Require Import Prelude Unicode GoStrings GoNum GoFmt GoNet Config Retry Http AuditLog QueryTools Explain Vector Rest.

(** ** The command line *)
Inductive action := NoAction | VersionAction | HelpAction | PrintConfig | ValidateConfig | InstallSchema.
Inductive arg_error :=
| ConfigNeedsPath | ValidateNeedsPath | InstallOnly (flag : gostr) | ConnectionNeedsName | UnknownFlag (flag : gostr).
Record parsedArgs := {
  pa_action : action; configPath : gostr; validatePath : gostr; silent : bool; daemon : bool; tokenCardFlag : bool;
  installPrint : bool; installUninstall : bool; installConn : gostr; pa_err : option arg_error
}.
Definition no_args : parsedArgs :=
  {| pa_action := NoAction; configPath := []; validatePath := []; silent := false; daemon := false; tokenCardFlag := false;
     installPrint := false; installUninstall := false; installConn := []; pa_err := None |}.

(** Assignments to a field. *)
Definition set_action (a : action) (p : parsedArgs) : parsedArgs :=
  {| pa_action := a; configPath := configPath p; validatePath := validatePath p; silent := silent p; daemon := daemon p;
     tokenCardFlag := tokenCardFlag p; installPrint := installPrint p; installUninstall := installUninstall p;
     installConn := installConn p; pa_err := pa_err p |}.
Definition set_config (path : gostr) (p : parsedArgs) : parsedArgs :=
  {| pa_action := pa_action p; configPath := path; validatePath := validatePath p; silent := silent p; daemon := daemon p;
     tokenCardFlag := tokenCardFlag p; installPrint := installPrint p; installUninstall := installUninstall p;
     installConn := installConn p; pa_err := pa_err p |}.
Definition set_validate (path : gostr) (p : parsedArgs) : parsedArgs :=
  {| pa_action := ValidateConfig; configPath := configPath p; validatePath := path; silent := silent p; daemon := daemon p;
     tokenCardFlag := tokenCardFlag p; installPrint := installPrint p; installUninstall := installUninstall p;
     installConn := installConn p; pa_err := pa_err p |}.
Definition set_flags (s d t : bool) (p : parsedArgs) : parsedArgs :=
  {| pa_action := pa_action p; configPath := configPath p; validatePath := validatePath p; silent := s; daemon := d;
     tokenCardFlag := t; installPrint := installPrint p; installUninstall := installUninstall p;
     installConn := installConn p; pa_err := pa_err p |}.
Definition set_install (pr un : bool) (conn : gostr) (p : parsedArgs) : parsedArgs :=
  {| pa_action := pa_action p; configPath := configPath p; validatePath := validatePath p; silent := silent p; daemon := daemon p;
     tokenCardFlag := tokenCardFlag p; installPrint := pr; installUninstall := un; installConn := conn; pa_err := pa_err p |}.
Definition set_err (e : arg_error) (p : parsedArgs) : parsedArgs :=
  {| pa_action := pa_action p; configPath := configPath p; validatePath := validatePath p; silent := silent p; daemon := daemon p;
     tokenCardFlag := tokenCardFlag p; installPrint := installPrint p; installUninstall := installUninstall p;
     installConn := installConn p; pa_err := Some e |}.

(** The cases of the switch. *)
Inductive arg_case :=
| AVersion | AHelp | AConfig | APrintConfig | AValidate | ASilent | ADaemon | ATokenCard | AInstall | APrint | AUninstall
| AConnection | AConfigEq (path : gostr) | AUnknown.
Definition classify_arg (arg : gostr) : arg_case :=
  if one_of arg (["--version"; "-v"] : list gostr) then AVersion
  else if one_of arg (["--help"; "-h"; "help"] : list gostr) then AHelp
  else if one_of arg (["--config"; "-c"] : list gostr) then AConfig
  else if arg =?s "--print-config" then APrintConfig
  else if arg =?s "--validate-config" then AValidate
  else if one_of arg (["--silent"; "-s"] : list gostr) then ASilent
  else if one_of arg (["--daemon"; "-d"] : list gostr) then ADaemon
  else if arg =?s "--token-card" then ATokenCard
  else if arg =?s "install-schema" then AInstall
  else if arg =?s "--print" then APrint
  else if arg =?s "--uninstall" then AUninstall
  else if arg =?s "--connection" then AConnection
  else if (9 <? length arg) && (take 9 arg =?s "--config=") then AConfigEq (drop 9 arg)
  else AUnknown.
Definition is_install (p : parsedArgs) : bool := match pa_action p with InstallSchema => true | _ => false end.

Fixpoint parse_go (args : list gostr) (p : parsedArgs) : parsedArgs :=
  match args with
  | [] => p
  | arg :: args =>
      match classify_arg arg with
      | AVersion => set_action VersionAction p
      | AHelp => set_action HelpAction p
      | AConfig => match args with [] => set_err ConfigNeedsPath p | path :: args => parse_go args (set_config path p) end
      | APrintConfig => parse_go args (set_action PrintConfig p)
      | AValidate => match args with [] => set_err ValidateNeedsPath p | path :: args => parse_go args (set_validate path p) end
      | ASilent => parse_go args (set_flags true (daemon p) (tokenCardFlag p) p)
      | ADaemon => parse_go args (set_flags (silent p) true (tokenCardFlag p) p)
      | ATokenCard => parse_go args (set_flags (silent p) (daemon p) true p)
      | AInstall => parse_go args (set_action InstallSchema p)
      | APrint => if negb (is_install p) then set_err (InstallOnly arg) p
                  else parse_go args (set_install true (installUninstall p) (installConn p) p)
      | AUninstall => if negb (is_install p) then set_err (InstallOnly arg) p
                      else parse_go args (set_install (installPrint p) true (installConn p) p)
      | AConnection =>
          if negb (is_install p) then set_err (InstallOnly arg) p
          else match args with
          | [] => set_err ConnectionNeedsName p
          | name :: args => parse_go args (set_install (installPrint p) (installUninstall p) name p)
          end
      | AConfigEq path => parse_go args (set_config path p)
      | AUnknown => set_err (UnknownFlag arg) p
      end
  end.
Definition parseArgs (args : list gostr) : parsedArgs := parse_go args no_args.

Example parseArgs_ex :
  parseArgs ["--config=/etc/x.yaml" : gostr; "-d"; "--token-card"] =
    set_flags false true true (set_config "/etc/x.yaml" no_args) /\
  pa_err (parseArgs ["--print" : gostr]) = Some (InstallOnly "--print") /\
  pa_err (parseArgs ["-c" : gostr]) = Some ConfigNeedsPath.
Proof. vm_compute. done. Qed.

(** The arguments of the detached child (maybeDaemonize). *)
Definition daemon_flag (a : gostr) : bool := (a =?s "--daemon") || (a =?s "-d").
Definition daemon_args (args : list gostr) : list gostr := filter (fun a => daemon_flag a = false) args.

(** ** The variables set from the configuration *)
Definition set_globals (c : Config) (allowed : gset gostr) : globals :=
  let maxInterval := DBRetryMaxInterval c in
  {| g_maxRows := MaxRows c; g_pingTimeout := PingTimeout c;
     g_retry := {| MaxRetries := DBRetryMaxRetries c;
                   MaxInterval := if (maxInterval <=? 0)%Z then duration 10 Second else maxInterval |};
     g_mask := MaskColumns c; g_allowed := allowed; g_allowSystemSchemas := AllowSystemSchemas c |}.
Definition token_card (c : Config) (p : parsedArgs) : bool := TokenCard c || tokenCardFlag p.

(** ** What main starts *)
Inductive launch :=
| ArgumentError (e : arg_error) | Immediate (a : action) | DaemonNeedsHTTP | DaemonFails (e : goerr)
| Detach (child : list gostr)      (* the parent starts the child and exits *)
| RestServer | MCPOverHTTP | MCPOverStdio (sidecar : bool).

Definition choose_server (c : Config) : launch :=
  if HTTPMode c then RestServer
  else if Transport c =?s "http" then MCPOverHTTP
  else MCPOverStdio (MetricsHTTP c).
(** maybeDaemonize, called with the daemon flag set: the arguments of the child, for which the
    parent exits; on Windows it returns. *)
Definition maybeDaemonize (args : list gostr) : option (list gostr) := Some (daemon_args args).
Definition maybeDaemonize_windows (args : list gostr) : option (list gostr) := None.
Definition daemonize (windows : bool) : list gostr -> option (list gostr) := if windows then maybeDaemonize_windows else maybeDaemonize.
(** main up to the start of a server, where [c] is the configuration that was loaded and
    [preflight] the result of preflightHTTPListener; a failure of Load, of the audit log or of
    every connection ends main earlier. *)
Definition main_launch (windows : bool) (args : list gostr) (c : Config) (preflight : option goerr) : launch :=
  let p := parseArgs args in
  match pa_err p with
  | Some e => ArgumentError e
  | None =>
      match pa_action p with
      | NoAction =>
          if daemon p then
            if negb (HTTPMode c) && negb (Transport c =?s "http") then DaemonNeedsHTTP
            else match preflight with
            | Some e => DaemonFails e
            | None => match daemonize windows args with Some child => Detach child | None => choose_server c end
            end
          else choose_server c
      | a => Immediate a
      end
  end.

(** preflightHTTPListener: the address, and whether a key pair is checked first. *)
Definition preflight_address (c : Config) : gostr :=
  if negb (HTTPMode c) && (Transport c =?s "http") then JoinHostPort (MCPHTTPBind c) (Itoa (HTTPPort c))
  else ":" ++ Itoa (HTTPPort c).
Definition preflight_key (c : Config) : bool :=
  negb (HTTPMode c) && (Transport c =?s "http") && negb (is_empty (MCPHTTPTLSCert c)).
Definition preflightHTTPListener (c : Config) (load_key : option goerr) (listen : gostr -> option goerr)
    (close : option goerr) : option goerr :=
  match (if preflight_key c then load_key else None) with
  | Some e => Some (Wrap "MCP HTTP TLS certificate/key" e)
  | None => match listen (preflight_address c) with
            | Some e => Some (Wrap ("cannot listen on " ++ preflight_address c) e)
            | None => close
            end
  end.

(** ** Tool registration *)
Definition core_tools : list gostr := ["list_databases"; "list_tables"; "describe_table"; "run_query"; "ping"; "server_info"].
Definition connection_tools : list gostr := ["list_connections"; "use_connection"].
Definition vector_tools : list gostr := ["vector_search"; "vector_info"].
(** The tools of registerExtendedTools that are always registered. *)
Definition catalog_tools : list gostr :=
  ["list_indexes"; "show_create_table"; "explain_query"; "list_views"; "list_triggers"; "list_procedures"; "list_functions";
   "list_partitions"; "database_size"; "table_size"; "foreign_keys"; "list_status"; "list_variables"; "search_schema"; "schema_diff"].
Definition registerExtendedTools (c : Config) (auditEnabled addConnection : bool) : list gostr :=
  (if ProcessAdmin c then ["process_list"; "kill_query"] else []) ++
  (if read_audit_ok c auditEnabled then ["read_audit_log"] else []) ++
  (if SlowQueryTool c then ["slow_query_log"] else []) ++
  catalog_tools ++
  (if addConnection then ["add_connection"] else []).
(** The tools of buildMCPServer; [addConnection]: MYSQL_MCP_ENABLE_ADD_CONNECTION is 1. *)
Definition buildMCPServer (c : Config) (auditEnabled addConnection : bool) : list gostr :=
  core_tools ++ connection_tools ++ (if VectorMode c then vector_tools else []) ++
  (if ExtendedMode c then registerExtendedTools c auditEnabled addConnection else []).

(** ** The detached child *)

(** The arguments that are read as values of an option. *)
Fixpoint option_values (args : list gostr) : list gostr :=
  match args with
  | [] => []
  | arg :: args =>
      match classify_arg arg, args with
      | AConfig, v :: args | AValidate, v :: args | AConnection, v :: args => v :: option_values args
      | _, _ => option_values args
      end
  end.
(** The same arguments without the daemon flag. *)
Definition detached (p : parsedArgs) : parsedArgs := set_flags (silent p) false (tokenCardFlag p) p.

Lemma classify_daemon (a : gostr) : daemon_flag a = true <-> classify_arg a = ADaemon.
Proof.
  unfold daemon_flag. rewrite orb_true_iff, !str_eqb_eq. split; [by intros [->| ->]|].
  unfold classify_arg, one_of. cbn [existsb].
  repeat match goal with |- context [if ?b then _ else _] => destruct b eqn:?; try done end. intros _.
  match goal with H : (a =?s "--daemon") || _ = true |- _ => rewrite !orb_true_iff, !str_eqb_eq in H; destruct H as [->|[->|]]; auto; done end.
Qed.

Lemma daemon_args_cons (a : gostr) (args : list gostr) :
  daemon_args (a :: args) = if daemon_flag a then daemon_args args else a :: daemon_args args.
Proof.
  unfold daemon_args. rewrite filter_cons. destruct (daemon_flag a); [by rewrite decide_False | by rewrite decide_True].
Qed.

Lemma parse_daemon_args (args : list gostr) (p : parsedArgs) :
  Forall (fun v => daemon_flag v = false) (option_values args) ->
  parse_go (daemon_args args) (detached p) = detached (parse_go args p).
Proof.
  remember (length args) as n eqn:Hn. revert args Hn p. induction n as [n IH] using lt_wf_ind. intros [|arg args] Hn p HF; [done|].
  assert (IHs : forall args' p', length args' < n -> Forall (fun v => daemon_flag v = false) (option_values args') ->
    parse_go (daemon_args args') (detached p') = detached (parse_go args' p')) by (intros args' p' Hl; by apply (IH (length args'))).
  clear IH. cbn [length] in Hn. rewrite daemon_args_cons. destruct (daemon_flag arg) eqn:Hd.
  { apply classify_daemon in Hd. cbn [option_values parse_go] in *. rewrite Hd in *.
    specialize (IHs args (set_flags (silent p) true (tokenCardFlag p) p) ltac:(lia)). apply IHs. by destruct args. }
  assert (Hc : classify_arg arg <> ADaemon) by (intros Hc; apply classify_daemon in Hc; congruence).
  cbn [parse_go option_values] in *.
  assert (Hvalue : forall (e : arg_error) (f : gostr -> parsedArgs -> parsedArgs), (forall v q, detached (f v q) = f v (detached q)) ->
    Forall (fun v => daemon_flag v = false) (match args with v :: args => v :: option_values args | [] => [] end) ->
    match daemon_args args with [] => set_err e (detached p) | v :: args => parse_go args (f v (detached p)) end =
    detached match args with [] => set_err e p | v :: args => parse_go args (f v p) end).
  { intros e f Hf Hv. destruct args as [|v args]; [done|]. apply list.Forall_cons in Hv as [Hv1 Hv].
    rewrite daemon_args_cons, Hv1, <- Hf. apply IHs; [cbn in *; lia | done]. }
  assert (Hflag : forall (p' : parsedArgs) (f : parsedArgs -> parsedArgs), detached (f p') = f (detached p') ->
    Forall (fun v => daemon_flag v = false) (option_values args) ->
    parse_go (daemon_args args) (f (detached p')) = detached (parse_go args (f p'))).
  { intros p' f Hf Hv. rewrite <- Hf. apply IHs; [lia | done]. }
  destruct (classify_arg arg) eqn:Harg; try done.
  - apply (Hvalue ConfigNeedsPath set_config); [done | by destruct args].
  - apply (Hflag p (set_action PrintConfig)); [done | by destruct args].
  - apply (Hvalue ValidateNeedsPath set_validate); [done | by destruct args].
  - apply (Hflag p (fun q => set_flags true (daemon q) (tokenCardFlag q) q)); [done | by destruct args].
  - apply (Hflag p (fun q => set_flags (silent q) (daemon q) true q)); [done | by destruct args].
  - apply (Hflag p (set_action InstallSchema)); [done | by destruct args].
  - change (is_install (detached p)) with (is_install p). destruct (negb (is_install p)); [done|].
    apply (Hflag p (fun q => set_install true (installUninstall q) (installConn q) q)); [done | by destruct args].
  - change (is_install (detached p)) with (is_install p). destruct (negb (is_install p)); [done|].
    apply (Hflag p (fun q => set_install (installPrint q) true (installConn q) q)); [done | by destruct args].
  - change (is_install (detached p)) with (is_install p). destruct (negb (is_install p)); [done|].
    apply (Hvalue ConnectionNeedsName (fun v q => set_install (installPrint q) (installUninstall q) v q)); [done | by destruct args].
  - apply (Hflag p (set_config path)); [done | by destruct args].
Qed.

(** C37: A daemon's child serves what was asked.  maybeDaemonize starts the child with every
    argument but the daemon flags; whatever the arguments, the child's command line parses to
    the same action, paths, flags and error as the parent's, with the daemon flag off, and
    when the parent detached, the child starts the server of the configuration in the
    foreground, an HTTP one, and never detaches again.  The value of an option must not look
    like the flag: the filter would drop it.  On Windows nothing is detached: --daemon makes
    the same checks, and the same process serves an HTTP server. *)
Theorem daemon_child_serves_what_was_asked (args : list gostr)
    (Hvalues : Forall (fun v => daemon_flag v = false) (option_values args)) :
  parseArgs (daemon_args args) = detached (parseArgs args) /\
  forall windows c preflight child, main_launch windows args c preflight = Detach child ->
    windows = false /\ child = daemon_args args /\
    (choose_server c = RestServer \/ choose_server c = MCPOverHTTP) /\
    forall preflight', main_launch windows child c preflight' = choose_server c.
Proof.
  assert (Heq : parseArgs (daemon_args args) = detached (parseArgs args)) by exact (parse_daemon_args args no_args Hvalues).
  split; [done|]. intros windows c preflight child. unfold main_launch at 1.
  assert (Hchosen : choose_server c <> Detach child) by (unfold choose_server; by destruct (HTTPMode c), (Transport c =?s "http")).
  destruct (pa_err (parseArgs args)) eqn:Herr; [done|]. destruct (pa_action (parseArgs args)) eqn:Hact; try done.
  destruct (daemon (parseArgs args)); [|done].
  destruct (negb (HTTPMode c) && negb (Transport c =?s "http")) eqn:Hhttp; [done|]. destruct preflight; [done|].
  destruct windows; [done|]. intros [= <-]. split; [done|]. split; [done|]. split.
  - unfold choose_server. destruct (HTTPMode c); [by left|]. destruct (Transport c =?s "http"); [by right | done].
  - intros preflight'. unfold main_launch. rewrite Heq. cbn. by rewrite Herr, Hact.
Qed.
Lemma daemon_child_serves_what_was_asked_witness :
  let args := ["-d"; "--config"; "/etc/mcp.yaml"; "--daemon"; "--silent"] : list gostr in
  parseArgs (daemon_args args) = detached (parseArgs args) /\ daemon (parseArgs args) = true.
Proof.
  split; [|done].
  apply (daemon_child_serves_what_was_asked ["-d"; "--config"; "/etc/mcp.yaml"; "--daemon"; "--silent"]). vm_compute. repeat constructor.
Defined.

(** The hypothesis is needed: a path that looks like the flag is lost. *)
Example daemon_drops_a_value :
  let args := ["-d"; "--config"; "-d"; "--silent"] : list gostr in
  pa_err (parseArgs args) = None /\ pa_err (parseArgs (daemon_args args)) = None /\
  configPath (parseArgs args) = "-d" /\ configPath (parseArgs (daemon_args args)) = "--silent".
Proof. vm_compute. done. Qed.

(** ** One set of tools behind both servers *)
(** The MCP tools without a route. *)
Definition mcp_only : list gostr := ["search_schema"; "schema_diff"; "add_connection"].

Section SameTools.
Variable encode : payload -> gostr.
Variable Decode : forall k : body_kind, gostr -> stream_end -> decoded (body_input k).
Variable c : Config.
Variables (tokenCardEnabled auditEnabled addConnection : bool).
Variables (healthStatus apiIndex snapshot : gostr) (statusPage : response -> response).

(** The REST API and the MCP server started from the same configuration. *)
Definition serve (run : tool_call -> result gostr gostr) : gostr -> handler :=
  serve_mux encode Decode run c (ExtendedMode c) (VectorMode c) tokenCardEnabled auditEnabled
    healthStatus apiIndex snapshot statusPage.
Definition mcp : list gostr := buildMCPServer c auditEnabled addConnection.

Lemma permitted_registered (r : request) (call : tool_call) :
  permitted c (ExtendedMode c) (VectorMode c) auditEnabled r call -> tool_name call ∈ mcp.
Proof.
  assert (Hcore : forall t, one_of t (core_tools ++ connection_tools) = true -> t ∈ mcp).
  { intros t Ht%one_of_elem. unfold mcp, buildMCPServer. rewrite app_assoc. apply elem_of_app. by left. }
  assert (Hvector : VectorMode c = true -> forall t, one_of t vector_tools = true -> t ∈ mcp).
  { intros HV t Ht%one_of_elem. unfold mcp, buildMCPServer. rewrite HV, !elem_of_app. tauto. }
  assert (Hext : ExtendedMode c = true -> forall t, t ∈ registerExtendedTools c auditEnabled addConnection -> t ∈ mcp).
  { intros HE t Ht. unfold mcp, buildMCPServer. rewrite HE, !elem_of_app. tauto. }
  assert (Hcat : ExtendedMode c = true -> forall t, one_of t catalog_tools = true -> t ∈ mcp).
  { intros HE t Ht%one_of_elem. apply Hext; [done|]. unfold registerExtendedTools. rewrite !elem_of_app. tauto. }
  unfold permitted. intros (_ & _ & Hp).
  destruct call; try (apply Hcore; reflexivity); try (apply Hcat; [apply Hp | reflexivity]); try (apply Hvector; [apply Hp | reflexivity]);
    (apply Hext; [apply Hp|]); destruct Hp as (_ & Hp & _) || destruct Hp as (_ & Hp); unfold registerExtendedTools; rewrite Hp;
    rewrite !elem_of_app; cbn [tool_name]; rewrite !elem_of_cons; tauto.
Qed.

(** A request that carries a database and a table. *)
Definition call_of_path (method path : gostr) : request :=
  {| Method := method; Path := path; ReqHost := "localhost:9306"; RemoteAddr := "127.0.0.1:5000"; LocalAddr := None; Header := ∅;
     Query := {[("database" : gostr) := ["d" : gostr]; ("table" : gostr) := ["t" : gostr]]} |}.
(** A call of the tool [t] that a request to its route makes. *)
Definition reaches (t : gostr) : Prop :=
  exists r body call, tool_name call = t /\ (Method r, Path r) = rest_route t /\
    forall w, exists w', forall run, serve run body r w = answer_tool encode run call w'.

Lemma with_body_runs k text (i : body_input k) check call w run :
  decodeJSONBody Decode k text = Ok i -> check i = None ->
  with_body encode Decode run k text check call w = answer_tool encode run (call i) w.
Proof. intros Hd Hc. unfold with_body. by rewrite Hd, Hc. Qed.

(** The body that a call needs. *)
Definition sends (k : body_kind) (good : body_input k -> Prop) : Prop :=
  exists text i, decodeJSONBody Decode k text = Ok i /\ good i.
Definition all_bodies : Prop :=
  sends RunQueryBody (fun i => SQL i <> []) /\ sends UseConnectionBody (fun name => name <> []) /\
  sends ExplainBody (fun i => ex_SQL i <> []) /\ sends KillBody (fun id => (0 < id)%Z) /\ sends VectorBody (fun _ => True).

(** The headers of WithCORS. *)
Definition cors_headers (w : response) : response :=
  set_header "Access-Control-Allow-Headers" "Content-Type"
    (set_header "Access-Control-Allow-Methods" "GET, POST, OPTIONS" (set_header "Access-Control-Allow-Origin" "*" w)).

(** A path that is routed to a tool; [Hd] and [Hg]: its body is decoded and passes the check. *)
Ltac at_route :=
  unfold serve, serve_mux, routes, extendedFeature, processAdminFeature, readAuditFeature, slowQueryFeature, vectorFeature;
  repeat match goal with H : _ = true |- _ => rewrite H; clear H end; destruct tokenCardEnabled.
Ltac route path call :=
  exists (call_of_path "GET" path), [], call; split; [reflexivity|]; split; [reflexivity|]; intros w; exists (cors_headers w); intros run; at_route;
  exact (eq_refl (answer_tool encode run call (cors_headers w))).
Ltac body_route path call text runs :=
  exists (call_of_path "POST" path), text, call; split; [reflexivity|]; split; [reflexivity|];
  intros w; exists (cors_headers w); intros run; at_route; exact (runs run (call_of_path "POST" path) (cors_headers w)).

Ltac each_tool Ht := repeat (apply elem_of_cons in Ht as [->|Ht]); [..|by apply not_elem_of_nil in Ht].

Lemma query_runs text i : decodeJSONBody Decode RunQueryBody text = Ok i -> SQL i <> [] ->
  forall run r w, httpRunQuery encode Decode run text r w = answer_tool encode run (CallRunQuery i) w.
Proof. intros Hd Hg%is_empty_false run r w. apply (with_body_runs RunQueryBody); [done|]. cbv beta. by rewrite Hg. Qed.
Lemma use_runs text i : decodeJSONBody Decode UseConnectionBody text = Ok i -> i <> [] ->
  forall run r w, httpUseConnection encode Decode run text r w = answer_tool encode run (CallUseConnection i) w.
Proof. intros Hd Hg%is_empty_false run r w. apply (with_body_runs UseConnectionBody); [done|]. cbv beta. by rewrite Hg. Qed.
Lemma explain_runs text i : decodeJSONBody Decode ExplainBody text = Ok i -> ex_SQL i <> [] ->
  forall run r w, httpExplainQuery encode Decode run text r w = answer_tool encode run (CallExplainQuery i) w.
Proof. intros Hd Hg%is_empty_false run r w. apply (with_body_runs ExplainBody); [done|]. cbv beta. by rewrite Hg. Qed.
Lemma kill_runs text i : decodeJSONBody Decode KillBody text = Ok i -> (0 < i)%Z ->
  forall run r w, httpKillQuery encode Decode run text r w = answer_tool encode run (CallKillQuery i) w.
Proof.
  intros Hd Hg run r w. apply (with_body_runs KillBody); [done|]. cbv beta. destruct (Z.leb_spec i 0); [|done].
  exfalso. by apply (Z.lt_irrefl i), (Z.le_lt_trans _ 0).
Qed.
Lemma vector_runs text i : decodeJSONBody Decode VectorBody text = Ok i ->
  forall run r w, httpVectorSearch encode Decode run text r w = answer_tool encode run (CallVectorSearch i) w.
Proof. intros Hd run r w. by apply (with_body_runs VectorBody). Qed.

Lemma core_reached (t : gostr) : all_bodies -> t ∈ core_tools ++ connection_tools -> reaches t.
Proof.
  intros ((tq & iq & Hq & Hgq) & (tu & iu & Hu & Hgu) & _) Ht. unfold core_tools, connection_tools in Ht. cbn [app] in Ht.
  assert (Hquery := query_runs tq iq Hq Hgq). assert (Huse := use_runs tu iu Hu Hgu). clear Hq Hu. each_tool Ht.
  - route ("/api/databases" : gostr) CallListDatabases.
  - route ("/api/tables" : gostr) (CallListTables "d").
  - route ("/api/describe" : gostr) (CallDescribeTable "d" "t").
  - body_route ("/api/query" : gostr) (CallRunQuery iq) tq Hquery.
  - route ("/api/ping" : gostr) CallPing.
  - route ("/api/server-info" : gostr) (CallServerInfo false).
  - route ("/api/connections" : gostr) CallListConnections.
  - body_route ("/api/connections/use" : gostr) (CallUseConnection iu) tu Huse.
Qed.
Lemma vector_reached (t : gostr) : all_bodies -> VectorMode c = true -> t ∈ vector_tools -> reaches t.
Proof.
  intros (_ & _ & _ & _ & tv & iv & Hv & _) HV Ht. assert (Hvector := vector_runs tv iv Hv). clear Hv.
  unfold vector_tools in Ht. each_tool Ht.
  - body_route ("/api/vector/search" : gostr) (CallVectorSearch iv) tv Hvector.
  - route ("/api/vector/info" : gostr) (CallVectorInfo "d").
Qed.
Lemma catalog_reached (t : gostr) : all_bodies -> ExtendedMode c = true -> t ∈ catalog_tools -> t ∉ mcp_only -> reaches t.
Proof.
  intros (_ & _ & (te & ie & He & Hge) & _) HE Ht Honly. unfold catalog_tools in Ht. assert (Hexplain := explain_runs te ie He Hge). clear He. each_tool Ht.
  - route ("/api/indexes" : gostr) (CallListIndexes "d" "t").
  - route ("/api/create-table" : gostr) (CallShowCreateTable "d" "t").
  - body_route ("/api/explain" : gostr) (CallExplainQuery ie) te Hexplain.
  - route ("/api/views" : gostr) (CallListViews "d").
  - route ("/api/triggers" : gostr) (CallListTriggers "d").
  - route ("/api/procedures" : gostr) (CallListProcedures "d").
  - route ("/api/functions" : gostr) (CallListFunctions "d").
  - route ("/api/partitions" : gostr) (CallListPartitions "d" "t").
  - route ("/api/size/database" : gostr) (CallDatabaseSize "d").
  - route ("/api/size/tables" : gostr) (CallTableSize "d").
  - route ("/api/foreign-keys" : gostr) (CallForeignKeys "d" "t").
  - route ("/api/status" : gostr) (CallListStatus []).
  - route ("/api/variables" : gostr) (CallListVariables []).
  - destruct Honly. by apply one_of_elem.
  - destruct Honly. by apply one_of_elem.
Qed.
Lemma gated_reached (t : gostr) : all_bodies -> ExtendedMode c = true ->
  t ∈ registerExtendedTools c auditEnabled addConnection -> t ∉ mcp_only -> reaches t.
Proof.
  intros Hb HE Ht Honly. unfold registerExtendedTools in Ht.
  apply elem_of_app in Ht as [Ht|[Ht|[Ht|[Ht|Ht]%elem_of_app]%elem_of_app]%elem_of_app].
  - destruct (ProcessAdmin c) eqn:HP; [|by apply not_elem_of_nil in Ht].
    destruct Hb as (_ & _ & _ & (tk & ik & Hk & Hgk) & _). assert (Hkill := kill_runs tk ik Hk Hgk). clear Hk. each_tool Ht.
    + route ("/api/processlist" : gostr) CallProcessList.
    + body_route ("/api/kill" : gostr) (CallKillQuery ik) tk Hkill.
  - destruct (read_audit_ok c auditEnabled) eqn:HA; [|by apply not_elem_of_nil in Ht]. each_tool Ht.
    route ("/api/audit-log" : gostr) (CallReadAuditLog 0).
  - destruct (SlowQueryTool c) eqn:HS; [|by apply not_elem_of_nil in Ht]. each_tool Ht.
    route ("/api/slow-log" : gostr) (CallSlowQueryLog 0).
  - by apply catalog_reached.
  - destruct addConnection; [|by apply not_elem_of_nil in Ht]. each_tool Ht. destruct Honly. by apply one_of_elem.
Qed.
Lemma tool_reached (t : gostr) : all_bodies -> t ∈ mcp -> t ∉ mcp_only -> reaches t.
Proof.
  intros Hbodies Ht Honly. unfold mcp, buildMCPServer in Ht. rewrite app_assoc in Ht. apply elem_of_app in Ht as [Ht|Ht%elem_of_app].
  { by apply core_reached. }
  destruct Ht as [Ht|Ht].
  + destruct (VectorMode c) eqn:HV; [by apply vector_reached | by apply not_elem_of_nil in Ht].
  + destruct (ExtendedMode c) eqn:HE; [by eapply gated_reached | by apply not_elem_of_nil in Ht].
Qed.
End SameTools.

(** C32: One set of tools behind both servers.  Started from the same configuration, a request
    to the REST API is either answered without any tool or by one tool that the MCP server
    registers; and every tool the MCP server registers, apart from search_schema, schema_diff
    and add_connection, is run by some request with the method and path of its route, as soon
    as a body can be sent for the five calls that read one. *)
Theorem mcp_and_rest_expose_the_same_tools encode Decode (c : Config) (tokenCardEnabled auditEnabled addConnection : bool)
    healthStatus apiIndex snapshot statusPage (Hbodies : all_bodies Decode) :
  (forall body r w,
     let serve run := serve_mux encode Decode run c (ExtendedMode c) (VectorMode c) tokenCardEnabled auditEnabled
                        healthStatus apiIndex snapshot statusPage body r w in
     (exists w', forall run, serve run = w') \/
     (exists call w', tool_name call ∈ buildMCPServer c auditEnabled addConnection /\
        forall run, serve run = answer_tool encode run call w')) /\
  (forall t, t ∈ buildMCPServer c auditEnabled addConnection -> t ∉ mcp_only ->
     reaches encode Decode c tokenCardEnabled auditEnabled healthStatus apiIndex snapshot statusPage t).
Proof.
  split.
  - intros body r w serve.
    destruct (serve_mux_gated encode Decode c (ExtendedMode c) (VectorMode c) tokenCardEnabled auditEnabled
                healthStatus apiIndex snapshot statusPage body r w) as [Hconst|(call & w' & Hp & Hrun)]; [by left|].
    right. exists call, w'. split; [by eapply permitted_registered | done].
  - intros t Ht Honly. by eapply tool_reached.
Qed.

(** A decoder that reads one value of each kind. *)
Definition sample_body (k : body_kind) : body_input k :=
  match k with
  | RunQueryBody => {| SQL := "SELECT 1"; in_MaxRows := None; Offset := None; Database := [] |}
  | UseConnectionBody => "default" : gostr
  | ExplainBody => {| ex_SQL := "SELECT 1"; ex_Database := []; ex_Format := "json" |}
  | KillBody => 7%Z
  | VectorBody => {| vs_Database := "d"; vs_Table := "t"; vs_Column := "c"; vs_Query := []; vs_Limit := 5;
                     vs_Select := []; vs_Where := []; vs_DistanceFunc := [] |}
  | EmptyBody => tt
  end.
Definition sample_decode (k : body_kind) (text : gostr) (ending : stream_end) : decoded (body_input k) :=
  match text with [] => DecodeEOF | _ => Decoded (sample_body k) [] end.

Lemma sample_bodies : all_bodies sample_decode.
Proof.
  repeat split; [exists "{}", (sample_body RunQueryBody) | exists "{}", (sample_body UseConnectionBody) |
    exists "{}", (sample_body ExplainBody) | exists "{}", (sample_body KillBody) | exists "{}", (sample_body VectorBody)];
    split; done.
Qed.

Lemma mcp_and_rest_expose_the_same_tools_witness :
  reaches plain_encode sample_decode default_config false false "" "" "" (fun w => w) "run_query" /\
  ~ "kill_query" ∈ buildMCPServer default_config false false.
Proof.
  split; [|by rewrite <- one_of_elem].
  apply (mcp_and_rest_expose_the_same_tools plain_encode sample_decode default_config false false false "" "" "" (fun w => w) sample_bodies).
  - by apply one_of_elem.
  - by rewrite <- one_of_elem.
Defined.
