(* ===== verification/ApiIndex.v ===== *)
(** cmd/mysql-mcp-server/http.go: the index of the REST API, against its routes. *)
From S2P Require Import Prelude Unicode GoStrings GoNum GoNet Config Http AuditLog QueryTools Explain Vector Rest Main.

(** ** The bodies of /health and /api, before they are encoded *)
Definition healthStatus : list (gostr * gostr) := [("status", "healthy"); ("service", "mysql-mcp-server")].

(** The endpoints of the index: a Go map, in the order of the source; the keys differ. *)
Definition core_endpoints : list (gostr * gostr) := [
  ("GET  /health", "Health check");
  ("GET  /api", "API index (this page)");
  ("GET  /api/databases", "List databases");
  ("GET  /api/tables", "List tables (requires ?database=)");
  ("GET  /api/describe", "Describe table (requires ?database=&table=)");
  ("POST /api/query", "Run SQL query (body: {sql, database?, max_rows?})");
  ("GET  /api/ping", "Ping database");
  ("GET  /api/server-info", "Get server info (optional ?detailed=1 for health metrics)");
  ("GET  /api/connections", "List connections");
  ("POST /api/connections/use", "Switch connection (body: {name})");
  ("GET  /api/metrics/tokens", "Live token usage metrics (cumulative since startup)")].
Definition extended_endpoints : list (gostr * gostr) := [
  ("GET  /api/indexes", "List indexes (requires ?database=&table=) [extended]");
  ("GET  /api/create-table", "Show CREATE TABLE (requires ?database=&table=) [extended]");
  ("POST /api/explain", "Explain query (body: {sql, database?}) [extended]");
  ("GET  /api/views", "List views (requires ?database=) [extended]");
  ("GET  /api/triggers", "List triggers (requires ?database=) [extended]");
  ("GET  /api/procedures", "List procedures (requires ?database=) [extended]");
  ("GET  /api/functions", "List functions (requires ?database=) [extended]");
  ("GET  /api/partitions", "List table partitions (requires ?database=&table=) [extended]");
  ("GET  /api/size/database", "Database size (optional ?database=) [extended]");
  ("GET  /api/size/tables", "Table sizes (requires ?database=) [extended]");
  ("GET  /api/foreign-keys", "Foreign keys (requires ?database=, optional &table=) [extended]");
  ("GET  /api/status", "Server status (optional ?pattern=) [extended]");
  ("GET  /api/variables", "Server variables (optional ?pattern=) [extended]")].
Definition admin_endpoints : list (gostr * gostr) := [
  ("GET  /api/processlist", "Active threads [extended + MYSQL_MCP_PROCESS_ADMIN]");
  ("POST /api/kill", "KILL QUERY for thread id (body: {id}) [extended + admin]")].
Definition audit_endpoints : list (gostr * gostr) := [
  ("GET  /api/audit-log", "Tail audit log (optional ?lines=) [extended + MYSQL_MCP_READ_AUDIT_TOOL]")].
Definition slow_endpoints : list (gostr * gostr) := [
  ("GET  /api/slow-log", "Slow query log rows or settings [extended + MYSQL_MCP_SLOW_QUERY_TOOL]")].
Definition vector_endpoints : list (gostr * gostr) := [
  ("POST /api/vector/search", "Vector search (body: {...}) [vector]");
  ("GET  /api/vector/info", "Vector info (requires ?database=) [vector]")].
Definition card_endpoints : list (gostr * gostr) := [
  ("GET  /status", "Token Tracking Card live dashboard [token-card]")].

Definition endpoints (c : Config) (auditEnabled tokenCard : bool) : list (gostr * gostr) :=
  core_endpoints ++
  (if ExtendedMode c then
     extended_endpoints ++ (if ProcessAdmin c then admin_endpoints else []) ++
     (if read_audit_ok c auditEnabled then audit_endpoints else []) ++ (if SlowQueryTool c then slow_endpoints else [])
   else []) ++
  (if VectorMode c then vector_endpoints else []) ++
  (if tokenCard then card_endpoints else []).

Record api_index := {
  idx_service : gostr; idx_version : gostr; idx_endpoints : list (gostr * gostr); idx_modes : list (gostr * bool)
}.
(** The vector mode is read from the environment, not from the configuration. *)
Definition index_data (version : gostr) (e : env) (c : Config) (auditEnabled tokenCard : bool) : api_index :=
  {| idx_service := "mysql-mcp-server REST API"; idx_version := version; idx_endpoints := endpoints c auditEnabled tokenCard;
     idx_modes := [("extended", ExtendedMode c); ("vector", Getenv e "MYSQL_MCP_VECTOR" =?s "1"); ("token_card", tokenCard)] |}.

(** ** What a key of the index announces: the method and the path *)
Definition route_of_key (key : gostr) : gostr * gostr :=
  match Cut key " " with (method, rest, _) => (method, TrimSpace rest) end.
Definition announced (l : list (gostr * gostr)) : list (gostr * gostr) := map (fun kd => route_of_key (fst kd)) l.
(** The pages that no tool is behind. *)
Definition pages : list gostr := ["/health"; "/api"; "/api/metrics/tokens"; "/status"].

Example announced_ex : announced admin_endpoints = [("GET", "/api/processlist"); ("POST", "/api/kill")].
Proof. vm_compute. reflexivity. Qed.

(** Every entry is a page or the route of a tool of the list, and every tool of the list has
    an entry. *)
Definition indexes (l : list (gostr * gostr)) (tools : list gostr) : bool :=
  forallb (fun mp => ((fst mp =?s "GET") && one_of (snd mp) pages) || existsb (fun t => negb (one_of t mcp_only) && bool_decide (rest_route t = mp)) tools) (announced l) &&
  forallb (fun t => one_of t mcp_only || bool_decide (rest_route t ∈ announced l)) tools.

Lemma indexes_app (l1 l2 : list (gostr * gostr)) (t1 t2 : list gostr) :
  indexes l1 t1 = true -> indexes l2 t2 = true -> indexes (l1 ++ l2) (t1 ++ t2) = true.
Proof.
  unfold indexes, announced. rewrite !andb_true_iff, map_app, !forallb_app, !forallb_forall. intros [H1 H2] [H3 H4].
  rewrite !andb_true_iff, !forallb_forall. repeat split; intros x Hx.
  - specialize (H1 x Hx). rewrite existsb_app. apply orb_true_iff in H1 as [-> | ->]; [done|]. by rewrite orb_true_r.
  - specialize (H3 x Hx). rewrite existsb_app. apply orb_true_iff in H3 as [-> | ->]; [done|]. by rewrite !orb_true_r.
  - specialize (H2 x Hx). apply orb_true_iff in H2 as [-> | H2]; [done|]. apply orb_true_iff. right. go_bool. rewrite elem_of_app. by left.
  - specialize (H4 x Hx). apply orb_true_iff in H4 as [-> | H4]; [done|]. apply orb_true_iff. right. go_bool. rewrite elem_of_app. by right.
Qed.
Lemma indexes_if (b : bool) (l : list (gostr * gostr)) (t : list gostr) :
  indexes l t = true -> indexes (if b then l else []) (if b then t else []) = true.
Proof. by destruct b. Qed.
Lemma indexes_spec (l : list (gostr * gostr)) (tools : list gostr) :
  indexes l tools = true <->
    (forall m p, (m, p) ∈ announced l -> (m = "GET" /\ p ∈ pages) \/ exists t, t ∈ tools /\ (t ∉ mcp_only) /\ rest_route t = (m, p)) /\
    (forall t, t ∈ tools -> (t ∉ mcp_only) -> rest_route t ∈ announced l).
Proof.
  unfold indexes. rewrite andb_true_iff, !forallb_forall.
  assert (Hmp : forall mp : gostr * gostr, (((fst mp =?s "GET") && one_of (snd mp) pages) ||
      existsb (fun t => negb (one_of t mcp_only) && bool_decide (rest_route t = mp)) tools = true) <->
      (fst mp = "GET" /\ snd mp ∈ pages) \/ exists t, t ∈ tools /\ (t ∉ mcp_only) /\ rest_route t = mp).
  { intros mp. rewrite orb_true_iff, andb_true_iff, str_eqb_eq, one_of_elem, existsb_exists.
    setoid_rewrite andb_true_iff. setoid_rewrite negb_true_iff. setoid_rewrite <- not_true_iff_false. setoid_rewrite one_of_elem.
    setoid_rewrite bool_decide_eq_true. setoid_rewrite <- list_elem_of_In. done. }
  setoid_rewrite Hmp. setoid_rewrite orb_true_iff. setoid_rewrite one_of_elem. setoid_rewrite bool_decide_eq_true.
  setoid_rewrite <- list_elem_of_In. split; intros [H1 H2]; split.
  - intros m p Hin. exact (H1 (m, p) Hin).
  - intros t Ht Honly. by destruct (H2 t Ht).
  - intros [m p] Hin. by apply H1.
  - intros t Ht. destruct (decide (t ∈ mcp_only)); [by left | right; by apply H2].
Qed.

(** The index agrees with the tools that the same configuration registers. *)
Lemma endpoints_index (c : Config) (auditEnabled tokenCard addConnection : bool) :
  indexes (endpoints c auditEnabled tokenCard) (buildMCPServer c auditEnabled addConnection) = true.
Proof.
  assert (Hsame : forall l t1 t2, (forall t, t ∈ t1 <-> t ∈ t2) -> indexes l t1 = true -> indexes l t2 = true).
  { intros l t1 t2 Ht. rewrite !indexes_spec. setoid_rewrite Ht. done. }
  apply (Hsame _ ((core_tools ++ connection_tools) ++
    (if ExtendedMode c then catalog_tools ++ (if ProcessAdmin c then ["process_list"; "kill_query"] else []) ++
       (if read_audit_ok c auditEnabled then ["read_audit_log"] else []) ++ (if SlowQueryTool c then ["slow_query_log"] else []) else []) ++
    (if VectorMode c then vector_tools else []) ++
    (if tokenCard then [] else []) ++ (if ExtendedMode c then if addConnection then ["add_connection"] else [] else []))).
  - intros t. unfold buildMCPServer, registerExtendedTools. rewrite <- app_assoc. destruct (ExtendedMode c), tokenCard; rewrite !elem_of_app, ?elem_of_nil; tauto.
  - unfold endpoints. apply indexes_app; [vm_compute; reflexivity|]. apply indexes_app.
    { apply indexes_if. apply indexes_app; [vm_compute; reflexivity|]. apply indexes_app; [by apply indexes_if; vm_compute|].
      apply indexes_app; by apply indexes_if; vm_compute. }
    apply indexes_app; [apply indexes_if; by vm_compute|].
    rewrite <- (app_nil_r (if tokenCard then card_endpoints else [])). apply indexes_app; [apply indexes_if; by vm_compute|].
    destruct (ExtendedMode c), addConnection; by vm_compute.
Qed.

Section Index.
Variable encode : payload -> gostr.
Variable Decode : forall k : body_kind, gostr -> stream_end -> decoded (body_input k).
Variable c : Config.
Variables (tokenCard auditEnabled : bool).
Variables (health index snapshot : gostr) (statusPage : response -> response).

(** A page: its answer to a GET. *)
Lemma page_answers p :
  p ∈ pages -> ("GET" : gostr, p) ∈ announced (endpoints c auditEnabled tokenCard) ->
  forall run body r w, Method r = "GET" -> Path r = p -> status w = None ->
    let w' := serve encode Decode c tokenCard auditEnabled health index snapshot statusPage run body r w in
    status w' = Some 200%Z \/ (p = "/status" /\ w' = statusPage w).
Proof.
  intros Hp Hin run body r w Hm Hpath Hw. cbv zeta. unfold pages in Hp. rewrite !elem_of_cons in Hp.
  destruct Hp as [->|[->|[->|[->|[]%not_elem_of_nil]]]].
  4:{ destruct tokenCard; [right; split; [done|]; destruct r, w; cbn in Hm, Hpath, Hw; subst; vm_compute; reflexivity|]. exfalso. revert Hin.
      assert (Hno : forall l, forallb (fun mp => negb (snd mp =?s "/status")) (announced l) = true -> ("GET" : gostr, "/status" : gostr) ∉ announced l).
      { intros l. rewrite forallb_forall. intros Hl Hin%list_elem_of_In. by specialize (Hl _ Hin). }
      unfold endpoints. apply Hno.
      destruct (ExtendedMode c), (ProcessAdmin c), (read_audit_ok c auditEnabled), (SlowQueryTool c), (VectorMode c); vm_compute; reflexivity. }
  all: left; destruct r, w, tokenCard; cbn in Hm, Hpath, Hw; subst; vm_compute; reflexivity.
Qed.

(** What is announced under each switch. *)
Lemma announced_endpoints mp :
  mp ∈ announced core_endpoints \/
  ExtendedMode c = true /\
    (mp ∈ announced extended_endpoints \/ ProcessAdmin c = true /\ mp ∈ announced admin_endpoints \/
     read_audit_ok c auditEnabled = true /\ mp ∈ announced audit_endpoints \/ SlowQueryTool c = true /\ mp ∈ announced slow_endpoints) \/
  VectorMode c = true /\ mp ∈ announced vector_endpoints \/ tokenCard = true /\ mp ∈ announced card_endpoints ->
  mp ∈ announced (endpoints c auditEnabled tokenCard).
Proof.
  unfold announced, endpoints. rewrite !map_app, !elem_of_app.
  intros [?|[(HE & [?|[[H ?]|[[H ?]|[H ?]]]])|[[H ?]|[H ?]]]]; rewrite ?HE, ?H, ?map_app, ?elem_of_app; tauto.
Qed.

(** A route is announced, or the feature it is behind is switched off. *)
Definition off_or_announced (ph : gostr * handler) : Prop :=
  (exists m, (m, fst ph) ∈ announced (endpoints c auditEnabled tokenCard)) \/
  forall r w, is_options r = false -> status w = None -> status (snd ph r w) = Some 404%Z.
Ltac announced_route :=
  left; first [exists "GET"; apply announced_endpoints; find_key | exists "POST"; apply announced_endpoints; find_key]
with find_key :=
  first [left; decide_true | right; left; split; [done|]; find_extended | right; right; left; split; [done | decide_true]
        | right; right; right; split; [done | decide_true]]
with find_extended :=
  first [left; decide_true | right; left; split; [done | decide_true] | right; right; left; split; [done | decide_true]
        | right; right; right; split; [done | decide_true]].
Ltac off_route :=
  right; intros r w Ho Hw; cbn [Chain fold_right snd]; unfold WithCORS, RequireFeature;
  repeat match goal with H : ?b = false |- context [negb ?b] => rewrite H | H : ?b = true |- context [negb ?b] => rewrite H end;
  rewrite !Ho; cbn; by rewrite Hw.

Lemma routes_off_or_announced run body :
  Forall off_or_announced (routes encode Decode run c (ExtendedMode c) (VectorMode c) tokenCard auditEnabled health index snapshot statusPage body).
Proof.
  unfold routes, extendedFeature, processAdminFeature, readAuditFeature, slowQueryFeature, vectorFeature.
  apply list.Forall_app. split; [|apply list.Forall_app; split].
  - repeat (apply list.Forall_cons; split; [announced_route|]). constructor.
  - destruct tokenCard eqn:HT; [|constructor]. apply list.Forall_cons. split; [announced_route | constructor].
  - destruct (ExtendedMode c) eqn:HE, (VectorMode c) eqn:HV, (ProcessAdmin c) eqn:HP, (read_audit_ok c auditEnabled) eqn:HA, (SlowQueryTool c) eqn:HS;
      repeat (apply list.Forall_cons; split; [first [off_route | announced_route]|]); constructor.
Qed.

(** A path that is not announced is not found, or gets the index when it is under /api/. *)
Lemma serve_unannounced run body r w :
  (forall m, (m, Path r) ∉ announced (endpoints c auditEnabled tokenCard)) ->
  path_is_clean r = true -> Method r <> "OPTIONS" -> status w = None ->
  let w' := serve encode Decode c tokenCard auditEnabled health index snapshot statusPage run body r w in
  status w' = Some 404%Z \/ (HasPrefix (Path r) "/api/" = true /\ w' = WithCORS encode (httpAPIIndex encode index) r w).
Proof.
  intros Hno Hclean Hm Hw. cbv zeta. unfold serve, serve_mux, clean_first. rewrite Hclean.
  assert (Ho : is_options r = false) by by apply str_eqb_neq.
  destruct (List.find _ _) as [[p h]|] eqn:Hfind.
  - apply List.find_some in Hfind as [Hin Hp%str_eqb_eq]. cbn [fst] in Hp. left.
    destruct (proj1 (list.Forall_forall _ _) (routes_off_or_announced run body) (p, h) (proj2 (list_elem_of_In _ _) Hin)) as [[m Hl]|Hoff];
      [|by apply Hoff]. cbn [fst] in Hl. rewrite Hp in Hl. by apply Hno in Hl.
  - destruct (HasPrefix (Path r) "/api/"); [by right | left]. cbn. by rewrite Hw.
Qed.
(** A tool is run for an announced path, its own, and by POST where POST is announced. *)
Lemma serve_runs_announced (addConnection : bool) body r w :
  (exists w', forall run, serve encode Decode c tokenCard auditEnabled health index snapshot statusPage run body r w = w') \/
  exists call w' m, (m, Path r) ∈ announced (endpoints c auditEnabled tokenCard) /\ rest_route (tool_name call) = (m, Path r) /\
    Method r <> "OPTIONS" /\ (m = "POST" -> Method r = "POST") /\
    forall run, serve encode Decode c tokenCard auditEnabled health index snapshot statusPage run body r w = answer_tool encode run call w'.
Proof.
  destruct (serve_mux_gated encode Decode c (ExtendedMode c) (VectorMode c) tokenCard auditEnabled health index snapshot statusPage body r w)
    as [Hconst|(call & w' & Hp & Hrun)]; [by left|]. right. exists call, w', (fst (rest_route (tool_name call))).
  destruct (proj1 (indexes_spec _ _) (endpoints_index c auditEnabled tokenCard addConnection)) as [_ Htools].
  assert (Honly : tool_name call ∉ mcp_only) by (destruct call; decide_true).
  specialize (Htools _ (permitted_registered c auditEnabled addConnection r call Hp) Honly).
  destruct Hp as (Hopt & Hpath & Hcall). rewrite Hpath. destruct (rest_route (tool_name call)) as [m p] eqn:Hroute. cbn [fst snd].
  do 3 (split; [done|]). split; [|exact Hrun]. intros ->. destruct call; cbn in Hcall; try tauto; vm_compute in Hroute; discriminate Hroute.
Qed.
End Index.

(** ** The metrics listener beside MCP on stdio: its index lists its pages *)
Definition metrics_endpoints (tokenCard : bool) : list (gostr * gostr) :=
  [("GET  /health", "Health check"); ("GET  /api", "This index (metrics-only; MCP uses stdio)");
   ("GET  /api/metrics/tokens", "Token usage (same process as MCP)")] ++
  (if tokenCard then [("GET  /status" : gostr, "Token Tracking Card dashboard" : gostr)] else []).

Lemma metrics_index_complete encode tokenCard health snapshot statusPage index m p r w :
  (m, p) ∈ announced (metrics_endpoints tokenCard) -> Method r = m -> Path r = p -> status w = None ->
  let w' := metrics_mux encode tokenCard health snapshot statusPage index r w in
  status w' = Some 200%Z \/ (p = "/status" /\ w' = statusPage w).
Proof.
  assert (Hkeys : announced (metrics_endpoints tokenCard) =
    [("GET" : gostr, "/health" : gostr); ("GET" : gostr, "/api" : gostr); ("GET" : gostr, "/api/metrics/tokens" : gostr)] ++
    (if tokenCard then [("GET" : gostr, "/status" : gostr)] else [])) by (destruct tokenCard; vm_compute; reflexivity).
  rewrite Hkeys. destruct r, w. cbn. intros Hin -> -> ->. cbv zeta.
  destruct tokenCard; rewrite ?elem_of_app, !elem_of_cons in Hin;
    repeat match goal with H : _ \/ _ |- _ => destruct H as [H|H] end;
    first [by apply not_elem_of_nil in Hin | injection Hin as -> ->];
    first [left; vm_compute; reflexivity | right; split; [done | vm_compute; reflexivity]].
Qed.

(** C30: the index of the REST API is accurate.  Whatever the configuration: the keys of the
    index differ; every method and path it announces is either a page that answers a GET with
    status 200 (the status page with its own page) or runs a tool that the MCP server of the
    same configuration registers, for some request with that method and path.  Conversely, a
    request that runs a tool has a path that is announced, as the path of that tool, and uses
    POST where POST is announced (where GET is announced any method but OPTIONS will do); and
    a request to a path that is not announced runs no tool: its path is cleaned by a redirect,
    or it gets status 404, or under /api/ the index page, unless it is a preflight. *)
Theorem api_index_is_accurate encode Decode (encode_index : api_index -> gostr) (c : Config) (tokenCard auditEnabled addConnection : bool)
    version e health snapshot statusPage (Hbodies : all_bodies Decode) :
  let listed := endpoints c auditEnabled tokenCard in
  let index := encode_index (index_data version e c auditEnabled tokenCard) in
  let answer := serve encode Decode c tokenCard auditEnabled health index snapshot statusPage in
  NoDup (map fst listed) /\
  (forall m p, (m, p) ∈ announced listed ->
     (m = "GET" /\ p ∈ pages /\ forall run body r w, Method r = m -> Path r = p -> status w = None ->
        status (answer run body r w) = Some 200%Z \/ (p = "/status" /\ answer run body r w = statusPage w)) \/
     exists r body call, Method r = m /\ Path r = p /\ tool_name call ∈ buildMCPServer c auditEnabled addConnection /\
       forall w, exists w', forall run, answer run body r w = answer_tool encode run call w') /\
  (forall body r w,
     (exists w', forall run, answer run body r w = w') \/
     exists call w' m, (m, Path r) ∈ announced listed /\ rest_route (tool_name call) = (m, Path r) /\
       Method r <> "OPTIONS" /\ (m = "POST" -> Method r = "POST") /\
       forall run, answer run body r w = answer_tool encode run call w') /\
  (forall run body r w, (forall m, (m, Path r) ∉ announced listed) ->
     (forall run', answer run' body r w = answer run body r w) /\
     (path_is_clean r = true -> Method r <> "OPTIONS" -> status w = None ->
        status (answer run body r w) = Some 404%Z \/
        (HasPrefix (Path r) "/api/" = true /\ answer run body r w = WithCORS encode (httpAPIIndex encode index) r w))).
Proof.
  cbv zeta. destruct (proj1 (indexes_spec _ _) (endpoints_index c auditEnabled tokenCard addConnection)) as [Hlisted Htools].
  pose proof (serve_runs_announced encode Decode c tokenCard auditEnabled health
    (encode_index (index_data version e c auditEnabled tokenCard)) snapshot statusPage addConnection) as Hgated. split; [|split; [|split]].
  - unfold endpoints.
    destruct (ExtendedMode c), (ProcessAdmin c), (read_audit_ok c auditEnabled), (SlowQueryTool c), (VectorMode c), tokenCard; decide_true.
  - intros m p Hin. destruct (Hlisted m p Hin) as [[-> Hp]|(t & Ht & Honly & Hroute)].
    + left. split; [done|]. split; [done|]. by apply page_answers.
    + right. destruct (tool_reached encode Decode c tokenCard auditEnabled addConnection health
        (encode_index (index_data version e c auditEnabled tokenCard)) snapshot statusPage t Hbodies Ht Honly) as (r & body & call & Hname & Hr & Hrun).
      rewrite Hroute in Hr. injection Hr as Hm Hp. exists r, body, call. rewrite Hname. done.
  - exact Hgated.
  - intros run body r w Hno. split; [|by apply serve_unannounced].
    destruct (Hgated body r w) as [[w' Hw]|(call & w' & m & Hin & _)]; [intros run'; by rewrite !Hw | by apply Hno in Hin].
Qed.

(** With the default configuration the query route is announced and the KILL route is not, so
    a request to it runs no tool. *)
Lemma api_index_is_accurate_witness :
  ("POST" : gostr, "/api/query" : gostr) ∈ announced (endpoints default_config false true) /\
  forall r w run run', Path r = "/api/kill" ->
    serve plain_encode sample_decode default_config true false "" "" "" (fun w => w) run' "{}" r w =
    serve plain_encode sample_decode default_config true false "" "" "" (fun w => w) run "{}" r w.
Proof.
  split; [decide_true|]. intros r w run run' Hr.
  refine (proj1 (proj2 (proj2 (proj2 (api_index_is_accurate plain_encode sample_decode (fun _ => []) default_config true false false [] ∅ [] []
    (fun w => w) sample_bodies))) run "{}" r w _) run').
  intros m. rewrite Hr. intros Hin.
  assert (Hall : forallb (fun mp => negb (snd mp =?s "/api/kill")) (announced (endpoints default_config false true)) = true) by (vm_compute; reflexivity).
  rewrite forallb_forall in Hall. apply list_elem_of_In in Hin. specialize (Hall _ Hin). discriminate Hall.
Defined.
