(* ===== verification/Install.v ===== *)
(** cmd/mysql-mcp-server/toolpack.go and internal/toolpack/toolpack.go: the install-schema
    command, which runs the tool pack's script on one configured connection. *)
From S2P Require Import Prelude Unicode GoStrings GoNum Identifiers Config ConfigFile Labels Retry Sql Connection QueryTools Main.

(** ** Scripts *)
Section Scripts.
Context `{SqlServer}.

(** The loop of [run]: the statements in order until one fails; the error names its first
    line. *)
Fixpoint exec_all (c : conn) (stmts : list gostr) (s : server) : server * option goerr :=
  match stmts with
  | [] => (s, None)
  | stmt :: stmts =>
      match conn_Exec c stmt s with
      | (s, Some e) => (s, Some (Wrap (firstLine stmt) e))
      | (s, None) => exec_all c stmts s
      end
  end.
Definition run (db : dbh) (script : gostr) (s : server) : server * option goerr :=
  match db_Conn db s with
  | (s, Err e) => (s, Some e)
  | (s, Ok c) => let '(s, err) := exec_all c (Statements script) s in (conn_Close c s, err)
  end.

Definition DetectDB (db : dbh) (s : server) : server * gostr :=
  let '(s, r) := QueryRow scan_string db "CALL mysql_mcp.version()" [] s in
  (s, match r with Ok v => if negb (Supported v) then [] else v | Err _ => [] end).
End Scripts.

(** ** handleInstallSchema *)

(** What the command prints, and its exit code. *)
Inductive install_result :=
| PrintedScript (script : gostr)
| LoadFailed (err : load_error) | NoConnection (name : gostr) | AddFailed (err : conn_error)
| UninstallFailed (name : gostr) (err : goerr) | InstallFailed (name : gostr) (err : goerr)
| Uninstalled (name : gostr) | InstalledPack (version name : gostr)
| NilPool.      (* a nil *sql.DB: the call panics *)
Definition exit_code (r : install_result) : Z :=
  match r with PrintedScript _ | Uninstalled _ | InstalledPack _ _ => 0 | _ => 1 end.

(** The copy of the configuration that the connection is added with. *)
Definition for_install (c : Config) : Config := {|
  Connections := Connections c; MaxRows := MaxRows c; QueryTimeout := QueryTimeout c; MaxOpenConns := MaxOpenConns c;
  MaxIdleConns := MaxIdleConns c; ConnMaxLifetime := ConnMaxLifetime c; ConnMaxIdleTime := ConnMaxIdleTime c;
  PingTimeout := PingTimeout c; ExtendedMode := ExtendedMode c; VectorMode := VectorMode c; ToolPack := ToolPackOff;
  StatementLabels := StatementLabels c; HTTPMode := HTTPMode c; MetricsHTTP := MetricsHTTP c;
  JSONLogging := JSONLogging c; TokenCard := TokenCard c; TokenTracking := TokenTracking c; TokenModel := TokenModel c;
  HTTPPort := HTTPPort c; HTTPRequestTimeout := HTTPRequestTimeout c; Transport := Transport c;
  MCPHTTPBind := MCPHTTPBind c; MCPHTTPPath := MCPHTTPPath c; MCPHTTPToken := MCPHTTPToken c;
  MCPHTTPTokenFile := MCPHTTPTokenFile c; MCPHTTPTLSCert := MCPHTTPTLSCert c; MCPHTTPTLSKey := MCPHTTPTLSKey c;
  MCPHTTPStateless := MCPHTTPStateless c; MCPHTTPSessionTimeout := MCPHTTPSessionTimeout c;
  MCPHTTPAllowedOrigins := MCPHTTPAllowedOrigins c; MCPHTTPAllowedHosts := MCPHTTPAllowedHosts c;
  MCPHTTPAllowInsecure := MCPHTTPAllowInsecure c; RateLimitEnabled := RateLimitEnabled c;
  RateLimitRPS := RateLimitRPS c; RateLimitBurst := RateLimitBurst c; AuditLogPath := AuditLogPath c;
  DBRetryMaxRetries := DBRetryMaxRetries c; DBRetryMaxInterval := DBRetryMaxInterval c; MaskColumns := MaskColumns c;
  AllowedDatabases := AllowedDatabases c; StrictReadOnly := false; AllowSystemSchemas := AllowSystemSchemas c;
  ProcessAdmin := ProcessAdmin c; ReadAuditTool := ReadAuditTool c; SlowQueryTool := SlowQueryTool c |}.

(** The process before a connection was added. *)
Definition fresh_world : world := {| cm := NewConnectionManager; open_pools := ∅; open_tunnels := ∅; next_handle := 0 |}.
Definition install_target (p : parsedArgs) (c : Config) : option ConnectionConfig :=
  List.find (fun conn => is_empty (installConn p) || (Name conn =?s installConn p)) (Connections c).

Section Install.
Context `{MySQLDriver} `{SqlServer}.
Variable version : gostr.
(** The scripts embedded in the binary. *)
Variables installSQL uninstallSQL : gostr.

(** What is done with the pool of the target. *)
Definition install_on (p : parsedArgs) (name : gostr) (db : dbh) (s : server) : server * install_result :=
  if installUninstall p then
    match run db uninstallSQL s with
    | (s, Some e) => (s, UninstallFailed name e)
    | (s, None) => (s, Uninstalled name)
    end
  else
    match run db installSQL s with
    | (s, Some e) => (s, InstallFailed name e)
    | (s, None) => let '(s, v) := DetectDB db s in (s, InstalledPack v name)
    end.

(** [io]: what the network answers while the connection is added. *)
Definition handleInstallSchema (p : parsedArgs) (load : result load_error Config) (io : io_outcome) (s : server)
    : world * server * install_result :=
  if installPrint p then
    (fresh_world, s, PrintedScript (if installUninstall p then uninstallSQL else installSQL))
  else match load with
  | Err e => (fresh_world, s, LoadFailed e)
  | Ok c =>
      match install_target p c with
      | None => (fresh_world, s, NoConnection (installConn p))
      | Some target =>
          match AddConnectionWithPoolConfig version target (for_install c) io fresh_world with
          | (w, Some e) => (Close w, s, AddFailed e)
          | (w, None) =>
              match GetActiveDB (cm w) with
              | None => (Close w, s, NilPool)
              | Some pool => let '(s, r) := install_on p (Name target) (Pool (handle pool)) s in (Close w, s, r)
              end
          end
      end
  end.
End Install.

(** ** Closing the manager closes everything *)
Lemma fresh_world_ok : resources_ok ∅ fresh_world.
Proof. exact example_world_ok. Qed.

Lemma closed_all (w : world) : resources_ok ∅ w -> open_pools (Close w) = ∅ /\ open_tunnels (Close w) = ∅.
Proof.
  intros [[Hp _ _] [Ht _ _] _]. unfold Close. cbn. split; apply set_eq; intros h.
  - split; [|set_solver]. rewrite elem_of_difference, elem_of_list_to_set. intros [Hin Hnot]. exfalso. apply Hnot.
    apply Hp in Hin as [[name|c] Hh]; cbn in Hh; [|done]. apply fmap_Some in Hh as (pl & Hpl & ->).
    apply list_elem_of_fmap. exists (name, pl). split; [done|]. by apply elem_of_map_to_list.
  - split; [|set_solver]. rewrite elem_of_difference, elem_of_list_to_set. intros [Hin Hnot]. exfalso. apply Hnot.
    apply Ht in Hin as [[name|c] Hh]; cbn in Hh; [|done].
    apply list_elem_of_fmap. exists (name, h). split; [done|]. by apply elem_of_map_to_list.
Qed.

Lemma find_elem {A} (f : A -> bool) (l : list A) (a : A) : List.find f l = Some a -> a ∈ l /\ f a = true.
Proof. intros Hf. destruct (List.find_some _ _ Hf) as [Hin Ha]. split; [by apply list_elem_of_In | done]. Qed.

Section Laws.
Context `{MySQLDriver}.

Lemma tearDown_absent name w : cm w = NewConnectionManager -> tearDownNamedConnection name w = w.
Proof. intros Hw. unfold tearDownNamedConnection. rewrite Hw. done. Qed.

(** The first connection added is the active one. *)
Lemma first_connection_is_active version conn cfg io w :
  isSessionConnKey (Name conn) = false -> AddConnectionWithPoolConfig version conn cfg io fresh_world = (w, None) ->
  is_Some (GetActiveDB (cm w)).
Proof.
  intros Hname. unfold AddConnectionWithPoolConfig, addConnectionWithPoolConfig. rewrite tearDown_absent by done.
  destruct (open_conn version conn cfg io fresh_world) as [w1 [o|e]] eqn:Ho; [|done].
  apply open_conn_cm in Ho. rewrite register_conn_cases, andb_false_r. cbv zeta. rewrite tearDown_absent by done.
  intros [= <-]. unfold GetActiveDB. cbn. rewrite Ho. cbn. rewrite Hname. cbn. rewrite lookup_insert_eq. eauto.
Qed.
End Laws.

(** ** Running a script *)
Section Running.
Context `{SqlServer}.

(** The statements, each executed without an error, in order. *)
Inductive executed (c : conn) : list gostr -> server -> server -> Prop :=
| executed_nil s : executed c [] s s
| executed_cons stmt stmts s s1 s2 :
    conn_Exec c stmt s = (s1, None) -> executed c stmts s1 s2 -> executed c (stmt :: stmts) s s2.

Lemma exec_all_None c stmts s s' : exec_all c stmts s = (s', None) <-> executed c stmts s s'.
Proof.
  revert s. induction stmts as [|stmt stmts IH]; intros s; cbn.
  - split; [intros [= <-]; constructor | by inversion 1].
  - destruct (conn_Exec c stmt s) as [s1 [e|]] eqn:Hx.
    + split; [done|]. inversion 1; subst. congruence.
    + rewrite IH. split; [by econstructor|]. inversion 1; subst. congruence.
Qed.
Lemma exec_all_Some c stmts s s' e : exec_all c stmts s = (s', Some e) ->
  exists pre stmt post s1 e', stmts = pre ++ stmt :: post /\ executed c pre s s1 /\
    conn_Exec c stmt s1 = (s', Some e') /\ e = Wrap (firstLine stmt) e'.
Proof.
  revert s. induction stmts as [|stmt stmts IH]; intros s; cbn; [done|].
  destruct (conn_Exec c stmt s) as [s1 [e'|]] eqn:Hx.
  - intros [= <- <-]. exists [], stmt, stmts, s, e'. repeat split; [constructor | done].
  - intros Hrest. destruct (IH _ Hrest) as (pre & st & post & s2 & e' & -> & Hpre & Hst & He).
    exists (stmt :: pre), st, post, s2, e'. repeat split; [by econstructor | done | done].
Qed.

(** What the statements of a script and the connection around them preserve. *)
Definition script_keeps (script : gostr) (P : server -> Prop) : Prop :=
  (forall p s, P s -> P (fst (pool_Conn p s))) /\ (forall c s, P s -> P (conn_Close c s)) /\
  forall c stmt s, stmt ∈ Statements script -> P s -> P (fst (conn_Exec c stmt s)).

Lemma exec_all_keeps (P : server -> Prop) c stmts s :
  (forall stmt s, stmt ∈ stmts -> P s -> P (fst (conn_Exec c stmt s))) -> P s -> P (fst (exec_all c stmts s)).
Proof.
  revert s. induction stmts as [|stmt stmts IH]; intros s Hk Hs; [done|]. cbn.
  pose proof (Hk stmt s (list_elem_of_here _ _) Hs) as H1. destruct (conn_Exec c stmt s) as [s1 [e|]]; [done|].
  apply IH; [|done]. intros st s2 Hin. apply Hk. by apply list_elem_of_further.
Qed.
Lemma run_keeps (P : server -> Prop) pool script s : script_keeps script P -> P s -> P (fst (run (Pool pool) script s)).
Proof.
  intros (Hconn & Hclose & Hexec) Hs. unfold run. cbn. pose proof (Hconn pool s Hs) as H1.
  destruct (pool_Conn pool s) as [s1 [c|e]]; [|done].
  pose proof (exec_all_keeps P c (Statements script) s1 (fun stmt s => Hexec c stmt s) H1) as H2.
  destruct (exec_all c (Statements script) s1) as [s2 err]. by apply Hclose.
Qed.
End Running.

(** ** The command *)
Section Command.
Context `{MySQLDriver} `{SqlServer}.

Lemma add_closed version conn cfg io w r : AddConnectionWithPoolConfig version conn cfg io fresh_world = (w, r) ->
  open_pools (Close w) = ∅ /\ open_tunnels (Close w) = ∅.
Proof.
  intros Hadd. apply closed_all. pose proof (replace_resources version conn cfg io fresh_world fresh_world_ok) as Hok.
  unfold AddConnectionWithPoolConfig in Hadd. by rewrite Hadd in Hok.
Qed.

(** A script that ran, or the statement it stopped at. *)
Definition script_done (script : gostr) (pool : nat) (s : server) : Prop :=
  exists c s1 s2, pool_Conn pool s = (s1, Ok c) /\ executed c (Statements script) s1 s2.
Definition script_stopped (script : gostr) (pool : nat) (s : server) (err : goerr) : Prop :=
  (exists s1, pool_Conn pool s = (s1, Err err)) \/
  exists c s1 pre stmt post s2 s3 e, pool_Conn pool s = (s1, Ok c) /\ Statements script = pre ++ stmt :: post /\
    executed c pre s1 s2 /\ conn_Exec c stmt s2 = (s3, Some e) /\ err = Wrap (firstLine stmt) e.

Lemma run_result pool script s s' err : run (Pool pool) script s = (s', err) ->
  match err with None => script_done script pool s | Some e => script_stopped script pool s e end.
Proof.
  unfold run. cbn. destruct (pool_Conn pool s) as [s1 [c|e]] eqn:Hc.
  - destruct (exec_all c (Statements script) s1) as [s2 [e|]] eqn:Hx; intros [= _ <-].
    + right. apply exec_all_Some in Hx as (pre & stmt & post & s3 & e' & Hst & Hpre & Hex & He).
      by exists c, s1, pre, stmt, post, s3, s2, e'.
    + exists c, s1, s2. split; [done | by apply exec_all_None].
  - intros [= _ <-]. left. by exists s1.
Qed.
End Command.

(** C27: install-schema does what its exit code says and leaves nothing open.  Whatever the
    flags, the configuration and the answers of the network and of the server: every pool
    and tunnel is closed when it returns; with --print nothing is sent; otherwise the server
    sees only the statements of the script that was asked for, on one connection, and the
    version call after an installation.  Exit code 0 means that the script was printed or
    that all its statements ran in order without an error; an error of the script names the
    first line of the statement it stopped at, and everything before it ran.  The command
    never calls a nil pool when the names of the configuration are no session names, which
    Load checks. *)
Theorem install_schema_reports_what_it_did `{MySQLDriver} `{SqlServer} version installSQL uninstallSQL p load io s w s' r
    (Hrun : handleInstallSchema version installSQL uninstallSQL p load io s = (w, s', r))
    (Hnames : forall c conn, load = Ok c -> conn ∈ Connections c -> isSessionConnKey (Name conn) = false) :
  let script := if installUninstall p then uninstallSQL else installSQL in
  (open_pools w = ∅ /\ open_tunnels w = ∅) /\
  r <> NilPool /\
  (installPrint p = true -> s' = s /\ r = PrintedScript script) /\
  (forall P : server -> Prop, script_keeps script P ->
     (forall pool s, P s -> P (fst (pool_Query pool "CALL mysql_mcp.version()" [] s))) -> P s -> P s') /\
  (exit_code r = 0%Z -> installPrint p = true \/ exists pool, script_done script pool s) /\
  (forall name e, r = InstallFailed name e \/ r = UninstallFailed name e -> exists pool, script_stopped script pool s e).
Proof.
  cbv zeta. revert Hrun. unfold handleInstallSchema. destruct (installPrint p) eqn:Hprint.
  { intros [= <- <- <-]. repeat split; try done; [by left | by intros name e [?|?]]. }
  destruct load as [c|e]; [|intros [= <- <- <-]; repeat split; try done; by intros name e' [?|?]].
  destruct (install_target p c) as [conn|] eqn:Htarget; [|intros [= <- <- <-]; repeat split; try done; by intros name e' [?|?]].
  destruct (AddConnectionWithPoolConfig version conn (for_install c) io fresh_world) as [w1 [e|]] eqn:Hadd.
  { intros [= <- <- <-]. split; [by eapply add_closed|]. repeat split; try done. by intros name e' [?|?]. }
  apply find_elem in Htarget as [Hin _].
  destruct (first_connection_is_active _ _ _ _ _ (Hnames c conn eq_refl Hin) Hadd) as [pool Hpool]. rewrite Hpool.
  destruct (install_on _ _ p (Name conn) (Pool (handle pool)) s) as [s1 r1] eqn:Hon. intros [= <- <- <-].
  split; [by eapply add_closed|]. revert Hon. unfold install_on.
  destruct (installUninstall p).
  - pose proof (fun P => run_keeps P (handle pool) uninstallSQL s) as Hkeep.
    destruct (run (Pool (handle pool)) uninstallSQL s) as [s2 err] eqn:Hscript. apply run_result in Hscript.
    destruct err as [e|]; intros [= <- <-]; repeat split; try done; try (intros P HP _ Hs; by apply (Hkeep P HP Hs)).
    + intros name e' [[=]|[= <- <-]]. by eexists.
    + intros _. right. by eexists.
    + by intros name e' [?|?].
  - pose proof (fun P => run_keeps P (handle pool) installSQL s) as Hkeep.
    destruct (run (Pool (handle pool)) installSQL s) as [s2 err] eqn:Hscript. apply run_result in Hscript.
    destruct err as [e|]; [intros [= <- <-]|].
    + repeat split; try done; [intros P HP _ Hs; by apply (Hkeep P HP Hs)|]. intros name e' [[= <- <-]|[=]]. by eexists.
    + unfold DetectDB, QueryRow, QueryRowScan. cbn [db_Query]. intros Hon.
      assert (Hr : exists v s3, (s1, r1) = (s3, InstalledPack v (Name conn)) /\ s3 = fst (pool_Query (handle pool) "CALL mysql_mcp.version()" [] s2)).
      { revert Hon. destruct (pool_Query (handle pool) "CALL mysql_mcp.version()" [] s2) as [s3 q]. intros <-. cbn.
        repeat case_match; simplify_eq/=; eauto. }
      destruct Hr as (v & s3 & [= -> ->] & ->). repeat split; try done.
      * intros P HP Hv Hs. apply Hv. by apply (Hkeep P HP Hs).
      * intros _. right. by eexists.
      * by intros name e' [?|?].
Qed.

(** sql/uninstall.sql *)
Definition uninstall_sql : gostr :=
  "-- SPDX-License-Identifier: Apache-2.0
-- Copyright askdba
--
-- Removes the mysql_mcp SQL tool pack: the whole `mysql_mcp` schema, which holds only
-- the pack's routines. Grants on mysql_mcp.* stay in the grant tables until revoked.
DROP DATABASE IF EXISTS mysql_mcp;
".
Example uninstall_statements : Statements uninstall_sql = ["DROP DATABASE IF EXISTS mysql_mcp" : gostr].
Proof. vm_compute. reflexivity. Qed.

Definition uninstall_args : parsedArgs := parseArgs ["install-schema"; "--uninstall"; "--connection"; "main"].
Definition install_cfg : Config := set_connections [example_conn "other"; example_conn "main"] example_cfg.

Lemma install_names conn : conn ∈ Connections install_cfg -> isSessionConnKey (Name conn) = false.
Proof.
  change (Connections install_cfg) with [example_conn "other"; example_conn "main"].
  intros Hin. apply elem_of_cons in Hin as [->|Hin]; [by vm_compute|]. apply elem_of_cons in Hin as [->|Hin]; [by vm_compute|].
  destruct (not_elem_of_nil _ Hin).
Qed.

Lemma install_schema_reports_what_it_did_witness :
  let '(w, s, r) := @handleInstallSchema plain_driver log_server "1.0" "" uninstall_sql uninstall_args (Ok install_cfg) (example_io None) [] in
  r = Uninstalled "main" /\ s = ["DROP DATABASE IF EXISTS mysql_mcp" : gostr] /\ open_pools w = ∅.
Proof.
  destruct (@handleInstallSchema plain_driver log_server "1.0" "" uninstall_sql uninstall_args (Ok install_cfg) (example_io None) [])
    as [[w s] r] eqn:Hrun.
  assert (Hsr : s = ["DROP DATABASE IF EXISTS mysql_mcp" : gostr] /\ r = Uninstalled "main").
  { apply (f_equal (fun x => (snd (fst x), snd x))) in Hrun. vm_compute in Hrun. injection Hrun as <- <-. done. }
  destruct Hsr as [-> ->]. split; [done|]. split; [done|].
  refine (proj1 (proj1 (@install_schema_reports_what_it_did plain_driver log_server "1.0" "" uninstall_sql uninstall_args (Ok install_cfg)
    (example_io None) [] w _ _ Hrun _))).
  clear Hrun w. intros c conn [= <-] Hin. exact (install_names conn Hin).
Defined.
