(* ===== verification/Startup.v ===== *)
(** cmd/mysql-mcp-server/main.go: the whole of [main], from the arguments to the server that
    is started, with everything the process reads on the way. *)
From S2P Require Import Prelude Unicode GoStrings GoNum GoFmt GoNet Config ConfigFile Access Labels.
From S2P Require Import Retry Sql Client Connection Sessions Http RateLimit Listener AuditLog QueryTools Main Install.

(** ** What the process finds around it *)
Record surroundings := {
  windows : bool;
  environ : env;
  network : nat -> io_outcome;            (* while the n-th connection of the configuration is added *)
  key_pair : option goerr;                (* tls.LoadX509KeyPair *)
  listen : gostr -> option goerr;         (* net.Listen, and the Close of that listener *)
  close_probe : option goerr;
  start_child : option goerr;             (* cmd.Start *)
  open_log : gostr -> option goerr;       (* os.OpenFile of the audit log *)
  tokenizer : gostr -> option goerr       (* tiktoken.GetEncoding *)
}.

(** ** How it ends, or what it serves *)
Inductive ending :=
| BadArguments (err : arg_error) | PrintedVersion | PrintedHelp
| PrintedConfig (printed : result load_error FileConfig) | Validated (outcome : result load_error unit)
| RanInstall (outcome : install_result)
| ConfigFailed (err : load_error)
| NeedsHTTP | PreflightFailed (err : goerr) | ChildFailed (err : goerr) | ChildStarted (child : list gostr)
| AuditFailed (err : goerr) | NoValidConnections | OriginRefused (origin : gostr) (err : origin_error).
Definition exit_status (e : ending) : Z :=
  match e with
  | PrintedVersion | PrintedHelp | PrintedConfig (Ok _) | Validated (Ok _) | ChildStarted _ => 0
  | RanInstall r => exit_code r
  | _ => 1
  end.

Definition mcp_handler := Z -> option RateLimiter -> request -> response -> option RateLimiter * response.
Inductive serving :=
| RestAPI (srv : http_server) (limiter : option RateLimiter)
| StreamableHTTP (srv : http_server) (useTLS : bool) (limiter : option RateLimiter) (serve : mcp_handler) (tools : list gostr)
| Stdio (metrics : option http_server) (tools : list gostr).

(** The variables of the package once they are set. *)
Record running := {
  r_cfg : Config; r_globals : globals; r_queryTimeout : Z; r_extendedMode : bool; r_labelsEnabled : bool;
  r_auditLogger : AuditLogger; r_tokenTracking : bool; r_tokenCard : bool; r_serving : serving
}.
Inductive process := Exited (why : ending) (w : world) | Serving (r : running) (w : world).

Section Process.
Context `{ConfigIO} `{UrlParse} `{MySQLDriver} `{SqlServer}.
Variables version installSQL uninstallSQL : gostr.
(** The parameters of the handlers (see Listener.v) and the SDK's handler of the MCP server. *)
Variable encode : payload -> gostr.
Variable quoted : gostr -> gostr.
Variables (healthStatus snapshot : gostr) (httpStatusPage mcpHandler : handler).

(** handlePrintConfig and handleValidateConfig; the YAML text is that of [printed_config]. *)
Definition handlePrintConfig (configFilePath : gostr) (e : env) : result load_error FileConfig :=
  let? c := Load configFilePath e in Ok (printed_config c).
Definition handleValidateConfig (path : gostr) (e : env) : result load_error unit := ValidateConfigFile path e.

(** [NewTokenEstimator]: whether there is an encoding for the model. *)
Definition NewTokenEstimator (get_encoding : gostr -> option goerr) (model : gostr) : bool :=
  let model := if is_empty model then "cl100k_base" else model in
  match get_encoding model with Some _ => false | None => true end.

(** The connections, each with what the network answers while it is added. *)
Definition answers (s : surroundings) (conns : list ConnectionConfig) : list (ConnectionConfig * io_outcome) :=
  imap (fun n conn => (conn, network s n)) conns.

Definition addConnectionEnabled (e : env) : bool := Getenv e "MYSQL_MCP_ENABLE_ADD_CONNECTION" =?s "1".

(** The server main chooses; an error of newMCPHTTPHandler is fatal. *)
Definition start_serving (s : surroundings) (c : Config) (audit : AuditLogger) (card : bool) (l : launch) : serving + ending :=
  let tools := buildMCPServer c (enabled audit) (addConnectionEnabled (environ s)) in
  match l with
  | MCPOverHTTP =>
      match newMCPHTTPHandler encode quoted healthStatus snapshot httpStatusPage c card mcpHandler with
      | Err (o, e) => inr (OriginRefused o e)
      | Ok serve => inl (StreamableHTTP (mcp_server c) (negb (is_empty (MCPHTTPTLSCert c))) (new_limiter c) serve tools)
      end
  | MCPOverStdio sidecar => inl (Stdio (if sidecar then Some (metrics_server (HTTPPort c)) else None) tools)
  | _ => inl (RestAPI (rest_server c (HTTPPort c)) (new_limiter c))
  end.

(** main from the aliases on. *)
Definition run_server (s : surroundings) (p : parsedArgs) (c : Config) (l : launch) : process :=
  match NewAuditLogger Clean (open_log s) (AuditLogPath c) with
  | Err e => Exited (AuditFailed e) fresh_world
  | Ok audit =>
      let w := startup version c (answers s (Connections c)) fresh_world in
      match GetActiveDB (cm w) with
      | None => Exited NoValidConnections (Close w)
      | Some _ =>
          match start_serving s c audit (token_card c p) l with
          | inr why => Exited why w
          | inl sv =>
              Serving {| r_cfg := c; r_globals := set_globals c (initAccessControl (AllowedDatabases c));
                         r_queryTimeout := QueryTimeout c; r_extendedMode := ExtendedMode c; r_labelsEnabled := StatementLabels c;
                         r_auditLogger := audit; r_tokenTracking := TokenTracking c && NewTokenEstimator (tokenizer s) (TokenModel c);
                         r_tokenCard := token_card c p; r_serving := sv |} w
          end
      end
  end.

(** main from the configuration on. *)
Definition run_configured (s : surroundings) (args : list gostr) (p : parsedArgs) (c : Config) : process :=
  match main_launch (windows s) args c (preflightHTTPListener c (key_pair s) (listen s) (close_probe s)) with
  | DaemonNeedsHTTP => Exited NeedsHTTP fresh_world
  | DaemonFails e => Exited (PreflightFailed e) fresh_world
  | Detach child => Exited (match start_child s with Some e => ChildFailed e | None => ChildStarted child end) fresh_world
  | l => run_server s p c l
  end.

Definition main (s : surroundings) (args : list gostr) (db : server) : server * process :=
  let p := parseArgs args in
  match pa_err p with
  | Some e => (db, Exited (BadArguments e) fresh_world)
  | None =>
      match pa_action p with
      | VersionAction => (db, Exited PrintedVersion fresh_world)
      | HelpAction => (db, Exited PrintedHelp fresh_world)
      | PrintConfig => (db, Exited (PrintedConfig (handlePrintConfig (configPath p) (environ s))) fresh_world)
      | ValidateConfig => (db, Exited (Validated (handleValidateConfig (validatePath p) (environ s))) fresh_world)
      | InstallSchema =>
          let '(w, db, r) := handleInstallSchema version installSQL uninstallSQL p (Load (configPath p) (environ s)) (network s 0) db in
          (db, Exited (RanInstall r) w)
      | NoAction =>
          match Load (configPath p) (environ s) with
          | Err e => (db, Exited (ConfigFailed e) fresh_world)
          | Ok c => (db, run_configured s args p c)
          end
      end
  end.
End Process.

(** ** The loop over the connections *)
Section Loop.
Context `{MySQLDriver}.
Variable version : gostr.
Variable cfg : Config.

(** A connection opens or not, whatever is open already. *)
Definition opens (ci : ConnectionConfig * io_outcome) : bool := is_ok (snd (open_conn version (fst ci) cfg (snd ci) fresh_world)).

Lemma open_conn_same conn io w w' : is_ok (snd (open_conn version conn cfg io w)) = is_ok (snd (open_conn version conn cfg io w')).
Proof.
  unfold open_conn, start_tunnel. destruct (prepare_dsn conn cfg) as [dsn|]; [|done]. destruct (negb (needs_tunnel conn)).
  - destruct (openLabeledDB version dsn cfg); [|done]. by destruct (io_ping io).
  - destruct (ParseDSN dsn) as [d|]; [|done]. destruct (io_tunnel io) as [a|]; [|done].
    destruct (openLabeledDB version (FormatDSN (set_addr a d)) cfg); [|done]. by destruct (io_ping io).
Qed.

(** Adding a connection under a name that is not registered. *)
Lemma add_unregistered conn io w :
  connections (cm w) !! Name conn = None ->
  let w' := fst (AddConnectionWithPoolConfig version conn cfg io w) in
  if opens (conn, io) then exists o, cm w' = registration conn cfg o (cm w)
  else cm w' = cm w.
Proof.
  intros Hfree. cbv zeta. unfold AddConnectionWithPoolConfig, addConnectionWithPoolConfig, opens. cbn [fst snd].
  assert (Hnone : forall w, connections (cm w) !! Name conn = None -> tearDownNamedConnection (Name conn) w = w)
    by (intros w0 Hw; unfold tearDownNamedConnection; by rewrite Hw).
  rewrite Hnone by done. rewrite (open_conn_same conn io fresh_world w).
  destruct (open_conn version conn cfg io w) as [w1 [o|e]] eqn:Ho; cbn [snd is_ok].
  - apply open_conn_cm in Ho.
    rewrite register_conn_cases, andb_false_r. cbv zeta. rewrite Hnone by by rewrite Ho. exists o. cbn. by rewrite Ho.
  - by apply open_conn_cm in Ho.
Qed.

(** After a list of connections with different names: the ones that open are registered, and
    the first of them is the active one. *)
Record loop_ok (ios : list (ConnectionConfig * io_outcome)) (m : ConnectionManager) : Prop := {
  registered_opens : forall n, is_Some (connections m !! n) <-> exists ci, ci ∈ ios /\ Name (fst ci) = n /\ opens ci = true;
  first_is_active : activeConn m = match List.find opens ios with Some ci => Name (fst ci) | None => [] end
}.

Lemma find_snoc {A} (f : A -> bool) (l : list A) (a : A) :
  List.find f (l ++ [a]) = match List.find f l with Some b => Some b | None => if f a then Some a else None end.
Proof. induction l as [|b l IH]; cbn; [done|]. by destruct (f b). Qed.

Lemma startup_snoc ios ci w :
  startup version cfg (ios ++ [ci]) w = fst (AddConnectionWithPoolConfig version (fst ci) cfg (snd ci) (startup version cfg ios w)).
Proof. unfold startup. by rewrite fold_left_app. Qed.

Lemma loop_spec ios :
  NoDup (map (fun ci => Name (fst ci)) ios) -> (forall ci, ci ∈ ios -> Name (fst ci) <> [] /\ isSessionConnKey (Name (fst ci)) = false) ->
  loop_ok ios (cm (startup version cfg ios fresh_world)).
Proof.
  induction ios as [|[conn io] ios IH] using rev_ind; intros Hnd Hnames.
  { split; [|done]. intros n. cbn. rewrite lookup_empty. split; [by intros [? ?] | intros (ci & Hci & _); by apply not_elem_of_nil in Hci]. }
  rewrite map_app in Hnd. apply NoDup_app in Hnd as (Hnd & Hnew & _).
  destruct (IH Hnd) as [Hreg Hact]; [intros ci Hci; apply Hnames, elem_of_app; by left|].
  destruct (Hnames (conn, io)) as [Hne Hkey]; [apply elem_of_app; right; apply list_elem_of_here|]. cbn [fst] in *.
  rewrite startup_snoc. cbn [fst snd]. set (w := startup version cfg ios fresh_world) in *.
  assert (Hfree : connections (cm w) !! Name conn = None).
  { apply eq_None_not_Some. rewrite Hreg. intros (ci & Hci & Hn & _). apply (Hnew (Name (fst ci))); [|rewrite Hn; apply list_elem_of_here].
    apply list_elem_of_fmap. by exists ci. }
  pose proof (add_unregistered conn io w Hfree) as Hadd. cbv zeta in Hadd.
  destruct (opens (conn, io)) eqn:Hopens.
  - destruct Hadd as (o & ->). split.
    + intros n. cbn. destruct (decide (n = Name conn)) as [->|Hn].
      * rewrite lookup_insert_eq. split; [intros _ | by eexists]. exists (conn, io). split; [apply elem_of_app; right; apply list_elem_of_here | done].
      * rewrite lookup_insert_ne, Hreg by done. setoid_rewrite elem_of_app. setoid_rewrite list_elem_of_singleton.
        split; intros (ci & Hci & Hcn & Ho); exists ci; [tauto|]. split; [|done]. destruct Hci as [?| ->]; [done|]. by subst n.
    + cbn. rewrite find_snoc, Hopens, Hkey, andb_true_r. rewrite Hact. destruct (List.find opens ios) as [ci|] eqn:Hf; [|done].
      apply find_elem in Hf as [Hci _]. destruct (Hnames ci) as [Hc _]; [apply elem_of_app; by left|]. by apply is_empty_false in Hc as ->.
  - rewrite Hadd. split.
    + intros n. rewrite Hreg. setoid_rewrite elem_of_app. setoid_rewrite list_elem_of_singleton.
      split; intros (ci & Hci & Hcn & Ho); exists ci; [tauto|]. split; [|done]. destruct Hci as [?| ->]; [done | congruence].
    + rewrite find_snoc, Hopens, Hact. by destruct (List.find opens ios).
Qed.
End Loop.

(** ** Every registered pool has the mode and the deadlines of its connection

    Also when a name is configured twice. *)
Section Safe.
Context `{DriverLaws}.
Variable version : gostr.
Variable cfg : Config.

(** A registered pool is that of the configuration recorded under its name. *)
Definition pools_safe (m : ConnectionManager) : Prop :=
  forall n p, connections m !! n = Some p -> exists conn, configs m !! n = Some conn /\ safe_pool cfg conn p.

Lemma teardown_safe name w : pools_safe (cm w) -> pools_safe (cm (tearDownNamedConnection name w)).
Proof.
  intros Hw n p. unfold tearDownNamedConnection. destruct (connections (cm w) !! name); [|apply Hw]. cbn.
  rewrite lookup_delete_Some. intros [Hn Hp]. setoid_rewrite lookup_delete_ne; [|done]. by apply Hw.
Qed.
Lemma registration_safe conn o m : safe_pool cfg conn (o_pool o) -> pools_safe m -> pools_safe (registration conn cfg o m).
Proof.
  intros Ho Hm n p. cbn. destruct (decide (n = Name conn)) as [->|Hn].
  - rewrite !lookup_insert_eq. intros [= <-]. by exists conn.
  - rewrite !lookup_insert_ne by done. apply Hm.
Qed.

Lemma add_safe conn io w : pools_safe (cm w) -> pools_safe (cm (fst (AddConnectionWithPoolConfig version conn cfg io w))).
Proof.
  intros Hw. unfold AddConnectionWithPoolConfig, addConnectionWithPoolConfig.
  destruct (open_conn version conn cfg io (tearDownNamedConnection (Name conn) w)) as [w1 r] eqn:Ho.
  assert (H1 : pools_safe (cm w1)) by (apply open_conn_cm in Ho as ->; by apply teardown_safe). destruct r as [o|e]; [|done].
  rewrite register_conn_cases, andb_false_r. apply registration_safe; [by eapply opened_safe | by apply teardown_safe].
Qed.

Lemma add_if_absent_safe conn io w : pools_safe (cm w) -> pools_safe (cm (fst (AddConnectionIfAbsentWithPoolConfig version conn cfg io w))).
Proof.
  intros Hw. unfold AddConnectionIfAbsentWithPoolConfig, addConnectionWithPoolConfig.
  destruct (reserve_add (Name conn) (cm w)) as [m [e|]] eqn:Hres; [done|]. apply reserve_add_None in Hres as (_ & _ & _ & ->).
  destruct (open_conn version conn cfg io _) as [w1 r] eqn:Ho.
  assert (H1 : pools_safe (cm w1)) by (apply open_conn_cm in Ho as ->; exact Hw). destruct r as [o|e]; [|exact H1].
  rewrite register_conn_cases. destruct (registered (Name conn) (cm w1) && negb false); [destruct (o_tunnel o); exact H1|].
  apply (registration_safe conn o); [by eapply opened_safe | by apply (teardown_safe (Name conn) w1)].
Qed.

Lemma startup_safe ios w : pools_safe (cm w) -> pools_safe (cm (startup version cfg ios w)).
Proof.
  revert w. induction ios as [|ci ios IH]; intros w Hw; [done|]. cbn. by apply IH, add_safe.
Qed.
End Safe.

Lemma answers_fst s conns : map fst (answers s conns) = conns.
Proof.
  unfold answers. generalize (network s). induction conns as [|conn conns IH]; intros f; [done|]. cbn. f_equal. apply (IH (f ∘ S)).
Qed.

(** ** The process *)
Section Main.
Context `{ConfigIO} `{Hurl : UrlLaws} `{Hdriver : DriverLaws} `{SqlServer}.
Variables version installSQL uninstallSQL : gostr.
Variable encode : payload -> gostr.
Variable quoted : gostr -> gostr.
Variables (healthStatus snapshot : gostr) (httpStatusPage mcpHandler : handler).

(** Everything is closed. *)
Definition all_closed (w : world) : Prop := open_pools w = ∅ /\ open_tunnels w = ∅.

Lemma install_closes p load io db w db' r :
  handleInstallSchema version installSQL uninstallSQL p load io db = (w, db', r) -> all_closed w.
Proof.
  unfold handleInstallSchema. destruct (installPrint p); [by intros [= <- _ _]|]. destruct load as [c|e]; [|by intros [= <- _ _]].
  destruct (install_target p c) as [conn|]; [|by intros [= <- _ _]].
  destruct (AddConnectionWithPoolConfig version conn (for_install c) io fresh_world) as [w1 r1] eqn:Hadd. apply add_closed in Hadd.
  destruct r1; [by intros [= <- _ _]|]. destruct (GetActiveDB (cm w1)); [|by intros [= <- _ _]].
  destruct (install_on _ _ _ _ _ _). by intros [= <- _ _].
Qed.

(** The manager after the loop, with a configuration that Load returned. *)
Lemma loaded_started path e c s :
  Load path e = Ok c -> started (startup version c (answers s (Connections c)) fresh_world).
Proof.
  intros Hload. destruct (loaded_config _ _ _ Hload) as (Hnames & _).
  apply startup_ok; [|apply start_world_ok]. rewrite answers_fst. by apply connections_checked.
Qed.
Lemma startup_pools_safe c s : pools_safe c (cm (startup version c (answers s (Connections c)) fresh_world)).
Proof. apply startup_safe. intros n p Hn. cbn in Hn. by rewrite lookup_empty in Hn. Qed.

(** What is served agrees with the configuration. *)
Definition serves_config (c : Config) (card : bool) (sv : serving) : Prop :=
  match sv with
  | RestAPI srv limiter => HTTPMode c = true /\ srv_Addr srv = preflight_address c /\ limiter = new_limiter c
  | StreamableHTTP srv useTLS limiter serve tools =>
      mcp_http_ok c /\ srv_Addr srv = preflight_address c /\ limiter = new_limiter c /\
      (useTLS = true \/ IsLoopbackBind (MCPHTTPBind c) = true \/ MCPHTTPAllowInsecure c = true) /\
      registrable (mcp_routes encode healthStatus snapshot httpStatusPage c card mcpHandler) /\
      newMCPHTTPHandler encode quoted healthStatus snapshot httpStatusPage c card mcpHandler = Ok serve
  | Stdio metrics tools => HTTPMode c = false /\ Transport c = TransportStdio /\ (is_Some metrics <-> MetricsHTTP c = true)
  end.

Lemma serving_ok path e s c audit card :
  Load path e = Ok c ->
  exists sv, start_serving encode quoted healthStatus snapshot httpStatusPage mcpHandler s c audit card (choose_server c) = inl sv /\
    serves_config c card sv.
Proof.
  intros Hload. destruct (loaded_config _ _ _ Hload) as (_ & _ & _ & _ & _ & _ & _ & Htransport).
  unfold choose_server, start_serving. destruct (HTTPMode c) eqn:Hmode.
  { eexists. split; [done|]. unfold serves_config, preflight_address. by rewrite Hmode. }
  destruct (Transport c =?s "http") eqn:Ht.
  - apply str_eqb_eq in Ht. destruct Htransport as [Hs|Hok]; [by rewrite Ht in Hs|].
    assert (Herr : trusted_origins_error (MCPHTTPAllowedOrigins c) = None).
    { assert (Hall : forall o, o ∈ MCPHTTPAllowedOrigins c -> AddTrustedOrigin o = None)
        by (intros o Ho; destruct (loaded_origins path e c o Hload Ht Ho); by apply valid_origin_trusted).
      revert Hall. generalize (MCPHTTPAllowedOrigins c). intros os. induction os as [|o os IH]; intros Hall; cbn; [done|].
      rewrite Hall by apply list_elem_of_here. apply IH. intros o' Ho. apply Hall. by apply list_elem_of_further. }
    unfold newMCPHTTPHandler. rewrite Herr. eexists. split; [done|]. unfold serves_config. split; [done|].
    unfold preflight_address. rewrite Hmode, Ht. repeat (split; [done|]). split; [|split].
    + destruct Hok as (_ & _ & _ & _ & _ & _ & (_ & _ & Hexp)). destruct (IsLoopbackBind (MCPHTTPBind c)); [tauto|].
      destruct (Hexp eq_refl) as [_ [Hc|Hi]]; [left; by apply negb_true_iff, is_empty_false | tauto].
    + apply mcp_routes_registrable, Hok.
    + unfold newMCPHTTPHandler. by rewrite Herr.
  - eexists. split; [done|]. cbn. split; [done|]. split.
    + destruct Htransport as [?|[Hs _]]; [done|]. by rewrite Hs in Ht.
    + destruct (MetricsHTTP c); (split; [|eauto || done]); [done | by intros [? [=]]].
Qed.

Definition run_main (s : surroundings) (args : list gostr) (db : server) : process :=
  snd (main version installSQL uninstallSQL encode quoted healthStatus snapshot httpStatusPage mcpHandler s args db).
Definition run_as (s : surroundings) (p : parsedArgs) (c : Config) (l : launch) : process :=
  run_server version encode quoted healthStatus snapshot httpStatusPage mcpHandler s p c l.

(** main.go from the choice of the server on. *)
Lemma run_server_cases s p c :
  Load (configPath p) (environ s) = Ok c ->
  (exists err, NewAuditLogger Clean (open_log s) (AuditLogPath c) = Err err /\ run_as s p c (choose_server c) = Exited (AuditFailed err) fresh_world) \/
  exists audit w, NewAuditLogger Clean (open_log s) (AuditLogPath c) = Ok audit /\
    w = startup version c (answers s (Connections c)) fresh_world /\
    ((GetActiveDB (cm w) = None /\ run_as s p c (choose_server c) = Exited NoValidConnections (Close w)) \/
     (is_Some (GetActiveDB (cm w)) /\ exists r, run_as s p c (choose_server c) = Serving r w /\ (r_cfg r = c /\
        r_globals r = set_globals c (initAccessControl (AllowedDatabases c)) /\ r_auditLogger r = audit) /\
        start_serving encode quoted healthStatus snapshot httpStatusPage mcpHandler s c audit (r_tokenCard r) (choose_server c) = inl (r_serving r) /\
        serves_config c (r_tokenCard r) (r_serving r))).
Proof.
  intros Hload. unfold run_as, run_server. destruct (NewAuditLogger _ _ _) as [audit|err]; [|left; by eexists]. right.
  exists audit, (startup version c (answers s (Connections c)) fresh_world). do 2 (split; [done|]).
  destruct (GetActiveDB _) as [pl|]; [right|by left]. split; [done|].
  destruct (serving_ok _ _ s c audit (token_card c p) Hload) as (sv & Hsv & Hok). rewrite Hsv. eexists. split; [done|]. by repeat split.
Qed.

(** In the foreground. *)
Lemma run_foreground s args c :
  let p := parseArgs args in
  pa_err p = None -> pa_action p = NoAction -> daemon p = false ->
  run_configured version encode quoted healthStatus snapshot httpStatusPage mcpHandler s args p c = run_as s p c (choose_server c).
Proof.
  cbv zeta. intros Herr Hact Hd. unfold run_configured, main_launch. rewrite Herr, Hact, Hd.
  unfold choose_server. destruct (HTTPMode c); [done|]. by destruct (Transport c =?s "http").
Qed.
(** As a daemon's parent nothing is opened; on Windows the process goes on in the foreground. *)
Lemma run_background s args c :
  let p := parseArgs args in
  pa_err p = None -> pa_action p = NoAction -> daemon p = true ->
  (exists why, run_configured version encode quoted healthStatus snapshot httpStatusPage mcpHandler s args p c = Exited why fresh_world /\
     forall o err, why <> OriginRefused o err) \/
  windows s = true /\
  run_configured version encode quoted healthStatus snapshot httpStatusPage mcpHandler s args p c = run_as s p c (choose_server c).
Proof.
  cbv zeta. intros Herr Hact Hd. unfold run_configured, main_launch. rewrite Herr, Hact, Hd.
  destruct (_ && _); [left; by eexists|]. destruct (preflightHTTPListener _ _ _ _); [left; by eexists|].
  destruct (windows s); cbn [daemonize maybeDaemonize maybeDaemonize_windows].
  - right. split; [done|]. unfold choose_server. destruct (HTTPMode c); [done|]. by destruct (Transport c =?s "http").
  - left. eexists. split; [done|]. by destruct (start_child s).
Qed.

(** The two ways main goes on: it serves, or it ends with everything closed. *)
Record serves_loaded (s : surroundings) (args : list gostr) (c : Config) (r : running) (w : world) : Prop := {
  sl_load : Load (configPath (parseArgs args)) (environ s) = Ok c;
  sl_daemon : daemon (parseArgs args) = true -> windows s = true;
  sl_world : w = startup version c (answers s (Connections c)) fresh_world;
  sl_active : is_Some (GetActiveDB (cm w));
  sl_cfg : r_cfg r = c;
  sl_globals : r_globals r = set_globals c (initAccessControl (AllowedDatabases c));
  sl_start : start_serving encode quoted healthStatus snapshot httpStatusPage mcpHandler s c (r_auditLogger r) (r_tokenCard r)
               (choose_server c) = inl (r_serving r);
  sl_serving : serves_config c (r_tokenCard r) (r_serving r)
}.
Lemma main_cases s args db :
  match run_main s args db with
  | Exited why w => all_closed w /\ forall o err, why <> OriginRefused o err
  | Serving r w => exists c, serves_loaded s args c r w
  end.
Proof.
  unfold run_main, main. set (p := parseArgs args).
  destruct (pa_err p) eqn:Herr; [done|]. destruct (pa_action p) eqn:Hact; try done.
  - destruct (Load (configPath p) (environ s)) as [c|err] eqn:Hload; [|done]. cbn [snd].
    assert (Hrun : (exists why, run_configured version encode quoted healthStatus snapshot httpStatusPage mcpHandler s args p c = Exited why fresh_world /\
        forall o err, why <> OriginRefused o err) \/
      (daemon p = true -> windows s = true) /\
      run_configured version encode quoted healthStatus snapshot httpStatusPage mcpHandler s args p c = run_as s p c (choose_server c)).
    { destruct (daemon p) eqn:Hd; [|right; split; [done | exact (run_foreground s args c Herr Hact Hd)]].
      destruct (run_background s args c Herr Hact Hd) as [Hend|[Hwin Hrun]]; [by left | by right]. }
    destruct Hrun as [(why & -> & Hwhy)|[Hd ->]]; [done|].
    destruct (loaded_started _ _ c s Hload) as (Hres & _).
    destruct (run_server_cases s p c Hload) as [(err & _ & ->)|(audit & w & _ & -> & [[_ ->]|(Hdb & r & -> & (Hcfg & Hglob & Haud) & Hstart & Hsv)])];
      [done | split; [by apply closed_all | done]|].
    exists c. rewrite <- Haud in Hstart. by constructor.
  - destruct (handleInstallSchema _ _ _ _ _ _ _) as [[w db'] r] eqn:Hi. cbn [snd]. split; [by apply install_closes in Hi | done].
Qed.


End Main.

(** ** An example: two connections from the environment, the first one is down *)
#[local] Instance no_files : ConfigIO := {|
  ReadFile _ := Err "no such file"; Stat _ := false; UserHomeDir := None; yaml_Unmarshal _ := Err "yaml";
  json_Unmarshal _ := Err "json"; json_connections _ := Err "json" |}.
Definition demo_dsn : gostr := DSN (example_conn "main").
Definition demo_env : env :=
  {[("MYSQL_DSN_1" : gostr) := demo_dsn; ("MYSQL_DSN_2" : gostr) := demo_dsn; ("MYSQL_MCP_TRANSPORT" : gostr) := ("http" : gostr);
    ("MYSQL_MCP_HTTP_ALLOWED_ORIGINS" : gostr) := ("https://App.example.com:443/" : gostr);
    ("MYSQL_MCP_STRICT_READ_ONLY" : gostr) := ("1" : gostr)]}.
Definition demo_surroundings : surroundings :=
  {| windows := false; environ := demo_env; network n := example_io (if n =? 0 then Some ("refused" : gostr) else None); key_pair := None;
     listen _ := None; close_probe := None; start_child := None; open_log _ := None; tokenizer _ := None |}.
Definition demo_config : Config := match Load (H0 := plain_url) [] demo_env with Ok c => c | Err _ => default_config end.
Definition demo_main : process :=
  @run_main no_files plain_url plain_driver log_server "1.0" "" "" write_payload (fun s => s) "ok" "{}" (fun _ w => w) (fun _ w => w)
    demo_surroundings ["--silent" : gostr] [].

Example demo_origins : MCPHTTPAllowedOrigins demo_config = ["https://app.example.com" : gostr].
Proof. vm_compute. reflexivity. Qed.



(** The names of the configuration need not differ: when the second of two connections with
    one name does not open, the first, which did, is closed again, and the server does not
    start. *)
Definition same_name_env : env := <[("MYSQL_DSN_1_NAME" : gostr) := ("main" : gostr)]> (<[("MYSQL_DSN_2_NAME" : gostr) := ("main" : gostr)]> demo_env).
Definition second_is_down : surroundings :=
  {| windows := false; environ := same_name_env; network n := example_io (if n =? 0 then None else Some ("refused" : gostr)); key_pair := None;
     listen _ := None; close_probe := None; start_child := None; open_log _ := None; tokenizer _ := None |}.
Example same_name_loses_the_connection :
  match @run_main no_files plain_url plain_driver log_server "1.0" "" "" write_payload (fun s => s) "ok" "{}" (fun _ w => w) (fun _ w => w)
          second_is_down [] [] with
  | Exited why _ => why = NoValidConnections
  | Serving _ _ => False
  end.
Proof. vm_compute. reflexivity. Qed.
