(* ===== verification/Prompts.v ===== *)
(** cmd/mysql-mcp-server/prompts.go: the prompts, which call tools and report their results
    as Markdown. *)
From Stdlib Require Import SpecFloat.
From S2P Require Import Prelude Unicode GoStrings GoNum GoFmt Identifiers SqlParser Config Access Labels Retry Sql Connection QueryTools Tools Catalog Explain Metrics ServerInfo Diagnostics.

(** ** The tools a prompt calls

    [St] is the state the tools act on; a ping answers its latency and its error. *)
Class PromptTools (St : Type) := {
  call_ping : St -> St * (Z * option goerr);
  call_server_info : St -> St * result tool_error ServerInfoOutput;      (* detailed *)
  call_process_list : St -> St * result tool_error ProcessListOutput;
  call_slow_log : Z -> St -> St * result tool_error SlowQueryLogOutput;
  call_list_tables : gostr -> St -> St * result tool_error (list TableInfo);
  call_list_indexes : gostr -> gostr -> St -> St * result tool_error (list IndexInfo);
  call_foreign_keys : gostr -> St -> St * result tool_error (list ForeignKeyInfo);
  call_explain : ExplainQueryInput -> St -> St * result tool_error ExplainQueryOutput;
  call_list_connections : St -> St * (list ConnectionInfo * gostr);
  call_list_variables : St -> St * result tool_error (list Variable_)
}.

(** ** Reports *)
Inductive prompt_description :=
| LiveHealthData | SchemaAuditFor (database : gostr) | ExecutionPlanAdvice | ConnectionDiagnostics.
Record GetPromptResult := { pr_Description : prompt_description; pr_Text : gostr }.

Definition nl : gostr := [ch_newline].
Definition maxTablesForIndexes : nat := 20.

Section Reports.
Context `{GoPrint} (cfg : Config).
(** The texts of errors ([%v]). *)
Variables (err_text : tool_error -> gostr) (goerr_text : goerr -> gostr).

Definition report_ping (label : gostr) (ok : Z -> gostr) (out : Z * option goerr) : gostr :=
  match snd out with
  | None => "**" ++ label ++ "**: OK" ++ ok (fst out) ++ nl ++ nl
  | Some e => "**" ++ label ++ "**: FAILED — ping failed: " ++ goerr_text e ++ nl ++ nl
  end.

Definition report_health (h : ServerHealthSnapshot) : gostr :=
  "- Threads running: " ++ Itoa (ThreadsRunning h) ++ nl ++
  "- Slow queries (since startup): " ++ Itoa (h_SlowQueries h) ++ nl ++
  (if (0 <? Questions h)%Z then "- Questions (since startup): " ++ Itoa (Questions h) ++ nl else []) ++
  match BufferPoolHitPercent h with
  | Some p => "- InnoDB buffer pool hit rate: " ++ sprint_f2 p ++ "%" ++ nl
  | None => []
  end.
Definition report_server (r : result tool_error ServerInfoOutput) : gostr :=
  match r with
  | Err e => "**Server Info**: unavailable (" ++ err_text e ++ ")" ++ nl ++ nl
  | Ok o =>
      "**Server**" ++ nl ++
      "- Version: " ++ Version o ++ " (" ++ ServerEngine o ++ ")" ++ nl ++
      "- Comment: " ++ VersionComment o ++ nl ++
      "- Uptime: " ++ Itoa (Z.quot (Uptime o) 86400) ++ "d " ++ Itoa (Z.quot (Z.rem (Uptime o) 86400) 3600) ++ "h" ++ nl ++
      "- User: " ++ CurrentUser o ++ nl ++
      "- Charset / collation: " ++ CharacterSet o ++ " / " ++ si_Collation o ++ nl ++
      "- Connections: " ++ Itoa (ThreadsConnected o) ++ " active / " ++ Itoa (MaxConnections o) ++ " max" ++ nl ++
      match Health o with Some h => report_health h | None => [] end ++ nl
  end.

Definition report_processes (o : ProcessListOutput) : gostr :=
  "**Active Processes** (" ++ Itoa (Z.of_nat (length (Processes o))) ++ ")" ++ nl ++
  concat (map (fun p =>
    "- [" ++ Itoa (p_id p) ++ "] " ++ p_user p ++ " cmd=" ++ p_command p ++ " time=" ++ Itoa (p_time p) ++ "s" ++
    (if negb (is_empty (p_info p)) then ": " ++ TruncateQuery (p_info p) 80 else []) ++ nl) (Processes o)) ++
  match Note o with
  | Some e => "  (SHOW FULL PROCESSLIST failed (need PROCESS privilege): " ++ goerr_text e ++ ")" ++ nl
  | None => []
  end ++ nl.
Definition report_slow_log (o : SlowQueryLogOutput) : gostr :=
  let message := Message o ++ match sl_cause o with Some e => goerr_text e | None => [] end in
  "**Slow Query Log** (mode: " ++ Mode o ++ ")" ++ nl ++
  concat (map (fun r => "- query_time=" ++ sl_query_time r ++ " rows_examined=" ++ Itoa (sl_rows_examined r) ++ ": " ++
                        TruncateQuery (sl_query r) 120 ++ nl) (sl_Rows o)) ++
  (if negb (is_empty message) then "- " ++ message ++ nl else []) ++ nl.

Definition health_request : gostr :=
  "---" ++ nl ++ "Please analyze the health of this MySQL instance. " ++
  "Rate overall health (good/degraded/critical), highlight any concerns with severity (low/medium/high), " ++
  "identify optimization opportunities, and suggest concrete next steps.".

Section HealthCheck.
Context `{PromptTools St}.

(** A tool that runs only when it is switched on, and reports only what succeeds. *)
Definition when_enabled {A} (enabled : bool) (call : St -> St * result tool_error A) (report : A -> gostr) (s : St) : St * gostr :=
  if enabled then
    match call s with
    | (s, Ok out) => (s, report out)
    | (s, Err _) => (s, [])
    end
  else (s, []).

Definition promptHealthCheck (s : St) : St * GetPromptResult :=
  let '(s, ping) := call_ping s in
  let '(s, info) := call_server_info s in
  let '(s, processes) := when_enabled (ProcessAdmin cfg) call_process_list report_processes s in
  let '(s, slow) := when_enabled (SlowQueryTool cfg) (call_slow_log 10) report_slow_log s in
  (s, {| pr_Description := LiveHealthData;
         pr_Text := "# MySQL Health Check" ++ nl ++ nl ++
           report_ping "Connectivity" (fun ms => " — " ++ Itoa ms ++ " ms") ping ++
           report_server info ++ processes ++ slow ++ health_request |}).
End HealthCheck.

(** ** schema_audit *)
Definition report_table (t : TableInfo) : gostr :=
  "- " ++ t_name t ++ " (engine: " ++ t_engine t ++ ", ~" ++ match t_rows t with Some n => Itoa n | None => "?" end ++ " rows" ++
  (if negb (is_empty (t_comment t)) then " — " ++ t_comment t else []) ++ ")" ++ nl.
Definition report_index (i : IndexInfo) : gostr :=
  "  - " ++ ix_name i ++ " (" ++ ix_columns i ++ ")" ++ (if negb (ix_non_unique i) then " UNIQUE" else []) ++
  " [" ++ ix_type i ++ "]" ++ nl.
(** The indexes of one table; [failed] is what an error shows. *)
Definition report_indexes (failed : tool_error -> gostr) (table : gostr) (r : result tool_error (list IndexInfo)) : gostr :=
  match r with
  | Err e => "- " ++ table ++ ": (" ++ failed e ++ ")" ++ nl
  | Ok [] => "- " ++ table ++ ": (no indexes)" ++ nl
  | Ok indexes => "- " ++ table ++ ":" ++ nl ++ concat (map report_index indexes)
  end.
Definition report_foreign_key (fk : ForeignKeyInfo) : gostr :=
  "- " ++ fk_table fk ++ "." ++ fk_column fk ++ " → " ++ fk_ref_table fk ++ "." ++ fk_ref_column fk ++
  " (ON UPDATE " ++ fk_on_update fk ++ ", ON DELETE " ++ fk_on_delete fk ++ ") [constraint: " ++ fk_name fk ++ "]" ++ nl.
Definition audit_request : gostr :=
  "---" ++ nl ++ "Please audit this database schema. Identify: " ++
  "missing indexes (especially on FK columns and common WHERE/JOIN/ORDER BY candidates), " ++
  "design issues (over-normalization, denormalization, VARCHAR vs TEXT misuse, missing NOT NULL, etc.), " ++
  "redundant or duplicate indexes, naming inconsistencies, " ++
  "and any potential performance or data-integrity concerns. " ++
  "Provide specific, actionable SQL recommendations where applicable.".

Inductive prompt_error := ArgumentRequired (name : gostr) | ListTablesFailed (err : tool_error).

Section Audit.
Context `{PromptTools St}.

Fixpoint index_sections (failed : tool_error -> gostr) (database : gostr) (tables : list gostr) (s : St) : St * gostr :=
  match tables with
  | [] => (s, [])
  | t :: tables =>
      let '(s, r) := call_list_indexes database t s in
      let '(s, rest) := index_sections failed database tables s in
      (s, report_indexes failed t r ++ rest)
  end.

Definition promptSchemaAudit (argument : gostr) (s : St) : St * result prompt_error GetPromptResult :=
  let database := TrimSpace argument in
  if is_empty database then (s, Err (ArgumentRequired "database"))
  else match call_list_tables database s with
  | (s, Err e) => (s, Err (ListTablesFailed e))
  | (s, Ok tables) =>
      let names := map t_name tables in
      let '(s, indexes) :=
        if 0 <? length names then
          let '(s, text) := index_sections (fun e => "error: " ++ err_text e) database (take maxTablesForIndexes names) s in
          (s, "**Indexes**" ++ nl ++ text ++
              (if maxTablesForIndexes <? length names
               then "  (..." ++ Itoa (Z.of_nat (length names - maxTablesForIndexes)) ++ " more tables omitted)" ++ nl else []) ++ nl)
        else (s, []) in
      let '(s, fks) := call_foreign_keys database s in
      let fk_text := match fks with
        | Ok fks => "**Foreign Keys** (" ++ Itoa (Z.of_nat (length fks)) ++ ")" ++ nl ++ concat (map report_foreign_key fks) ++ nl
        | Err _ => []
        end in
      (s, Ok {| pr_Description := SchemaAuditFor database;
                pr_Text := "# Schema Audit: " ++ database ++ nl ++ nl ++
                  "**Tables** (" ++ Itoa (Z.of_nat (length tables)) ++ " total)" ++ nl ++ concat (map report_table tables) ++ nl ++
                  indexes ++ fk_text ++ audit_request |})
  end.
End Audit.

(** ** query_advisor *)
Definition plan_columns : list gostr :=
  ["id"; "select_type"; "table"; "type"; "possible_keys"; "key"; "key_len"; "rows"; "filtered"; "Extra"].
Definition plan_cell (row : plan_row) (k : gostr) : gostr :=
  let v := sprint_value (default VNil (row !! k)) in
  if (v =?s "<nil>") || (v =?s "%!v(MISSING)") then [] else v.
Definition report_plan_row (row : plan_row) : gostr :=
  "|" ++ concat (map (fun k => " " ++ plan_cell row k ++ " |") plan_columns) ++ nl.
(** The table of a plan row, unless it is a derived one. *)
Definition plan_table (row : plan_row) : option gostr :=
  match row !! ("table" : gostr) with
  | Some (VString tbl) => if negb (is_empty tbl) && negb (HasPrefix tbl "<") then Some tbl else None
  | _ => None
  end.
(** The loop over the tables with its set of seen ones. *)
Fixpoint first_seen (seen : gset gostr) (tables : list gostr) : list gostr :=
  match tables with
  | [] => []
  | t :: tables => if bool_decide (t ∈ seen) then first_seen seen tables else t :: first_seen ({[t]} ∪ seen) tables
  end.
Definition advice_request : gostr :=
  "---" ++ nl ++ "Please analyze this query's execution plan. Identify: " ++
  "full-table scans (type=ALL), missing indexes, suboptimal join types, " ++
  "high row estimates vs filtered rows, and any Extra warnings (Using filesort, Using temporary). " ++
  "Provide specific CREATE INDEX statements and query rewrite suggestions where applicable. " ++
  "Two optimization reference guides are available as MCP resources " ++
  "(docs://mysql-mcp-server/query-optimization-guide and " ++
  "docs://mysql-mcp-server/query-optimization-comprehensive) " ++
  "if you need detailed patterns or index strategies.".

Section Advisor.
Context `{PromptTools St}.

Definition promptQueryAdvisor (sql_argument database_argument : gostr) (s : St) : St * result prompt_error GetPromptResult :=
  let sqlText := TrimSpace sql_argument in
  if is_empty sqlText then (s, Err (ArgumentRequired "sql"))
  else
    let database := TrimSpace database_argument in
    let '(s, plan) := call_explain {| ex_SQL := sqlText; ex_Database := database; ex_Format := "traditional" |} s in
    let '(s, text) :=
      match plan with
      | Err e => (s, "**EXPLAIN Error**: " ++ err_text e ++ nl ++ nl)
      | Ok out =>
          let rows := match ex_Plan out with TabularPlan rows => rows | _ => [] end in
          let tables := omap plan_table rows in
          let '(s, indexes) :=
            if negb (is_empty database) && (0 <? length tables) then
              let '(s, text) := index_sections (fun _ => "error fetching indexes") database (first_seen ∅ tables) s in
              (s, "**Indexes on referenced tables:**" ++ nl ++ text ++ nl)
            else (s, []) in
          (s, "**Execution Plan:**" ++ nl ++ nl ++
              "| " ++ Join plan_columns " | " ++ " |" ++ nl ++ "|" ++ Repeat " --- |" (length plan_columns) ++ nl ++
              concat (map report_plan_row rows) ++ nl ++
              (if 0 <? length (ex_Warnings out)
               then "**Optimizer Warnings:**" ++ nl ++ concat (map (fun w => "- " ++ w ++ nl) (ex_Warnings out)) ++ nl else []) ++
              indexes)
      end in
    (s, Ok {| pr_Description := ExecutionPlanAdvice;
              pr_Text := "# Query Advisor" ++ nl ++ nl ++ "**Query:**" ++ nl ++ "```sql" ++ nl ++ sqlText ++ nl ++ "```" ++ nl ++ nl ++
                text ++ advice_request |}).
End Advisor.

(** ** connection_debug *)
Definition wantVars : list gostr :=
  ["max_connections"; "wait_timeout"; "interactive_timeout"; "connect_timeout"; "net_read_timeout"; "net_write_timeout";
   "max_allowed_packet"; "have_ssl"; "ssl_cipher"; "require_secure_transport"; "thread_stack"; "back_log"].
Definition report_debug_server (r : result tool_error ServerInfoOutput) : gostr :=
  match r with
  | Err e => "**Server Info**: unavailable (" ++ err_text e ++ ")" ++ nl ++ nl
  | Ok o =>
      "**Server**" ++ nl ++
      "- Version: " ++ Version o ++ " (" ++ ServerEngine o ++ ")" ++ nl ++
      "- Current user: " ++ CurrentUser o ++ nl ++
      "- Threads connected: " ++ Itoa (ThreadsConnected o) ++ " / max_connections " ++ Itoa (MaxConnections o) ++ nl ++
      match Health o with Some h => "- Threads running: " ++ Itoa (ThreadsRunning h) ++ nl | None => [] end ++ nl
  end.
Definition report_connection (c : ConnectionInfo) : gostr :=
  "- " ++ ci_name c ++ ": " ++ ci_dsn c ++
  (if negb (is_empty (ci_description c)) then " [" ++ ci_description c ++ "]" else []) ++
  (if ci_active c then " ← active" else []) ++ nl.
Definition report_variables (vars : list Variable_) : gostr :=
  "**Relevant System Variables**" ++ nl ++
  concat (omap (fun v => if one_of (ToLower (var_name v)) wantVars
                         then Some ("- " ++ var_name v ++ " = " ++ var_value v ++ nl) else None) vars) ++ nl.
Definition debug_request : gostr :=
  "---" ++ nl ++ "Please diagnose any connection or configuration issues shown above. " ++
  "Explain what the key timeout and connection-limit variables mean for connection stability, " ++
  "flag anything misconfigured or potentially risky, " ++
  "and suggest specific configuration changes or client-side fixes.".

Section Debug.
Context `{PromptTools St}.

Definition promptConnectionDebug (s : St) : St * GetPromptResult :=
  let '(s, ping) := call_ping s in
  let '(s, info) := call_server_info s in
  let '(s, (connections, active)) := call_list_connections s in
  let '(s, vars) := when_enabled true call_list_variables report_variables s in
  (s, {| pr_Description := ConnectionDiagnostics;
         pr_Text := "# MySQL Connection Debug Report" ++ nl ++ nl ++
           report_ping "Ping" (fun ms => " (" ++ Itoa ms ++ " ms)") ping ++ report_debug_server info ++
           "**Configured Connections** (active: " ++ active ++ ")" ++ nl ++ concat (map report_connection connections) ++ nl ++
           vars ++ debug_request |}).
End Debug.
End Reports.

(** ** The calls of a prompt *)
Inductive prompt_call :=
| PPing | PServerInfo | PProcessList | PSlowLog (limit : Z) | PListTables (database : gostr)
| PListIndexes (database table : gostr) | PForeignKeys (database : gostr) | PExplain (input : ExplainQueryInput)
| PListConnections | PListVariables.

(** Tools that log their calls. *)
Section Traced.
Context {St : Type} (T : PromptTools St).
Definition logged {A} (c : prompt_call) (call : St -> St * A) (ls : list prompt_call * St) : (list prompt_call * St) * A :=
  let '(log, s) := ls in let '(s, a) := call s in ((log ++ [c], s), a).
Definition traced : PromptTools (list prompt_call * St) := {|
  call_ping := logged PPing call_ping; call_server_info := logged PServerInfo call_server_info;
  call_process_list := logged PProcessList call_process_list; call_slow_log n := logged (PSlowLog n) (call_slow_log n);
  call_list_tables db := logged (PListTables db) (call_list_tables db);
  call_list_indexes db t := logged (PListIndexes db t) (call_list_indexes db t);
  call_foreign_keys db := logged (PForeignKeys db) (call_foreign_keys db);
  call_explain i := logged (PExplain i) (call_explain i);
  call_list_connections := logged PListConnections call_list_connections;
  call_list_variables := logged PListVariables call_list_variables |}.

(** A prompt's run on the logging tools: its own run, and its calls. *)
Definition runs_as {A} (out' : (list prompt_call * St) * A) (log calls : list prompt_call) (out : St * A) : Prop :=
  out' = ((log ++ calls, fst out), snd out).

Lemma logged_eq {A} c (call : St -> St * A) log s : logged c call (log, s) = ((log ++ [c], fst (call s)), snd (call s)).
Proof. unfold logged. by destruct (call s). Qed.

Lemma index_sections_log failed db tables log s :
  runs_as (index_sections (H0 := traced) failed db tables (log, s)) log (map (PListIndexes db) tables)
          (index_sections (H0 := T) failed db tables s).
Proof.
  unfold runs_as. revert log s. induction tables as [|t tables IH]; intros log s; cbn; [by rewrite app_nil_r|].
  destruct (call_list_indexes db t s) as [s1 r]. cbn. rewrite IH.
  destruct (index_sections failed db tables s1) as [s2 rest]. cbn. by rewrite <- app_assoc.
Qed.
Lemma when_enabled_log {A} enabled c (call : St -> St * result tool_error A) report log s :
  runs_as (when_enabled enabled (logged c call) report (log, s)) log (if enabled then [c] else []) (when_enabled enabled call report s).
Proof.
  unfold runs_as, when_enabled. destruct enabled; [|by rewrite app_nil_r]. rewrite logged_eq. by destruct (call s) as [s1 []].
Qed.
End Traced.

Lemma first_seen_spec seen tables :
  NoDup (first_seen seen tables) /\ forall t, t ∈ first_seen seen tables <-> t ∈ tables /\ t ∉ seen.
Proof.
  revert seen. induction tables as [|x tables IH]; intros seen; cbn.
  { split; [constructor|]. intros t. rewrite elem_of_nil. tauto. }
  case_bool_decide as Hx.
  - destruct (IH seen) as [Hnd Hin]. split; [done|]. intros t. rewrite Hin, elem_of_cons. split; [tauto|].
    intros [[->|Ht] Hs]; [done | tauto].
  - destruct (IH ({[x]} ∪ seen)) as [Hnd Hin]. split.
    + constructor; [|done]. rewrite Hin, not_elem_of_union, elem_of_singleton. tauto.
    + intros t. rewrite !elem_of_cons, Hin, not_elem_of_union, elem_of_singleton. destruct (decide (t = x)) as [->|?]; tauto.
Qed.

Section Calls.
Context `{GoPrint} (cfg : Config) (err_text : tool_error -> gostr) (goerr_text : goerr -> gostr).
Context {St : Type} (T : PromptTools St).

(** The calls of each prompt. *)
Definition health_calls : list prompt_call :=
  [PPing; PServerInfo] ++ (if ProcessAdmin cfg then [PProcessList] else []) ++ (if SlowQueryTool cfg then [PSlowLog 10] else []).
Definition audit_calls (database : gostr) (s : St) : list prompt_call :=
  if is_empty database then []
  else match snd (call_list_tables database s) with
  | Err _ => [PListTables database]
  | Ok tables => [PListTables database] ++ map (PListIndexes database) (take 20 (map t_name tables)) ++ [PForeignKeys database]
  end.
Definition advisor_calls (sqlText database : gostr) (s : St) : list prompt_call :=
  let input := {| ex_SQL := sqlText; ex_Database := database; ex_Format := "traditional" |} in
  if is_empty sqlText then []
  else [PExplain input] ++
    match snd (call_explain input s) with
    | Ok {| ex_Plan := TabularPlan rows |} =>
        if is_empty database then [] else map (PListIndexes database) (first_seen ∅ (omap plan_table rows))
    | _ => []
    end.
Definition debug_calls : list prompt_call := [PPing; PServerInfo; PListConnections; PListVariables].

Lemma health_log log s :
  runs_as (promptHealthCheck cfg err_text goerr_text (H0 := traced T) (log, s)) log health_calls
          (promptHealthCheck cfg err_text goerr_text (H0 := T) s).
Proof.
  unfold runs_as, promptHealthCheck, health_calls. cbn. destruct (call_ping s) as [s1 ping]. cbn.
  destruct (call_server_info s1) as [s2 info]. cbn.
  rewrite (when_enabled_log (ProcessAdmin cfg) PProcessList call_process_list). destruct (when_enabled _ call_process_list _ s2) as [s3 pr]. cbn.
  rewrite (when_enabled_log (SlowQueryTool cfg) (PSlowLog 10) (call_slow_log 10)). destruct (when_enabled _ (call_slow_log 10) _ s3) as [s4 sl]. cbn.
  by rewrite <- !app_assoc.
Qed.
Lemma audit_log argument log s :
  runs_as (promptSchemaAudit err_text (H0 := traced T) argument (log, s)) log (audit_calls (TrimSpace argument) s)
          (promptSchemaAudit err_text (H0 := T) argument s).
Proof.
  unfold runs_as, promptSchemaAudit, audit_calls. set (db := TrimSpace argument). destruct (is_empty db).
  { cbn -[Nat.ltb Nat.leb]. by rewrite app_nil_r. }
  cbn -[Nat.ltb Nat.leb]. destruct (call_list_tables db s) as [s1 [tables|e]]; [|done]. cbn.
  change maxTablesForIndexes with 20. destruct tables as [|t tables].
  - cbn. destruct (call_foreign_keys db s1) as [s3 fks]. cbn. by rewrite <- app_assoc.
  - cbn [map length Nat.ltb Nat.leb]. cbv iota. rewrite (index_sections_log T).
    destruct (index_sections _ db (take 20 (t_name t :: map t_name tables)) s1) as [s2 text]. cbn [fst snd].
    cbn [call_foreign_keys traced logged]. destruct (call_foreign_keys db s2) as [s3 fks]. cbn [fst snd]. by rewrite <- !app_assoc.
Qed.
Lemma advisor_log sql_argument database_argument log s :
  runs_as (promptQueryAdvisor err_text (H0 := traced T) sql_argument database_argument (log, s)) log
          (advisor_calls (TrimSpace sql_argument) (TrimSpace database_argument) s)
          (promptQueryAdvisor err_text (H0 := T) sql_argument database_argument s).
Proof.
  unfold runs_as, promptQueryAdvisor, advisor_calls. set (q := TrimSpace sql_argument). set (db := TrimSpace database_argument).
  destruct (is_empty q); [by cbn; rewrite app_nil_r|].
  cbn [call_explain traced logged]. destruct (call_explain _ s) as [s1 [[plan warnings]|e]]; [|done]. cbn [fst snd ex_Plan ex_Warnings].
  set (rows := match plan with TabularPlan rows => rows | _ => [] end).
  replace (match plan with
    | TabularPlan rows => if is_empty db then [] else map (PListIndexes db) (first_seen ∅ (omap plan_table rows))
    | _ => [] end) with (if is_empty db then [] else map (PListIndexes db) (first_seen ∅ (omap plan_table rows))).
  2: { unfold rows. destruct plan; [by destruct (is_empty db)..|done]. }
  destruct (is_empty db); cbn [negb andb]; [done|]. destruct (omap plan_table rows) as [|t tables].
  - cbn [length Nat.ltb Nat.leb]. cbv iota. cbn [first_seen map]. by rewrite !app_nil_r.
  - cbn [length Nat.ltb Nat.leb]. cbv iota. rewrite (index_sections_log T).
    destruct (index_sections _ db (first_seen ∅ (t :: tables)) s1) as [s2 text]. cbn [fst snd]. by rewrite <- !app_assoc.
Qed.
Lemma debug_log log s :
  runs_as (promptConnectionDebug err_text goerr_text (H0 := traced T) (log, s)) log debug_calls
          (promptConnectionDebug err_text goerr_text (H0 := T) s).
Proof.
  unfold runs_as, promptConnectionDebug, debug_calls. cbn. destruct (call_ping s) as [s1 ping]. cbn.
  destruct (call_server_info s1) as [s2 info]. cbn. destruct (call_list_connections s2) as [s3 [conns active]]. cbn.
  destruct (call_list_variables s3) as [s4 [vars|e]]; cbn; by rewrite <- !app_assoc.
Qed.
End Calls.

(** C26: a prompt only reads through the tools, and calls exactly these.  Whatever the tools
    answer: health_check pings, asks for the server's information, and reads the process
    list and the slow log only where those tools are switched on; schema_audit lists the
    tables of its database, the indexes of the first twenty of them and the foreign keys,
    and nothing without the argument or when the tables cannot be listed; query_advisor
    explains the query and looks up the indexes of each table of the plan once;
    connection_debug pings, asks for the server's information, the connections and the
    variables.  Running the prompt on logging tools changes neither its state nor its
    report. *)
Theorem prompts_call_exactly_these_tools `{GoPrint} (cfg : Config) err_text goerr_text {St : Type} (T : PromptTools St)
    (log : list prompt_call) (s : St) (a b : gostr) :
  runs_as (promptHealthCheck cfg err_text goerr_text (H0 := traced T) (log, s)) log (health_calls cfg)
          (promptHealthCheck cfg err_text goerr_text (H0 := T) s) /\
  runs_as (promptSchemaAudit err_text (H0 := traced T) a (log, s)) log (audit_calls T (TrimSpace a) s)
          (promptSchemaAudit err_text (H0 := T) a s) /\
  (runs_as (promptQueryAdvisor err_text (H0 := traced T) a b (log, s)) log (advisor_calls T (TrimSpace a) (TrimSpace b) s)
           (promptQueryAdvisor err_text (H0 := T) a b s) /\
   NoDup (advisor_calls T (TrimSpace a) (TrimSpace b) s)) /\
  runs_as (promptConnectionDebug err_text goerr_text (H0 := traced T) (log, s)) log debug_calls
          (promptConnectionDebug err_text goerr_text (H0 := T) s).
Proof.
  split; [apply health_log|]. split; [apply audit_log|]. split; [split; [apply advisor_log|] | apply debug_log].
  unfold advisor_calls. destruct (is_empty (TrimSpace a)); [constructor|].
  destruct (snd (call_explain _ s)) as [[[?|?|rows] ?]|?]; try apply NoDup_singleton.
  destruct (is_empty (TrimSpace b)); [apply NoDup_singleton|]. cbn. constructor.
  - intros Hin. by apply list_elem_of_fmap in Hin as (? & ? & _).
  - apply NoDup_fmap_2; [|apply first_seen_spec]. by intros ?? [=].
Qed.

(** ** What the tools keep, a prompt keeps *)
Section Kept.
Context `{GoPrint} (cfg : Config) (err_text : tool_error -> gostr) (goerr_text : goerr -> gostr).
Context {St : Type} (T : PromptTools St) (Q : St -> Prop).

(** The switched tools only where they are switched on. *)
Record tools_keep : Prop := {
  keep_ping s : Q s -> Q (fst (call_ping s));
  keep_server_info s : Q s -> Q (fst (call_server_info s));
  keep_processes s : ProcessAdmin cfg = true -> Q s -> Q (fst (call_process_list s));
  keep_slow_log n s : SlowQueryTool cfg = true -> Q s -> Q (fst (call_slow_log n s));
  keep_tables d s : Q s -> Q (fst (call_list_tables d s));
  keep_indexes d t s : Q s -> Q (fst (call_list_indexes d t s));
  keep_foreign_keys d s : Q s -> Q (fst (call_foreign_keys d s));
  keep_explain i s : Q s -> Q (fst (call_explain i s));
  keep_connections s : Q s -> Q (fst (call_list_connections s));
  keep_variables s : Q s -> Q (fst (call_list_variables s))
}.
Hypothesis Hkeep : tools_keep.

Lemma when_enabled_keeps {A} enabled (call : St -> St * result tool_error A) report s :
  (forall s, enabled = true -> Q s -> Q (fst (call s))) -> Q s -> Q (fst (when_enabled enabled call report s)).
Proof.
  intros Hcall Hs. unfold when_enabled. destruct enabled; [|done]. specialize (Hcall s eq_refl Hs). by destruct (call s) as [s1 []].
Qed.
Lemma index_sections_keeps failed d tables s : Q s -> Q (fst (index_sections (H0 := T) failed d tables s)).
Proof.
  revert s. induction tables as [|t tables IH]; intros s Hs; cbn [index_sections]; [done|].
  pose proof (keep_indexes Hkeep d t s Hs) as H1. destruct (call_list_indexes d t s) as [s1 r].
  specialize (IH s1 H1). by destruct (index_sections failed d tables s1).
Qed.
Lemma health_keeps s : Q s -> Q (fst (promptHealthCheck (H0 := T) cfg err_text goerr_text s)).
Proof.
  intros Hs. unfold promptHealthCheck. pose proof (keep_ping Hkeep s Hs) as H1. destruct (call_ping s) as [s1 ping].
  pose proof (keep_server_info Hkeep s1 H1) as H2. destruct (call_server_info s1) as [s2 info].
  pose proof (when_enabled_keeps _ call_process_list (report_processes goerr_text) s2 (fun s => keep_processes Hkeep s) H2) as H3.
  destruct (when_enabled _ call_process_list _ s2) as [s3 processes].
  pose proof (when_enabled_keeps _ (call_slow_log 10) (report_slow_log goerr_text) s3 (fun s => keep_slow_log Hkeep 10 s) H3) as H4.
  by destruct (when_enabled _ (call_slow_log 10) _ s3).
Qed.
Lemma audit_keeps d s : Q s -> Q (fst (promptSchemaAudit (H0 := T) err_text d s)).
Proof.
  intros Hs. unfold promptSchemaAudit. cbv zeta. destruct (is_empty _); [done|].
  pose proof (keep_tables Hkeep (TrimSpace d) s Hs) as H1. destruct (call_list_tables _ s) as [s1 [tables|]]; [|done].
  destruct (if 0 <? length (map t_name tables) then _ else _) as [s2 indexes] eqn:Hi.
  assert (H2 : Q s2).
  { destruct (0 <? _); [|by injection Hi as <- <-]. pose proof (index_sections_keeps (fun e => "error: " ++ err_text e) (TrimSpace d)
      (take maxTablesForIndexes (map t_name tables)) s1 H1) as H2. destruct (index_sections _ _ _ s1). by injection Hi as <- <-. }
  pose proof (keep_foreign_keys Hkeep (TrimSpace d) s2 H2) as H3. by destruct (call_foreign_keys _ s2).
Qed.
Lemma advisor_keeps q d s : Q s -> Q (fst (promptQueryAdvisor (H0 := T) err_text q d s)).
Proof.
  intros Hs. unfold promptQueryAdvisor. cbv zeta. destruct (is_empty _); [done|].
  set (input := {| ex_SQL := _ |}). pose proof (keep_explain Hkeep input s Hs) as H1. destruct (call_explain input s) as [s1 [out|]]; [|done].
  set (tables := omap plan_table _). destruct (negb (is_empty (TrimSpace d)) && (0 <? length tables)); [|done].
  pose proof (index_sections_keeps (fun _ => "error fetching indexes") (TrimSpace d) (first_seen ∅ tables) s1 H1) as H2.
  by destruct (index_sections _ _ _ s1).
Qed.
Lemma debug_keeps s : Q s -> Q (fst (promptConnectionDebug (H0 := T) err_text goerr_text s)).
Proof.
  intros Hs. unfold promptConnectionDebug. pose proof (keep_ping Hkeep s Hs) as H1. destruct (call_ping s) as [s1 ping].
  pose proof (keep_server_info Hkeep s1 H1) as H2. destruct (call_server_info s1) as [s2 info].
  pose proof (keep_connections Hkeep s2 H2) as H3. destruct (call_list_connections s2) as [s3 [conns active]].
  pose proof (when_enabled_keeps true call_list_variables report_variables s3 (fun s _ => keep_variables Hkeep s) H3) as H4.
  by destruct (when_enabled true call_list_variables _ s3).
Qed.
End Kept.
Lemma tools_keep_and {St} (cfg : Config) (T : PromptTools St) (Q1 Q2 : St -> Prop) :
  tools_keep cfg T Q1 -> tools_keep cfg T Q2 -> tools_keep cfg T (fun s => Q1 s /\ Q2 s).
Proof. intros K1 K2. split; intros; destruct_and!; split; by (apply K1 || apply K2). Qed.

(** ** The server's tools behind the prompts *)
Section RealTools.
Context `{Sqlparser} `{SqlServer} `{GoPrint} `{JsonDecode} `{Backoff}.
(** The call's contexts, the measured latencies, and the token metrics. *)
Variables (g : globals) (ctx : callctx) (deadline : context) (latency ping : Z) (tokenMetrics : option TokenMetricsSnapshot).

Definition with_manager {A} (m : ConnectionManager) (out : server * A) : (ConnectionManager * server) * A :=
  ((m, fst out), snd out).
Definition server_tools : PromptTools (ConnectionManager * server) := {|
  call_ping ms := let out := toolPing g deadline (getDB (fst ms) ctx) (snd ms) in ((fst ms, fst out), (latency, snd out));
  call_server_info ms := with_manager (fst ms) (toolServerInfo tokenMetrics ctx true ping (fst ms) (snd ms));
  call_process_list ms := toolProcessList ctx (fst ms) (snd ms);
  call_slow_log n ms := with_manager (fst ms) (toolSlowQueryLog g (getDB (fst ms) ctx) n (snd ms));
  call_list_tables db ms := toolListTables g ctx db (fst ms) (snd ms);
  call_list_indexes db t ms := toolListIndexes g ctx db t (fst ms) (snd ms);
  call_foreign_keys db ms := toolForeignKeys g ctx db [] (fst ms) (snd ms);
  call_explain i ms := with_manager (fst ms) (toolExplainQuery g (getDB (fst ms) ctx) i (snd ms));
  call_list_connections ms := (ms, toolListConnections (fst ms) ctx);
  call_list_variables ms := toolListVariables g ctx [] (fst ms) (snd ms) |}.
End RealTools.

(** connection_debug reads the variables through list_variables, which stops at the row cap:
    a wanted variable beyond it is not reported, although the server has it. *)
Definition variable_server : SqlServer :=
  {| server := unit; conn := unit;
     pool_Conn _ s := (s, Ok tt); pool_Ping _ s := (s, None); pool_Exec _ _ s := (s, None);
     pool_Query _ q _ s := (s,
       if q =?s "SHOW GLOBAL VARIABLES" then
         Ok {| rs_columns := ["Variable_name"; "Value"]; rs_err := None; rs_close := None;
               rs_rows := [[VBytes "autocommit"; VBytes "ON"]; [VBytes "back_log"; VBytes "151"]; [VBytes "wait_timeout"; VBytes "28800"]] |}
       else Err (OtherError "no such statement"));
     conn_Exec _ _ s := (s, None); conn_Query _ _ s := (s, Err (OtherError "no such statement")); conn_Close _ s := s;
     format_float _ := []; format_time _ := [] |}.
Example connection_debug_misses_variables :
  let tools := @server_tools one_table_parser variable_server print_none example_decode no_wait example_globals main_ctx tt 1 1 None in
  let text := pr_Text (snd (@promptConnectionDebug (fun _ => []) (fun _ => []) _ tools (cm example_world_main, tt))) in
  (Contains text "- back_log = 151", Contains text "wait_timeout") = (true, false).
Proof. vm_compute. reflexivity. Qed.
