(* ===== verification/Resources.v ===== *)
(** cmd/mysql-mcp-server/resources.go: the documents the MCP server hands out.  Their texts are
    embedded in the binary by the build (docs/embed.go) and are parameters here. *)
From S2P Require Import Prelude GoStrings.

Record Resource := { res_URI : gostr; res_Name : gostr; res_MIMEType : gostr }.
Record ResourceContents := { rc_URI : gostr; rc_MIMEType : gostr; rc_Text : gostr }.

Section Documents.
(** docs.QueryOptimizationGuide and docs.QueryOptimizationComprehensive. *)
Variables QueryOptimizationGuide QueryOptimizationComprehensive : gostr.

(** A handler answers with the URI of the request. *)
Definition markdown (text uri : gostr) : list ResourceContents :=
  [{| rc_URI := uri; rc_MIMEType := "text/markdown"; rc_Text := text |}].
Definition registerResources : list (Resource * (gostr -> list ResourceContents)) :=
  [({| res_URI := "docs://mysql-mcp-server/query-optimization-guide"; res_Name := "SQL Query Optimization Guide";
       res_MIMEType := "text/markdown" |}, markdown QueryOptimizationGuide);
   ({| res_URI := "docs://mysql-mcp-server/query-optimization-comprehensive";
       res_Name := "Comprehensive MySQL Query Optimization Guide"; res_MIMEType := "text/markdown" |},
    markdown QueryOptimizationComprehensive)].

(** A read: the SDK runs the handler of the resource with the URI of the request, and answers
    an error when there is none. *)
Definition read_resource (uri : gostr) : option (list ResourceContents) :=
  (fun rh => snd rh uri) <$> List.find (fun rh => res_URI (fst rh) =?s uri) registerResources.

(** Every resource can be read under its URI, and answers one document with the URI and the
    type it was registered with; the documents are told apart by their URIs. *)
Lemma read_registered res h :
  (res, h) ∈ registerResources ->
  exists text, read_resource (res_URI res) = Some [{| rc_URI := res_URI res; rc_MIMEType := res_MIMEType res; rc_Text := text |}].
Proof. unfold registerResources. rewrite !elem_of_cons. by intros [[= -> ->]|[[= -> ->]|[]%not_elem_of_nil]]; eexists. Qed.
Lemma resources_distinct : NoDup (map (fun rh => res_URI (fst rh)) registerResources).
Proof. decide_true. Qed.
Lemma read_unregistered uri : uri ∉ map (fun rh => res_URI (fst rh)) registerResources -> read_resource uri = None.
Proof.
  intros Hno. unfold read_resource. destruct (List.find _ _) as [rh|] eqn:Hf; [|done]. exfalso. apply Hno.
  apply List.find_some in Hf as [Hin Huri%str_eqb_eq]. rewrite <- Huri. apply list_elem_of_In. by apply (in_map (fun rh => res_URI (fst rh))).
Qed.
End Documents.
