(* ===== verification/Dispatch.v ===== *)
(** cmd/mysql-mcp-server/tool_wrappers.go and the registrations of main.go: all the tools
    behind one function, and what a running process sends to MySQL whatever its clients ask
    for. *)
From stdpp Require Import relations.
From S2P Require Import Prelude Unicode GoStrings GoNum GoFmt Identifiers SqlValidator SqlParser Config Access Labels Retry Sql Connection.
From S2P Require Import Sessions QueryTools Tools Guard Catalog SchemaTools Explain Vector Diagnostics AuditLog Metrics ServerInfo.
From S2P Require Import GoNet ConfigFile Http RateLimit Listener Rest Main Install Startup Prompts Resources.

(** ** The calls

    The REST API has the calls of Rest; MCP has those, two of them with a table as well, and
    the three tools that only MCP has. *)
Inductive mcp_call :=
| Shared (c : tool_call)
| VectorInfoOf (database table : gostr)
| TableSizeOf (database table : gostr)
| SearchSchema (pattern database : gostr)
| SchemaDiff (source target : gostr)
| AddConnectionCall (name dsn description : gostr).
Definition mcp_tool_name (c : mcp_call) : gostr :=
  match c with
  | Shared c => tool_name c
  | VectorInfoOf _ _ => "vector_info"
  | TableSizeOf _ _ => "table_size"
  | SearchSchema _ _ => "search_schema"
  | SchemaDiff _ _ => "schema_diff"
  | AddConnectionCall _ _ _ => "add_connection"
  end.

(** What a call answers. *)
Definition tool_output `{SqlServer} (c : tool_call) : Type :=
  match c with
  | CallListDatabases => result tool_error (list gostr)
  | CallListTables _ => result tool_error (list TableInfo)
  | CallDescribeTable _ _ => result tool_error (list ColumnInfo)
  | CallRunQuery _ => result tool_error QueryResult
  | CallPing => Z * option goerr
  | CallServerInfo _ => result tool_error ServerInfoOutput
  | CallListConnections => list ConnectionInfo * gostr
  | CallUseConnection _ => use_outcome
  | CallListIndexes _ _ => result tool_error (list IndexInfo)
  | CallShowCreateTable _ _ => result tool_error gostr
  | CallExplainQuery _ => result tool_error ExplainQueryOutput
  | CallListViews _ => result tool_error (list ViewInfo)
  | CallListTriggers _ => result tool_error (list TriggerInfo)
  | CallListProcedures _ => result tool_error (list ProcedureInfo)
  | CallListFunctions _ => result tool_error (list FunctionInfo)
  | CallListPartitions _ _ => result tool_error (list PartitionInfo)
  | CallDatabaseSize _ => result tool_error (list DatabaseSizeInfo)
  | CallTableSize _ => result tool_error (list TableSizeInfo)
  | CallForeignKeys _ _ => result tool_error (list ForeignKeyInfo)
  | CallListStatus _ | CallListVariables _ => result tool_error (list Variable_)
  | CallProcessList => result tool_error ProcessListOutput
  | CallKillQuery _ => kill_outcome
  | CallReadAuditLog _ => result goerr (gostr * list gostr * bool)
  | CallSlowQueryLog _ => result tool_error SlowQueryLogOutput
  | CallVectorSearch _ => result tool_error (list VectorSearchResult)
  | CallVectorInfo _ => result tool_error VectorInfoOutput
  end.
Definition output `{SqlServer} (c : mcp_call) : Type :=
  match c with
  | Shared c => tool_output c
  | VectorInfoOf _ _ => result tool_error VectorInfoOutput
  | TableSizeOf _ _ => result tool_error (list TableSizeInfo)
  | SearchSchema _ _ => result tool_error (list SchemaMatch)
  | SchemaDiff _ _ => result tool_error SchemaDiffOutput
  | AddConnectionCall _ _ _ => option add_error
  end.

(** ** Running a call *)
Section Run.
Context `{Sqlparser} `{SqlServer} `{GoPrint} `{JsonDecode} `{Backoff} `{MySQLDriver}.

(** What the process is: its configuration and variables, the audit logger and the metrics. *)
Record tool_env := { te_cfg : Config; te_globals : globals; te_audit : AuditLogger; te_version : gostr }.
(** What a call meets: its deadline, what the network answers when a connection is added, the
    audit file, the measured latencies and the metrics at that moment. *)
Record call_env := {
  ce_deadline : context; ce_io : io_outcome; ce_file : audit_file; ce_latency : Z; ce_ping : Z;
  ce_metrics : option TokenMetricsSnapshot
}.
Variable te : tool_env.
(** The text of an error. *)
Variables (err_text : tool_error -> gostr) (goerr_text : goerr -> gostr).
Definition served (A : Type) : Type := callctx * world * server * A.

Definition on_manager {A} (ctx : callctx) (w : world) (r : ConnectionManager * server * A) : served A :=
  let '(m, s, a) := r in (ctx, with_cm m w, s, a).
Definition on_server {A} (ctx : callctx) (w : world) (r : server * A) : served A := let '(s, a) := r in (ctx, w, s, a).

Definition run_shared (c : tool_call) (e : call_env) (ctx : callctx) (w : world) (s : server) : served (tool_output c) :=
  let g := te_globals te in
  let m := cm w in
  let db := getDB m ctx in
  match c as c return served (tool_output c) with
  | CallListDatabases => on_manager ctx w (toolListDatabases g ctx m s)
  | CallListTables d => on_manager ctx w (toolListTables g ctx d m s)
  | CallDescribeTable d t => on_manager ctx w (toolDescribeTable g ctx d t m s)
  | CallRunQuery input => on_server ctx w (toolRunQuery g (ce_deadline e) db input s)
  | CallPing => let '(s, err) := toolPing g (ce_deadline e) db s in (ctx, w, s, (ce_latency e, err))
  | CallServerInfo detailed => on_server ctx w (toolServerInfo (ce_metrics e) ctx detailed (ce_ping e) m s)
  | CallListConnections => (ctx, w, s, toolListConnections m ctx)
  | CallUseConnection name => let '(m, ctx, s, o) := toolUseConnection name m ctx s in (ctx, with_cm m w, s, o)
  | CallListIndexes d t => on_manager ctx w (toolListIndexes g ctx d t m s)
  | CallShowCreateTable d t => on_manager ctx w (toolShowCreateTable g ctx d t m s)
  | CallExplainQuery input => on_server ctx w (toolExplainQuery g db input s)
  | CallListViews d => on_manager ctx w (toolListViews g ctx d m s)
  | CallListTriggers d => on_manager ctx w (toolListTriggers g ctx d m s)
  | CallListProcedures d => on_manager ctx w (toolListProcedures g ctx d m s)
  | CallListFunctions d => on_manager ctx w (toolListFunctions g ctx d m s)
  | CallListPartitions d t => on_manager ctx w (toolListPartitions g ctx d t m s)
  | CallDatabaseSize d => on_manager ctx w (toolDatabaseSize g ctx d m s)
  | CallTableSize d => on_manager ctx w (toolTableSize g ctx d [] m s)
  | CallForeignKeys d t => on_manager ctx w (toolForeignKeys g ctx d t m s)
  | CallListStatus p => on_manager ctx w (toolListStatus g ctx p m s)
  | CallListVariables p => on_manager ctx w (toolListVariables g ctx p m s)
  | CallProcessList => on_manager ctx w (toolProcessList ctx m s)
  | CallKillQuery id => on_server ctx w (toolKillQuery db id s)
  | CallReadAuditLog n => (ctx, w, s, toolReadAuditLog (Some (te_audit te)) (ce_file e) n)
  | CallSlowQueryLog n => on_server ctx w (toolSlowQueryLog g db n s)
  | CallVectorSearch input => on_server ctx w (toolVectorSearch g db input s)
  | CallVectorInfo d => on_manager ctx w (toolVectorInfo g ctx d [] m s)
  end.

(** A connection that was added is the one in use, and the call's pin follows. *)
Definition moved_pin (err : option add_error) (w : world) (ctx : callctx) : callctx :=
  match err, ctx_pin ctx with
  | None, Some _ =>
      {| ctx_session := ctx_session ctx;
         ctx_pin := Some (activeNameLocked (cm w) {| ctx_session := ctx_session ctx; ctx_pin := None |}) |}
  | _, _ => ctx
  end.
Definition run_tool (c : mcp_call) (e : call_env) (ctx : callctx) (w : world) (s : server) : served (output c) :=
  let g := te_globals te in
  match c as c return served (output c) with
  | Shared c => run_shared c e ctx w s
  | VectorInfoOf d t => on_manager ctx w (toolVectorInfo g ctx d t (cm w) s)
  | TableSizeOf d t => on_manager ctx w (toolTableSize g ctx d t (cm w) s)
  | SearchSchema pattern d => on_manager ctx w (toolSearchSchema g ctx pattern d (cm w) s)
  | SchemaDiff a b => on_server ctx w (toolSchemaDiff g ctx a b (cm w) s)
  | AddConnectionCall name dsn desc =>
      let '(w, sc, err) := toolAddConnection (te_version te) (te_cfg te) name dsn desc (ce_io e) w (ctx_session ctx) in
      (moved_pin err w {| ctx_session := sc; ctx_pin := ctx_pin ctx |}, w, s, err)
  end.

(** The prompts, on the tools. *)
Inductive prompt_request :=
| HealthCheck | SchemaAudit (database : gostr) | QueryAdvisor (sql database : gostr) | ConnectionDebug.
Definition always {A} (r : A * GetPromptResult) : A * result prompt_error GetPromptResult := (fst r, Ok (snd r)).
Definition run_prompt (p : prompt_request) (e : call_env) (ctx : callctx) (w : world) (s : server)
    : world * server * result prompt_error GetPromptResult :=
  let T := server_tools (te_globals te) ctx (ce_deadline e) (ce_latency e) (ce_ping e) (ce_metrics e) in
  let '(m, s, r) :=
    match p with
    | HealthCheck => always (promptHealthCheck (H0 := T) (te_cfg te) err_text goerr_text (cm w, s))
    | SchemaAudit d => promptSchemaAudit (H0 := T) err_text d (cm w, s)
    | QueryAdvisor q d => promptQueryAdvisor (H0 := T) err_text q d (cm w, s)
    | ConnectionDebug => always (promptConnectionDebug (H0 := T) err_text goerr_text (cm w, s))
    end in
  (with_cm m w, s, r).
End Run.

(** ** What may reach MySQL *)
(** A fixed statement, or a call of the tool pack, with one argument per placeholder. *)
Definition fixed_text (texts procs : list gostr) (q : gostr) (args : list value) : Prop :=
  placeholders q args /\ (q ∈ texts \/ exists proc, proc ∈ procs /\ q = packCall proc (length args)).

Definition listing_texts : list gostr :=
  ["SELECT SCHEMA_NAME FROM information_schema.SCHEMATA ORDER BY SCHEMA_NAME, CAST(SCHEMA_NAME AS BINARY)";
   list_tables_sql; describe_table_sql; "SELECT 1 FROM information_schema.SCHEMATA WHERE SCHEMA_NAME = ? LIMIT 1";
   "SELECT 1 FROM information_schema.TABLES WHERE TABLE_SCHEMA = ? AND TABLE_NAME = ? LIMIT 1"; "SELECT DATABASE()";
   diff_tables_sql; compare_columns_sql].
Definition listing_procs : list gostr := ["list_databases"; "list_tables"; "describe_table"].
Definition vector_texts : list gostr :=
  [of_table vector_columns_sql " ORDER BY TABLE_NAME, ORDINAL_POSITION" []; of_table vector_columns_sql " ORDER BY TABLE_NAME, ORDINAL_POSITION" "t";
   vector_index_sql].
Definition vector_procs : list gostr := ["vector_columns"; "vector_column_index"].

Section Traffic.
Context `{Sqlparser} `{SqlServer}.
Variables (cfg : Config) (g : globals).

(** A text that both validators accept and whose references the allowlist permits. *)
Definition checked (sqlText : gostr) : Prop :=
  ValidateSQLCombined (g_allowSystemSchemas g) sqlText = None /\ requireReferencedSchemasInQuery (g_allowed g) sqlText = None.

(** What is sent of it: as it is, with a LIMIT, with a page, or a SELECT under EXPLAIN. *)
Inductive read_text : gostr -> Prop :=
| rt_query q : checked q -> read_text q
| rt_limit q n : checked q -> read_text (InjectLimit q n)
| rt_page q n offset : checked q -> read_text (InjectLimit q n ++ " OFFSET " ++ Itoa offset)
| rt_explain prefix q : prefix ∈ sent_prefixes -> HasPrefix (ToUpper q) "SELECT" = true -> checked q -> read_text (prefix ++ q).

(** The statements on a pool. *)
Inductive statement : gostr -> list value -> Prop :=
| st_read q : read_text q -> statement q []
| st_listing q args : fixed_text listing_texts listing_procs q args -> statement q args
| st_catalog q args : catalog_text q args -> statement q args
| st_info q args : info_text q args -> statement q args
| st_search pattern database q args : search_text g pattern database q args -> statement q args
| st_process q args : ProcessAdmin cfg = true -> process_text q args -> statement q args
| st_slow q args : SlowQueryTool cfg = true -> slow_text g q args -> statement q args
| st_vector input q items qd qt qc vec where_ n :
    VectorMode cfg = true -> vector_parts g input q items qd qt qc vec where_ n -> statement q []
| st_vector_info q args : VectorMode cfg = true -> fixed_text vector_texts vector_procs q args -> statement q args.

(** One exchange with the server. *)
Inductive exchange : server -> server -> Prop :=
| ex_ping p s : exchange s (fst (pool_Ping p s))
| ex_query p q args s : statement q args -> exchange s (fst (pool_Query p q args s))
| ex_kill p id s : ExtendedMode cfg = true -> ProcessAdmin cfg = true -> (0 < id)%Z ->
    exchange s (fst (pool_Exec p ("KILL QUERY " ++ Itoa id) s))
| ex_conn p s : exchange s (fst (pool_Conn p s))
| ex_use c database q s : requireAllowedDatabase (g_allowed g) database = None -> QuoteIdent database = Ok q ->
    exchange s (fst (conn_Exec c ("USE " ++ q) s))
| ex_read c q s : read_text q -> exchange s (fst (conn_Query c q s))
| ex_close c s : exchange s (conn_Close c s).
Definition sends : server -> server -> Prop := rtc exchange.

(** From a state on. *)
Lemma sends_step s0 s s' : exchange s s' -> sends s0 s -> sends s0 s'.
Proof. intros Hx Hs. by eapply rtc_r. Qed.
Lemma sends_kept (text : gostr -> list value -> Prop) s0 : (forall q args, text q args -> statement q args) -> kept_by text (sends s0).
Proof. intros Htext p q args s Hq. by apply sends_step, ex_query, Htext. Qed.
Lemma sends_ping s0 db s : sends s0 s -> sends s0 (fst (db_Ping db s)).
Proof. destruct db; [apply sends_step, ex_ping | done]. Qed.

Lemma sends_only s0 db database q :
  requireAllowedDatabase (g_allowed g) database = None -> read_text q -> only_statements (sends s0) db database q.
Proof.
  intros Hdb Hq. constructor.
  - intros s. apply sends_ping.
  - intros s Hs. destruct db; [by eapply sends_step; [apply ex_conn|] | done].
  - intros c s. apply sends_step, ex_close.
  - intros c qd s Hqd. apply sends_step. by eapply ex_use.
  - intros c s. by apply sends_step, ex_read.
Qed.
End Traffic.

Lemma pack_fixed texts procs proc args :
  forallb (fun p => CountByte p "?" =? 0) procs = true -> proc ∈ procs -> fixed_text texts procs (packCall proc (length args)) args.
Proof.
  intros Hall Hp. rewrite forallb_forall in Hall. specialize (Hall proc (proj1 (list_elem_of_In _ _) Hp)). apply Nat.eqb_eq in Hall.
  split; [|right; by exists proc]. unfold placeholders. rewrite packCall_placeholders, Hall. done.
Qed.

Section ListingKept.
Context `{SqlServer} (g : globals) (P : server -> Prop).
Hypothesis Hkept : kept_by (fixed_text listing_texts listing_procs) P.

Lemma listing_text q args : q ∈ listing_texts -> placeholders q args -> fixed_text listing_texts listing_procs q args.
Proof. by split; [|left]. Qed.
Lemma listing_rows_kept proc q args ctx m s :
  proc ∈ listing_procs -> q ∈ listing_texts -> placeholders q args -> P s -> P (snd (fst (catalogRows ctx proc args q args m s))).
Proof. intros Hproc Hq Hargs. by apply (catalogRows_kept _ P Hkept); [apply pack_fixed | apply listing_text]. Qed.
Lemma listing_row_kept {A} (scan : value -> result goerr A) db q args s :
  q ∈ listing_texts -> placeholders q args -> P s -> P (fst (QueryRow scan db q args s)).
Proof.
  intros Hq Hargs Hs. unfold QueryRow, QueryRowScan.
  pose proof (db_Query_kept _ P Hkept db q args s (listing_text _ _ Hq Hargs) Hs). by destruct (db_Query db q args s) as [s1 []].
Qed.

Lemma schemaExists_kept ctx m database s : P s -> P (fst (schemaExists ctx m database s)).
Proof.
  intros Hs. unfold schemaExists.
  pose proof (listing_row_kept scan_int64 (getDB m ctx) "SELECT 1 FROM information_schema.SCHEMATA WHERE SCHEMA_NAME = ? LIMIT 1"
    [VString database] s ltac:(decide_true) eq_refl Hs) as H1.
  by destruct (QueryRow _ _ _ _ s) as [s1 [|[]]].
Qed.
Lemma tableExists_kept ctx m database table s : P s -> P (fst (tableExists ctx m database table s)).
Proof.
  intros Hs. unfold tableExists.
  pose proof (listing_row_kept scan_int64 (getDB m ctx)
    "SELECT 1 FROM information_schema.TABLES WHERE TABLE_SCHEMA = ? AND TABLE_NAME = ? LIMIT 1" [VString database; VString table] s
    ltac:(decide_true) eq_refl Hs) as H1.
  by destruct (QueryRow _ _ _ _ s) as [s1 [|[]]].
Qed.

Lemma toolListDatabases_kept ctx m s : P s -> P (snd (fst (toolListDatabases g ctx m s))).
Proof.
  intros Hs. unfold toolListDatabases.
  pose proof (listing_rows_kept "list_databases" "SELECT SCHEMA_NAME FROM information_schema.SCHEMATA ORDER BY SCHEMA_NAME, CAST(SCHEMA_NAME AS BINARY)"
    [] ctx m s ltac:(decide_true) ltac:(decide_true) eq_refl Hs) as H1.
  by destruct (catalogRows ctx _ _ _ _ m s) as [[m1 s1] []].
Qed.
Lemma toolListTables_kept ctx d m s : P s -> P (snd (fst (toolListTables g ctx d m s))).
Proof.
  intros Hs. unfold toolListTables. destruct (is_empty (TrimSpace d)); [done|]. destruct (requireAllowedDatabase _ d); [done|].
  pose proof (listing_rows_kept "list_tables" list_tables_sql [VString d] ctx m s ltac:(decide_true) ltac:(decide_true) eq_refl Hs) as H1.
  destruct (catalogRows ctx _ _ _ _ m s) as [[m1 s1] [rs|]]; [|done]. destruct (list_rows _ _ _ rs) as [[|]|]; [|done|done].
  destruct (rs_close rs); [done|]. pose proof (schemaExists_kept ctx m1 d s1 H1). by destruct (schemaExists ctx m1 d s1) as [s2 [[]|]].
Qed.
Lemma toolDescribeTable_kept ctx d t m s : P s -> P (snd (fst (toolDescribeTable g ctx d t m s))).
Proof.
  intros Hs. unfold toolDescribeTable. destruct (is_empty (TrimSpace d)); [done|]. destruct (is_empty (TrimSpace t)); [done|].
  destruct (requireAllowedDatabase _ d); [done|].
  pose proof (listing_rows_kept "describe_table" describe_table_sql [VString d; VString t] ctx m s ltac:(decide_true) ltac:(decide_true)
    eq_refl Hs) as H1.
  destruct (catalogRows ctx _ _ _ _ m s) as [[m1 s1] [rs|]]; [|done]. destruct (list_rows _ _ _ rs) as [[|]|]; [|done|done].
  pose proof (tableExists_kept ctx m1 d t s1 H1) as H2. destruct (tableExists ctx m1 d t s1) as [s2 [[]|]]; [done| |done].
  pose proof (schemaExists_kept ctx m1 d s2 H2). by destruct (schemaExists ctx m1 d s2) as [s3 [[]|]].
Qed.
Lemma toolUseConnection_kept name m ctx s : P s -> P (snd (fst (toolUseConnection name m ctx s))).
Proof.
  intros Hs. unfold toolUseConnection. destruct (is_empty name); [done|].
  destruct (SetActiveFor m ctx name) as [[m1 ctx1] [e|]]; [done|].
  pose proof (listing_row_kept scan_null_string (getDB m1 ctx1) "SELECT DATABASE()" [] s ltac:(decide_true) eq_refl Hs) as H1.
  by destruct (QueryRow _ _ _ _ s) as [s1 []].
Qed.

Lemma list_names_kept which db d s : P s -> P (fst (list_names which db d s)).
Proof.
  intros Hs. unfold list_names.
  pose proof (db_Query_kept _ P Hkept db diff_tables_sql [VString d] s (listing_text diff_tables_sql [VString d] ltac:(decide_true) eq_refl) Hs) as H1.
  by destruct (db_Query db diff_tables_sql _ s) as [s1 []].
Qed.
Lemma table_columns_kept db d t s : P s -> P (fst (table_columns db d t s)).
Proof.
  intros Hs. unfold table_columns.
  pose proof (db_Query_kept _ P Hkept db compare_columns_sql [VString d; VString t] s (listing_text compare_columns_sql [VString d; VString t] ltac:(decide_true) eq_refl) Hs) as H1.
  by destruct (db_Query db compare_columns_sql _ s) as [s1 []].
Qed.
Lemma compareTableSchema_kept db a b t s : P s -> P (fst (compareTableSchema db a b t s)).
Proof.
  intros Hs. unfold compareTableSchema. pose proof (table_columns_kept db a t s Hs) as H1.
  destruct (table_columns db a t s) as [s1 [|]]; [|done]. pose proof (table_columns_kept db b t s1 H1) as H2.
  by destruct (table_columns db b t s1) as [s2 []].
Qed.
Lemma compare_tables_kept db a b source names out s : P s -> P (fst (compare_tables db a b source names out s)).
Proof.
  revert out s. induction names as [|name names IH]; intros out s Hs; cbn [compare_tables]; [done|].
  destruct (negb _); [by apply IH|]. pose proof (compareTableSchema_kept db a b name s Hs) as H1.
  destruct (compareTableSchema db a b name s) as [s1 []]; [by apply IH | done].
Qed.
Lemma toolSchemaDiff_kept ctx a b m s : P s -> P (fst (toolSchemaDiff g ctx a b m s)).
Proof.
  intros Hs. unfold toolSchemaDiff. destruct (is_empty a || is_empty b); [done|]. destruct (_ ;;? _); [done|]. cbv zeta.
  pose proof (list_names_kept "source" (getDB m ctx) a s Hs) as H1. destruct (list_names _ _ a s) as [s1 [source|]]; [|done].
  pose proof (list_names_kept "target" (getDB m ctx) b s1 H1) as H2. destruct (list_names _ _ b s1) as [s2 [target|]]; [|done].
  pose proof (compare_tables_kept (getDB m ctx) a b source (elements target) (missing_tables a b source target) s2 H2) as H3.
  by destruct (compare_tables _ _ _ _ _ _ s2) as [s3 []].
Qed.
End ListingKept.

Section VectorKept.
Context `{SqlServer} (g : globals) (P : server -> Prop).
Hypothesis Hkept : kept_by (fixed_text vector_texts vector_procs) P.
Hypothesis Hinfo : kept_by info_text P.

Lemma index_of_column_kept ctx d t c m s : P s -> P (snd (fst (index_of_column ctx d t c m s))).
Proof.
  intros Hs. unfold index_of_column. cbv zeta.
  pose proof (catalogRows_kept _ P Hkept ctx "vector_column_index" [VString d; VString t; VString c] vector_index_sql
    [VString d; VString t; VString c] m s (pack_fixed vector_texts vector_procs "vector_column_index" _ eq_refl ltac:(decide_true))
    ltac:(by split; [|left; decide_true]) Hs) as H1.
  by destruct (catalogRows ctx _ _ _ _ m s) as [[m1 s1] []].
Qed.
Lemma vector_columns_kept ctx d rows m s : P s -> P (snd (fst (vector_columns ctx d rows m s))).
Proof.
  revert m s. induction rows as [|row rows IH]; intros m s Hs; cbn [vector_columns]; [done|].
  destruct (scan_vector_column row) as [[[t c] ty]|]; [|by apply IH].
  pose proof (index_of_column_kept ctx d t c m s Hs) as H1. destruct (index_of_column ctx d t c m s) as [[m1 s1] [i ty']].
  specialize (IH m1 s1 H1). by destruct (vector_columns ctx d rows m1 s1) as [[m2 s2] rest].
Qed.
Lemma toolVectorInfo_kept ctx d t m s : P s -> P (snd (fst (toolVectorInfo g ctx d t m s))).
Proof.
  intros Hs. unfold toolVectorInfo. destruct (is_empty d); [done|]. destruct (requireAllowedDatabase _ d); [done|]. unfold QueryRow, QueryRowScan.
  pose proof (db_Query_kept _ P Hinfo (getDB m ctx) "SELECT VERSION()" [] s ltac:(split; [decide_true | done]) Hs) as H1.
  destruct (db_Query _ "SELECT VERSION()" [] s) as [s1 r]. cbn [fst] in H1.
  destruct (match r with Ok _ => _ | Err _ => _ end) as [s2 r2] eqn:Hr. assert (s2 = s1) as -> by (destruct r; by injection Hr).
  destruct r2 as [version|]; [|done]. destruct (negb _); [done|].
  pose proof (catalogRows_kept _ P Hkept ctx "vector_columns" [VString d; nullIfEmpty t]
    (of_table vector_columns_sql " ORDER BY TABLE_NAME, ORDINAL_POSITION" t) (table_args d t) m s1
    (pack_fixed vector_texts vector_procs "vector_columns" _ eq_refl ltac:(decide_true))) as H2.
  assert (Htext : fixed_text vector_texts vector_procs (of_table vector_columns_sql " ORDER BY TABLE_NAME, ORDINAL_POSITION" t) (table_args d t)).
  { split; [unfold placeholders, of_table, table_args; rewrite !CountByte_app; by destruct t|]. left. destruct t as [|x t]; [decide_true|].
    change (of_table vector_columns_sql " ORDER BY TABLE_NAME, ORDINAL_POSITION" (x :: t)) with
      (of_table vector_columns_sql " ORDER BY TABLE_NAME, ORDINAL_POSITION" "t"). decide_true. }
  specialize (H2 Htext H1). destruct (catalogRows ctx _ _ _ _ m s1) as [[m1 s3] [rs|]]; [|done].
  pose proof (vector_columns_kept ctx d (rs_rows rs) m1 s3 H2). by destruct (vector_columns ctx d (rs_rows rs) m1 s3) as [[m2 s4] cols].
Qed.
End VectorKept.

(** ** Every call sends only that *)
Section Calls.
Context `{Sqlparser} `{SqlServer} `{GoPrint} `{JsonDecode} `{BackoffLaws} `{MySQLDriver}.
Variable te : tool_env.
Abbreviation cfg := (te_cfg te).
Abbreviation g := (te_globals te).
Hypothesis Hmax : (1 <= g_maxRows g)%Z.

(** The tools that have a switch of their own. *)
Definition switched_on (c : mcp_call) : Prop :=
  match c with
  | Shared (CallKillQuery _) => ExtendedMode cfg = true /\ ProcessAdmin cfg = true
  | Shared CallProcessList => ProcessAdmin cfg = true
  | Shared (CallSlowQueryLog _) => SlowQueryTool cfg = true
  | Shared (CallVectorSearch _) | Shared (CallVectorInfo _) | VectorInfoOf _ _ => VectorMode cfg = true
  | _ => True
  end.
Lemma registered_switched_on auditEnabled addConnection c :
  mcp_tool_name c ∈ buildMCPServer cfg auditEnabled addConnection -> switched_on c.
Proof.
  assert (Hno : forall name, name ∈ buildMCPServer cfg auditEnabled addConnection -> bool_decide (name ∈ buildMCPServer cfg auditEnabled addConnection) = true)
    by (intros name; apply bool_decide_eq_true_2).
  unfold buildMCPServer, registerExtendedTools in *. destruct c as [[]|d t|d t|p d|a b|n d i]; try done; intros Hin; apply Hno in Hin; revert Hin; cbn [switched_on];
    destruct (ExtendedMode cfg), (VectorMode cfg), (ProcessAdmin cfg), (SlowQueryTool cfg), (read_audit_ok cfg auditEnabled), addConnection;
    try done; vm_compute; discriminate.
Qed.

Variable s0 : server.
Abbreviation P := (sends cfg g s0).

Lemma fixed_kept : kept_by (fixed_text listing_texts listing_procs) P.
Proof. apply sends_kept. apply st_listing. Qed.
Lemma catalog_kept : kept_by catalog_text P.
Proof. apply sends_kept. apply st_catalog. Qed.
Lemma info_kept : kept_by info_text P.
Proof. apply sends_kept. apply st_info. Qed.

Lemma run_query_sends ctx db input s : P s -> P (fst (toolRunQuery g ctx db input s)).
Proof.
  intros Hs. destruct (check_query g input) as [[[[sqlText finalSQL] database] limit]|e] eqn:Hcheck.
  2: { unfold toolRunQuery. by rewrite Hcheck. }
  destruct (check_query_sound _ _ _ _ _ _ Hcheck) as (_ & _ & Hval & Href & Hdb & Htext).
  apply (toolRunQuery_preserves g P ctx db input sqlText finalSQL database limit); [done | | done]. apply sends_only; [done|].
  destruct Htext as [->|(n & [->|(offset & ->)])]; by constructor.
Qed.
Lemma explain_sends db input s : P s -> P (fst (toolExplainQuery g db input s)).
Proof.
  intros Hs. destruct (check_explain g input) as [[sqlText database]|e] eqn:Hcheck.
  2: { unfold toolExplainQuery. by rewrite Hcheck. }
  destruct (check_explain_sound _ _ _ _ Hcheck) as (_ & Hselect & Hval & Href & Hdb).
  assert (Hread : read_text g (explain_prefix (explain_format (ex_Format input)) ++ sqlText))
    by (apply rt_explain; [apply explain_prefix_cases | done | done]).
  apply (toolExplainQuery_preserves g P db input sqlText database); [done | by apply sends_only | | done].
  intros _ s1 Hs1. destruct db; [|done]. by eapply sends_step; [apply ex_query, st_read|].
Qed.
Lemma ping_sends ctx db s : P s -> P (fst (toolPing g ctx db s)).
Proof.
  intros Hs. unfold toolPing. apply (Do_preserves P); [intros s1; apply sends_ping | | done].
  intros p s1 [= <-]. apply sends_ping.
Qed.
Lemma vector_search_sends db input s : VectorMode cfg = true -> P s -> P (fst (toolVectorSearch g db input s)).
Proof.
  intros Hv Hs. unfold toolVectorSearch. destruct (vector_query g input) as [q|e] eqn:Hq; [|done].
  destruct (vector_query_parts g input q Hmax Hq) as (items & qd & qt & qc & vec & where_ & n & Hparts).
  assert (Hdb : P (fst (db_Query db q [] s))).
  { destruct db; [|done]. by eapply sends_step; [apply ex_query, (st_vector cfg g input q items qd qt qc vec where_ n)|]. }
  by destruct (db_Query db q [] s) as [s1 []].
Qed.
Lemma vector_info_sends ctx d t m s : VectorMode cfg = true -> P s -> P (snd (fst (toolVectorInfo g ctx d t m s))).
Proof.
  intros Hv. apply toolVectorInfo_kept; [|apply info_kept]. apply sends_kept. intros q args. by apply st_vector_info.
Qed.
Lemma slow_log_sends db n s : SlowQueryTool cfg = true -> P s -> P (fst (toolSlowQueryLog g db n s)).
Proof. intros Hsl. apply toolSlowQueryLog_kept, sends_kept. intros q args. by apply st_slow. Qed.
Lemma process_list_sends ctx m s : ProcessAdmin cfg = true -> P s -> P (snd (fst (toolProcessList ctx m s))).
Proof. intros Hp. apply toolProcessList_kept, sends_kept. intros q args. by apply st_process. Qed.
Lemma server_info_sends tm ctx detailed ping m s : P s -> P (fst (toolServerInfo tm ctx detailed ping m s)).
Proof. apply toolServerInfo_kept; [apply info_kept|]. intros p s1. apply sends_step, ex_ping. Qed.
Lemma search_sends ctx pattern d m s : P s -> P (snd (fst (toolSearchSchema g ctx pattern d m s))).
Proof.
  intros Hs. apply search_schema_is_bounded; [lia | | done]. apply sends_kept. intros q args. apply st_search.
Qed.

(** The server after a call. *)
Definition server_after {A} (r : served A) : server := snd (fst r).
Lemma on_manager_after {A} ctx w (r : ConnectionManager * server * A) : P (snd (fst r)) -> P (server_after (on_manager ctx w r)).
Proof. by destruct r as [[? ?] ?]. Qed.
Lemma on_server_after {A} ctx w (r : server * A) : P (fst r) -> P (server_after (on_server ctx w r)).
Proof. by destruct r. Qed.
(** The catalog tools are the calls of Catalog. *)
Lemma on_catalog {A} ctx w (r : answer A) (c : catalog_call) (f : A -> catalog_reply) s :
  run_catalog g c ctx (cm w) s = answer_map f r -> P s -> P (server_after (on_manager ctx w r)).
Proof.
  intros Hc Hs. apply on_manager_after. pose proof (run_catalog_kept P catalog_kept g c ctx (cm w) s Hs) as Hrun. rewrite Hc in Hrun.
  by destruct r as [[? ?] ?].
Qed.

Lemma run_shared_sends c e ctx w s : switched_on (Shared c) -> P s -> P (server_after (run_shared te c e ctx w s)).
Proof.
  intros Hon Hs. destruct c; cbn [run_shared switched_on] in *.
  - by apply on_manager_after, (toolListDatabases_kept g P fixed_kept).
  - by apply on_manager_after, (toolListTables_kept g P fixed_kept).
  - by apply on_manager_after, (toolDescribeTable_kept g P fixed_kept).
  - by apply on_server_after, run_query_sends.
  - pose proof (ping_sends (ce_deadline e) (getDB (cm w) ctx) s Hs) as Hp. by destruct (toolPing g _ _ s).
  - by apply on_server_after, server_info_sends.
  - done.
  - pose proof (toolUseConnection_kept P fixed_kept name (cm w) ctx s Hs) as Hu. by destruct (toolUseConnection name (cm w) ctx s) as [[[? ?] ?] ?].
  - by eapply (on_catalog _ _ _ (ListIndexes database table)).
  - by eapply (on_catalog _ _ _ (ShowCreateTable database table)).
  - by apply on_server_after, explain_sends.
  - by eapply (on_catalog _ _ _ (ListViews database)).
  - by eapply (on_catalog _ _ _ (ListTriggers database)).
  - by eapply (on_catalog _ _ _ (ListProcedures database)).
  - by eapply (on_catalog _ _ _ (ListFunctions database)).
  - by eapply (on_catalog _ _ _ (ListPartitions database table)).
  - by eapply (on_catalog _ _ _ (DatabaseSize database)).
  - by eapply (on_catalog _ _ _ (TableSize database [])).
  - by eapply (on_catalog _ _ _ (ForeignKeys database table)).
  - by eapply (on_catalog _ _ _ (ListStatus pattern)).
  - by eapply (on_catalog _ _ _ (ListVariables pattern)).
  - by apply on_manager_after, process_list_sends.
  - apply on_server_after, toolKillQuery_kept; [|done]. intros p s1 Hid. destruct Hon. by apply sends_step, ex_kill.
  - done.
  - by apply on_server_after, slow_log_sends.
  - by apply on_server_after, vector_search_sends.
  - by apply on_manager_after, vector_info_sends.
Qed.
Lemma run_tool_sends c e ctx w s : switched_on c -> P s -> P (server_after (run_tool te c e ctx w s)).
Proof.
  intros Hon Hs. destruct c as [c|d t|d t|pattern d|a b|name dsn desc]; cbn [run_tool].
  - by apply run_shared_sends.
  - by apply on_manager_after, vector_info_sends.
  - by eapply (on_catalog _ _ _ (TableSize d t)).
  - by apply on_manager_after, search_sends.
  - by apply on_server_after, (toolSchemaDiff_kept g P fixed_kept).
  - by destruct (toolAddConnection _ _ _ _ _ _ w _) as [[? ?] ?].
Qed.
End Calls.

(** ** What a call does to the connections *)
(** The same pools and tunnels under the same names. *)
Definition same_registrations (m m' : ConnectionManager) : Prop :=
  connections m' = connections m /\ configs m' = configs m /\ tunnelClosers m' = tunnelClosers m.
Lemma same_registrations_trans m1 m2 m3 : same_registrations m1 m2 -> same_registrations m2 m3 -> same_registrations m1 m3.
Proof. intros (H1 & H2 & H3) (H4 & H5 & H6). repeat split; congruence. Qed.

Section SameRegistrations.
Context `{SqlServer} `{GoPrint} (g : globals).

Lemma catalogRows_same ctx proc pa q a m s : same_registrations m (fst (fst (catalogRows ctx proc pa q a m s))).
Proof.
  unfold catalogRows. destruct (usesToolPack m ctx).
  2: by destruct (db_Query (getDB m ctx) q a s).
  destruct (db_Query (getDB m ctx) _ pa s) as [s1 r]. destruct (negb (packUnavailable _)); [done|].
  by destruct (db_Query _ q a s1).
Qed.
Lemma catalogRows_same_eq ctx proc pa q a m s m' s' r :
  catalogRows ctx proc pa q a m s = (m', s', r) -> same_registrations m m'.
Proof. intros Hrun. pose proof (catalogRows_same ctx proc pa q a m s) as Hs. by rewrite Hrun in Hs. Qed.
Lemma search_rows_same b ctx proc pa q a m s m' s' r :
  search_rows b ctx proc pa q a m s = (m', s', r) -> same_registrations m m'.
Proof.
  unfold search_rows. destruct b; [apply catalogRows_same_eq|]. destruct (db_Query _ q a s). by intros [= <- _ _].
Qed.
End SameRegistrations.

Lemma SetActiveFor_same m ctx name : same_registrations m (fst (fst (SetActiveFor m ctx name))).
Proof.
  unfold SetActiveFor, SetActive. destruct (ctx_session ctx); [by destruct (_ || _)|]. by destruct (negb (registered name m)).
Qed.

(** The manager that a tool answers is the one of its last catalog query. *)
Ltac same_manager :=
  repeat (case_match; simplify_eq/=);
  repeat match goal with
  | E : catalogRows _ _ _ _ _ _ _ = _ |- _ => apply catalogRows_same_eq in E
  | E : search_rows _ _ _ _ _ _ _ _ = _ |- _ => apply search_rows_same in E
  end; first [done | eassumption | eapply same_registrations_trans; eassumption].

Section SameTools.
Context `{SqlServer} `{GoPrint} (g : globals) (ctx : callctx).
Lemma toolListDatabases_same m s : same_registrations m (fst (fst (toolListDatabases g ctx m s))).
Proof. unfold toolListDatabases. same_manager. Qed.
Lemma toolListTables_same d m s : same_registrations m (fst (fst (toolListTables g ctx d m s))).
Proof. unfold toolListTables. same_manager. Qed.
Lemma toolDescribeTable_same d t m s : same_registrations m (fst (fst (toolDescribeTable g ctx d t m s))).
Proof. unfold toolDescribeTable. same_manager. Qed.
Lemma toolSearchSchema_same p d m s : same_registrations m (fst (fst (toolSearchSchema g ctx p d m s))).
Proof. unfold toolSearchSchema, refuse. same_manager. Qed.
Lemma toolProcessList_same m s : same_registrations m (fst (fst (toolProcessList ctx m s))).
Proof. unfold toolProcessList, refuse. same_manager. Qed.
Lemma run_catalog_same c m s : same_registrations m (fst (fst (run_catalog g c ctx m s))).
Proof.
  destruct c; cbn [run_catalog]; unfold answer_map, toolListIndexes, toolShowCreateTable, toolListViews, toolListTriggers, toolListProcedures,
    toolListFunctions, toolListPartitions, toolDatabaseSize, toolTableSize, toolForeignKeys, toolListStatus, toolListVariables,
    list_of_database, list_of_table, list_variables_with, list_catalog, refuse; same_manager.
Qed.
Lemma vector_columns_same d rows m s : same_registrations m (fst (fst (vector_columns ctx d rows m s))).
Proof.
  revert m s. induction rows as [|row rows IH]; intros m s; cbn [vector_columns]; [done|].
  destruct (scan_vector_column row) as [[[t c] ty]|]; [|apply IH].
  assert (H1 : same_registrations m (fst (fst (index_of_column ctx d t c m s)))) by (unfold index_of_column; same_manager).
  destruct (index_of_column ctx d t c m s) as [[m1 s1] [i ty']]. specialize (IH m1 s1).
  destruct (vector_columns ctx d rows m1 s1) as [[m2 s2] rest]. by eapply same_registrations_trans.
Qed.
Lemma toolVectorInfo_same d t m s : same_registrations m (fst (fst (toolVectorInfo g ctx d t m s))).
Proof.
  unfold toolVectorInfo, refuse. destruct (is_empty d); [done|]. destruct (requireAllowedDatabase _ d); [done|].
  destruct (QueryRow _ _ _ _ s) as [s1 [version|]]; [|done]. destruct (negb _); [done|].
  destruct (catalogRows _ _ _ _ _ m s1) as [[m1 s2] [rs|]] eqn:Hrows; apply catalogRows_same_eq in Hrows; [|done].
  pose proof (vector_columns_same d (rs_rows rs) m1 s2). destruct (vector_columns ctx d (rs_rows rs) m1 s2) as [[m2 s3] cols].
  by eapply same_registrations_trans.
Qed.
Lemma toolUseConnection_same name m s : same_registrations m (fst (fst (fst (toolUseConnection name m ctx s)))).
Proof.
  unfold toolUseConnection. destruct (is_empty name); [done|].
  pose proof (SetActiveFor_same m ctx name) as Hset.
  destruct (SetActiveFor m ctx name) as [[m1 ctx1] [e|]]; [done|]. by destruct (QueryRow _ _ _ _ s) as [s1 []].
Qed.
End SameTools.

Section Connections.
Context `{Sqlparser} `{SqlServer} `{GoPrint} `{JsonDecode} `{Backoff} `{Hdriver : DriverLaws}.
Variable te : tool_env.
Abbreviation cfg := (te_cfg te).
Abbreviation g := (te_globals te).

(** What is open is what is registered, and every pool has the deadlines and the mode of the
    configuration. *)
Definition connections_ok (w : world) : Prop := resources_ok ∅ w /\ pools_safe cfg (cm w).

Lemma connections_ok_cm m w : same_registrations (cm w) m -> connections_ok w -> connections_ok (with_cm m w).
Proof.
  intros (Hc & Hcfg & Ht) [Hres Hsafe]. split; [by apply resources_cm|]. intros n p. cbn. rewrite Hc, Hcfg. apply Hsafe.
Qed.
Lemma RemoveConnection_ok name w : connections_ok w -> connections_ok (fst (RemoveConnection name w)).
Proof.
  intros [Hres Hsafe]. split; [by apply RemoveConnection_resources|]. unfold RemoveConnection.
  destruct (negb (registered name (cm w))); [done | by apply teardown_safe].
Qed.
Lemma add_if_absent_ok conn io w :
  connections_ok w -> connections_ok (fst (AddConnectionIfAbsentWithPoolConfig (te_version te) conn cfg io w)).
Proof.
  intros [Hres Hsafe]. split; [|by apply add_if_absent_safe]. by apply (add_if_absent_effects (te_version te) conn cfg io w).
Qed.
Lemma add_process_wide_ok name dsn desc io pin w :
  connections_ok w -> connections_ok (fst (add_process_wide (te_version te) cfg name dsn desc io pin w)).
Proof.
  intros Hw. unfold add_process_wide. pose proof (add_if_absent_ok (runtime_config name dsn desc) io w Hw) as Hadd.
  destruct (AddConnectionIfAbsentWithPoolConfig _ _ _ io w) as [w1 [e|]]; [done|]. cbn [fst] in Hadd.
  pose proof (SetActiveFor_same (cm w1) {| ctx_session := None; ctx_pin := pin |} name) as Hset.
  destruct (SetActiveFor _ _ name) as [[m ctx] [e|]]; cbn [fst] in Hset; [|by apply connections_ok_cm].
  pose proof (RemoveConnection_ok name (with_cm m w1) (connections_ok_cm _ _ Hset Hadd)). by destruct (RemoveConnection name (with_cm m w1)).
Qed.
Lemma add_to_session_ok name dsn desc io w sc :
  connections_ok w -> connections_ok (fst (fst (add_to_session (te_version te) cfg name dsn desc io w sc))).
Proof.
  intros Hw. unfold add_to_session. destruct (MCPHTTPStateless cfg); [done|]. destruct (Has (cm w) name); [done|].
  destruct (reserve name sc) as [sc1 [key|e]]; [|done].
  pose proof (add_if_absent_ok (runtime_config key dsn desc) io w Hw) as Hadd.
  destruct (AddConnectionIfAbsentWithPoolConfig _ _ _ io w) as [w1 [e|]]; [done|]. cbn [fst] in Hadd.
  destruct (closed sc1); [by apply RemoveConnection_ok|].
  pose proof (SetActiveFor_same (cm w1) {| ctx_session := Some sc1; ctx_pin := None |} name) as Hset.
  destruct (SetActiveFor _ _ name) as [[m ctx] [e|]]; cbn [fst] in Hset; [|by apply connections_ok_cm].
  pose proof (RemoveConnection_ok key (with_cm m w1) (connections_ok_cm _ _ Hset Hadd)). by destruct (RemoveConnection key (with_cm m w1)).
Qed.
Lemma toolAddConnection_ok name dsn desc io w sc :
  connections_ok w -> connections_ok (fst (fst (toolAddConnection (te_version te) cfg name dsn desc io w sc))).
Proof.
  intros Hw. unfold toolAddConnection. destruct (check_add name dsn) as [[n d]|e]; [|done]. destruct sc as [sc|].
  - pose proof (add_to_session_ok n d desc io w sc Hw). by destruct (add_to_session _ _ n d desc io w sc) as [[? ?] ?].
  - pose proof (add_process_wide_ok n d desc io None w Hw). by destruct (add_process_wide _ _ n d desc io None w).
Qed.

(** The world after a call. *)
Definition world_after {A} (r : served A) : world := snd (fst (fst r)).
Lemma on_manager_ok {A} ctx w (r : ConnectionManager * server * A) :
  same_registrations (cm w) (fst (fst r)) -> connections_ok w -> connections_ok (world_after (on_manager ctx w r)).
Proof. destruct r as [[m s] a]. apply connections_ok_cm. Qed.
Lemma on_server_ok {A} ctx w (r : server * A) : connections_ok w -> connections_ok (world_after (on_server ctx w r)).
Proof. by destruct r. Qed.
Lemma on_catalog_ok {A} ctx w (r : answer A) (c : catalog_call) (f : A -> catalog_reply) s :
  run_catalog g c ctx (cm w) s = answer_map f r -> connections_ok w -> connections_ok (world_after (on_manager ctx w r)).
Proof.
  intros Hc. apply on_manager_ok. pose proof (run_catalog_same g ctx c (cm w) s) as Hrun. rewrite Hc in Hrun. by destruct r as [[? ?] ?].
Qed.

Lemma run_shared_ok c e ctx w s : connections_ok w -> connections_ok (world_after (run_shared te c e ctx w s)).
Proof.
  intros Hw. destruct c; cbn [run_shared].
  - apply on_manager_ok; [apply toolListDatabases_same | done].
  - apply on_manager_ok; [apply toolListTables_same | done].
  - apply on_manager_ok; [apply toolDescribeTable_same | done].
  - by apply on_server_ok.
  - by destruct (toolPing g _ _ s).
  - by apply on_server_ok.
  - done.
  - pose proof (toolUseConnection_same ctx name (cm w) s) as Hu. destruct (toolUseConnection name (cm w) ctx s) as [[[? ?] ?] ?].
    by apply connections_ok_cm.
  - by eapply (on_catalog_ok _ _ _ (ListIndexes database table)).
  - by eapply (on_catalog_ok _ _ _ (ShowCreateTable database table)).
  - by apply on_server_ok.
  - by eapply (on_catalog_ok _ _ _ (ListViews database)).
  - by eapply (on_catalog_ok _ _ _ (ListTriggers database)).
  - by eapply (on_catalog_ok _ _ _ (ListProcedures database)).
  - by eapply (on_catalog_ok _ _ _ (ListFunctions database)).
  - by eapply (on_catalog_ok _ _ _ (ListPartitions database table)).
  - by eapply (on_catalog_ok _ _ _ (DatabaseSize database)).
  - by eapply (on_catalog_ok _ _ _ (TableSize database [])).
  - by eapply (on_catalog_ok _ _ _ (ForeignKeys database table)).
  - by eapply (on_catalog_ok _ _ _ (ListStatus pattern)).
  - by eapply (on_catalog_ok _ _ _ (ListVariables pattern)).
  - apply on_manager_ok; [apply toolProcessList_same | done].
  - by apply on_server_ok.
  - done.
  - by apply on_server_ok.
  - by apply on_server_ok.
  - apply on_manager_ok; [apply toolVectorInfo_same | done].
Qed.
Lemma run_tool_ok c e ctx w s : connections_ok w -> connections_ok (world_after (run_tool te c e ctx w s)).
Proof.
  intros Hw. destruct c as [c|d t|d t|pattern d|a b|name dsn desc]; cbn [run_tool].
  - by apply run_shared_ok.
  - apply on_manager_ok; [apply toolVectorInfo_same | done].
  - by eapply (on_catalog_ok _ _ _ (TableSize d t)).
  - apply on_manager_ok; [apply toolSearchSchema_same | done].
  - by apply on_server_ok.
  - pose proof (toolAddConnection_ok name dsn desc (ce_io e) w (ctx_session ctx) Hw) as Hadd.
    by destruct (toolAddConnection _ _ _ _ _ _ w _) as [[? ?] ?].
Qed.
End Connections.

(** ** The clients of a running process *)
Inductive client_request := ToolRequest (c : mcp_call) | PromptRequest (p : prompt_request) | ResourceRequest (uri : gostr).

Section Serve.
Context `{Sqlparser} `{SqlServer} `{GoPrint} `{JsonDecode} `{BackoffLaws} `{ConfigIO} `{UrlLaws} `{Hdriver : DriverLaws}.
Variables version installSQL uninstallSQL : gostr.
Variable encode : payload -> gostr.
Variable quoted : gostr -> gostr.
Variables (healthStatus snapshot : gostr) (httpStatusPage mcpHandler : handler).
Variables (err_text : tool_error -> gostr) (goerr_text : goerr -> gostr).

(** The tools that a request can reach: those registered with the MCP server; over REST, a call
    passes its gates only when its tool is one of these (Main). *)
Definition accepts (e : env) (r : running) (req : client_request) : bool :=
  match r_serving r, req with
  | StreamableHTTP _ _ _ _ tools, ToolRequest c | Stdio _ tools, ToolRequest c => one_of (mcp_tool_name c) tools
  | RestAPI _ _, ToolRequest (Shared c) =>
      one_of (tool_name c) (buildMCPServer (r_cfg r) (enabled (r_auditLogger r)) (addConnectionEnabled e))
  | RestAPI _ _, _ => false
  | _, PromptRequest _ | _, ResourceRequest _ => true
  end.
Definition env_of (r : running) : tool_env :=
  {| te_cfg := r_cfg r; te_globals := r_globals r; te_audit := r_auditLogger r; te_version := version |}.

(** A request that arrives with a session's state (a document is read from the binary, see
    Resources), and the requests of a run in the order in
    which they are served. *)
Definition serve_request (e : env) (r : running) (q : client_request * call_env * callctx) (ws : world * server) : world * server :=
  let '(req, ce, ctx) := q in
  if accepts e r req then
    match req with
    | ToolRequest c => let out := run_tool (env_of r) c ce ctx (fst ws) (snd ws) in (world_after out, server_after out)
    | PromptRequest p => fst (run_prompt (env_of r) err_text goerr_text p ce ctx (fst ws) (snd ws))
    | ResourceRequest _ => ws
    end
  else ws.
Definition serve_requests (e : env) (r : running) (qs : list (client_request * call_env * callctx)) (ws : world * server) : world * server :=
  fold_left (fun ws q => serve_request e r q ws) qs ws.

Lemma accepts_switched_on s args c r w call :
  serves_loaded version encode quoted healthStatus snapshot httpStatusPage mcpHandler s args c r w ->
  accepts (environ s) r (ToolRequest call) = true -> switched_on (env_of r) call.
Proof.
  intros [_ _ _ _ Hcfg _ Hstart _] Hacc.
  apply (registered_switched_on (env_of r) (enabled (r_auditLogger r)) (addConnectionEnabled (environ s))). cbn [te_cfg env_of].
  unfold accepts in Hacc. unfold start_serving in Hstart. rewrite Hcfg in *.
  destruct (choose_server c).
  all: try (injection Hstart as Hsv; rewrite <- Hsv in Hacc; destruct call; try done; by apply one_of_elem).
  destruct (newMCPHTTPHandler _ _ _ _ _ _ _ _) as [serve|[o err]]; [|done]. injection Hstart as Hsv. rewrite <- Hsv in Hacc.
  by apply one_of_elem.
Qed.

(** The prompts keep what the tools keep: what is sent, and the connections. *)
Lemma prompt_tools_send r db0 ce ctx : (1 <= g_maxRows (r_globals r))%Z ->
  tools_keep (r_cfg r) (server_tools (r_globals r) ctx (ce_deadline ce) (ce_latency ce) (ce_ping ce) (ce_metrics ce))
    (fun ms => sends (r_cfg r) (r_globals r) db0 (snd ms)).
Proof.
  intros Hmax. pose (te := env_of r). pose (sent := sends (r_cfg r) (r_globals r) db0).
  assert (Hcat : forall c ctx m db, sends (r_cfg r) (r_globals r) db0 db ->
    sends (r_cfg r) (r_globals r) db0 (snd (fst (run_catalog (r_globals r) c ctx m db))))
    by (intros c ctx1 m db; apply run_catalog_kept, (catalog_kept te)).
  assert (Hmap : forall {X Y} (f : X -> Y) (a : answer X) (Q : server -> Prop), Q (snd (fst (answer_map f a))) -> Q (snd (fst a)))
    by (by intros X Y f [[? ?] ?] Q).
  split; intros; cbn in *.
  - by apply (ping_sends te).
  - by apply (server_info_sends te).
  - by apply (process_list_sends te).
  - by apply (slow_log_sends te).
  - by apply (toolListTables_kept (r_globals r) sent); [apply (fixed_kept te)|].
  - apply (Hmap _ _ Indexes _ sent). by apply (Hcat (ListIndexes d t)).
  - apply (Hmap _ _ ForeignKeyList _ sent). by apply (Hcat (ForeignKeys d [])).
  - by apply (explain_sends te).
  - done.
  - apply (Hmap _ _ Variables _ sent). by apply (Hcat (ListVariables [])).
Qed.
Lemma prompt_tools_same r m0 ce ctx :
  tools_keep (r_cfg r) (server_tools (r_globals r) ctx (ce_deadline ce) (ce_latency ce) (ce_ping ce) (ce_metrics ce))
    (fun ms => same_registrations m0 (fst ms)).
Proof.
  assert (Hmap : forall {X Y} (f : X -> Y) (a : answer X) m, same_registrations m (fst (fst (answer_map f a))) -> same_registrations m (fst (fst a)))
    by (by intros X Y f [[? ?] ?] m).
  split; intros; cbn in *; try done; eapply same_registrations_trans; try eassumption.
  - apply toolProcessList_same.
  - apply toolListTables_same.
  - apply (Hmap _ _ Indexes), (run_catalog_same (r_globals r) ctx (ListIndexes d t)).
  - apply (Hmap _ _ ForeignKeyList), (run_catalog_same (r_globals r) ctx (ForeignKeys d [])).
  - apply (Hmap _ _ Variables), (run_catalog_same (r_globals r) ctx (ListVariables [])).
Qed.
Lemma run_prompt_keeps r p ce ctx w db (Q : ConnectionManager * server -> Prop) :
  tools_keep (r_cfg r) (server_tools (r_globals r) ctx (ce_deadline ce) (ce_latency ce) (ce_ping ce) (ce_metrics ce)) Q -> Q (cm w, db) ->
  exists m db' a, run_prompt (env_of r) err_text goerr_text p ce ctx w db = (with_cm m w, db', a) /\ Q (m, db').
Proof.
  intros Hkeep HQ. unfold run_prompt. destruct p as [|d|q d|]; unfold always; cbn [te_globals te_cfg env_of].
  - pose proof (health_keeps (r_cfg r) err_text goerr_text _ Q Hkeep _ HQ) as Hm. destruct (promptHealthCheck _ _ _ (cm w, db)) as [[m db'] a]. by exists m, db', (Ok a).
  - pose proof (audit_keeps (r_cfg r) err_text _ Q Hkeep d _ HQ) as Hm. destruct (promptSchemaAudit _ d (cm w, db)) as [[m db'] a]. by exists m, db', a.
  - pose proof (advisor_keeps (r_cfg r) err_text _ Q Hkeep q d _ HQ) as Hm. destruct (promptQueryAdvisor _ q d (cm w, db)) as [[m db'] a]. by exists m, db', a.
  - pose proof (debug_keeps (r_cfg r) err_text goerr_text _ Q Hkeep _ HQ) as Hm. destruct (promptConnectionDebug _ _ (cm w, db)) as [[m db'] a]. by exists m, db', (Ok a).
Qed.

(** One request, in a process that main started. *)
Lemma serve_request_safe s args c r w0 db0 q ws :
  serves_loaded version encode quoted healthStatus snapshot httpStatusPage mcpHandler s args c r w0 ->
  connections_ok (env_of r) (fst ws) /\ sends (r_cfg r) (r_globals r) db0 (snd ws) ->
  let ws' := serve_request (environ s) r q ws in
  connections_ok (env_of r) (fst ws') /\ sends (r_cfg r) (r_globals r) db0 (snd ws').
Proof.
  intros Hserves [Hw Hs]. destruct q as [[req ce] ctx], ws as [w db]. cbn [serve_request fst snd] in *.
  pose proof Hserves as [Hload _ _ _ Hcfg Hglob _ _].
  assert (Hmax : (1 <= g_maxRows (r_globals r))%Z).
  { rewrite Hglob. cbn. destruct (loaded_config _ _ _ Hload) as (_ & Hlim & _). destruct Hlim. lia. }
  destruct (accepts (environ s) r req) eqn:Hacc; [|done]. destruct req as [call|p|uri]; [| |done].
  - split; [by apply run_tool_ok|]. apply (run_tool_sends (env_of r)); [exact Hmax | by eapply accepts_switched_on | exact Hs].
  - destruct (run_prompt_keeps r p ce ctx w db (fun ms => same_registrations (cm w) (fst ms) /\ sends (r_cfg r) (r_globals r) db0 (snd ms)))
      as (m & db' & a & -> & Hsame & Hsent); [|done|].
    + apply tools_keep_and; [by apply prompt_tools_same | by apply prompt_tools_send].
    + split; [by apply connections_ok_cm | done].
Qed.

(** C1: The clients of the process cannot make it send anything but checked traffic.
    Whatever the arguments, the environment, the files and the network, when main serves, it
    serves a configuration that Load returned, with the variables set from it; and whatever
    its clients then ask for, tools, prompts and documents, in whatever order, from whatever sessions, and
    whatever MySQL, the network and the audit file answer: each exchange with MySQL is a ping,
    a connection from a pool or its return, USE of a quoted database of the allowlist, a text
    that passed both validators and the allowlist (as it is, with a LIMIT, with a page, or a
    SELECT under EXPLAIN), a fixed statement with one argument per placeholder, a catalog
    statement on quoted names, and, only when that tool is switched on, the process list, the
    slow log, a vector search whose parts were checked, or KILL QUERY of a positive number;
    and at every moment the open pools and tunnels are the registered ones, each pool with the
    mode and the deadlines ([safe_pool]) of the connection recorded under its name: read-only
    in strict mode, and the timeouts of its DSN where they are positive or two seconds over the
    query timeout where it has none. *)
Theorem clients_get_only_checked_traffic (s : surroundings) (args : list gostr) (db : server) (r : running) (w : world)
    (qs : list (client_request * call_env * callctx))
    (Hrun : run_main version installSQL uninstallSQL encode quoted healthStatus snapshot httpStatusPage mcpHandler s args db = Serving r w) :
  let c := r_cfg r in
  let '(w', db') := serve_requests (environ s) r qs (w, db) in
  Load (configPath (parseArgs args)) (environ s) = Ok c /\
  r_globals r = set_globals c (initAccessControl (AllowedDatabases c)) /\
  sends c (r_globals r) db db' /\
  resources_ok ∅ w' /\ forall n p, connections (cm w') !! n = Some p -> exists conn, configs (cm w') !! n = Some conn /\ safe_pool c conn p.
Proof.
  pose proof (main_cases version installSQL uninstallSQL encode quoted healthStatus snapshot httpStatusPage mcpHandler s args db) as Hcases.
  rewrite Hrun in Hcases. destruct Hcases as [c Hserves]. pose proof Hserves as [Hload _ Hw _ Hcfg Hglob _ _]. cbv zeta.
  assert (Hok : connections_ok (env_of r) w).
  { destruct (loaded_started version _ _ c s Hload) as (Hres & _). pose proof (startup_pools_safe version c s) as Hsafe.
    rewrite <- Hw in *. split; [exact Hres|]. cbn. by rewrite Hcfg. }
  assert (Hall : connections_ok (env_of r) (fst (serve_requests (environ s) r qs (w, db))) /\
                 sends (r_cfg r) (r_globals r) db (snd (serve_requests (environ s) r qs (w, db)))).
  { unfold serve_requests. apply (fold_left_invariant (fun ws => connections_ok (env_of r) (fst ws) /\ sends (r_cfg r) (r_globals r) db (snd ws))).
    - split; [exact Hok | apply rtc_refl].
    - intros q ws _ Hws. by apply (serve_request_safe s args c r w db q ws Hserves). }
  destruct (serve_requests (environ s) r qs (w, db)) as [w' db'], Hall as [[Hres Hsafe] Hsent].
  split; [by rewrite Hcfg|]. split; [by rewrite Hcfg|]. split; [exact Hsent|]. split; [exact Hres | exact Hsafe].
Qed.
End Serve.

(** ** An example: a query, a KILL that is not switched on, and a prompt *)
Definition demo_ctx : callctx := {| ctx_session := None; ctx_pin := None |}.
Definition demo_call : @call_env no_wait :=
  {| ce_deadline := (tt : @context no_wait); ce_io := example_io None;
     ce_file := {| af_stat := Ok 0; af_open := None; af_seek := None; af_read := None; af_content := [] |};
     ce_latency := 1; ce_ping := 1; ce_metrics := None |}.
Definition demo_requests : list (client_request * @call_env no_wait * callctx) :=
  map (fun q => (q, demo_call, demo_ctx))
    [ToolRequest (Shared (CallRunQuery {| SQL := "DESCRIBE users"; in_MaxRows := None; Offset := None; Database := [] |}));
     ToolRequest (Shared (CallKillQuery 7)); PromptRequest HealthCheck].
Definition demo_served : world * @server log_server :=
  match demo_main with
  | Serving r w => @serve_requests one_table_parser log_server print_none example_decode no_wait plain_driver "1.0" (fun _ => []) (fun _ => [])
                     demo_env r demo_requests (w, [])
  | Exited _ w => (w, [])
  end.

Lemma clients_get_only_checked_traffic_witness :
  match demo_main with
  | Serving r w => @sends one_table_parser log_server (r_cfg r) (r_globals r) [] (snd demo_served) /\ resources_ok ∅ (fst demo_served)
  | Exited _ _ => False
  end /\
  (("DESCRIBE users" : gostr) ∈ snd demo_served) /\ forallb (fun q => negb (HasPrefix q "KILL")) (snd demo_served) = true.
Proof.
  split; [|split; [decide_true | vm_compute; reflexivity]]. unfold demo_served. destruct demo_main as [why w|r w] eqn:Hrun.
  - apply (f_equal (fun pr => match pr with Serving _ _ => true | _ => false end)) in Hrun. vm_compute in Hrun. discriminate Hrun.
  - pose proof (@clients_get_only_checked_traffic one_table_parser log_server print_none example_decode no_wait no_wait_laws no_files
      plain_url plain_url_laws plain_driver plain_driver_laws "1.0" "" "" write_payload (fun s => s) "ok" "{}" (fun _ w => w) (fun _ w => w)
      (fun _ => []) (fun _ => []) demo_surroundings ["--silent" : gostr] [] r w demo_requests Hrun) as Hs.
    cbv zeta in Hs. change (environ demo_surroundings) with demo_env in Hs. destruct (serve_requests _ _ _ _ _ _ _) as [w' db'].
    destruct Hs as (_ & _ & Hsent & Hres & _). split; [exact Hsent | exact Hres].
Defined.
